(** * Directory diagnostics: a shallow embedding of the TypeScript sources

    The development follows the layout of the repository:

    - [JsString]   JavaScript strings as sequences of UTF-16 code units,
                   with the few built-ins the sources call on them;
    - [Regex]      a backtracking matcher for the regular expressions
                   written in the runners, with capture groups, lazy and
                   greedy quantifiers and the [g]/[m] flags;
    - [Json]       JavaScript values as produced by [JSON.parse];
    - [Effects]    the calls into Node (file system, child processes, the
                   LSP client manager) as operations of a free monad;
    - [TscRunner], [GoRunner], [RustRunner], [Servers], [PythonRunner],
      [LspAggregator], [Index]: one module per source file;
    - [Scenario]   concrete platforms to run the programs against;
    - [Spec]       the notions the properties are stated with;
    - facts about the matcher, the programs and the parsers, the unit
      tests of the repository replayed, and the properties. *)

From Stdlib Require Import List Bool Arith NArith ZArith Lia.
From Stdlib Require Import Floats.SpecFloat.
From Stdlib Require String Ascii.
Import ListNotations String.StringSyntax.
Delimit Scope string_scope with string.

Set Implicit Arguments.
Set Warnings "-register-all,-abstract-large-number".

(* ------------------------------------------------------------------ *)
(** * JavaScript strings *)

Module JsString.

Local Open Scope N_scope.

(** A code unit of a JavaScript string (16 bits in the engine). *)
Definition cu := N.
Definition jsstr := list cu.

(** String literals of the sources are written with [str]. *)
Definition str (s : String.string) : jsstr :=
  map Ascii.N_of_ascii (String.list_ascii_of_string s).
Arguments str s%_string.

(** The same, with every apostrophe standing for a double quote:
    used to write JSON text. *)
Definition qstr (s : String.string) : jsstr :=
  map (fun c => if N.eqb c 39 then 34 else c) (str s).
Arguments qstr s%_string.

Fixpoint eqb (a b : jsstr) : bool :=
  match a, b with
  | [], [] => true
  | x :: a', y :: b' => N.eqb x y && eqb a' b'
  | _, _ => false
  end.

Definition in_range (lo hi c : cu) : bool := N.leb lo c && N.leb c hi.

(** ECMAScript LineTerminator: LF, CR, LS, PS. *)
Definition is_line_terminator (c : cu) : bool :=
  N.eqb c 10 || N.eqb c 13 || N.eqb c 8232 || N.eqb c 8233.

(** ECMAScript WhiteSpace together with LineTerminator: what [\s]
    matches and what [String.prototype.trim] strips. *)
Definition is_space (c : cu) : bool :=
  in_range 9 13 c || N.eqb c 32 || N.eqb c 160 || N.eqb c 5760
  || in_range 8192 8202 c || N.eqb c 8232 || N.eqb c 8233
  || N.eqb c 8239 || N.eqb c 8287 || N.eqb c 12288 || N.eqb c 65279.

Definition is_digit (c : cu) : bool := in_range 48 57 c.
Definition is_upper (c : cu) : bool := in_range 65 90 c.
Definition is_lower (c : cu) : bool := in_range 97 122 c.

Fixpoint trimStart (s : jsstr) : jsstr :=
  match s with
  | c :: t => if is_space c then trimStart t else s
  | [] => []
  end.

Definition trimEnd (s : jsstr) : jsstr := rev (trimStart (rev s)).

(** [s.trim()] *)
Definition trim (s : jsstr) : jsstr := trimEnd (trimStart s).

(** [s.split(sep)] for a one-character separator: never empty, the
    pieces in order. *)
Fixpoint split (sep : cu) (s : jsstr) : list jsstr :=
  match s with
  | [] => [[]]
  | c :: t =>
      if N.eqb c sep then [] :: split sep t
      else match split sep t with
           | piece :: more => (c :: piece) :: more
           | [] => [[c]]
           end
  end.

(** [s.startsWith(c)] for a one-character argument. *)
Definition startsWith (c : cu) (s : jsstr) : bool :=
  match s with x :: _ => N.eqb x c | [] => false end.

(** [s.includes(needle)], as a proposition. *)
Definition contains (s needle : jsstr) : Prop :=
  exists before after, s = before ++ needle ++ after.

(** Decimal rendering of a non-negative integer, as a template literal
    renders a count. *)
Fixpoint digits_of (fuel : nat) (n : N) (acc : jsstr) : jsstr :=
  match fuel with
  | O => acc
  | S f =>
      let acc' := (48 + N.modulo n 10) :: acc in
      if N.ltb n 10 then acc' else digits_of f (N.div n 10) acc'
  end.

Definition of_N (n : N) : jsstr := digits_of (S (N.to_nat (N.log2 n))) n [].
Definition of_nat (n : nat) : jsstr := of_N (N.of_nat n).

End JsString.
Import JsString.
Arguments str s%_string.
Arguments qstr s%_string.

(* ------------------------------------------------------------------ *)
(** * Regular expressions *)

Module Regex.

(** The fragment of the ECMAScript pattern language the sources use. *)
Inductive regex : Type :=
| REmpty
| RChar (c : cu)                      (* a literal character *)
| RClass (p : cu -> bool)             (* [.], [\d], [\s], [[...]] *)
| RSeq (a b : regex)
| RAlt (a b : regex)                  (* [a|b], left first *)
| RStar (greedy : bool) (a : regex)   (* [a*] and [a*?] *)
| RGroup (n : nat) (a : regex)        (* the n-th capturing group *)
| RBol (multiline : bool)             (* [^] *)
| REol (multiline : bool).            (* [$] *)

(** [a+] and [a+?] *)
Definition RPlus (greedy : bool) (a : regex) : regex :=
  RSeq a (RStar greedy a).

(** [(?:a)?]: one iteration first, then none. *)
Definition ROpt (a : regex) : regex := RAlt a REmpty.

Fixpoint rcat (l : list regex) : regex :=
  match l with
  | [] => REmpty
  | r :: l' => RSeq r (rcat l')
  end.

Definition lit (s : jsstr) : regex := rcat (map RChar s).

Definition dot : cu -> bool := fun c => negb (is_line_terminator c).

(** A matcher state: the character before the current position (none
    at the start of the input), the input still ahead, and the text
    captured so far by each group that took part. *)
Record mstate : Type := MState {
  prev : option cu;
  rest : jsstr;
  caps : list (nat * jsstr)
}.

Definition advance (c : cu) (t : jsstr) (s : mstate) : mstate :=
  MState (Some c) t (caps s).

(** The input consumed between two states of one run. *)
Definition captured (s s' : mstate) : jsstr :=
  firstn (length (rest s) - length (rest s')) (rest s).

Definition set_cap (n : nat) (v : jsstr) (s : mstate) : mstate :=
  MState (prev s) (rest s) ((n, v) :: caps s).

Fixpoint lookup (n : nat) (l : list (nat * jsstr)) : option jsstr :=
  match l with
  | [] => None
  | (m, v) :: l' => if Nat.eqb m n then Some v else lookup n l'
  end.

(** [match[n]]: [None] is JavaScript's [undefined]. *)
Definition group (n : nat) (s : mstate) : option jsstr := lookup n (caps s).

Definition at_bol (ml : bool) (s : mstate) : bool :=
  match prev s with
  | None => true
  | Some c => ml && is_line_terminator c
  end.

Definition at_eol (ml : bool) (s : mstate) : bool :=
  match rest s with
  | [] => true
  | c :: _ => ml && is_line_terminator c
  end.

Definition orelse (a b : option mstate) : option mstate :=
  match a with Some x => Some x | None => b end.

(** The quantifier loop.  An iteration that consumes nothing is
    rejected, as the engine does, so the input ahead bounds the number
    of iterations. *)
Fixpoint star_loop (ma : (mstate -> option mstate) -> mstate -> option mstate)
         (greedy : bool) (k : mstate -> option mstate)
         (fuel : nat) (s : mstate) : option mstate :=
  match fuel with
  | O => k s
  | S f =>
      let again :=
        ma (fun s' =>
              if Nat.ltb (length (rest s')) (length (rest s))
              then star_loop ma greedy k f s' else None) s in
      if greedy then orelse again (k s) else orelse (k s) again
  end.

(** Backtracking matcher in continuation-passing style: [rmatch r k s]
    tries the ways [r] can match at [s], in the engine's order, and
    returns the first one the continuation [k] accepts. *)
Fixpoint rmatch (r : regex) (k : mstate -> option mstate) (s : mstate)
  : option mstate :=
  match r with
  | REmpty => k s
  | RChar c =>
      match rest s with
      | x :: t => if N.eqb x c then k (advance x t s) else None
      | [] => None
      end
  | RClass p =>
      match rest s with
      | x :: t => if p x then k (advance x t s) else None
      | [] => None
      end
  | RSeq a b => rmatch a (rmatch b k) s
  | RAlt a b => orelse (rmatch a k s) (rmatch b k s)
  | RStar g a => star_loop (rmatch a) g k (length (rest s)) s
  | RGroup n a => rmatch a (fun s' => k (set_cap n (captured s s') s')) s
  | RBol ml => if at_bol ml s then k s else None
  | REol ml => if at_eol ml s then k s else None
  end.

(** [regex.exec] from a position: the first position at or after it
    where the pattern matches, with the captures of that match. *)
Fixpoint exec_from (r : regex) (p : option cu) (input : jsstr)
  : option mstate :=
  match rmatch r Some (MState p input []) with
  | Some m => Some m
  | None =>
      match input with
      | [] => None
      | c :: t => exec_from r (Some c) t
      end
  end.

(** [while ((match = regex.exec(output)) !== null)] with the [g] flag:
    each search resumes where the previous match ended.  None of the
    patterns below matches the empty string, so every round consumes
    input and the length of the input bounds the number of rounds. *)
Fixpoint exec_loop (fuel : nat) (r : regex) (p : option cu) (input : jsstr)
  : list mstate :=
  match fuel with
  | O => []
  | S f =>
      match exec_from r p input with
      | None => []
      | Some m => m :: exec_loop f r (prev m) (rest m)
      end
  end.

Definition exec_all (r : regex) (input : jsstr) : list mstate :=
  exec_loop (S (length input)) r None input.

(** [regex.test(input)] without the [g] flag. *)
Definition test (r : regex) (input : jsstr) : bool :=
  match exec_from r None input with Some _ => true | None => false end.

(** ** What a match is

    [rsem r s s']: the pattern [r] can take the matcher from [s] to
    [s'].  The relation says which matches exist; [rmatch] picks one of
    them. *)
Inductive rsem : regex -> mstate -> mstate -> Prop :=
| sem_empty s : rsem REmpty s s
| sem_char c t s :
    rest s = c :: t -> rsem (RChar c) s (advance c t s)
| sem_class (p : cu -> bool) c t s :
    rest s = c :: t -> p c = true -> rsem (RClass p) s (advance c t s)
| sem_seq a b s1 s2 s3 :
    rsem a s1 s2 -> rsem b s2 s3 -> rsem (RSeq a b) s1 s3
| sem_alt_l a b s s' : rsem a s s' -> rsem (RAlt a b) s s'
| sem_alt_r a b s s' : rsem b s s' -> rsem (RAlt a b) s s'
| sem_star_done g a s : rsem (RStar g a) s s
| sem_star_step g a s1 s2 s3 :
    rsem a s1 s2 -> length (rest s2) < length (rest s1) ->
    rsem (RStar g a) s2 s3 -> rsem (RStar g a) s1 s3
| sem_group n a s s' :
    rsem a s s' -> rsem (RGroup n a) s (set_cap n (captured s s') s')
| sem_bol ml s : at_bol ml s = true -> rsem (RBol ml) s s
| sem_eol ml s : at_eol ml s = true -> rsem (REol ml) s s.

(** The capturing groups of a pattern. *)
Fixpoint groups (r : regex) : list nat :=
  match r with
  | RSeq a b | RAlt a b => groups a ++ groups b
  | RStar _ a => groups a
  | RGroup n a => n :: groups a
  | _ => []
  end.

(** A pattern every match of which consumes input. *)
Fixpoint consuming (r : regex) : bool :=
  match r with
  | RChar _ | RClass _ => true
  | RSeq a b => consuming a || consuming b
  | RAlt a b => consuming a && consuming b
  | RGroup _ a => consuming a
  | _ => false
  end.

(** A matcher is sound for a pattern when whatever it returns went
    through a match of the pattern, and extensional when it only looks at
    what its continuation answers. *)
Definition sound_at (a : regex)
           (ma : (mstate -> option mstate) -> mstate -> option mstate)
  : Prop :=
  forall k s x, ma k s = Some x -> exists s', rsem a s s' /\ k s' = Some x.

Definition ext_at
           (ma : (mstate -> option mstate) -> mstate -> option mstate)
  : Prop :=
  forall k1 k2, (forall s, k1 s = k2 s) -> forall s, ma k1 s = ma k2 s.

(** The groups that take part in every match of a pattern. *)
Fixpoint sure_groups (r : regex) : list nat :=
  match r with
  | RSeq a b => sure_groups a ++ sure_groups b
  | RGroup n a => n :: sure_groups a
  | _ => []
  end.

(** The character before the position reached after [pre], in a search
    that began with [p] before the input. *)
Definition before (p : option cu) (pre : jsstr) : option cu :=
  match rev pre with
  | [] => p
  | c :: _ => Some c
  end.

End Regex.
Import Regex.

(* ------------------------------------------------------------------ *)
(** * JavaScript values and [JSON.parse] *)

Module Json.

(** A Number is a value of the IEEE 754 binary64 format, as the
    Standard Library specifies it: a signed zero, a signed infinity,
    [NaN], or [S754_finite s m e] for [(-1)^s * m * 2^e].  The roundings
    below return the canonical term of a number, so two results are the
    same number exactly when they are the same term. *)
Definition number : Type := spec_float.

Abbreviation NaN := S754_nan.

(** The Number for the integer [z]: [z] itself up to [2^53], beyond
    that the nearest number of the format, ties to even, and an
    infinity from [2^1024 - 2^970] on. *)
Definition of_Z (z : Z) : number := binary_normalize 53 1024 z 0 false.

(** A non-negative integer as an exact operand of a rounding. *)
Definition operand (negative : bool) (m : Z) : number :=
  match m with
  | Z.pos p => S754_finite negative p 0
  | _ => S754_zero negative
  end.

(** The Number for the decimal [(-1)^negative * m * 10^e], [0 <= m]:
    the exact value rounded once to the format, to nearest, ties to
    even.  So the value underflows to a zero and overflows to an
    infinity, and a zero keeps its sign.  This is how Node's engine
    reads a decimal literal of any length. *)
Definition of_decimal (negative : bool) (m e : Z) : number :=
  if (0 <=? e)%Z
  then binary_normalize 53 1024
         ((if negative then - m else m) * 10 ^ e)%Z 0 negative
  else SFdiv 53 1024 (operand negative m) (operand false (10 ^ (- e))%Z).

Inductive value : Type :=
| VUndef
| VNull
| VBool (b : bool)
| VNum (n : number)
| VStr (s : jsstr)
| VArr (elems : list value)
| VObj (fields : list (jsstr * value)).

Inductive exn : Type :=
| TypeError
| SystemError.

(** What a call does: it returns, or it throws. *)
Inductive outcome (A : Type) : Type :=
| Returned (a : A)
| Thrown (e : exn).
Arguments Thrown {A} e.

Definition obind {A B} (o : outcome A) (f : A -> outcome B) : outcome B :=
  match o with
  | Returned a => f a
  | Thrown e => Thrown e
  end.

Definition omap {A B} (f : A -> B) (o : outcome A) : outcome B :=
  obind o (fun a => Returned (f a)).

(** A loop whose body can throw: the first throw ends it. *)
Fixpoint ofold {A B} (step : B -> A -> outcome B) (l : list A) (acc : B)
  : outcome B :=
  match l with
  | [] => Returned acc
  | x :: more => obind (step acc x) (ofold step more)
  end.

Fixpoint oeach {A B} (f : A -> outcome B) (l : list A) : outcome (list B) :=
  match l with
  | [] => Returned []
  | x :: more =>
      obind (f x) (fun y =>
      obind (oeach f more) (fun ys => Returned (y :: ys)))
  end.

(** ToBoolean *)
Definition truthy (v : value) : bool :=
  match v with
  | VUndef | VNull => false
  | VBool b => b
  | VNum (S754_zero _) | VNum NaN => false
  | VNum _ => true
  | VStr s => match s with [] => false | _ => true end
  | VArr _ | VObj _ => true
  end.

(** [v === 'literal'] *)
Definition is_string (v : value) (s : jsstr) : bool :=
  match v with
  | VStr x => JsString.eqb x s
  | _ => false
  end.

(** Own property of a parsed object; a repeated key keeps its last
    value. *)
Fixpoint own_prop (key : jsstr) (fields : list (jsstr * value)) : value :=
  match fields with
  | [] => VUndef
  | (k, v) :: more =>
      match own_prop key more with
      | VUndef => if JsString.eqb k key then v else VUndef
      | later => later
      end
  end.

(** [v.key], for the property names the sources read ([reason],
    [message], [level], [spans], [code], [is_primary], [file_name],
    [line_start], [column_start]): none of them is defined on a
    built-in prototype, so only an object's own fields answer; reading
    a property of [null] or [undefined] throws. *)
Definition get_prop (v : value) (key : jsstr) : outcome value :=
  match v with
  | VUndef | VNull => Thrown TypeError
  | VObj fields => Returned (own_prop key fields)
  | _ => Returned VUndef
  end.

(** ** The JSON grammar *)

Local Open Scope N_scope.

Definition is_json_ws (c : cu) : bool :=
  N.eqb c 32 || N.eqb c 9 || N.eqb c 10 || N.eqb c 13.

Fixpoint skip_ws (s : jsstr) : jsstr :=
  match s with
  | c :: t => if is_json_ws c then skip_ws t else s
  | [] => []
  end.

Definition hex_val (c : cu) : option N :=
  if in_range 48 57 c then Some (c - 48)
  else if in_range 97 102 c then Some (c - 87)
  else if in_range 65 70 c then Some (c - 55)
  else None.

Definition hex4 (a b c d : cu) : option cu :=
  match hex_val a, hex_val b, hex_val c, hex_val d with
  | Some x, Some y, Some z, Some w => Some (((x * 16 + y) * 16 + z) * 16 + w)
  | _, _, _, _ => None
  end.

(** The characters of a string literal after its opening quote. *)
Fixpoint parse_chars (s : jsstr) (acc : jsstr) : option (jsstr * jsstr) :=
  match s with
  | [] => None
  | 34 :: t => Some (rev acc, t)
  | 92 :: t =>
      match t with
      | 34 :: t' => parse_chars t' (34 :: acc)
      | 92 :: t' => parse_chars t' (92 :: acc)
      | 47 :: t' => parse_chars t' (47 :: acc)
      | 98 :: t' => parse_chars t' (8 :: acc)
      | 102 :: t' => parse_chars t' (12 :: acc)
      | 110 :: t' => parse_chars t' (10 :: acc)
      | 114 :: t' => parse_chars t' (13 :: acc)
      | 116 :: t' => parse_chars t' (9 :: acc)
      | 117 :: a :: b :: c :: d :: t' =>
          match hex4 a b c d with
          | Some u => parse_chars t' (u :: acc)
          | None => None
          end
      | _ => None
      end
  | c :: t => if N.ltb c 32 then None else parse_chars t (c :: acc)
  end.

Fixpoint take_digits (s : jsstr) (acc : list cu) : list cu * jsstr :=
  match s with
  | c :: t => if is_digit c then take_digits t (c :: acc) else (rev acc, s)
  | [] => (rev acc, [])
  end.

Definition digits_value (ds : list cu) : Z :=
  fold_left (fun a c => (a * 10 + Z.of_N (c - 48))%Z) ds 0%Z.

(** [-? int frac? exp?] *)
Definition parse_number (s : jsstr) : option (value * jsstr) :=
  let '(neg, s1) := match s with 45 :: t => (true, t) | _ => (false, s) end in
  let '(ip, s2) := take_digits s1 [] in
  match ip with
  | [] => None
  | d0 :: more =>
      if N.eqb d0 48 && negb (match more with [] => true | _ => false end)
      then None
      else
        let frac :=
          match s2 with
          | 46 :: t =>
              let '(fp, s3) := take_digits t [] in
              match fp with [] => None | _ => Some (fp, s3) end
          | _ => Some ([], s2)
          end in
        match frac with
        | None => None
        | Some (fp, s3) =>
            let ex :=
              match s3 with
              | 101 :: t | 69 :: t =>
                  let '(eneg, t1) :=
                    match t with
                    | 45 :: u => (true, u)
                    | 43 :: u => (false, u)
                    | _ => (false, t)
                    end in
                  let '(ep, s4) := take_digits t1 [] in
                  match ep with
                  | [] => None
                  | _ => Some ((if eneg then - digits_value ep
                                else digits_value ep)%Z, s4)
                  end
              | _ => Some (0%Z, s3)
              end in
            match ex with
            | None => None
            | Some (e, s4) =>
                let m := digits_value (ip ++ fp) in
                Some (VNum (of_decimal neg m (e - Z.of_nat (length fp))%Z),
                      s4)
            end
        end
  end.

Fixpoint strip_prefix (pre s : jsstr) : option jsstr :=
  match pre, s with
  | [], _ => Some s
  | p :: pre', c :: t => if N.eqb p c then strip_prefix pre' t else None
  | _ :: _, [] => None
  end.

(** Recursive descent.  Every second call in a chain consumes a
    character first, so twice the length of the text plus two bounds
    the depth; [JSON_parse] starts from there. *)
Fixpoint parse_value (fuel : nat) (s : jsstr) : option (value * jsstr) :=
  match fuel with
  | O => None
  | S f =>
      match skip_ws s with
      | 123 :: t =>
          match skip_ws t with
          | 125 :: t' => Some (VObj [], t')
          | _ => parse_members f t []
          end
      | 91 :: t =>
          match skip_ws t with
          | 93 :: t' => Some (VArr [], t')
          | _ => parse_elements f t []
          end
      | 34 :: t =>
          match parse_chars t [] with
          | Some (x, t') => Some (VStr x, t')
          | None => None
          end
      | (116 :: _) as s' =>
          option_map (fun t => (VBool true, t)) (strip_prefix (str "true") s')
      | (102 :: _) as s' =>
          option_map (fun t => (VBool false, t)) (strip_prefix (str "false") s')
      | (110 :: _) as s' =>
          option_map (fun t => (VNull, t)) (strip_prefix (str "null") s')
      | s' => parse_number s'
      end
  end

with parse_elements (fuel : nat) (s : jsstr) (acc : list value)
  : option (value * jsstr) :=
  match fuel with
  | O => None
  | S f =>
      match parse_value f s with
      | Some (v, t) =>
          match skip_ws t with
          | 44 :: t' => parse_elements f t' (v :: acc)
          | 93 :: t' => Some (VArr (rev (v :: acc)), t')
          | _ => None
          end
      | None => None
      end
  end

with parse_members (fuel : nat) (s : jsstr) (acc : list (jsstr * value))
  : option (value * jsstr) :=
  match fuel with
  | O => None
  | S f =>
      match skip_ws s with
      | 34 :: t =>
          match parse_chars t [] with
          | Some (key, t1) =>
              match skip_ws t1 with
              | 58 :: t2 =>
                  match parse_value f t2 with
                  | Some (v, t3) =>
                      match skip_ws t3 with
                      | 44 :: t4 => parse_members f t4 ((key, v) :: acc)
                      | 125 :: t4 => Some (VObj (rev ((key, v) :: acc)), t4)
                      | _ => None
                      end
                  | None => None
                  end
              | _ => None
              end
          | None => None
          end
      | _ => None
      end
  end.

(** [JSON.parse(text)]; [None] stands for the [SyntaxError]. *)
Definition JSON_parse (text : jsstr) : option value :=
  match parse_value (2 * length text + 2) text with
  | Some (v, t) => match skip_ws t with [] => Some v | _ => None end
  | None => None
  end.

End Json.
Import Json.

(* ------------------------------------------------------------------ *)
(** * The calls into the platform *)

Module Effects.

(** What [fs.statSync] tells about a path. *)
Record Stats : Type := { isDirectory : bool; isFile : bool }.

Inductive Stdio : Type := StdioPipes | StdioIgnore.

(** The options object handed to [execFileSync]. *)
Record ExecOptions : Type := {
  cwd : option jsstr;
  encoding : option jsstr;
  stdio : Stdio;
  timeout : N
}.

(** The error [execFileSync] throws: [code] is set when the process
    could not be spawned or was timed out ([ENOENT], [ETIMEDOUT]); a
    stream that was not collected is [None]. *)
Record ExecError : Type := {
  code : option jsstr;
  stdout : option jsstr;
  stderr : option jsstr
}.

Inductive ExecResult : Type :=
| ExitedZero (out : jsstr)
| ExecThrew (error : ExecError).

(** A session of the LSP client manager. *)
Definition Client := N.

(** The [Diagnostic] of [../lsp/index.js], which is not among the
    sources; the fields are those the manager's interface lists.  A
    diagnostic published without a severity has [None]. *)
Record Diagnostic : Type := {
  lsp_line : N;
  lsp_column : N;
  lsp_message : jsstr;
  lsp_severity : option Z;
  lsp_code : option jsstr
}.

(** One constructor per call that leaves the program.  A call that can
    throw answers [None] when it does. *)
Inductive Op : Type -> Type :=
| ExistsSync (path : jsstr) : Op bool
| StatSync (path : jsstr) : Op (option Stats)
| RealpathSync (path : jsstr) : Op (option jsstr)
| ReaddirSync (path : jsstr) : Op (option (list jsstr))
| ExecFileSync (file : jsstr) (args : list jsstr) (opts : ExecOptions)
  : Op ExecResult
| GetClientForFile (file : jsstr) : Op (option (option Client))
| OpenDocument (client : Client) (file : jsstr) : Op (option unit)
| SetTimeout (ms : N) : Op unit
| GetDiagnostics (client : Client) (file : jsstr)
  : Op (option (list Diagnostic)).

(** Programs: return, throw, or perform a call and go on with its
    answer. *)
Inductive Prog (A : Type) : Type :=
| Ret (a : A)
| Throw (e : exn)
| Do (X : Type) (op : Op X) (k : X -> Prog A).
Arguments Throw {A} e.
Arguments Do {A X} op k.

Fixpoint bind {A B} (p : Prog A) (f : A -> Prog B) : Prog B :=
  match p with
  | Ret a => f a
  | Throw e => Throw e
  | Do op k => Do op (fun x => bind (k x) f)
  end.

Definition call {X} (op : Op X) : Prog X := Do op (fun x => Ret x).

Definition lift {A} (o : outcome A) : Prog A :=
  match o with
  | Returned a => Ret a
  | Thrown e => Throw e
  end.

(** One call together with the answer it got. *)
Inductive interaction : Type :=
| Interact (X : Type) (op : Op X) (answer : X).

(** The platform: it answers each call from its current state [W] and
    moves to a new one. *)
Definition handler (W : Type) : Type := forall X, Op X -> W -> X * W.

(** Running a program against a platform gives what the program did,
    the calls it made in order, and the platform's final state. *)
Fixpoint run {W A} (h : handler W) (p : Prog A) (w : W)
  : outcome A * list interaction * W :=
  match p with
  | Ret a => (Returned a, [], w)
  | Throw e => (Thrown e, [], w)
  | Do op k =>
      let '(x, w1) := h _ op w in
      let '(o, t, w2) := run h (k x) w1 in
      (o, Interact op x :: t, w2)
  end.

Definition result_of {W A} (r : outcome A * list interaction * W)
  : outcome A := fst (fst r).
Definition trace_of {W A} (r : outcome A * list interaction * W)
  : list interaction := snd (fst r).

Definition answer {W X} (h : handler W) (op : Op X) (w : W) : X :=
  fst (h _ op w).
Definition after {W X} (h : handler W) (op : Op X) (w : W) : W :=
  snd (h _ op w).

(** Whether an interaction started a child process; whether it belongs
    to the LSP path (the manager, or the listing of a directory). *)
Definition is_exec (i : interaction) : bool :=
  match i with
  | Interact (ExecFileSync _ _ _) _ => true
  | _ => false
  end.

Definition is_lsp (i : interaction) : bool :=
  match i with
  | Interact (GetClientForFile _) _
  | Interact (OpenDocument _ _) _
  | Interact (GetDiagnostics _ _) _
  | Interact (ReaddirSync _) _ => true
  | _ => false
  end.

(** The built-ins of Node and of the language that the sources call
    and that are pure: they are parameters of the development. *)
Record Node : Type := {
  join : jsstr -> jsstr -> jsstr;         (* path.join(a, b) *)
  extname : jsstr -> jsstr;               (* path.extname(p) *)
  platform : jsstr;                       (* process.platform *)
  NumberToString : number -> jsstr;       (* Number::toString(x, 10) *)
  stack_limit : nat                       (* depth at which a call overflows *)
}.

(** Whether a decoded object has an own property of that name. *)
Definition has_own (key : jsstr) (fields : list (jsstr * value)) : bool :=
  existsb (fun kv => JsString.eqb (fst kv) key) fields.

(** [Array.prototype.join] with its default separator, over the
    conversion of an element: a [null] or [undefined] element gives the
    empty text. *)
Definition join_elements (convert : value -> outcome jsstr)
  : list value -> outcome jsstr :=
  fix join_all (l : list value) : outcome jsstr :=
    match l with
    | [] => Returned []
    | x :: more =>
        obind (match x with
               | VUndef | VNull => Returned []
               | _ => convert x
               end) (fun first =>
        match more with
        | [] => Returned first
        | _ =>
            obind (join_all more) (fun others =>
            Returned (first ++ str "," ++ others))
        end)
    end.

(** ToString, as a template literal applies it to a value that a
    parser filled in or that [JSON.parse] built.  A primitive has its
    text.  An array is joined.  An object is converted by the
    [toString] it finds: [Object.prototype.toString], which answers
    [[object Object]], unless the object has an own property
    [toString]; a decoded value is never callable, so such a property is
    passed over, [valueOf] gives back the object or is passed over
    likewise, and the conversion throws a [TypeError]. *)
Fixpoint ToString (node : Node) (v : value) : outcome jsstr :=
  match v with
  | VUndef => Returned (str "undefined")
  | VNull => Returned (str "null")
  | VBool b => Returned (if b then str "true" else str "false")
  | VNum n => Returned (NumberToString node n)
  | VStr s => Returned s
  | VArr elems => join_elements (ToString node) elems
  | VObj fields =>
      if has_own (str "toString") fields then Thrown TypeError
      else Returned (str "[object Object]")
  end.

(** [a || b] on strings that may be missing. *)
Definition or_str (a : option jsstr) (b : jsstr) : jsstr :=
  match a with
  | Some (c :: t) => c :: t
  | _ => b
  end.

Definition is_empty (s : jsstr) : bool :=
  match s with [] => true | _ => false end.

(** [error.code === 'ENOENT'] *)
Definition code_is (e : ExecError) (c : jsstr) : bool :=
  match code e with
  | Some x => JsString.eqb x c
  | None => false
  end.

(** [parseInt(s, 10)]: the Number for the integer the digits write,
    so a long run of digits is rounded, or is an infinity; [-0] is the
    negative zero. *)
Definition parseInt10 (s : jsstr) : number :=
  let s1 := trimStart s in
  let '(neg, s2) :=
    match s1 with
    | 45%N :: t => (true, t)
    | 43%N :: t => (false, t)
    | _ => (false, s1)
    end in
  match fst (take_digits s2 []) with
  | [] => NaN
  | ds =>
      binary_normalize 53 1024
        (if neg then - digits_value ds else digits_value ds) 0 neg
  end.

(** [match[n]] read as a string.  Every group the parsers read this
    way takes part in each match of its pattern; the one optional
    group is read through [group] itself. *)
Definition group_text (n : nat) (m : mstate) : jsstr :=
  match group n m with
  | Some s => s
  | None => []
  end.

End Effects.
Import Effects.

Notation "x <- p ;; q" := (bind p (fun x => q))
  (at level 61, p at next level, right associativity).

(** [constants.ts] *)
Definition EXTERNAL_PROCESS_TIMEOUT_MS : N := 300000.
Definition LSP_DIAGNOSTICS_WAIT_MS : N := 300.

Definition pipe_options (directory : jsstr) : ExecOptions :=
  {| cwd := Some directory; encoding := Some (str "utf-8");
     stdio := StdioPipes; timeout := EXTERNAL_PROCESS_TIMEOUT_MS |}.

(* ------------------------------------------------------------------ *)
(** * [tsc-runner.ts] *)

Module TscRunner.

Record TscDiagnostic : Type := {
  file : jsstr;
  line : number;
  column : number;
  code : jsstr;
  message : jsstr;
  severity : jsstr
}.

Record TscResult : Type := {
  success : bool;
  diagnostics : list TscDiagnostic;
  errorCount : nat;
  warningCount : nat;
  skipped : option jsstr
}.

(** [/^(.+)\((\d+),(\d+)\):\s+(error|warning)\s+(TS\d+):\s+(.+)$/gm] *)
Definition regex : Regex.regex :=
  rcat [RBol true;
        RGroup 1 (RPlus true (RClass dot));
        RChar 40;
        RGroup 2 (RPlus true (RClass is_digit));
        RChar 44;
        RGroup 3 (RPlus true (RClass is_digit));
        RChar 41; RChar 58;
        RPlus true (RClass is_space);
        RGroup 4 (RAlt (lit (str "error")) (lit (str "warning")));
        RPlus true (RClass is_space);
        RGroup 5 (rcat [lit (str "TS"); RPlus true (RClass is_digit)]);
        RChar 58;
        RPlus true (RClass is_space);
        RGroup 6 (RPlus true (RClass dot));
        REol true]%N.

Definition diagnostic_of_match (m : mstate) : TscDiagnostic :=
  {| file := group_text 1 m;
     line := parseInt10 (group_text 2 m);
     column := parseInt10 (group_text 3 m);
     severity := group_text 4 m;
     code := group_text 5 m;
     message := group_text 6 m |}.

Definition parseTscOutput (output : jsstr) : TscResult :=
  let diagnostics := map diagnostic_of_match (exec_all regex output) in
  let errorCount :=
    length (filter (fun d => JsString.eqb (severity d) (str "error"))
                   diagnostics) in
  let warningCount :=
    length (filter (fun d => JsString.eqb (severity d) (str "warning"))
                   diagnostics) in
  {| success := Nat.eqb errorCount 0;
     diagnostics := diagnostics;
     errorCount := errorCount;
     warningCount := warningCount;
     skipped := None |}.

Definition crash : TscDiagnostic :=
  {| file := str ".";
     line := of_Z 0;
     column := of_Z 0;
     code := str "tsc-crash";
     message := str "tsc exited with errors but produced no diagnostic output (possible configuration issue)";
     severity := str "error" |}.

Section WithNode.
Variable node : Node.

Definition runTscDiagnostics (directory : jsstr) : Prog TscResult :=
  let tsconfigPath := join node directory (str "tsconfig.json") in
  present <- call (ExistsSync tsconfigPath) ;;
  if negb present then
    Ret {| success := true; diagnostics := [];
           errorCount := 0; warningCount := 0;
           skipped := Some (str "no tsconfig.json found in directory") |}
  else
    r <- call (ExecFileSync (str "tsc")
                 [str "--noEmit"; str "--pretty"; str "false"]
                 (pipe_options directory)) ;;
    match r with
    | ExitedZero _ =>
        Ret {| success := true; diagnostics := [];
               errorCount := 0; warningCount := 0; skipped := None |}
    | ExecThrew error =>
        if code_is error (str "ENOENT") then
          Ret {| success := true; diagnostics := [];
                 errorCount := 0; warningCount := 0;
                 skipped := Some (str "`tsc` binary not found in PATH") |}
        else
          let output := or_str (stdout error) (or_str (stderr error) []) in
          if is_empty (trim output) then
            Ret {| success := false; diagnostics := [crash];
                   errorCount := 1; warningCount := 0; skipped := None |}
          else Ret (parseTscOutput output)
    end.
End WithNode.

End TscRunner.

(* ------------------------------------------------------------------ *)
(** * [go-runner.ts] *)

Module GoRunner.

Record GoDiagnostic : Type := {
  file : jsstr;
  line : number;
  column : number;
  message : jsstr;
  severity : jsstr
}.

Record GoResult : Type := {
  success : bool;
  diagnostics : list GoDiagnostic;
  errorCount : nat;
  warningCount : nat;
  skipped : option jsstr
}.

(** [/^(.+?\.go):(\d+):(\d+):\s+(.+)$/gm] *)
Definition regex : Regex.regex :=
  rcat [RBol true;
        RGroup 1 (rcat [RPlus false (RClass dot); lit (str ".go")]);
        RChar 58;
        RGroup 2 (RPlus true (RClass is_digit));
        RChar 58;
        RGroup 3 (RPlus true (RClass is_digit));
        RChar 58;
        RPlus true (RClass is_space);
        RGroup 4 (RPlus true (RClass dot));
        REol true]%N.

Definition diagnostic_of_match (m : mstate) : GoDiagnostic :=
  {| file := group_text 1 m;
     line := parseInt10 (group_text 2 m);
     column := parseInt10 (group_text 3 m);
     message := group_text 4 m;
     severity := str "warning" |}.

Definition parseGoOutput (output : jsstr) : GoResult :=
  let diagnostics := map diagnostic_of_match (exec_all regex output) in
  {| success := Nat.eqb (length diagnostics) 0;
     diagnostics := diagnostics;
     errorCount := 0;
     warningCount := length diagnostics;
     skipped := None |}.

Section WithNode.
Variable node : Node.

Definition runGoDiagnostics (directory : jsstr) : Prog GoResult :=
  let goModPath := join node directory (str "go.mod") in
  present <- call (ExistsSync goModPath) ;;
  if negb present then
    Ret {| success := true; diagnostics := [];
           errorCount := 0; warningCount := 0;
           skipped := Some (str "no go.mod found in directory") |}
  else
    r <- call (ExecFileSync (str "go") [str "vet"; str "./..."]
                 (pipe_options directory)) ;;
    match r with
    | ExitedZero _ =>
        Ret {| success := true; diagnostics := [];
               errorCount := 0; warningCount := 0; skipped := None |}
    | ExecThrew error =>
        if code_is error (str "ENOENT") then
          Ret {| success := true; diagnostics := [];
                 errorCount := 0; warningCount := 0;
                 skipped := Some (str "`go` binary not found in PATH") |}
        else
          let output := or_str (stderr error) (or_str (stdout error) []) in
          Ret (parseGoOutput output)
    end.
End WithNode.

End GoRunner.

(* ------------------------------------------------------------------ *)
(** * [rust-runner.ts] *)

Module RustRunner.

(** The fields are copied from the decoded message as they are, so at
    run time they hold whatever value the JSON text carried. *)
Record RustDiagnostic : Type := {
  file : value;
  line : value;
  column : value;
  code : value;
  message : value;
  severity : value
}.

Record RustResult : Type := {
  success : bool;
  diagnostics : list RustDiagnostic;
  errorCount : nat;
  warningCount : nat;
  skipped : option jsstr
}.

(** [spans.find((s) => s.is_primary)] on an array. *)
Fixpoint find_primary (spans : list value) : outcome value :=
  match spans with
  | [] => Returned VUndef
  | s :: more =>
      obind (get_prop s (str "is_primary")) (fun p =>
      if truthy p then Returned s else find_primary more)
  end.

(** [innerMessage.spans?.find(...)]: nothing to search when [spans] is
    missing or [null]; calling [find] on anything but an array throws. *)
Definition primary_span (spans : value) : outcome value :=
  match spans with
  | VUndef | VNull => Returned VUndef
  | VArr elems => find_primary elems
  | _ => Thrown TypeError
  end.

(** [innerMessage.code?.code || ''] *)
Definition code_of (innerMessage : value) : outcome value :=
  obind (get_prop innerMessage (str "code")) (fun c =>
  obind (match c with
         | VUndef | VNull => Returned VUndef
         | _ => get_prop c (str "code")
         end) (fun cc =>
  Returned (if truthy cc then cc else VStr []))).

(** The body of the loop over the lines: the diagnostic the line adds,
    if any. *)
Definition diagnostic_of_line (line : jsstr)
  : outcome (option RustDiagnostic) :=
  let trimmedLine := trim line in
  if is_empty trimmedLine then Returned None
  else
    match JSON_parse trimmedLine with
    | None => Returned None
    | Some msg =>
        obind (get_prop msg (str "reason")) (fun reason =>
        if negb (is_string reason (str "compiler-message")) then Returned None
        else
          obind (get_prop msg (str "message")) (fun innerMessage =>
          if negb (truthy innerMessage) then Returned None
          else
            obind (get_prop innerMessage (str "level")) (fun level =>
            if negb (is_string level (str "error"))
               && negb (is_string level (str "warning"))
            then Returned None
            else
              obind (get_prop innerMessage (str "spans")) (fun spans =>
              obind (primary_span spans) (fun primarySpan =>
              if negb (truthy primarySpan) then Returned None
              else
                obind (code_of innerMessage) (fun c =>
                obind (get_prop innerMessage (str "message")) (fun m =>
                obind (get_prop primarySpan (str "file_name")) (fun f =>
                obind (get_prop primarySpan (str "line_start")) (fun l =>
                obind (get_prop primarySpan (str "column_start")) (fun col =>
                Returned (Some {| severity := level; code := c;
                                  message := m; file := f;
                                  line := l; column := col |})))))))))))
    end.

Fixpoint collect (lines : list jsstr) : outcome (list RustDiagnostic) :=
  match lines with
  | [] => Returned []
  | l :: more =>
      obind (diagnostic_of_line l) (fun d =>
      obind (collect more) (fun ds =>
      Returned (match d with Some x => x :: ds | None => ds end)))
  end.

Definition parseRustOutput (output : jsstr) : outcome RustResult :=
  obind (collect (split 10%N output)) (fun diagnostics =>
  let errorCount :=
    length (filter (fun d => is_string (severity d) (str "error"))
                   diagnostics) in
  let warningCount :=
    length (filter (fun d => is_string (severity d) (str "warning"))
                   diagnostics) in
  Returned {| success := Nat.eqb errorCount 0;
              diagnostics := diagnostics;
              errorCount := errorCount;
              warningCount := warningCount;
              skipped := None |}).

Section WithNode.
Variable node : Node.

Definition runRustDiagnostics (directory : jsstr) : Prog RustResult :=
  let cargoPath := join node directory (str "Cargo.toml") in
  present <- call (ExistsSync cargoPath) ;;
  if negb present then
    Ret {| success := true; diagnostics := [];
           errorCount := 0; warningCount := 0;
           skipped := Some (str "no Cargo.toml found in directory") |}
  else
    r <- call (ExecFileSync (str "cargo")
                 [str "check"; str "--message-format=json"]
                 (pipe_options directory)) ;;
    match r with
    | ExitedZero _ =>
        Ret {| success := true; diagnostics := [];
               errorCount := 0; warningCount := 0; skipped := None |}
    | ExecThrew error =>
        if code_is error (str "ENOENT") then
          Ret {| success := true; diagnostics := [];
                 errorCount := 0; warningCount := 0;
                 skipped := Some (str "`cargo` binary not found in PATH") |}
        else
          let output := or_str (stdout error) (or_str (stderr error) []) in
          lift (parseRustOutput output)
    end.
End WithNode.

End RustRunner.

(* ------------------------------------------------------------------ *)
(** * [lsp/servers.ts] *)

Module Servers.

Definition COMMAND_EXISTS_TIMEOUT_MS : N := 5000.

(** The display name and the install hint of a server are left out:
    no function below reads them. *)
Record LspServerConfig : Type := {
  command : jsstr;
  args : list jsstr;
  extensions : list jsstr
}.

Definition server (c : String.string) (a e : list String.string)
  : LspServerConfig :=
  {| command := str c; args := map str a; extensions := map str e |}.

Local Open Scope string_scope.

(** The registry, in the order of its keys. *)
Definition LSP_SERVERS : list (jsstr * LspServerConfig) :=
  [ (str "typescript",
     server "typescript-language-server" ["--stdio"]
       [".ts"; ".tsx"; ".js"; ".jsx"; ".mts"; ".cts"; ".mjs"; ".cjs"]);
    (str "python", server "pylsp" [] [".py"; ".pyw"]);
    (str "rust", server "rust-analyzer" [] [".rs"]);
    (str "go", server "gopls" ["serve"] [".go"]);
    (str "c",
     server "clangd" []
       [".c"; ".h"; ".cpp"; ".cc"; ".cxx"; ".hpp"; ".hxx"]);
    (str "java", server "jdtls" [] [".java"]);
    (str "json",
     server "vscode-json-language-server" ["--stdio"] [".json"; ".jsonc"]);
    (str "html",
     server "vscode-html-language-server" ["--stdio"] [".html"; ".htm"]);
    (str "css",
     server "vscode-css-language-server" ["--stdio"]
       [".css"; ".scss"; ".less"]);
    (str "yaml",
     server "yaml-language-server" ["--stdio"] [".yaml"; ".yml"]);
    (str "ruby", server "solargraph" ["stdio"] [".rb"; ".rake"; ".gemspec"]);
    (str "php", server "intelephense" ["--stdio"] [".php"; ".phtml"]);
    (str "lua", server "lua-language-server" [] [".lua"]);
    (str "bash",
     server "bash-language-server" ["start"] [".sh"; ".bash"; ".zsh"]);
    (str "elixir", server "elixir-ls" [] [".ex"; ".exs"]);
    (str "kotlin", server "kotlin-language-server" [] [".kt"; ".kts"]);
    (str "swift", server "sourcekit-lsp" [] [".swift"]);
    (str "csharp", server "omnisharp" ["-lsp"] [".cs"]);
    (str "scala", server "metals" [] [".scala"; ".sc"; ".sbt"]);
    (str "zig", server "zls" [] [".zig"]);
    (str "haskell",
     server "haskell-language-server-wrapper" ["--lsp"] [".hs"; ".lhs"]) ].

Local Close Scope string_scope.

Definition is_letter (c : cu) : bool := is_lower c || is_upper c.

Definition is_name_char (c : cu) : bool :=
  is_lower c || is_upper c || is_digit c
  || N.eqb c 46%N || N.eqb c 95%N || N.eqb c 45%N.

(** [/^[a-zA-Z][a-zA-Z0-9._-]*$/] *)
Definition safe_name : Regex.regex :=
  rcat [RBol false; RClass is_letter; RStar true (RClass is_name_char);
        REol false].

Section WithNode.
Variable node : Node.

(** The [which]/[where] probe for a command. *)
Definition probe (command : jsstr) : Op ExecResult :=
  let checkCommand :=
    if JsString.eqb (platform node) (str "win32")
    then str "where" else str "which" in
  ExecFileSync checkCommand [command]
    {| cwd := None; encoding := None; stdio := StdioIgnore;
       timeout := COMMAND_EXISTS_TIMEOUT_MS |}.

Definition commandExists (command : jsstr) : Prog bool :=
  if is_empty command || negb (test safe_name command) then Ret false
  else
    r <- call (probe command) ;;
    match r with
    | ExitedZero _ => Ret true
    | ExecThrew _ => Ret false
    end.
End WithNode.

End Servers.

(* ------------------------------------------------------------------ *)
(** * [python-runner.ts] *)

Module PythonRunner.

Record PythonDiagnostic : Type := {
  file : jsstr;
  line : number;
  column : number;
  code : jsstr;
  message : jsstr;
  severity : jsstr
}.

Inductive Tool : Type := mypy | pylint | none.

Record PythonResult : Type := {
  success : bool;
  diagnostics : list PythonDiagnostic;
  errorCount : nat;
  warningCount : nat;
  tool : Tool;
  skipped : option jsstr
}.

Definition py_file : Regex.regex :=
  RGroup 1 (rcat [RPlus false (RClass dot); lit (str ".py")]).

(** [/^(.+?\.py):(\d+):(\d+): (error|warning|note): (.+?)(?:\s+\[([^\]]+)\])?$/gm] *)
Definition mypy_regex : Regex.regex :=
  rcat [RBol true;
        py_file;
        RChar 58;
        RGroup 2 (RPlus true (RClass is_digit));
        RChar 58;
        RGroup 3 (RPlus true (RClass is_digit));
        RChar 58; RChar 32;
        RGroup 4 (RAlt (lit (str "error"))
                       (RAlt (lit (str "warning")) (lit (str "note"))));
        RChar 58; RChar 32;
        RGroup 5 (RPlus false (RClass dot));
        ROpt (rcat [RPlus true (RClass is_space);
                    RChar 91;
                    RGroup 6 (RPlus true (RClass (fun c => negb (N.eqb c 93))));
                    RChar 93]);
        REol true]%N.

Definition mypy_diagnostic (m : mstate) : PythonDiagnostic :=
  {| file := group_text 1 m;
     line := parseInt10 (group_text 2 m);
     column := parseInt10 (group_text 3 m);
     severity := if JsString.eqb (group_text 4 m) (str "error")
                 then str "error" else str "warning";
     message := group_text 5 m;
     code := or_str (group 6 m) [] |}.

Definition count (sev : jsstr) (ds : list PythonDiagnostic) : nat :=
  length (filter (fun d => JsString.eqb (severity d) sev) ds).

Definition parseMypyOutput (output : jsstr) : PythonResult :=
  let diagnostics :=
    map mypy_diagnostic
        (filter (fun m => negb (JsString.eqb (group_text 4 m) (str "note")))
                (exec_all mypy_regex output)) in
  let errorCount := count (str "error") diagnostics in
  let warningCount := count (str "warning") diagnostics in
  {| success := Nat.eqb errorCount 0;
     diagnostics := diagnostics;
     errorCount := errorCount;
     warningCount := warningCount;
     tool := mypy;
     skipped := None |}.

(** [/^(.+?\.py):(\d+):(\d+): ([A-Z]\d+): (.+)$/gm] *)
Definition pylint_regex : Regex.regex :=
  rcat [RBol true;
        py_file;
        RChar 58;
        RGroup 2 (RPlus true (RClass is_digit));
        RChar 58;
        RGroup 3 (RPlus true (RClass is_digit));
        RChar 58; RChar 32;
        RGroup 4 (rcat [RClass is_upper; RPlus true (RClass is_digit)]);
        RChar 58; RChar 32;
        RGroup 5 (RPlus true (RClass dot));
        REol true]%N.

Definition pylint_diagnostic (m : mstate) : PythonDiagnostic :=
  let code := group_text 4 m in
  let isError := startsWith 69%N code || startsWith 70%N code in
  {| file := group_text 1 m;
     line := parseInt10 (group_text 2 m);
     column := parseInt10 (group_text 3 m);
     code := code;
     message := group_text 5 m;
     severity := if isError then str "error" else str "warning" |}.

Definition parsePylintOutput (output : jsstr) : PythonResult :=
  let diagnostics := map pylint_diagnostic (exec_all pylint_regex output) in
  let errorCount := count (str "error") diagnostics in
  let warningCount := count (str "warning") diagnostics in
  {| success := Nat.eqb errorCount 0;
     diagnostics := diagnostics;
     errorCount := errorCount;
     warningCount := warningCount;
     tool := pylint;
     skipped := None |}.

Definition clean (t : Tool) (why : option jsstr) : PythonResult :=
  {| success := true; diagnostics := []; errorCount := 0;
     warningCount := 0; tool := t; skipped := why |}.

Definition crash (t : Tool) (c msg : jsstr) : PythonResult :=
  {| success := false;
     diagnostics := [ {| file := str "."; line := of_Z 0; column := of_Z 0;
                         code := c; message := msg;
                         severity := str "error" |} ];
     errorCount := 1; warningCount := 0; tool := t; skipped := None |}.

Definition runMypy (directory : jsstr) : Prog PythonResult :=
  r <- call (ExecFileSync (str "mypy") [str "."; str "--ignore-missing-imports"]
               (pipe_options directory)) ;;
  match r with
  | ExitedZero _ => Ret (clean mypy None)
  | ExecThrew error =>
      let output := or_str (stdout error) [] in
      if code_is error (str "ENOENT") then
        Ret (clean mypy (Some (str "`mypy` binary not found in PATH")))
      else if is_empty (trim output) then
        Ret (crash mypy (str "mypy-crash")
               (str "mypy exited with errors but produced no diagnostic output (possible configuration issue)"))
      else Ret (parseMypyOutput output)
  end.

Definition runPylint (directory : jsstr) : Prog PythonResult :=
  r <- call (ExecFileSync (str "pylint")
               [str "--output-format=text"; str "--score=no"; str "."]
               (pipe_options directory)) ;;
  match r with
  | ExitedZero _ => Ret (clean pylint None)
  | ExecThrew error =>
      let output := or_str (stdout error) (or_str (stderr error) []) in
      if code_is error (str "ENOENT") then
        Ret (clean pylint (Some (str "`pylint` binary not found in PATH")))
      else if is_empty (trim output) then
        Ret (crash pylint (str "pylint-crash")
               (str "pylint exited with errors but produced no diagnostic output (possible configuration issue)"))
      else Ret (parsePylintOutput output)
  end.

Section WithNode.
Variable node : Node.

Definition runPythonDiagnostics (directory : jsstr) : Prog PythonResult :=
  hasPyproject <- call (ExistsSync (join node directory (str "pyproject.toml"))) ;;
  hasRequirements <- call (ExistsSync (join node directory (str "requirements.txt"))) ;;
  hasSetupPy <- call (ExistsSync (join node directory (str "setup.py"))) ;;
  if negb hasPyproject && negb hasRequirements && negb hasSetupPy then
    Ret (clean none
           (Some (str "no Python project files found (pyproject.toml, requirements.txt, or setup.py)")))
  else
    haveMypy <- Servers.commandExists node (str "mypy") ;;
    if haveMypy then runMypy directory
    else
      havePylint <- Servers.commandExists node (str "pylint") ;;
      if havePylint then runPylint directory
      else
        Ret (clean none (Some (str "neither mypy nor pylint found in PATH"))).
End WithNode.

End PythonRunner.

(* ------------------------------------------------------------------ *)
(** * [lsp-aggregator.ts] *)

Module LspAggregator.

Record LspDiagnosticWithFile : Type := {
  file : jsstr;
  diagnostic : Diagnostic
}.

Record LspAggregationResult : Type := {
  success : bool;
  diagnostics : list LspDiagnosticWithFile;
  errorCount : nat;
  warningCount : nat;
  filesChecked : nat
}.

(** The module variable [_cachedExtensions]; the functions that touch
    it take it and hand it back. *)
Definition Cache := option (list jsstr).

Definition includes (l : list jsstr) (x : jsstr) : bool :=
  existsb (JsString.eqb x) l.

(** [Array.from(new Set(...))]: first occurrences, in order. *)
Definition add_all (exts seen : list jsstr) : list jsstr :=
  fold_left (fun acc e => if includes acc e then acc else acc ++ [e])
            exts seen.

Definition getAllSupportedExtensions (cache : Cache) : list jsstr * Cache :=
  match cache with
  | Some cached => (cached, cache)
  | None =>
      let extensions :=
        fold_left (fun acc kc => add_all (Servers.extensions (snd kc)) acc)
                  Servers.LSP_SERVERS [] in
      (extensions, Some extensions)
  end.

Definition invalidateExtensionCache (cache : Cache) : Cache := None.

Section WithNode.
Variable node : Node.

(** The loop of [walk] over the entries of [dir]; [descend] is the
    recursive call.  A path that cannot be examined is skipped. *)
Fixpoint each_entry (descend : jsstr -> Prog (list jsstr))
         (extensions ignoreDirs : list jsstr) (dir : jsstr)
         (entries : list jsstr) : Prog (list jsstr) :=
  match entries with
  | [] => Ret []
  | entry :: more =>
      let fullPath := join node dir entry in
      st <- call (StatSync fullPath) ;;
      found <-
        match st with
        | None => Ret []
        | Some stat =>
            if isDirectory stat then
              if includes ignoreDirs entry then Ret []
              else descend fullPath
            else if isFile stat then
              if includes extensions (extname node fullPath)
              then Ret [fullPath] else Ret []
            else Ret []
        end ;;
      later <- each_entry descend extensions ignoreDirs dir more ;;
      Ret (found ++ later)
  end.

(** [walk]: the files below [dir], in the order they are pushed.
    Whatever is thrown below a [try] (a directory that cannot be read, a
    call too deep for the stack) only skips what was being visited. *)
Fixpoint walk (depth : nat) (extensions ignoreDirs : list jsstr)
         (dir : jsstr) : Prog (list jsstr) :=
  match depth with
  | O => Ret []
  | S depth' =>
      listing <- call (ReaddirSync dir) ;;
      match listing with
      | None => Ret []
      | Some entries =>
          each_entry (walk depth' extensions ignoreDirs)
                     extensions ignoreDirs dir entries
      end
  end.

Definition findFiles (directory : jsstr) (extensions ignoreDirs : list jsstr)
  : Prog (list jsstr) :=
  walk (stack_limit node) extensions ignoreDirs directory.

Definition with_file (f : jsstr) (d : Diagnostic) : LspDiagnosticWithFile :=
  {| file := f; diagnostic := d |}.

(** The loop over the files, with [allDiagnostics] and
    [filesChecked] as they stand when a file is reached.  A file
    whose session, opening or reading fails is skipped. *)
Fixpoint each_file (files : list jsstr)
         (allDiagnostics : list LspDiagnosticWithFile) (filesChecked : nat)
  : Prog (list LspDiagnosticWithFile * nat) :=
  match files with
  | [] => Ret (allDiagnostics, filesChecked)
  | f :: more =>
      got <- call (GetClientForFile f) ;;
      match got with
      | None | Some None => each_file more allDiagnostics filesChecked
      | Some (Some client) =>
          opened <- call (OpenDocument client f) ;;
          match opened with
          | None => each_file more allDiagnostics filesChecked
          | Some _ =>
              _ <- call (SetTimeout LSP_DIAGNOSTICS_WAIT_MS) ;;
              read <- call (GetDiagnostics client f) ;;
              match read with
              | None => each_file more allDiagnostics filesChecked
              | Some ds =>
                  each_file more (allDiagnostics ++ map (with_file f) ds)
                            (S filesChecked)
              end
          end
      end
  end.

Definition has_severity (n : Z) (d : LspDiagnosticWithFile) : bool :=
  match lsp_severity (diagnostic d) with
  | Some s => Z.eqb s n
  | None => false
  end.

Definition runLspAggregatedDiagnostics (cache : Cache) (directory : jsstr)
           (extensions : option (list jsstr))
  : Prog (LspAggregationResult * Cache) :=
  let '(effectiveExtensions, cache') :=
    match extensions with
    | Some given => (given, cache)
    | None => getAllSupportedExtensions cache
    end in
  files <- findFiles directory effectiveExtensions
             [str "node_modules"; str "dist"; str "build"; str ".git"] ;;
  done <- each_file files [] 0 ;;
  let allDiagnostics := fst done in
  let errorCount := length (filter (has_severity 1) allDiagnostics) in
  let warningCount := length (filter (has_severity 2) allDiagnostics) in
  Ret ({| success := Nat.eqb errorCount 0;
          diagnostics := allDiagnostics;
          errorCount := errorCount;
          warningCount := warningCount;
          filesChecked := snd done |}, cache').
End WithNode.

End LspAggregator.

(* ------------------------------------------------------------------ *)
(** * [index.ts] *)

Module Index.

Inductive DiagnosticsStrategy : Type :=
| tsc | go | rust | python | lsp | auto.

Inductive Strategy : Type :=
| by_tsc | by_go | by_rust | by_python | by_lsp | skipped.

Record DirectoryDiagnosticResult : Type := {
  strategy : Strategy;
  success : bool;
  errorCount : nat;
  warningCount : nat;
  diagnostics : jsstr;
  summary : jsstr
}.

Inductive ProjectType : Type :=
| typescript | golang | rustlang | pythonlang | unknown.

(** [BaseDiagnostic]: what [formatDiagnosticResult] reads of a
    diagnostic.  [base_code] is [undefined] for a type without the
    field. *)
Class BaseDiagnostic (D : Type) : Type := {
  base_file : D -> value;
  base_line : D -> value;
  base_column : D -> value;
  base_message : D -> value;
  base_severity : D -> value;
  base_code : D -> value
}.

Record BaseResult (D : Type) : Type := {
  base_success : bool;
  base_diagnostics : list D;
  base_errorCount : nat;
  base_warningCount : nat
}.

#[export] Instance tsc_base : BaseDiagnostic TscRunner.TscDiagnostic := {|
  base_file d := VStr (TscRunner.file d);
  base_line d := VNum (TscRunner.line d);
  base_column d := VNum (TscRunner.column d);
  base_message d := VStr (TscRunner.message d);
  base_severity d := VStr (TscRunner.severity d);
  base_code d := VStr (TscRunner.code d) |}.

#[export] Instance go_base : BaseDiagnostic GoRunner.GoDiagnostic := {|
  base_file d := VStr (GoRunner.file d);
  base_line d := VNum (GoRunner.line d);
  base_column d := VNum (GoRunner.column d);
  base_message d := VStr (GoRunner.message d);
  base_severity d := VStr (GoRunner.severity d);
  base_code d := VUndef |}.

#[export] Instance rust_base : BaseDiagnostic RustRunner.RustDiagnostic := {|
  base_file := RustRunner.file;
  base_line := RustRunner.line;
  base_column := RustRunner.column;
  base_message := RustRunner.message;
  base_severity := RustRunner.severity;
  base_code := RustRunner.code |}.

#[export] Instance python_base
  : BaseDiagnostic PythonRunner.PythonDiagnostic := {|
  base_file d := VStr (PythonRunner.file d);
  base_line d := VNum (PythonRunner.line d);
  base_column d := VNum (PythonRunner.column d);
  base_message d := VStr (PythonRunner.message d);
  base_severity d := VStr (PythonRunner.severity d);
  base_code d := VStr (PythonRunner.code d) |}.

(** SameValueZero on Numbers: [NaN] is itself, the two zeros are the
    same key. *)
Definition num_eqb (a b : number) : bool :=
  match a, b with
  | NaN, NaN => true
  | S754_zero _, S754_zero _ => true
  | S754_infinity s1, S754_infinity s2 => Bool.eqb s1 s2
  | S754_finite s1 m1 e1, S754_finite s2 m2 e2 =>
      Bool.eqb s1 s2 && Pos.eqb m1 m2 && Z.eqb e1 e2
  | _, _ => false
  end.

(** Equality of [Map] keys.  Two decoded objects are never the same
    object. *)
Definition same_key (a b : value) : bool :=
  match a, b with
  | VUndef, VUndef | VNull, VNull => true
  | VBool x, VBool y => Bool.eqb x y
  | VNum x, VNum y => num_eqb x y
  | VStr x, VStr y => JsString.eqb x y
  | _, _ => false
  end.

(** [byFile]: one entry per key, in the order of first insertion. *)
Fixpoint add_to {K V} (same : K -> K -> bool) (key : K) (v : V)
         (m : list (K * list V)) : list (K * list V) :=
  match m with
  | [] => [(key, [v])]
  | (k, vs) :: more =>
      if same k key then (k, vs ++ [v]) :: more
      else (k, vs) :: add_to same key v more
  end.

Definition join_with (sep : jsstr) (parts : list jsstr) : jsstr :=
  match parts with
  | [] => []
  | p :: more => fold_left (fun acc q => acc ++ sep ++ q) more p
  end.

Definition makeSkippedResult (summary : jsstr) : DirectoryDiagnosticResult :=
  {| strategy := skipped; success := true; errorCount := 0;
     warningCount := 0; diagnostics := []; summary := summary |}.

Definition truthy_str (s : option jsstr) : option jsstr :=
  match s with
  | Some (c :: t) => Some (c :: t)
  | _ => None
  end.

Section WithNode.
Variable node : Node.

(** [formatDiagnostics] of [../lsp/utils.js], which is not among the
    sources. *)
Variable formatDiagnostics : list Diagnostic -> jsstr -> jsstr.

Definition counts_text (toolName : jsstr) (ok : bool) (e w : nat) : jsstr :=
  toolName ++ str " " ++ (if ok then str "passed" else str "failed")
  ++ str ": " ++ of_nat e ++ str " errors, " ++ of_nat w ++ str " warnings".

(** The template literals convert what they hold with [ToString], so
    the function throws when a field of a diagnostic cannot be
    converted. *)
Definition formatDiagnosticResult {D} `{BaseDiagnostic D}
           (result : BaseResult D) (strat : Strategy) (toolName : jsstr)
  : outcome DirectoryDiagnosticResult :=
  obind
    match base_diagnostics result with
    | [] =>
        Returned
          (str "No diagnostics found. " ++ toolName ++ str " passed!",
           toolName ++ str " passed: 0 errors, 0 warnings")
    | _ =>
        let byFile :=
          fold_left (fun m diag => add_to same_key (base_file diag) diag m)
                    (base_diagnostics result) [] in
        obind
          (oeach
             (fun entry =>
                obind (ToString node (fst entry)) (fun file =>
                ofold
                  (fun fileOutput diag =>
                     obind (if truthy (base_code diag)
                            then omap (fun c => str " [" ++ c ++ str "]")
                                      (ToString node (base_code diag))
                            else Returned []) (fun code =>
                     obind (ToString node (base_line diag)) (fun line =>
                     obind (ToString node (base_column diag)) (fun column =>
                     obind (ToString node (base_severity diag)) (fun severity =>
                     obind (ToString node (base_message diag)) (fun message =>
                     Returned (fileOutput ++ str "  "
                               ++ line ++ str ":" ++ column ++ str " - "
                               ++ severity ++ code
                               ++ str ": " ++ message ++ [10%N])))))))
                  (snd entry)
                  (file ++ str ":" ++ [10%N])))
             byFile)
          (fun fileOutputs =>
             Returned
               (join_with [10%N] fileOutputs,
                counts_text toolName (base_success result)
                  (base_errorCount result) (base_warningCount result)))
    end
    (fun texts =>
       Returned {| strategy := strat;
                   success := base_success result;
                   errorCount := base_errorCount result;
                   warningCount := base_warningCount result;
                   diagnostics := fst texts;
                   summary := snd texts |}).

Definition detectProjectType (directory : jsstr) : Prog ProjectType :=
  a <- call (ExistsSync (join node directory (str "tsconfig.json"))) ;;
  if a then Ret typescript else
  b <- call (ExistsSync (join node directory (str "go.mod"))) ;;
  if b then Ret golang else
  c <- call (ExistsSync (join node directory (str "Cargo.toml"))) ;;
  if c then Ret rustlang else
  p1 <- call (ExistsSync (join node directory (str "pyproject.toml"))) ;;
  if p1 then Ret pythonlang else
  p2 <- call (ExistsSync (join node directory (str "requirements.txt"))) ;;
  if p2 then Ret pythonlang else
  p3 <- call (ExistsSync (join node directory (str "setup.py"))) ;;
  if p3 then Ret pythonlang else
  Ret unknown.

Definition formatTscResult (result : TscRunner.TscResult)
  : outcome DirectoryDiagnosticResult :=
  match truthy_str (TscRunner.skipped result) with
  | Some why =>
      Returned (makeSkippedResult (str "TypeScript diagnostics skipped: " ++ why))
  | None =>
      formatDiagnosticResult
        {| base_success := TscRunner.success result;
           base_diagnostics := TscRunner.diagnostics result;
           base_errorCount := TscRunner.errorCount result;
           base_warningCount := TscRunner.warningCount result |}
        by_tsc (str "TypeScript check")
  end.

Definition formatGoResult (result : GoRunner.GoResult)
  : outcome DirectoryDiagnosticResult :=
  match truthy_str (GoRunner.skipped result) with
  | Some why =>
      Returned (makeSkippedResult (str "Go diagnostics skipped: " ++ why))
  | None =>
      formatDiagnosticResult
        {| base_success := GoRunner.success result;
           base_diagnostics := GoRunner.diagnostics result;
           base_errorCount := GoRunner.errorCount result;
           base_warningCount := GoRunner.warningCount result |}
        by_go (str "Go vet")
  end.

Definition formatRustResult (result : RustRunner.RustResult)
  : outcome DirectoryDiagnosticResult :=
  match truthy_str (RustRunner.skipped result) with
  | Some why =>
      Returned (makeSkippedResult (str "Rust diagnostics skipped: " ++ why))
  | None =>
      formatDiagnosticResult
        {| base_success := RustRunner.success result;
           base_diagnostics := RustRunner.diagnostics result;
           base_errorCount := RustRunner.errorCount result;
           base_warningCount := RustRunner.warningCount result |}
        by_rust (str "Cargo check")
  end.

Definition formatPythonResult (result : PythonRunner.PythonResult)
  : outcome DirectoryDiagnosticResult :=
  match truthy_str (PythonRunner.skipped result) with
  | Some why =>
      Returned (makeSkippedResult (str "Python diagnostics skipped: " ++ why))
  | None =>
      let toolName :=
        match PythonRunner.tool result with
        | PythonRunner.mypy => str "Mypy"
        | PythonRunner.pylint => str "Pylint"
        | PythonRunner.none => str "Python"
        end in
      formatDiagnosticResult
        {| base_success := PythonRunner.success result;
           base_diagnostics := PythonRunner.diagnostics result;
           base_errorCount := PythonRunner.errorCount result;
           base_warningCount := PythonRunner.warningCount result |}
        by_python toolName
  end.

Definition formatLspResult (result : LspAggregator.LspAggregationResult)
  : DirectoryDiagnosticResult :=
  let files_text :=
    str " (" ++ of_nat (LspAggregator.filesChecked result) ++ str " files)" in
  let '(diagnostics, summary) :=
    match LspAggregator.diagnostics result with
    | [] =>
        (str "Checked " ++ of_nat (LspAggregator.filesChecked result)
         ++ str " files. No diagnostics found!",
         str "LSP check passed: 0 errors, 0 warnings" ++ files_text)
    | _ =>
        let byFile :=
          fold_left (fun m item =>
                       add_to JsString.eqb (LspAggregator.file item) item m)
                    (LspAggregator.diagnostics result) [] in
        let fileOutputs :=
          map (fun entry =>
                 let diags := map LspAggregator.diagnostic (snd entry) in
                 fst entry ++ str ":" ++ [10%N]
                 ++ formatDiagnostics diags (fst entry))
              byFile in
        (join_with [10%N; 10%N] fileOutputs,
         counts_text (str "LSP check") (LspAggregator.success result)
           (LspAggregator.errorCount result)
           (LspAggregator.warningCount result) ++ files_text)
    end in
  {| strategy := by_lsp;
     success := LspAggregator.success result;
     errorCount := LspAggregator.errorCount result;
     warningCount := LspAggregator.warningCount result;
     diagnostics := diagnostics;
     summary := summary |}.

(** The second [switch]: the runner of a strategy, on the resolved
    directory, and the formatting of its result. *)
Definition dispatch (cache : LspAggregator.Cache) (useStrategy : Strategy)
           (resolvedDirectory : jsstr)
  : Prog (DirectoryDiagnosticResult * LspAggregator.Cache) :=
  match useStrategy with
  | by_tsc =>
      r <- TscRunner.runTscDiagnostics node resolvedDirectory ;;
      f <- lift (formatTscResult r) ;;
      Ret (f, cache)
  | by_go =>
      r <- GoRunner.runGoDiagnostics node resolvedDirectory ;;
      f <- lift (formatGoResult r) ;;
      Ret (f, cache)
  | by_rust =>
      r <- RustRunner.runRustDiagnostics node resolvedDirectory ;;
      f <- lift (formatRustResult r) ;;
      Ret (f, cache)
  | by_python =>
      r <- PythonRunner.runPythonDiagnostics node resolvedDirectory ;;
      f <- lift (formatPythonResult r) ;;
      Ret (f, cache)
  | by_lsp | skipped =>
      r <- LspAggregator.runLspAggregatedDiagnostics node cache
             resolvedDirectory None ;;
      Ret (formatLspResult (fst r), snd r)
  end.

Definition runDirectoryDiagnostics (cache : LspAggregator.Cache)
           (directory : jsstr) (strat : DiagnosticsStrategy)
  : Prog (DirectoryDiagnosticResult * LspAggregator.Cache) :=
  present <- call (ExistsSync directory) ;;
  if negb present then
    Ret (makeSkippedResult
           (str "Diagnostics skipped: directory does not exist: " ++ directory),
         cache)
  else
    st <- call (StatSync directory) ;;
    match st with
    | None => Throw SystemError
    | Some stat =>
        if negb (isDirectory stat) then
          Ret (makeSkippedResult
                 (str "Diagnostics skipped: path is not a directory: "
                  ++ directory), cache)
        else
          resolved <- call (RealpathSync directory) ;;
          match resolved with
          | None =>
              Ret (makeSkippedResult
                     (str "Diagnostics skipped: cannot resolve directory path: "
                      ++ directory), cache)
          | Some resolvedDirectory =>
              useStrategy <-
                match strat with
                | auto =>
                    projectType <- detectProjectType resolvedDirectory ;;
                    Ret (match projectType with
                         | typescript => by_tsc
                         | golang => by_go
                         | rustlang => by_rust
                         | pythonlang => by_python
                         | unknown => by_lsp
                         end)
                | tsc => Ret by_tsc
                | go => Ret by_go
                | rust => Ret by_rust
                | python => Ret by_python
                | lsp => Ret by_lsp
                end ;;
              dispatch cache useStrategy resolvedDirectory
          end
    end.
End WithNode.

End Index.

(* ------------------------------------------------------------------ *)
(** * Platforms to run the programs against *)

Module Scenario.

(** A platform whose answers do not change while the program runs:
    what exists, what each path is, what each command does, what the
    LSP manager says about each file. *)
Record World : Type := {
  present : jsstr -> bool;
  stat_of : jsstr -> option Stats;
  real_of : jsstr -> option jsstr;
  listing : jsstr -> option (list jsstr);
  exec_of : jsstr -> list jsstr -> ExecResult;
  client_of : jsstr -> option (option Client);
  open_of : Client -> jsstr -> option unit;
  published : Client -> jsstr -> option (list Diagnostic)
}.

Definition steady (wd : World) : handler unit :=
  fun X (op : Op X) (w : unit) =>
    match op in Op T return T * unit with
    | ExistsSync p => (present wd p, tt)
    | StatSync p => (stat_of wd p, tt)
    | RealpathSync p => (real_of wd p, tt)
    | ReaddirSync p => (listing wd p, tt)
    | ExecFileSync f a _ => (exec_of wd f a, tt)
    | GetClientForFile f => (client_of wd f, tt)
    | OpenDocument c f => (open_of wd c f, tt)
    | SetTimeout _ => (tt, tt)
    | GetDiagnostics c f => (published wd c f, tt)
    end.

Definition directory : Stats := {| isDirectory := true; isFile := false |}.
Definition plain_file : Stats := {| isDirectory := false; isFile := true |}.

(** The text after the last dot of a name, dot included. *)
Fixpoint ext_of (s : jsstr) (acc : option jsstr) : jsstr :=
  match s with
  | [] => match acc with Some e => e | None => [] end
  | c :: t =>
      if N.eqb c 47 then ext_of t None
      else if N.eqb c 46 then ext_of t (Some (c :: t))
      else ext_of t acc
  end%N.

(** The decimal text of a Number that is an integer below [10^21];
    the scenarios render no other finite number. *)
Definition number_text (n : number) : jsstr :=
  match n with
  | NaN => str "NaN"
  | S754_infinity s => (if s then str "-" else []) ++ str "Infinity"
  | S754_zero _ => str "0"
  | S754_finite s m e =>
      let whole :=
        if (0 <=? e)%Z then true else (Z.pos m mod 2 ^ (- e) =? 0)%Z in
      let z :=
        if (0 <=? e)%Z then (Z.pos m * 2 ^ e)%Z else (Z.pos m / 2 ^ (- e))%Z in
      if whole && (z <? 10 ^ 21)%Z
      then (if s then str "-" else []) ++ of_N (Z.to_N z)
      else str "?"
  end.

(** A POSIX host, for paths that need no normalising. *)
Definition posix : Node :=
  {| join a b := a ++ str "/" ++ b;
     extname p := ext_of p None;
     platform := str "linux";
     NumberToString := number_text;
     stack_limit := 1000 |}.

Definition silent_failure : ExecResult :=
  ExecThrew {| code := None; stdout := Some []; stderr := Some [] |}.

Definition not_installed : ExecResult :=
  ExecThrew {| code := Some (str "ENOENT"); stdout := None; stderr := None |}.

(** A project directory [/p] holding the files [names]; every command
    is answered by [commands]. *)
Definition project (names : list jsstr)
           (commands : jsstr -> list jsstr -> ExecResult) : World :=
  {| present p :=
       JsString.eqb p (str "/p")
       || existsb (fun n => JsString.eqb p (str "/p/" ++ n)) names;
     stat_of p :=
       if JsString.eqb p (str "/p") then Some directory
       else if existsb (fun n => JsString.eqb p (str "/p/" ++ n)) names
            then Some plain_file else None;
     real_of p := Some p;
     listing p := if JsString.eqb p (str "/p") then Some names else None;
     exec_of := commands;
     client_of _ := Some None;
     open_of _ _ := None;
     published _ _ := None |}.

(** The same platform with a language server that opens every file
    and has [found] published for it. *)
Definition with_server (wd : World) (found : jsstr -> list Diagnostic) : World :=
  {| present := present wd;
     stat_of := stat_of wd;
     real_of := real_of wd;
     listing := listing wd;
     exec_of := exec_of wd;
     client_of _ := Some (Some 1%N);
     open_of _ _ := Some tt;
     published _ f := Some (found f) |}.

(** A path that exists as a directory and cannot be resolved. *)
Definition dangling : World :=
  {| present _ := true;
     stat_of _ := Some directory;
     real_of _ := None;
     listing _ := None;
     exec_of _ _ := not_installed;
     client_of _ := None;
     open_of _ _ := None;
     published _ _ := None |}.

End Scenario.

(* ------------------------------------------------------------------ *)
(** * The vocabulary of the specification *)

Module Spec.

(** The markers of the project type detector, in priority order. *)
Definition markers : list (jsstr * Index.ProjectType) :=
  [ (str "tsconfig.json", Index.typescript);
    (str "go.mod", Index.golang);
    (str "Cargo.toml", Index.rustlang);
    (str "pyproject.toml", Index.pythonlang);
    (str "requirements.txt", Index.pythonlang);
    (str "setup.py", Index.pythonlang) ].

(** Probing the markers one after the other and stopping at the first
    that exists: the type found, the probes made, the platform
    afterwards. *)
Fixpoint first_marker {W} (node : Node) (h : handler W) (w : W)
         (directory : jsstr) (ms : list (jsstr * Index.ProjectType))
  : Index.ProjectType * list interaction * W :=
  match ms with
  | [] => (Index.unknown, [], w)
  | (name, type) :: more =>
      let op := ExistsSync (join node directory name) in
      if answer h op w then (type, [Interact op true], after h op w)
      else
        let '(t, tr, w') := first_marker node h (after h op w) directory more in
        (t, Interact op false :: tr, w')
  end.

(** The three checks of the dispatcher pass and the directory
    resolves to [resolved]. *)
Definition passes_preflight {W} (h : handler W) (w : W)
           (directory resolved : jsstr) : Prop :=
  let w1 := after h (ExistsSync directory) w in
  let w2 := after h (StatSync directory) w1 in
  answer h (ExistsSync directory) w = true
  /\ (exists st, answer h (StatSync directory) w1 = Some st
                 /\ isDirectory st = true)
  /\ answer h (RealpathSync directory) w2 = Some resolved.

Definition preflight_trace {W} (h : handler W) (w : W) (directory : jsstr)
  : list interaction :=
  let w1 := after h (ExistsSync directory) w in
  let w2 := after h (StatSync directory) w1 in
  [ Interact (ExistsSync directory) (answer h (ExistsSync directory) w);
    Interact (StatSync directory) (answer h (StatSync directory) w1);
    Interact (RealpathSync directory) (answer h (RealpathSync directory) w2) ].

Definition after_preflight {W} (h : handler W) (w : W) (directory : jsstr)
  : W :=
  after h (RealpathSync directory)
        (after h (StatSync directory) (after h (ExistsSync directory) w)).

(** A program continued from the platform state [w0], after the calls
    [before] were made. *)
Definition continued {W A} (h : handler W) (before : list interaction)
           (w0 : W) (p : Prog A) : outcome A * list interaction * W :=
  let '(o, t, w') := run h p w0 in (o, before ++ t, w').

(** The skipped shape, with [why] in the summary. *)
Definition skipped_because (r : Index.DirectoryDiagnosticResult)
           (why : jsstr) : Prop :=
  Index.strategy r = Index.skipped
  /\ Index.success r = true
  /\ Index.errorCount r = 0
  /\ Index.warningCount r = 0
  /\ contains (Index.summary r) why.

(** A result fails on errors only: [success] says that no error was
    counted, and holds when every diagnostic is a warning. *)
Definition tsc_verdict (r : TscRunner.TscResult) : Prop :=
  (TscRunner.success r = true <-> TscRunner.errorCount r = 0)
  /\ (Forall (fun d => TscRunner.severity d = str "warning")
              (TscRunner.diagnostics r) -> TscRunner.success r = true).

Definition rust_verdict (r : RustRunner.RustResult) : Prop :=
  (RustRunner.success r = true <-> RustRunner.errorCount r = 0)
  /\ (Forall (fun d => RustRunner.severity d = VStr (str "warning"))
              (RustRunner.diagnostics r) -> RustRunner.success r = true).

Definition python_verdict (r : PythonRunner.PythonResult) : Prop :=
  (PythonRunner.success r = true <-> PythonRunner.errorCount r = 0)
  /\ (Forall (fun d => PythonRunner.severity d = str "warning")
              (PythonRunner.diagnostics r) -> PythonRunner.success r = true).

(** A Go result counts no error and fails on any finding. *)
Definition go_verdict (r : GoRunner.GoResult) : Prop :=
  GoRunner.errorCount r = 0
  /\ (GoRunner.success r = true <-> GoRunner.diagnostics r = []).

(** The tool failed without an error code and without output on
    either stream. *)
Definition no_output (e : ExecError) : Prop :=
  code e = None
  /\ or_str (stdout e) [] = []
  /\ or_str (stderr e) [] = [].

(** The diagnostics the LSP manager handed back during a run, each
    with the file it was read for, in the order of the reads. *)
Definition read_of (i : interaction)
  : list LspAggregator.LspDiagnosticWithFile :=
  match i with
  | Interact op a =>
      match op in Op T return T -> list LspAggregator.LspDiagnosticWithFile with
      | GetDiagnostics _ f =>
          fun a => match a with
                   | Some ds => map (LspAggregator.with_file f) ds
                   | None => []
                   end
      | _ => fun _ => []
      end a
  end.

Definition read_back (tr : list interaction)
  : list LspAggregator.LspDiagnosticWithFile :=
  flat_map read_of tr.

Definition is_read (i : interaction) : bool :=
  match i with
  | Interact op a =>
      match op in Op T return T -> bool with
      | GetDiagnostics _ _ =>
          fun a => match a with Some _ => true | None => false end
      | _ => fun _ => false
      end a
  end.

(** An interaction that reads no diagnostics. *)
Definition quiet (i : interaction) : Prop :=
  read_of i = [] /\ is_read i = false.

(** A program that returns after quiet interactions only. *)
Definition reads_nothing {A} (p : Prog A) : Prop :=
  forall W (h : handler W) (w : W),
    exists a tr w',
      run h p w = (Returned a, tr, w') /\ Forall quiet tr.

(** The two severities a cargo diagnostic can have. *)
Definition rust_sev_ok (d : RustRunner.RustDiagnostic) : Prop :=
  RustRunner.severity d = VStr (str "error")
  \/ RustRunner.severity d = VStr (str "warning").

(** The files that went through the whole sequence. *)
Definition files_read (tr : list interaction) : nat :=
  length (filter is_read tr).

Definition severity_is (n : Z) (d : LspAggregator.LspDiagnosticWithFile)
  : Prop :=
  lsp_severity (LspAggregator.diagnostic d) = Some n.

(** An ASCII letter; a character allowed in a command name. *)
Definition ascii_letter (c : cu) : Prop :=
  (65 <= c <= 90)%N \/ (97 <= c <= 122)%N.

Definition name_char (c : cu) : Prop :=
  ascii_letter c \/ (48 <= c <= 57)%N \/ c = 46%N \/ c = 95%N \/ c = 45%N.

(** A name that [commandExists] is to refuse. *)
Definition unsafe_name (command : jsstr) : Prop :=
  command = []
  \/ (exists c t, command = c :: t /\ ~ ascii_letter c)
  \/ (exists c, In c command /\ ~ name_char c).

(** The field of a decoded object; [undefined] when there is none. *)
Definition field (key : String.string) (v : value) : value :=
  match v with
  | VObj fields => own_prop (str key) fields
  | _ => VUndef
  end.
Arguments field key%_string v.

(** A span marked [is_primary]. *)
Definition is_primary (span : value) : Prop :=
  truthy (field "is_primary" span) = true.

(** The first span of the list that is marked. *)
Definition first_primary (spans : list value) (span : value) : Prop :=
  exists before after,
    spans = before ++ span :: after
    /\ is_primary span
    /\ Forall (fun s => ~ is_primary s) before.

(** The diagnostic a line of cargo output contributes, if any. *)
Definition contributed (line : jsstr) : list RustRunner.RustDiagnostic :=
  match RustRunner.diagnostic_of_line line with
  | Returned (Some d) => [d]
  | _ => []
  end.

End Spec.

(* ------------------------------------------------------------------ *)
(** * [lsp/servers.ts], the lookups *)

Module ServersLookup.

(** [Object.values(LSP_SERVERS)] *)
Definition servers : list Servers.LspServerConfig :=
  map snd Servers.LSP_SERVERS.

(** [LSP_SERVERS[key]] *)
Fixpoint server_of (key : jsstr)
         (table : list (jsstr * Servers.LspServerConfig))
  : option Servers.LspServerConfig :=
  match table with
  | [] => None
  | (k, c) :: more => if JsString.eqb k key then Some c else server_of key more
  end.

Local Open Scope string_scope.

(** The table of [getServerForLanguage]. *)
Definition langMap : list (jsstr * jsstr) :=
  map (fun kv => (str (fst kv), str (snd kv)))
      [ ("javascript", "typescript"); ("typescript", "typescript");
        ("tsx", "typescript"); ("jsx", "typescript");
        ("python", "python"); ("rust", "rust");
        ("go", "go"); ("golang", "go");
        ("c", "c"); ("cpp", "c"); ("c++", "c");
        ("java", "java"); ("json", "json"); ("html", "html");
        ("css", "css"); ("scss", "css"); ("less", "css");
        ("yaml", "yaml"); ("ruby", "ruby"); ("php", "php");
        ("lua", "lua");
        ("bash", "bash"); ("shell", "bash"); ("sh", "bash");
        ("shellscript", "bash");
        ("elixir", "elixir"); ("kotlin", "kotlin"); ("swift", "swift");
        ("csharp", "csharp"); ("c#", "csharp");
        ("scala", "scala"); ("zig", "zig");
        ("haskell", "haskell"); ("hs", "haskell") ].

Local Close Scope string_scope.

(** [langMap[name]].  The two names that the lookup would find on the
    prototype of the table, [constructor] and [__proto__], name no
    server, and the function answers [null] for them as for a name that
    is not there. *)
Fixpoint mapped (name : jsstr) (table : list (jsstr * jsstr)) : option jsstr :=
  match table with
  | [] => None
  | (k, v) :: more => if JsString.eqb k name then Some v else mapped name more
  end.

Section WithNode.
Variable node : Node.

(** [String.prototype.toLowerCase] *)
Variable toLowerCase : jsstr -> jsstr.

Definition getServerForFile (filePath : jsstr)
  : option Servers.LspServerConfig :=
  let ext := toLowerCase (extname node filePath) in
  find (fun config => LspAggregator.includes (Servers.extensions config) ext)
       servers.

(** [Object.values(LSP_SERVERS).map(...)]: the servers in order, each
    with whether its command is installed. *)
Fixpoint installed_each (configs : list Servers.LspServerConfig)
  : Prog (list (Servers.LspServerConfig * bool)) :=
  match configs with
  | [] => Ret []
  | config :: more =>
      installed <- Servers.commandExists node (Servers.command config) ;;
      others <- installed_each more ;;
      Ret ((config, installed) :: others)
  end.

Definition getAllServers : Prog (list (Servers.LspServerConfig * bool)) :=
  installed_each servers.

Definition getServerForLanguage (language : jsstr)
  : option Servers.LspServerConfig :=
  match mapped (toLowerCase language) langMap with
  | Some serverKey =>
      if is_empty serverKey then None
      else server_of serverKey Servers.LSP_SERVERS
  | None => None
  end.

End WithNode.

End ServersLookup.

(* ------------------------------------------------------------------ *)
(** * The shapes of what the parsers produce *)

Module Shapes.

(** What a line or a column is: the Number for a non-negative
    integer.  So it is never [NaN] and never negative, it is that
    integer itself up to [2^53], and the positive infinity for an
    integer too large for the format. *)
Definition position (n : number) : Prop :=
  exists z, (0 <= z)%Z /\ n = of_Z z.

(** Text that is not empty and holds no line terminator. *)
Definition one_line (s : jsstr) : Prop :=
  s <> [] /\ Forall (fun c => is_line_terminator c = false) s.

(** One digit or more. *)
Definition digits (s : jsstr) : Prop :=
  s <> [] /\ Forall (fun c => is_digit c = true) s.

(** A one-line stem followed by [suffix]. *)
Definition ends_with (suffix s : jsstr) : Prop :=
  exists stem, one_line stem /\ s = stem ++ suffix.

End Shapes.

(* ------------------------------------------------------------------ *)
(** * The forms of a runner's result *)

Module Forms.

Definition tsc_plain (why : option jsstr) : TscRunner.TscResult :=
  {| TscRunner.success := true; TscRunner.diagnostics := [];
     TscRunner.errorCount := 0; TscRunner.warningCount := 0;
     TscRunner.skipped := why |}.

Definition tsc_crashed : TscRunner.TscResult :=
  {| TscRunner.success := false; TscRunner.diagnostics := [TscRunner.crash];
     TscRunner.errorCount := 1; TscRunner.warningCount := 0;
     TscRunner.skipped := None |}.

Definition go_plain (why : option jsstr) : GoRunner.GoResult :=
  {| GoRunner.success := true; GoRunner.diagnostics := [];
     GoRunner.errorCount := 0; GoRunner.warningCount := 0;
     GoRunner.skipped := why |}.

Definition rust_plain (why : option jsstr) : RustRunner.RustResult :=
  {| RustRunner.success := true; RustRunner.diagnostics := [];
     RustRunner.errorCount := 0; RustRunner.warningCount := 0;
     RustRunner.skipped := why |}.

Definition python_form (r : PythonRunner.PythonResult) : Prop :=
  (exists t why,
      r = PythonRunner.clean t why
      /\ (t = PythonRunner.none -> exists c s, why = Some (c :: s)))
  \/ (exists t c msg,
         r = PythonRunner.crash t c msg /\ t <> PythonRunner.none)
  \/ (exists output, r = PythonRunner.parseMypyOutput output)
  \/ (exists output, r = PythonRunner.parsePylintOutput output).

(** What [parseRustOutput] can read of a line without throwing: a line
    that does not decode, or one that decodes to something other than
    [null] whose [message.spans] is missing, [null], or an array
    without a [null] among its elements. *)
Definition spans_ok (spans : value) : Prop :=
  spans = VUndef \/ spans = VNull
  \/ exists elems,
      spans = VArr elems
      /\ Forall (fun s => s <> VNull /\ s <> VUndef) elems.

Definition readable_line (line : jsstr) : Prop :=
  match JSON_parse (trim line) with
  | None => True
  | Some msg =>
      msg <> VNull /\ msg <> VUndef
      /\ spans_ok (Spec.field "spans" (Spec.field "message" msg))
  end.

(** What holds of the fields of every result a runner hands back: the
    two counts add up to the number of diagnostics, a result without
    diagnostics is a success, and a result that says why the run was
    skipped has no diagnostics. *)
Definition consistent (success : bool) (found errorCount warningCount : nat)
           (skipped : option jsstr) : Prop :=
  errorCount + warningCount = found
  /\ (found = 0 -> success = true)
  /\ (skipped <> None -> found = 0).

(** The strategy that the dispatcher runs for a detected project
    type. *)
Definition strategy_for (t : Index.ProjectType) : Index.Strategy :=
  match t with
  | Index.typescript => Index.by_tsc
  | Index.golang => Index.by_go
  | Index.rustlang => Index.by_rust
  | Index.pythonlang => Index.by_python
  | Index.unknown => Index.by_lsp
  end.

(** The strategy a result may name when [strat] was asked for. *)
Definition requested (strat : Index.DiagnosticsStrategy)
           (s : Index.Strategy) : Prop :=
  s = Index.skipped
  \/ match strat with
     | Index.tsc => s = Index.by_tsc
     | Index.go => s = Index.by_go
     | Index.rust => s = Index.by_rust
     | Index.python => s = Index.by_python
     | Index.lsp => s = Index.by_lsp
     | Index.auto => True
     end.

(** The tool names a summary can begin with, and what follows the
    counts in it. *)
Definition tool_names (s : Index.Strategy) : list jsstr :=
  match s with
  | Index.by_tsc => [str "TypeScript check"]
  | Index.by_go => [str "Go vet"]
  | Index.by_rust => [str "Cargo check"]
  | Index.by_python => [str "Mypy"; str "Pylint"]
  | Index.by_lsp => [str "LSP check"]
  | Index.skipped => []
  end.

Definition files_note (s : Index.Strategy) (note : jsstr) : Prop :=
  match s with
  | Index.by_lsp => exists n, note = str " (" ++ of_nat n ++ str " files)"
  | _ => note = []
  end.

(** A result of the dispatcher whose fields agree: a skipped result is
    a success without counts and without text; any other result has a
    text, and its summary is the tool's name, the verdict and the two
    counts of the result itself. *)
Definition coherent (r : Index.DirectoryDiagnosticResult) : Prop :=
  match Index.strategy r with
  | Index.skipped =>
      Index.success r = true /\ Index.errorCount r = 0
      /\ Index.warningCount r = 0 /\ Index.diagnostics r = []
  | s =>
      Index.diagnostics r <> []
      /\ exists toolName note,
          In toolName (tool_names s) /\ files_note s note
          /\ Index.summary r
             = Index.counts_text toolName (Index.success r)
                 (Index.errorCount r) (Index.warningCount r) ++ note
  end.

(** What the LSP aggregation hands back. *)
Definition lsp_counted (r : LspAggregator.LspAggregationResult) : Prop :=
  LspAggregator.success r = Nat.eqb (LspAggregator.errorCount r) 0
  /\ LspAggregator.errorCount r
     = length (filter (LspAggregator.has_severity 1)
                      (LspAggregator.diagnostics r))
  /\ LspAggregator.warningCount r
     = length (filter (LspAggregator.has_severity 2)
                      (LspAggregator.diagnostics r)).

(** The strategy the first [switch] settles on. *)
Definition chosen (strat : Index.DiagnosticsStrategy) (s : Index.Strategy)
  : Prop :=
  s <> Index.skipped
  /\ match strat with
     | Index.tsc => s = Index.by_tsc
     | Index.go => s = Index.by_go
     | Index.rust => s = Index.by_rust
     | Index.python => s = Index.by_python
     | Index.lsp => s = Index.by_lsp
     | Index.auto => True
     end.

(** What [findFiles] does on the way: it looks at a path, or lists a
    directory, which is the one it was given or an entry whose name is
    not among the ignored ones. *)
Definition visit (node : Node) (ignoreDirs : list jsstr) (top : jsstr)
           (i : interaction) : Prop :=
  match i with
  | Interact (StatSync _) _ => True
  | Interact (ReaddirSync p) _ =>
      p = top
      \/ exists d e,
          p = join node d e /\ LspAggregator.includes ignoreDirs e = false
  | _ => False
  end.

(** A path that [findFiles] hands back: it has one of the extensions,
    and [statSync] said that it is a regular file. *)
Definition found (node : Node) (extensions : list jsstr)
           (tr : list interaction) (f : jsstr) : Prop :=
  LspAggregator.includes extensions (extname node f) = true
  /\ exists st,
      In (Interact (StatSync f) (Some st)) tr
      /\ isDirectory st = false /\ isFile st = true.

(** A program that walks below [top]: it returns, every path it
    returns was found, and every call it makes is a visit. *)
Definition walks (node : Node) (extensions ignoreDirs : list jsstr)
           (top : jsstr) (p : Prog (list jsstr)) : Prop :=
  forall W (h : handler W) (w : W),
    exists files tr w',
      run h p w = (Returned files, tr, w')
      /\ Forall (found node extensions tr) files
      /\ Forall (visit node ignoreDirs top) tr.

(** The names of a list in the order they are first seen: what
    [Array.from(new Set(names))] holds, and the keys of a [Map] filled
    in that order. *)
Definition first_seen (names : list jsstr) : list jsstr :=
  LspAggregator.add_all names [].

(** The line [formatDiagnosticResult] writes for one diagnostic, after
    what it has written for the file so far. *)
Definition diagnostic_line (node : Node) {D} `{Index.BaseDiagnostic D}
           (fileOutput : jsstr) (diag : D) : outcome jsstr :=
  obind (if truthy (Index.base_code diag)
         then omap (fun c => str " [" ++ c ++ str "]")
                   (ToString node (Index.base_code diag))
         else Returned []) (fun code =>
  obind (ToString node (Index.base_line diag)) (fun line =>
  obind (ToString node (Index.base_column diag)) (fun column =>
  obind (ToString node (Index.base_severity diag)) (fun severity =>
  obind (ToString node (Index.base_message diag)) (fun message =>
  Returned (fileOutput ++ str "  "
            ++ line ++ str ":" ++ column ++ str " - "
            ++ severity ++ code
            ++ str ": " ++ message ++ [10%N])))))).

(** The block [formatDiagnosticResult] writes for one file; writing it
    throws when a field it holds cannot be converted to text. *)
Definition file_block (node : Node) {D} `{Index.BaseDiagnostic D}
           (file : value) (diags : list D) : outcome jsstr :=
  obind (ToString node file) (fun name =>
  ofold (diagnostic_line node) diags (name ++ str ":" ++ [10%N])).

(** A value whose conversion to text does not throw. *)
Definition converts (node : Node) (v : value) : Prop :=
  exists text, ToString node v = Returned text.

(** A diagnostic that [formatDiagnosticResult] can write. *)
Definition writable (node : Node) {D} `{Index.BaseDiagnostic D} (d : D)
  : Prop :=
  converts node (Index.base_file d)
  /\ converts node (Index.base_line d)
  /\ converts node (Index.base_column d)
  /\ converts node (Index.base_severity d)
  /\ converts node (Index.base_message d)
  /\ (truthy (Index.base_code d) = true -> converts node (Index.base_code d)).

(** The entry of the [Map] for one name: the items of that name, in
    their order. *)
Definition group_of {K V} (inj : jsstr -> K) (name : V -> jsstr)
           (ds : list V) (k : jsstr) : K * list V :=
  (inj k, filter (fun d => JsString.eqb (name d) k) ds).

(** A command name that [commandExists] lets through: an ASCII letter
    followed by letters, digits, dots, underscores and hyphens. *)
Definition safe_command (command : jsstr) : Prop :=
  exists c t,
    command = c :: t /\ Spec.ascii_letter c /\ Forall Spec.name_char t.

(** Whether the probe found the command. *)
Definition exited_zero (r : ExecResult) : bool :=
  match r with
  | ExitedZero _ => true
  | ExecThrew _ => false
  end.

(** The probes of a list of servers, one after the other: the answers
    of the platform, and the platform afterwards. *)
Fixpoint probes {W} (node : Node) (h : handler W) (w : W)
         (configs : list Servers.LspServerConfig)
  : list ExecResult * W :=
  match configs with
  | [] => ([], w)
  | config :: more =>
      let op := Servers.probe node (Servers.command config) in
      let '(answers, w') := probes node h (after h op w) more in
      (answer h op w :: answers, w')
  end.

(** The text a pattern goes over: every match of [r] consumes a word
    that satisfies [P]. *)
Definition texts (r : regex) (P : jsstr -> Prop) : Prop :=
  forall s s', rsem r s s' -> exists w, rest s = w ++ rest s' /\ P w.

(** A pattern that can go over the word [w], wherever it stands. *)
Definition eats (r : regex) (w : jsstr) : Prop :=
  forall q cs t, exists q' cs',
    rsem r (MState q (w ++ t) cs) (MState q' t cs').

(** The same, for a pattern that ends with the end of the input. *)
Definition eats_to_end (r : regex) (w : jsstr) : Prop :=
  forall q cs, exists q' cs',
    rsem r (MState q w cs) (MState q' [] cs').

(** A word of one or more characters of a class. *)
Definition some_of (p : cu -> bool) (w : jsstr) : Prop :=
  w <> [] /\ Forall (fun x => p x = true) w.

(** A word without the character [c]. *)
Definition without (c : cu) (w : jsstr) : Prop := Forall (fun x => x <> c) w.

(** A word that is empty or begins with a character outside a
    class. *)
Definition stops (p : cu -> bool) (w : jsstr) : Prop :=
  match w with
  | [] => True
  | x :: _ => p x = false
  end.

(** A line of [tsc --pretty false]. *)
Definition tsc_line (file l c sev n msg : jsstr) : jsstr :=
  file ++ str "(" ++ l ++ str "," ++ c ++ str "): " ++ sev
  ++ str " TS" ++ n ++ str ": " ++ msg.

(** A line of [go vet]. *)
Definition go_line (stem l c msg : jsstr) : jsstr :=
  stem ++ str ".go:" ++ l ++ str ":" ++ c ++ str ": " ++ msg.

(** How often a character stands in a word. *)
Definition occurrences (x : cu) (w : jsstr) : nat :=
  length (filter (N.eqb x) w).

(** A line of [pylint --output-format=text]. *)
Definition pylint_line (stem l c : jsstr) (letter : cu) (n msg : jsstr)
  : jsstr :=
  stem ++ str ".py:" ++ l ++ str ":" ++ c ++ str ": " ++ letter :: n
  ++ str ": " ++ msg.

(** A line of [mypy]: the place, the severity and the message, then
    what follows the message. *)
Definition mypy_text (stem l c sev msg ending : jsstr) : jsstr :=
  stem ++ str ".py:" ++ l ++ str ":" ++ c ++ str ": " ++ sev ++ str ": "
  ++ msg ++ ending.

(** A line of [mypy] with an error code. *)
Definition mypy_line (stem l c sev msg code : jsstr) : jsstr :=
  mypy_text stem l c sev msg (32 :: 91 :: code ++ [93])%N.

(** A line of [mypy] without an error code. *)
Definition mypy_plain_line (stem l c sev msg : jsstr) : jsstr :=
  mypy_text stem l c sev msg [].

(** The end of the mypy pattern: the optional code and the end of the
    line. *)
Definition mypy_tail : regex :=
  rcat [ROpt (rcat [RPlus true (RClass is_space);
                    RChar 91;
                    RGroup 6 (RPlus true (RClass (fun c => negb (N.eqb c 93))));
                    RChar 93]);
        REol true]%N.

End Forms.

(* ------------------------------------------------------------------ *)
(** * Facts about strings and the matcher *)

Module JsStringFacts.

Lemma eqb_eq a b : JsString.eqb a b = true <-> a = b.
Proof.
  revert b; induction a as [|x a IH]; destruct b as [|y b]; simpl;
    try (split; congruence).
  rewrite andb_true_iff, N.eqb_eq, IH. split.
  - intros [-> ->]; reflexivity.
  - intros H; inversion H; auto.
Qed.

Lemma eqb_refl a : JsString.eqb a a = true.
Proof. apply eqb_eq; reflexivity. Qed.

Lemma eqb_neq a b : JsString.eqb a b = false <-> a <> b.
Proof.
  destruct (JsString.eqb a b) eqn:E.
  - apply eqb_eq in E. split; congruence.
  - split; auto. intros _ ->. rewrite eqb_refl in E. discriminate.
Qed.

Lemma contains_app pre needle post :
  contains (pre ++ needle ++ post) needle.
Proof. exists pre, post; reflexivity. Qed.

Lemma contains_mid pre needle post s :
  s = pre ++ needle ++ post -> contains s needle.
Proof. intros ->; apply contains_app. Qed.

End JsStringFacts.

Module RegexFacts.

Section Soundness.

Lemma star_loop_sound a ma g :
  sound_at a ma ->
  forall k fuel s x,
    star_loop ma g k fuel s = Some x ->
    exists s', rsem (RStar g a) s s' /\ k s' = Some x.
Proof.
  intros Hma k fuel.
  induction fuel as [|f IH]; intros s x; simpl.
  - intros Hk. exists s. split; [constructor | exact Hk].
  - set (again := ma _ s).
    assert (Hagain : forall y, again = Some y ->
              exists s', rsem (RStar g a) s s' /\ k s' = Some y).
    { intros y Hy. subst again. apply Hma in Hy.
      destruct Hy as (s1 & Hs1 & Hrest).
      destruct (Nat.ltb (length (rest s1)) (length (rest s))) eqn:L;
        [|discriminate].
      apply Nat.ltb_lt in L.
      apply IH in Hrest. destruct Hrest as (s2 & Hs2 & Hk).
      exists s2. split; [eapply sem_star_step; eauto | exact Hk]. }
    assert (Hstop : forall y, k s = Some y ->
              exists s', rsem (RStar g a) s s' /\ k s' = Some y).
    { intros y Hy. exists s. split; [constructor | exact Hy]. }
    destruct g; unfold orelse.
    + destruct again as [y|] eqn:E.
      * intros H; inversion H; subst. apply Hagain; reflexivity.
      * apply Hstop.
    + destruct (k s) as [y|] eqn:E.
      * intros H; inversion H; subst. apply Hstop; reflexivity.
      * apply Hagain.
Qed.

(** Whatever the matcher returns went through a match of the
    pattern. *)
Lemma rmatch_sound r : sound_at r (rmatch r).
Proof.
  induction r as [|c|p|a IHa b IHb|a IHa b IHb|g a IHa|n a IHa|ml|ml];
    intros k s x; simpl.
  - intros H. exists s. split; [constructor | exact H].
  - destruct (rest s) as [|y t] eqn:E; [discriminate|].
    destruct (N.eqb y c) eqn:C; [|discriminate].
    apply N.eqb_eq in C; subst y. intros H.
    exists (advance c t s). split; [constructor; exact E | exact H].
  - destruct (rest s) as [|y t] eqn:E; [discriminate|].
    destruct (p y) eqn:C; [|discriminate]. intros H.
    exists (advance y t s). split; [constructor; assumption | exact H].
  - intros H. apply IHa in H. destruct H as (s1 & H1 & H).
    apply IHb in H. destruct H as (s2 & H2 & H).
    exists s2. split; [econstructor; eauto | exact H].
  - unfold orelse. destruct (rmatch a k s) as [y|] eqn:E.
    + intros H; inversion H; subst. apply IHa in E.
      destruct E as (s1 & H1 & Hk). exists s1. split; [|exact Hk].
      apply sem_alt_l; exact H1.
    + intros H. apply IHb in H. destruct H as (s1 & H1 & Hk).
      exists s1. split; [|exact Hk]. apply sem_alt_r; exact H1.
  - apply star_loop_sound. exact IHa.
  - intros H. apply IHa in H. destruct H as (s1 & H1 & Hk).
    eexists. split; [constructor; exact H1 | exact Hk].
  - destruct (at_bol ml s) eqn:E; [|discriminate]. intros H.
    exists s. split; [constructor; exact E | exact H].
  - destruct (at_eol ml s) eqn:E; [|discriminate]. intros H.
    exists s. split; [constructor; exact E | exact H].
Qed.

Lemma before_snoc p c pre : before (Some c) pre = before p (c :: pre).
Proof.
  unfold before. simpl. destruct (rev pre) as [|x l]; reflexivity.
Qed.

(** A search returns a match that starts somewhere in the input. *)
Lemma exec_from_sound r input : forall p m,
  exec_from r p input = Some m ->
  exists pre suf,
    input = pre ++ suf /\ rsem r (MState (before p pre) suf []) m.
Proof.
  induction input as [|c t IH]; intros p m; simpl.
  - destruct (rmatch r Some (MState p [] [])) as [y|] eqn:E;
      [|discriminate].
    intros H; inversion H; subst.
    apply rmatch_sound in E. destruct E as (s' & Hs & Hk).
    inversion Hk; subst. exists [], []. split; [reflexivity | exact Hs].
  - destruct (rmatch r Some (MState p (c :: t) [])) as [y|] eqn:E.
    + intros H; inversion H; subst.
      apply rmatch_sound in E. destruct E as (s' & Hs & Hk).
      inversion Hk; subst. exists [], (c :: t).
      split; [reflexivity | exact Hs].
    + intros H. apply IH in H. destruct H as (pre & suf & -> & Hs).
      exists (c :: pre), suf. split; [reflexivity|].
      rewrite <- before_snoc. exact Hs.
Qed.

(** Each element the loop yields is a match begun with no capture. *)
Lemma exec_loop_sound r fuel : forall p input,
  Forall (fun m => exists s0, caps s0 = [] /\ rsem r s0 m)
         (exec_loop fuel r p input).
Proof.
  induction fuel as [|f IH]; intros p input; simpl; [constructor|].
  destruct (exec_from r p input) as [m|] eqn:E; [|constructor].
  constructor; [|apply IH].
  apply exec_from_sound in E. destruct E as (pre & suf & _ & Hs).
  eexists; split; [|exact Hs]. reflexivity.
Qed.

Lemma exec_all_sound r input :
  Forall (fun m => exists s0, caps s0 = [] /\ rsem r s0 m)
         (exec_all r input).
Proof. apply exec_loop_sound. Qed.

End Soundness.

(** A match consumes a prefix of the input ahead, and [captured]
    recovers it. *)
Lemma rsem_prefix r s s' :
  rsem r s s' -> exists w, rest s = w ++ rest s'.
Proof.
  induction 1; simpl;
    try (exists []; reflexivity);
    try (exists [c]; simpl; assumption).
  - destruct IHrsem1 as (w1 & E1), IHrsem2 as (w2 & E2).
    exists (w1 ++ w2). rewrite E1, E2, app_assoc. reflexivity.
  - assumption.
  - assumption.
  - destruct IHrsem1 as (w1 & E1), IHrsem2 as (w2 & E2).
    exists (w1 ++ w2). rewrite E1, E2, app_assoc. reflexivity.
  - assumption.
Qed.

Lemma captured_app s s' w : rest s = w ++ rest s' -> captured s s' = w.
Proof.
  intros E. unfold captured. rewrite E, length_app.
  replace (length w + length (rest s') - length (rest s')) with (length w)
    by lia.
  rewrite firstn_app, firstn_all, Nat.sub_diag. simpl.
  apply app_nil_r.
Qed.

(** A pattern leaves alone the groups it does not contain. *)
Lemma rsem_frame r s s' :
  rsem r s s' ->
  forall n, ~ In n (groups r) -> lookup n (caps s') = lookup n (caps s).
Proof.
  induction 1; intros m Hm; simpl in *; try reflexivity.
  - rewrite IHrsem2, IHrsem1; auto; intros Hin; apply Hm, in_or_app; auto.
  - apply IHrsem. intros Hin; apply Hm, in_or_app; auto.
  - apply IHrsem. intros Hin; apply Hm, in_or_app; auto.
  - rewrite IHrsem2, IHrsem1; auto.
  - destruct (Nat.eqb n m) eqn:E.
    + apply Nat.eqb_eq in E. subst. exfalso. apply Hm. left; reflexivity.
    + apply IHrsem. intros Hin. apply Hm. right; exact Hin.
Qed.

Lemma rsem_seq_inv a b s s2 :
  rsem (RSeq a b) s s2 -> exists s1, rsem a s s1 /\ rsem b s1 s2.
Proof. intros H; inversion H; subst; eauto. Qed.

Lemma rsem_lit w : forall s s',
  rsem (lit w) s s' -> rest s = w ++ rest s'.
Proof.
  induction w as [|c w IH]; intros s s' H.
  - inversion H; subst. reflexivity.
  - unfold lit in H; simpl in H. apply rsem_seq_inv in H.
    destruct H as (s1 & Hc & Hw). apply IH in Hw.
    inversion Hc; subst. simpl in Hw.
    match goal with E : rest s = _ |- _ => rewrite E end.
    rewrite Hw. reflexivity.
Qed.

Lemma rsem_group_alt_lit n u v s s' :
  rsem (RGroup n (RAlt (lit u) (lit v))) s s' ->
  group n s' = Some u \/ group n s' = Some v.
Proof.
  intros H. inversion H as [| | | | | | | |n' a' s0 s1 Ha| |]; subst.
  unfold group; simpl. rewrite Nat.eqb_refl.
  inversion Ha; subst.
  - left. f_equal. apply captured_app. apply rsem_lit. assumption.
  - right. f_equal. apply captured_app. apply rsem_lit. assumption.
Qed.

End RegexFacts.

(** The bounds the matcher counts down from are never reached: more
    fuel changes nothing. *)
Module FuelFacts.
Import RegexFacts.

Lemma star_loop_ext ma g :
  ext_at ma ->
  forall fuel k1 k2, (forall s, k1 s = k2 s) ->
  forall s, star_loop ma g k1 fuel s = star_loop ma g k2 fuel s.
Proof.
  intros Hma. induction fuel as [|f IH]; intros k1 k2 Hk s; simpl.
  - apply Hk.
  - rewrite (Hk s).
    rewrite (Hma _ (fun s' => if Nat.ltb (length (rest s')) (length (rest s))
                             then star_loop ma g k2 f s' else None)).
    + reflexivity.
    + intros s'. destruct (Nat.ltb _ _); [apply IH; exact Hk | reflexivity].
Qed.

Lemma rmatch_ext r : ext_at (rmatch r).
Proof.
  induction r as [|c|p|a IHa b IHb|a IHa b IHb|g a IHa|n a IHa|ml|ml];
    intros k1 k2 Hk s; simpl.
  - apply Hk.
  - destruct (rest s) as [|x t]; [reflexivity|].
    destruct (N.eqb x c); [apply Hk | reflexivity].
  - destruct (rest s) as [|x t]; [reflexivity|].
    destruct (p x); [apply Hk | reflexivity].
  - apply IHa. intros s'. apply IHb. exact Hk.
  - rewrite (IHa k1 k2 Hk), (IHb k1 k2 Hk). reflexivity.
  - apply star_loop_ext; assumption.
  - apply IHa. intros s'. apply Hk.
  - destruct (at_bol ml s); [apply Hk | reflexivity].
  - destruct (at_eol ml s); [apply Hk | reflexivity].
Qed.

Lemma sound_none a ma k s :
  sound_at a ma -> (forall s', k s' = None) -> ma k s = None.
Proof.
  intros Hs Hk. destruct (ma k s) as [x|] eqn:E; [|reflexivity].
  apply Hs in E. destruct E as (s' & _ & E). rewrite Hk in E. discriminate.
Qed.

(** The quantifier loop with any fuel that covers the input ahead. *)
Lemma star_loop_fuel a ma g k :
  sound_at a ma -> ext_at ma ->
  forall f1 f2 s,
    length (rest s) <= f1 -> length (rest s) <= f2 ->
    star_loop ma g k f1 s = star_loop ma g k f2 s.
Proof.
  intros Hs He.
  assert (Stuck : forall f s, length (rest s) = 0 ->
             star_loop ma g k f s = k s).
  { intros [|f] s L; simpl; [reflexivity|].
    rewrite (@sound_none a ma _ s Hs).
    - destruct g; unfold orelse; [reflexivity | destruct (k s); reflexivity].
    - intros s'. rewrite L. reflexivity. }
  induction f1 as [|f1 IH]; intros f2 s L1 L2.
  - rewrite !Stuck by lia. reflexivity.
  - destruct f2 as [|f2]; [rewrite !Stuck by lia; reflexivity|].
    simpl.
    rewrite (He _ (fun s' => if Nat.ltb (length (rest s')) (length (rest s))
                             then star_loop ma g k f2 s' else None)).
    + reflexivity.
    + intros s'. destruct (Nat.ltb _ _) eqn:L; [|reflexivity].
      apply Nat.ltb_lt in L. apply IH; lia.
Qed.

Lemma rsem_shrinks r s s' : rsem r s s' -> length (rest s') <= length (rest s).
Proof.
  intros H. apply rsem_prefix in H. destruct H as (w & ->).
  rewrite length_app. lia.
Qed.

(** A match of a consuming pattern moves on in the input. *)
Lemma rsem_consuming r s s' :
  rsem r s s' -> consuming r = true -> length (rest s') < length (rest s).
Proof.
  induction 1; simpl; try discriminate; intros C.
  - rewrite H. simpl. lia.
  - rewrite H. simpl. lia.
  - apply orb_true_iff in C. destruct C as [C | C].
    + specialize (IHrsem1 C). apply rsem_shrinks in H0. lia.
    + specialize (IHrsem2 C). apply rsem_shrinks in H. lia.
  - apply andb_true_iff in C. apply IHrsem, C.
  - apply andb_true_iff in C. apply IHrsem, C.
  - apply IHrsem, C.
Qed.

Lemma exec_from_consumes r input : forall p m,
  consuming r = true ->
  exec_from r p input = Some m -> length (rest m) < length input.
Proof.
  intros p m C E. apply exec_from_sound in E.
  destruct E as (pre & suf & -> & H).
  apply rsem_consuming in H; [|exact C]. simpl in H.
  rewrite length_app. lia.
Qed.

(** The loop over the matches with any fuel above the length of the
    input. *)
Lemma exec_loop_fuel r :
  consuming r = true ->
  forall f1 f2 p input,
    length input < f1 -> length input < f2 ->
    exec_loop f1 r p input = exec_loop f2 r p input.
Proof.
  intros C. induction f1 as [|f1 IH]; intros f2 p input L1 L2; [lia|].
  destruct f2 as [|f2]; [lia|]. simpl.
  destruct (exec_from r p input) as [m|] eqn:E; [|reflexivity].
  f_equal. apply exec_from_consumes in E; [|exact C].
  apply IH; lia.
Qed.

Lemma patterns_consume :
  consuming TscRunner.regex = true
  /\ consuming GoRunner.regex = true
  /\ consuming PythonRunner.mypy_regex = true
  /\ consuming PythonRunner.pylint_regex = true.
Proof. repeat split; vm_compute; reflexivity. Qed.

(** Captures are only ever added. *)
Lemma rsem_keeps r s s' :
  rsem r s s' -> forall n, lookup n (caps s) <> None ->
  lookup n (caps s') <> None.
Proof.
  induction 1; intros m Hm; simpl; auto.
  destruct (Nat.eqb n m); [discriminate | auto].
Qed.

(** The groups outside every alternative and every quantifier are set
    by every match. *)
Lemma rsem_defines r s s' :
  rsem r s s' -> forall n, In n (sure_groups r) -> group n s' <> None.
Proof.
  unfold group. induction 1; intros m Hm; simpl in *; try contradiction.
  - apply in_app_or in Hm. destruct Hm as [Hm | Hm].
    + eapply rsem_keeps; eauto.
    + auto.
  - destruct (Nat.eqb n m) eqn:E; [discriminate|].
    destruct Hm as [Hm | Hm]; [subst; rewrite Nat.eqb_refl in E; discriminate|].
    auto.
Qed.

(** Every group the parsers read as a string is set in each match. *)
Lemma groups_read_are_set :
  sure_groups TscRunner.regex = [1; 2; 3; 4; 5; 6]
  /\ sure_groups GoRunner.regex = [1; 2; 3; 4]
  /\ sure_groups PythonRunner.mypy_regex = [1; 2; 3; 4; 5]
  /\ sure_groups PythonRunner.pylint_regex = [1; 2; 3; 4; 5].
Proof. repeat split; vm_compute; reflexivity. Qed.

End FuelFacts.

(* ------------------------------------------------------------------ *)
(** * Facts about programs *)

Module EffectsFacts.

Lemma run_bind {W A B} (h : handler W) (p : Prog A) (f : A -> Prog B) :
  forall w,
    run h (bind p f) w =
    let '(o, t, w1) := run h p w in
    match o with
    | Returned a =>
        let '(o2, t2, w2) := run h (f a) w1 in (o2, t ++ t2, w2)
    | Thrown e => (Thrown e, t, w1)
    end.
Proof.
  induction p as [a|e|X op k IH]; intros w; simpl.
  - destruct (run h (f a) w) as [[o2 t2] w2]. reflexivity.
  - reflexivity.
  - destruct (h X op w) as [x w1]. rewrite IH.
    destruct (run h (k x) w1) as [[o t] w2].
    destruct o as [a|e]; [|reflexivity].
    destruct (run h (f a) w2) as [[o2 t2] w3]. reflexivity.
Qed.

Lemma run_do {W A X} (h : handler W) (op : Op X) (k : X -> Prog A) w :
  run h (Do op k) w =
  let '(o, t, w2) := run h (k (answer h op w)) (after h op w) in
  (o, Interact op (answer h op w) :: t, w2).
Proof.
  unfold answer, after. simpl. destruct (h X op w) as [x w1]. reflexivity.
Qed.

End EffectsFacts.

(* ------------------------------------------------------------------ *)
(** * Facts about the parsers *)

Module ParserFacts.
Import JsStringFacts RegexFacts.

(** Counting two different severities over a list in which every
    element has one of them. *)
Lemma two_way_count {D} (sev : D -> jsstr) (e w : jsstr) (ds : list D) :
  e <> w ->
  Forall (fun d => sev d = e \/ sev d = w) ds ->
  length (filter (fun d => JsString.eqb (sev d) e) ds)
  + length (filter (fun d => JsString.eqb (sev d) w) ds) = length ds.
Proof.
  intros Hne. induction 1 as [|d ds Hd _ IH]; simpl; [reflexivity|].
  destruct Hd as [-> | ->].
  - rewrite eqb_refl.
    destruct (JsString.eqb e w) eqn:E; [apply eqb_eq in E; contradiction|].
    simpl. lia.
  - rewrite eqb_refl.
    destruct (JsString.eqb w e) eqn:E;
      [apply eqb_eq in E; symmetry in E; contradiction|].
    simpl. lia.
Qed.

Lemma error_is_not_warning : str "error" <> str "warning".
Proof. discriminate. Qed.

(** No element with the severity: the count is zero. *)
Lemma none_counted {D} (sev : D -> jsstr) (e w : jsstr) (ds : list D) :
  e <> w ->
  Forall (fun d => sev d = w) ds ->
  length (filter (fun d => JsString.eqb (sev d) e) ds) = 0.
Proof.
  intros Hne. induction 1 as [|d ds Hd _ IH]; simpl; [reflexivity|].
  rewrite Hd.
  destruct (JsString.eqb w e) eqn:E;
    [apply eqb_eq in E; symmetry in E; contradiction | exact IH].
Qed.

(** ** tsc: the fourth group is one of the two words of its
    alternation *)
Lemma tsc_group4 s m :
  rsem TscRunner.regex s m ->
  group 4 m = Some (str "error") \/ group 4 m = Some (str "warning").
Proof.
  unfold TscRunner.regex. cbn [rcat]. intros H.
  do 9 (apply rsem_seq_inv in H; destruct H as (? & _ & H)).
  apply rsem_seq_inv in H. destruct H as (sb & HG & HR).
  apply rsem_group_alt_lit in HG.
  assert (F : group 4 m = group 4 sb).
  { unfold group. apply (rsem_frame HR). vm_compute.
    intros [E|[E|[]]]; discriminate. }
  rewrite F. exact HG.
Qed.

Lemma tsc_severities output :
  Forall (fun d => TscRunner.severity d = str "error"
                   \/ TscRunner.severity d = str "warning")
         (TscRunner.diagnostics (TscRunner.parseTscOutput output)).
Proof.
  unfold TscRunner.parseTscOutput; simpl.
  apply Forall_map.
  eapply Forall_impl; [|apply (exec_all_sound TscRunner.regex output)].
  intros m (s0 & _ & Hm). simpl.
  unfold group_text. destruct (tsc_group4 Hm) as [-> | ->]; auto.
Qed.

Lemma mypy_severities output :
  Forall (fun d => PythonRunner.severity d = str "error"
                   \/ PythonRunner.severity d = str "warning")
         (PythonRunner.diagnostics (PythonRunner.parseMypyOutput output)).
Proof.
  unfold PythonRunner.parseMypyOutput; simpl.
  apply Forall_map. apply Forall_forall. intros m _. simpl.
  destruct (JsString.eqb _ _); auto.
Qed.

Lemma pylint_severities output :
  Forall (fun d => PythonRunner.severity d = str "error"
                   \/ PythonRunner.severity d = str "warning")
         (PythonRunner.diagnostics (PythonRunner.parsePylintOutput output)).
Proof.
  unfold PythonRunner.parsePylintOutput; simpl.
  apply Forall_map. apply Forall_forall. intros m _. simpl.
  destruct (_ || _); auto.
Qed.

Lemma go_severities output :
  Forall (fun d => GoRunner.severity d = str "warning")
         (GoRunner.diagnostics (GoRunner.parseGoOutput output)).
Proof.
  unfold GoRunner.parseGoOutput; simpl.
  apply Forall_map. apply Forall_forall. intros m _. reflexivity.
Qed.

(** ** cargo: what the loop keeps *)

Lemma is_string_eq v s : is_string v s = true <-> v = VStr s.
Proof.
  destruct v; simpl; try (split; [discriminate | intros H; inversion H]).
  - rewrite eqb_eq. split; [intros ->; reflexivity | intros H; inversion H; auto].
Qed.

Lemma rust_line_severity line d :
  RustRunner.diagnostic_of_line line = Returned (Some d) -> Spec.rust_sev_ok d.
Proof.
  unfold RustRunner.diagnostic_of_line.
  destruct (is_empty (trim line)); [discriminate|].
  destruct (JSON_parse (trim line)) as [msg|]; [|discriminate].
  destruct (get_prop msg _) as [reason|]; simpl; [|discriminate].
  destruct (negb (is_string reason _)); [discriminate|].
  destruct (get_prop msg _) as [inner|]; simpl; [|discriminate].
  destruct (negb (truthy inner)); [discriminate|].
  destruct (get_prop inner (str "level")) as [level|]; simpl; [|discriminate].
  destruct (is_string level (str "error")) eqn:E1;
    destruct (is_string level (str "warning")) eqn:E2; simpl;
    try discriminate.
  all: destruct (get_prop inner (str "spans")) as [spans|]; simpl;
    [|discriminate].
  all: destruct (RustRunner.primary_span spans) as [sp|]; simpl;
    [|discriminate].
  all: destruct (negb (truthy sp)); [discriminate|].
  all: destruct (RustRunner.code_of inner) as [c|]; simpl; [|discriminate].
  all: destruct (get_prop inner (str "message")) as [mm|]; simpl;
    [|discriminate].
  all: destruct (get_prop sp (str "file_name")) as [f|]; simpl;
    [|discriminate].
  all: destruct (get_prop sp (str "line_start")) as [l|]; simpl;
    [|discriminate].
  all: destruct (get_prop sp (str "column_start")) as [cl|]; simpl;
    [|discriminate].
  all: intros H; inversion H; subst; unfold Spec.rust_sev_ok; simpl.
  all: try (apply is_string_eq in E1; auto).
  all: try (apply is_string_eq in E2; auto).
Qed.

Lemma rust_collect_severities lines : forall ds,
  RustRunner.collect lines = Returned ds -> Forall Spec.rust_sev_ok ds.
Proof.
  induction lines as [|l more IH]; simpl; intros ds H.
  - inversion H; constructor.
  - destruct (RustRunner.diagnostic_of_line l) as [d|] eqn:E; simpl in H;
      [|discriminate].
    destruct (RustRunner.collect more) as [ds'|]; simpl in H; [|discriminate].
    inversion H; subst. specialize (IH _ eq_refl).
    destruct d as [d|]; [|exact IH].
    constructor; [eapply rust_line_severity; eauto | exact IH].
Qed.

Lemma rust_two_way_count (ds : list RustRunner.RustDiagnostic) :
  Forall Spec.rust_sev_ok ds ->
  length (filter (fun d => is_string (RustRunner.severity d) (str "error")) ds)
  + length (filter (fun d => is_string (RustRunner.severity d) (str "warning")) ds)
  = length ds.
Proof.
  induction 1 as [|d ds Hd _ IH]; simpl; [reflexivity|].
  destruct Hd as [-> | ->]; simpl; lia.
Qed.

End ParserFacts.

(* ------------------------------------------------------------------ *)
(** * Results of the parsers and the runners *)

Module ResultFacts.
Import JsStringFacts RegexFacts ParserFacts EffectsFacts.

Lemma eqb0_iff (b : bool) (n : nat) :
  b = Nat.eqb n 0 -> (b = true <-> n = 0).
Proof. intros ->. apply Nat.eqb_eq. Qed.

(** Every parser splits its diagnostics into the two counts. *)
Lemma counts_partition output :
  (let r := TscRunner.parseTscOutput output in
   TscRunner.errorCount r + TscRunner.warningCount r
   = length (TscRunner.diagnostics r))
  /\ (let r := GoRunner.parseGoOutput output in
      GoRunner.errorCount r + GoRunner.warningCount r
      = length (GoRunner.diagnostics r))
  /\ (let r := PythonRunner.parseMypyOutput output in
      PythonRunner.errorCount r + PythonRunner.warningCount r
      = length (PythonRunner.diagnostics r))
  /\ (let r := PythonRunner.parsePylintOutput output in
      PythonRunner.errorCount r + PythonRunner.warningCount r
      = length (PythonRunner.diagnostics r))
  /\ (forall r, RustRunner.parseRustOutput output = Returned r ->
      RustRunner.errorCount r + RustRunner.warningCount r
      = length (RustRunner.diagnostics r)).
Proof.
  repeat split.
  - apply (two_way_count TscRunner.severity error_is_not_warning).
    apply tsc_severities.
  - apply (two_way_count PythonRunner.severity error_is_not_warning).
    apply mypy_severities.
  - apply (two_way_count PythonRunner.severity error_is_not_warning).
    apply pylint_severities.
  - intros r. unfold RustRunner.parseRustOutput.
    destruct (RustRunner.collect _) as [ds|] eqn:E; simpl; [|discriminate].
    intros H; inversion H; subst; simpl.
    apply rust_two_way_count. eapply rust_collect_severities; eauto.
Qed.

Lemma length0 {A} (l : list A) : Nat.eqb (length l) 0 = true <-> l = [].
Proof. rewrite Nat.eqb_eq. destruct l; simpl; split; congruence. Qed.

Lemma tsc_parse_verdict output :
  Spec.tsc_verdict (TscRunner.parseTscOutput output).
Proof.
  split; [apply eqb0_iff; reflexivity|]. intros Hw.
  apply (@eqb0_iff _ (TscRunner.errorCount (TscRunner.parseTscOutput output)));
    [reflexivity|].
  apply (none_counted TscRunner.severity error_is_not_warning Hw).
Qed.

Lemma mypy_parse_verdict output :
  Spec.python_verdict (PythonRunner.parseMypyOutput output).
Proof.
  split; [apply eqb0_iff; reflexivity|]. intros Hw.
  apply (@eqb0_iff _ (PythonRunner.errorCount
                        (PythonRunner.parseMypyOutput output)));
    [reflexivity|].
  apply (none_counted PythonRunner.severity error_is_not_warning Hw).
Qed.

Lemma pylint_parse_verdict output :
  Spec.python_verdict (PythonRunner.parsePylintOutput output).
Proof.
  split; [apply eqb0_iff; reflexivity|]. intros Hw.
  apply (@eqb0_iff _ (PythonRunner.errorCount
                        (PythonRunner.parsePylintOutput output)));
    [reflexivity|].
  apply (none_counted PythonRunner.severity error_is_not_warning Hw).
Qed.

Lemma rust_parse_verdict output r :
  RustRunner.parseRustOutput output = Returned r -> Spec.rust_verdict r.
Proof.
  unfold RustRunner.parseRustOutput.
  destruct (RustRunner.collect _) as [ds|]; simpl; [|discriminate].
  intros H; inversion H; subst; clear H. split; simpl; [apply Nat.eqb_eq|].
  intros Hw. apply Nat.eqb_eq.
  induction Hw as [|d ds' Hd _ IH]; simpl; [reflexivity|].
  rewrite Hd. simpl. exact IH.
Qed.

Lemma go_parse_verdict output :
  Spec.go_verdict (GoRunner.parseGoOutput output).
Proof. split; [reflexivity | apply length0]. Qed.

(** The results a runner builds itself: nothing found, or the crash. *)
Lemma tsc_plain_verdict why :
  Spec.tsc_verdict {| TscRunner.success := true; TscRunner.diagnostics := [];
                      TscRunner.errorCount := 0; TscRunner.warningCount := 0;
                      TscRunner.skipped := why |}.
Proof. split; simpl; [split; reflexivity | reflexivity]. Qed.

Lemma rust_plain_verdict why :
  Spec.rust_verdict {| RustRunner.success := true; RustRunner.diagnostics := [];
                       RustRunner.errorCount := 0; RustRunner.warningCount := 0;
                       RustRunner.skipped := why |}.
Proof. split; simpl; [split; reflexivity | reflexivity]. Qed.

Lemma go_plain_verdict why :
  Spec.go_verdict {| GoRunner.success := true; GoRunner.diagnostics := [];
                     GoRunner.errorCount := 0; GoRunner.warningCount := 0;
                     GoRunner.skipped := why |}.
Proof. split; simpl; [reflexivity | split; reflexivity]. Qed.

Lemma python_clean_verdict t why :
  Spec.python_verdict (PythonRunner.clean t why).
Proof. split; simpl; [split; reflexivity | reflexivity]. Qed.

Lemma python_crash_verdict t c msg :
  Spec.python_verdict (PythonRunner.crash t c msg).
Proof.
  split; simpl; [split; discriminate|].
  intros H. inversion H as [|d ds Hd _]; subst. discriminate Hd.
Qed.

Lemma tsc_runner_verdict node W (h : handler W) w d r :
  result_of (run h (TscRunner.runTscDiagnostics node d) w) = Returned r ->
  Spec.tsc_verdict r.
Proof.
  unfold TscRunner.runTscDiagnostics, result_of. simpl.
  destruct (h _ _ w) as [present w1]. destruct present; simpl.
  - destruct (h _ _ w1) as [res w2]. destruct res as [out|error]; simpl.
    + intros H; inversion H; apply tsc_plain_verdict.
    + destruct (code_is error _); simpl.
      * intros H; inversion H; apply tsc_plain_verdict.
      * destruct (is_empty _); simpl; intros H; inversion H.
        -- split; simpl; [split; discriminate|].
           intros F. inversion F as [|x l Hx _]; subst. discriminate Hx.
        -- apply tsc_parse_verdict.
  - intros H; inversion H; apply tsc_plain_verdict.
Qed.

Lemma rust_runner_verdict node W (h : handler W) w d r :
  result_of (run h (RustRunner.runRustDiagnostics node d) w) = Returned r ->
  Spec.rust_verdict r.
Proof.
  unfold RustRunner.runRustDiagnostics, result_of. simpl.
  destruct (h _ _ w) as [present w1]. destruct present; simpl.
  - destruct (h _ _ w1) as [res w2]. destruct res as [out|error]; simpl.
    + intros H; inversion H; apply rust_plain_verdict.
    + destruct (code_is error _); simpl.
      * intros H; inversion H; apply rust_plain_verdict.
      * destruct (RustRunner.parseRustOutput _) as [r'|] eqn:E; simpl.
        -- intros H; inversion H; subst. eapply rust_parse_verdict; eauto.
        -- discriminate.
  - intros H; inversion H; apply rust_plain_verdict.
Qed.

Lemma go_runner_verdict node W (h : handler W) w d r :
  result_of (run h (GoRunner.runGoDiagnostics node d) w) = Returned r ->
  Spec.go_verdict r.
Proof.
  unfold GoRunner.runGoDiagnostics, result_of. simpl.
  destruct (h _ _ w) as [present w1]. destruct present; simpl.
  - destruct (h _ _ w1) as [res w2]. destruct res as [out|error]; simpl.
    + intros H; inversion H; apply go_plain_verdict.
    + destruct (code_is error _); simpl; intros H; inversion H.
      * apply go_plain_verdict.
      * apply go_parse_verdict.
  - intros H; inversion H; apply go_plain_verdict.
Qed.

Lemma mypy_run_verdict W (h : handler W) w d r :
  result_of (run h (PythonRunner.runMypy d) w) = Returned r ->
  Spec.python_verdict r.
Proof.
  unfold PythonRunner.runMypy, result_of. simpl.
  destruct (h _ _ w) as [res w2]. destruct res as [out|error]; simpl.
  - intros H; inversion H; apply python_clean_verdict.
  - destruct (code_is error _); simpl.
    + intros H; inversion H; apply python_clean_verdict.
    + destruct (is_empty _); simpl; intros H; inversion H.
      * apply python_crash_verdict.
      * apply mypy_parse_verdict.
Qed.

Lemma pylint_run_verdict W (h : handler W) w d r :
  result_of (run h (PythonRunner.runPylint d) w) = Returned r ->
  Spec.python_verdict r.
Proof.
  unfold PythonRunner.runPylint, result_of. simpl.
  destruct (h _ _ w) as [res w2]. destruct res as [out|error]; simpl.
  - intros H; inversion H; apply python_clean_verdict.
  - destruct (code_is error _); simpl.
    + intros H; inversion H; apply python_clean_verdict.
    + destruct (is_empty _); simpl; intros H; inversion H.
      * apply python_crash_verdict.
      * apply pylint_parse_verdict.
Qed.

(** A command with a safe name is looked up with the probe. *)
Lemma commandExists_safe node command :
  is_empty command = false ->
  test Servers.safe_name command = true ->
  Servers.commandExists node command =
  Do (Servers.probe node command)
     (fun r => match r with
               | ExitedZero _ => Ret true
               | ExecThrew _ => Ret false
               end).
Proof.
  intros E T. unfold Servers.commandExists. rewrite E, T. reflexivity.
Qed.

Lemma mypy_is_safe : test Servers.safe_name (str "mypy") = true.
Proof. vm_compute. reflexivity. Qed.

Lemma pylint_is_safe : test Servers.safe_name (str "pylint") = true.
Proof. vm_compute. reflexivity. Qed.

Lemma python_runner_verdict node W (h : handler W) w d r :
  result_of (run h (PythonRunner.runPythonDiagnostics node d) w) = Returned r ->
  Spec.python_verdict r.
Proof.
  unfold PythonRunner.runPythonDiagnostics.
  rewrite (@commandExists_safe node (str "mypy") eq_refl mypy_is_safe).
  rewrite (@commandExists_safe node (str "pylint") eq_refl pylint_is_safe).
  unfold result_of. cbn [bind call run].
  destruct (h _ _ w) as [a1 w1]. destruct (h _ _ w1) as [a2 w2].
  destruct (h _ _ w2) as [a3 w3].
  destruct (negb a1 && negb a2 && negb a3).
  - simpl. intros H; inversion H; apply python_clean_verdict.
  - cbn [bind run]. destruct (h _ _ w3) as [m w4].
    destruct m as [out|err].
    + cbn [bind]. intros H.
      apply (@mypy_run_verdict W h w4 d r). unfold result_of.
      destruct (run h (PythonRunner.runMypy d) w4) as [[o t] w5].
      exact H.
    + cbn [bind run]. destruct (h _ _ w4) as [pl w5].
      destruct pl as [out|err2].
      * cbn [bind]. intros H.
        apply (@pylint_run_verdict W h w5 d r). unfold result_of.
        destruct (run h (PythonRunner.runPylint d) w5) as [[o t] w6].
        exact H.
      * simpl. intros H; inversion H; apply python_clean_verdict.
Qed.

End ResultFacts.

(* ------------------------------------------------------------------ *)
(** * The unit tests of the repository, replayed on the embedding *)

Module UnitTests.

Definition nl : jsstr := [10%N].

Example go_parses_vet_output :
  let r := GoRunner.parseGoOutput
             (str "main.go:10:5: unreachable code" ++ nl
              ++ str "pkg/util.go:25:12: result of fmt.Sprintf call not used") in
  map (fun d => (GoRunner.file d, GoRunner.line d, GoRunner.column d,
                 GoRunner.message d, GoRunner.severity d))
      (GoRunner.diagnostics r)
  = [ (str "main.go", of_Z 10, of_Z 5, str "unreachable code", str "warning");
      (str "pkg/util.go", of_Z 25, of_Z 12,
       str "result of fmt.Sprintf call not used", str "warning") ]
  /\ GoRunner.warningCount r = 2.
Proof. vm_compute. split; reflexivity. Qed.

Example go_keeps_windows_paths :
  map GoRunner.file
      (GoRunner.diagnostics
         (GoRunner.parseGoOutput
            (str "C:\Users\dev\project\main.go:10:5: unreachable code")))
  = [str "C:\Users\dev\project\main.go"].
Proof. vm_compute. reflexivity. Qed.

Example go_ignores_noise :
  let r := GoRunner.parseGoOutput
             (str "not valid output" ++ nl ++ str "random noise" ++ nl) in
  GoRunner.diagnostics r = [] /\ GoRunner.success r = true.
Proof. vm_compute. split; reflexivity. Qed.

Example tsc_parses_errors :
  let r := TscRunner.parseTscOutput
             (str "src/index.ts(10,5): error TS2345: Argument of type 'string' is not assignable to parameter of type 'number'."
              ++ nl
              ++ str "src/utils.ts(25,12): error TS2304: Cannot find name 'foo'.") in
  TscRunner.errorCount r = 2 /\ TscRunner.warningCount r = 0
  /\ TscRunner.success r = false
  /\ hd_error (TscRunner.diagnostics r)
     = Some {| TscRunner.file := str "src/index.ts";
               TscRunner.line := of_Z 10;
               TscRunner.column := of_Z 5;
               TscRunner.code := str "TS2345";
               TscRunner.message := str "Argument of type 'string' is not assignable to parameter of type 'number'.";
               TscRunner.severity := str "error" |}.
Proof. vm_compute. repeat split; reflexivity. Qed.

Example tsc_warnings_pass :
  let r := TscRunner.parseTscOutput
             (str "src/index.ts(5,1): warning TS6133: 'x' is declared but its value is never read.") in
  length (TscRunner.diagnostics r) = 1 /\ TscRunner.errorCount r = 0
  /\ TscRunner.warningCount r = 1 /\ TscRunner.success r = true.
Proof. vm_compute. repeat split; reflexivity. Qed.

Example mypy_skips_notes :
  let r := PythonRunner.parseMypyOutput
             (str "main.py:10:5: error: Incompatible types [arg-type]" ++ nl
              ++ str "utils.py:25:1: warning: Unused variable [unused-variable]"
              ++ nl ++ str "main.py:15:1: note: See docs for details") in
  map (fun d => (PythonRunner.message d, PythonRunner.code d))
      (PythonRunner.diagnostics r)
  = [ (str "Incompatible types", str "arg-type");
      (str "Unused variable", str "unused-variable") ]
  /\ PythonRunner.errorCount r = 1 /\ PythonRunner.warningCount r = 1
  /\ PythonRunner.tool r = PythonRunner.mypy.
Proof. vm_compute. repeat split; reflexivity. Qed.

Example pylint_fatal_is_an_error :
  let r := PythonRunner.parsePylintOutput
             (str "main.py:1:0: F0001: error in module (fatal)") in
  map PythonRunner.severity (PythonRunner.diagnostics r) = [str "error"]
  /\ PythonRunner.errorCount r = 1.
Proof. vm_compute. split; reflexivity. Qed.

Example pylint_codes :
  let r := PythonRunner.parsePylintOutput
             (str "main.py:10:5: E0001: syntax error" ++ nl
              ++ str "main.py:20:0: W0611: Unused import") in
  map PythonRunner.severity (PythonRunner.diagnostics r)
  = [str "error"; str "warning"]
  /\ PythonRunner.tool r = PythonRunner.pylint.
Proof. vm_compute. split; reflexivity. Qed.

Example cargo_ignores_other_reasons :
  RustRunner.parseRustOutput
    (qstr "{'reason':'compiler-artifact','package_id':'test','target':{'name':'test'}}"
     ++ nl ++ qstr "{'reason':'build-finished','success':false}")
  = Returned {| RustRunner.success := true; RustRunner.diagnostics := [];
                RustRunner.errorCount := 0; RustRunner.warningCount := 0;
                RustRunner.skipped := None |}.
Proof. vm_compute. reflexivity. Qed.

Example cargo_warning_without_code :
  match RustRunner.parseRustOutput
          (qstr "{'reason':'compiler-message','package_id':'test','manifest_path':'/test/Cargo.toml','target':{'name':'test'},'message':{'message':'unused variable: `x`','code':null,'level':'warning','spans':[{'file_name':'src/lib.rs','line_start':3,'line_end':3,'column_start':9,'column_end':10,'is_primary':true,'text':[],'label':null}],'children':[],'rendered':null}}")
  with
  | Returned r =>
      map (fun d => (RustRunner.code d, RustRunner.severity d))
          (RustRunner.diagnostics r)
      = [(VStr [], VStr (str "warning"))]
  | Thrown _ => False
  end.
Proof. vm_compute. reflexivity. Qed.

Example extension_cache_recomputes_the_same :
  let '(first, cache) := LspAggregator.getAllSupportedExtensions None in
  let '(again, _) :=
    LspAggregator.getAllSupportedExtensions
      (LspAggregator.invalidateExtensionCache cache) in
  again = first /\ length first = 50.
Proof. vm_compute. split; reflexivity. Qed.

End UnitTests.

(* ------------------------------------------------------------------ *)
(** * The properties *)

Import JsStringFacts RegexFacts ParserFacts EffectsFacts ResultFacts.

(** C1, as stated, fails: on one line of [go vet] output [parseGoOutput]
    returns a result whose only diagnostic is a warning and whose
    [errorCount] is 0, yet [success] is false. *)
Lemma go_findings_fail_the_run :
  let r := GoRunner.parseGoOutput (str "main.go:10:5: unreachable code") in
  Forall (fun d => GoRunner.severity d = str "warning") (GoRunner.diagnostics r)
  /\ length (GoRunner.diagnostics r) = 1
  /\ ~ (GoRunner.success r = true <-> GoRunner.errorCount r = 0).
Proof.
  vm_compute. split; [|split].
  - repeat constructor.
  - reflexivity.
  - intros [_ H]. specialize (H eq_refl). discriminate.
Qed.

(** C1, amended: in every result of the tsc, cargo, mypy and pylint
    parsers and of the tsc, cargo and Python runners, [success] is true
    exactly when [errorCount] is 0, and so it is true when every
    diagnostic is a warning; in every result of [parseGoOutput] and
    [runGoDiagnostics], [errorCount] is 0 and [success] is true exactly
    when there is no diagnostic at all. *)
Theorem success_iff_no_error_but_for_go :
  (forall output,
      Spec.tsc_verdict (TscRunner.parseTscOutput output)
      /\ Spec.python_verdict (PythonRunner.parseMypyOutput output)
      /\ Spec.python_verdict (PythonRunner.parsePylintOutput output)
      /\ (forall r, RustRunner.parseRustOutput output = Returned r ->
                    Spec.rust_verdict r)
      /\ Spec.go_verdict (GoRunner.parseGoOutput output))
  /\ (forall node W (h : handler W) w directory,
      (forall r,
          result_of (run h (TscRunner.runTscDiagnostics node directory) w)
          = Returned r -> Spec.tsc_verdict r)
      /\ (forall r,
          result_of (run h (RustRunner.runRustDiagnostics node directory) w)
          = Returned r -> Spec.rust_verdict r)
      /\ (forall r,
          result_of (run h (PythonRunner.runPythonDiagnostics node directory) w)
          = Returned r -> Spec.python_verdict r)
      /\ (forall r,
          result_of (run h (GoRunner.runGoDiagnostics node directory) w)
          = Returned r -> Spec.go_verdict r)).
Proof.
  split.
  - intros output. split; [|split; [|split; [|split]]].
    + apply tsc_parse_verdict.
    + apply mypy_parse_verdict.
    + apply pylint_parse_verdict.
    + intros r. apply rust_parse_verdict.
    + apply go_parse_verdict.
  - intros node W h w directory. split; [|split; [|split]]; intros r.
    + apply tsc_runner_verdict.
    + apply rust_runner_verdict.
    + apply python_runner_verdict.
    + apply go_runner_verdict.
Qed.

Lemma success_iff_no_error_but_for_go_witness :
  (let r := TscRunner.parseTscOutput
              (str "src/index.ts(5,1): warning TS6133: 'x' is declared but its value is never read.") in
   length (TscRunner.diagnostics r) = 1 /\ TscRunner.success r = true)
  /\ match RustRunner.parseRustOutput
             (qstr "{'reason':'compiler-message','message':{'message':'mismatched types','code':{'code':'E0308'},'level':'error','spans':[{'file_name':'src/main.rs','line_start':10,'column_start':5,'is_primary':true}]}}")
     with
     | Returned r =>
         length (RustRunner.diagnostics r) = 1 /\ Spec.rust_verdict r
     | Thrown _ => False
     end
  /\ match result_of
             (run (Scenario.steady
                     (Scenario.project [str "go.mod"]
                        (fun _ _ =>
                           ExecThrew {| code := None; stdout := None;
                                        stderr := Some (str "./main.go:10:5: unreachable code") |})))
                  (GoRunner.runGoDiagnostics Scenario.posix (str "/p")) tt)
     with
     | Returned r =>
         length (GoRunner.diagnostics r) = 1 /\ Spec.go_verdict r
     | Thrown _ => False
     end.
Proof.
  destruct success_iff_no_error_but_for_go as (Hparse & Hrun).
  split; [|split].
  - split; [vm_compute; reflexivity|].
    apply (proj1 (Hparse (str "src/index.ts(5,1): warning TS6133: 'x' is declared but its value is never read."))).
    vm_compute. repeat constructor.
  - match goal with
    | |- match ?p with _ => _ end => destruct p as [r|e] eqn:E
    end.
    + split; [|exact (proj1 (proj2 (proj2 (proj2 (Hparse _)))) r E)].
      vm_compute in E. inversion E. reflexivity.
    + vm_compute in E. discriminate E.
  - match goal with
    | |- match ?p with _ => _ end => destruct p as [r|e] eqn:E
    end.
    + split;
        [|exact (proj2 (proj2 (proj2 (Hrun _ _ _ _ _))) r E)].
      vm_compute in E. inversion E. reflexivity.
    + vm_compute in E. discriminate E.
Defined.

(** When the tool fails without a code and without output, the tsc
    runner and the two Python runners report the crash as one error at
    [.], line 0, column 0. *)
Lemma silent_failure_is_reported_by_tsc_mypy_pylint
      node W (h : handler W) w directory e :
  Spec.no_output e ->
  (answer h (ExistsSync (join node directory (str "tsconfig.json"))) w = true ->
   answer h (ExecFileSync (str "tsc")
               [str "--noEmit"; str "--pretty"; str "false"]
               (pipe_options directory))
          (after h (ExistsSync (join node directory (str "tsconfig.json"))) w)
   = ExecThrew e ->
   result_of (run h (TscRunner.runTscDiagnostics node directory) w)
   = Returned {| TscRunner.success := false;
                 TscRunner.diagnostics := [TscRunner.crash];
                 TscRunner.errorCount := 1;
                 TscRunner.warningCount := 0;
                 TscRunner.skipped := None |})
  /\ (answer h (ExecFileSync (str "mypy")
                  [str "."; str "--ignore-missing-imports"]
                  (pipe_options directory)) w = ExecThrew e ->
      exists msg,
        result_of (run h (PythonRunner.runMypy directory) w)
        = Returned (PythonRunner.crash PythonRunner.mypy (str "mypy-crash") msg))
  /\ (answer h (ExecFileSync (str "pylint")
                  [str "--output-format=text"; str "--score=no"; str "."]
                  (pipe_options directory)) w = ExecThrew e ->
      exists msg,
        result_of (run h (PythonRunner.runPylint directory) w)
        = Returned (PythonRunner.crash PythonRunner.pylint (str "pylint-crash") msg)).
Proof.
  intros (Hc & Ho & He).
  assert (Hcode : code_is e (str "ENOENT") = false).
  { unfold code_is. rewrite Hc. reflexivity. }
  assert (Hout : or_str (stdout e) (or_str (stderr e) []) = []).
  { rewrite He. exact Ho. }
  unfold answer, after, result_of. repeat split.
  - unfold TscRunner.runTscDiagnostics. simpl.
    destruct (h _ _ w) as [present w1]. simpl. intros ->. simpl.
    destruct (h _ _ w1) as [res w2]. simpl. intros ->. simpl.
    rewrite Hcode, Hout. reflexivity.
  - unfold PythonRunner.runMypy. simpl.
    destruct (h _ _ w) as [res w2]. simpl. intros ->. simpl.
    rewrite Hcode, Ho. eexists. reflexivity.
  - unfold PythonRunner.runPylint. simpl.
    destruct (h _ _ w) as [res w2]. simpl. intros ->. simpl.
    rewrite Hcode, Hout. eexists. reflexivity.
Qed.

(** The Go and the Rust runner have no such branch: the same failure
    leaves them with an empty output to parse, and the result is a
    success. *)
Lemma silent_failure_is_a_success_for_go_and_rust
      node W (h : handler W) w directory e :
  Spec.no_output e ->
  (answer h (ExistsSync (join node directory (str "go.mod"))) w = true ->
   answer h (ExecFileSync (str "go") [str "vet"; str "./..."]
               (pipe_options directory))
          (after h (ExistsSync (join node directory (str "go.mod"))) w)
   = ExecThrew e ->
   result_of (run h (GoRunner.runGoDiagnostics node directory) w)
   = Returned {| GoRunner.success := true; GoRunner.diagnostics := [];
                 GoRunner.errorCount := 0; GoRunner.warningCount := 0;
                 GoRunner.skipped := None |})
  /\ (answer h (ExistsSync (join node directory (str "Cargo.toml"))) w = true ->
      answer h (ExecFileSync (str "cargo")
                  [str "check"; str "--message-format=json"]
                  (pipe_options directory))
             (after h (ExistsSync (join node directory (str "Cargo.toml"))) w)
      = ExecThrew e ->
      result_of (run h (RustRunner.runRustDiagnostics node directory) w)
      = Returned {| RustRunner.success := true; RustRunner.diagnostics := [];
                    RustRunner.errorCount := 0; RustRunner.warningCount := 0;
                    RustRunner.skipped := None |}).
Proof.
  intros (Hc & Ho & He).
  assert (Hcode : code_is e (str "ENOENT") = false).
  { unfold code_is. rewrite Hc. reflexivity. }
  unfold answer, after, result_of. split.
  - unfold GoRunner.runGoDiagnostics. simpl.
    destruct (h _ _ w) as [present w1]. simpl. intros ->. simpl.
    destruct (h _ _ w1) as [res w2]. simpl. intros ->. simpl.
    rewrite Hcode, Ho, He. reflexivity.
  - unfold RustRunner.runRustDiagnostics. simpl.
    destruct (h _ _ w) as [present w1]. simpl. intros ->. simpl.
    destruct (h _ _ w1) as [res w2]. simpl. intros ->. simpl.
    rewrite Hcode, He, Ho. reflexivity.
Qed.

(** C2, where the code departs from it: with [go.mod] (resp.
    [Cargo.toml]) present and the tool failing without any output, the
    Go and the Rust runner return a successful result with no
    diagnostic. *)
Theorem silent_failure_is_lost_by_go_and_rust :
  result_of
    (run (Scenario.steady
            (Scenario.project [str "go.mod"] (fun _ _ => Scenario.silent_failure)))
         (GoRunner.runGoDiagnostics Scenario.posix (str "/p")) tt)
  = Returned {| GoRunner.success := true; GoRunner.diagnostics := [];
                GoRunner.errorCount := 0; GoRunner.warningCount := 0;
                GoRunner.skipped := None |}
  /\ result_of
       (run (Scenario.steady
               (Scenario.project [str "Cargo.toml"]
                  (fun _ _ => Scenario.silent_failure)))
            (RustRunner.runRustDiagnostics Scenario.posix (str "/p")) tt)
     = Returned {| RustRunner.success := true; RustRunner.diagnostics := [];
                   RustRunner.errorCount := 0; RustRunner.warningCount := 0;
                   RustRunner.skipped := None |}.
Proof. split; vm_compute; reflexivity. Qed.

(** C3, where the code departs from it: on the one-line input [null]
    the line decodes to [null], reading its [reason] throws, and
    [parseRustOutput] returns no result. *)
Theorem parseRustOutput_throws_on_null :
  JSON_parse (str "null") = Some VNull
  /\ RustRunner.parseRustOutput (str "null") = Thrown TypeError.
Proof. split; vm_compute; reflexivity. Qed.

(** C6: [detectProjectType] probes [tsconfig.json], [go.mod],
    [Cargo.toml], then [pyproject.toml], [requirements.txt] and
    [setup.py], in this order, and returns at the first that exists:
    against any platform its result, its probes and the state it leaves
    the platform in are those of [Spec.first_marker].  So a directory
    with both [tsconfig.json] and [go.mod] is [typescript], after one
    probe, and a directory with none of the six is [unknown]. *)
Theorem detectProjectType_priority :
  (forall node W (h : handler W) (w : W) (directory : jsstr),
      run h (Index.detectProjectType node directory) w =
      let '(t, tr, w') := Spec.first_marker node h w directory Spec.markers in
      (Returned t, tr, w'))
  /\ (forall node (wd : Scenario.World) (directory : jsstr),
      Scenario.present wd (join node directory (str "tsconfig.json")) = true ->
      Scenario.present wd (join node directory (str "go.mod")) = true ->
      let r := run (Scenario.steady wd)
                   (Index.detectProjectType node directory) tt in
      result_of r = Returned Index.typescript /\ length (trace_of r) = 1)
  /\ (forall node (wd : Scenario.World) (directory : jsstr),
      (forall name, In name (map fst Spec.markers) ->
                    Scenario.present wd (join node directory name) = false) ->
      result_of (run (Scenario.steady wd)
                     (Index.detectProjectType node directory) tt)
      = Returned Index.unknown).
Proof.
  split; [|split].
  - intros node W h w directory.
    unfold Index.detectProjectType, Spec.markers.
    cbn [bind call Spec.first_marker].
    repeat (rewrite run_do;
            match goal with
            | |- context [answer h ?op ?w0] =>
                destruct (answer h op w0); [reflexivity|]
            end).
    reflexivity.
  - intros node wd directory Hts Hgo r. subst r.
    unfold Index.detectProjectType. cbn [bind call].
    rewrite run_do. unfold answer. cbn [Scenario.steady fst].
    rewrite Hts. split; reflexivity.
  - intros node wd directory Hnone.
    unfold Index.detectProjectType. cbn [bind call].
    repeat (rewrite run_do; unfold answer at 1; cbn [Scenario.steady fst];
            rewrite Hnone by (cbn; tauto)).
    reflexivity.
Qed.

Lemma detectProjectType_priority_witness :
  let wd := Scenario.project [str "go.mod"; str "tsconfig.json"]
                             (fun _ _ => ExitedZero []) in
  (let r := run (Scenario.steady wd)
                (Index.detectProjectType Scenario.posix (str "/p")) tt in
   result_of r = Returned Index.typescript /\ length (trace_of r) = 1)
  /\ result_of
       (run (Scenario.steady (Scenario.project [str "main.c"]
                                               (fun _ _ => ExitedZero [])))
            (Index.detectProjectType Scenario.posix (str "/p")) tt)
     = Returned Index.unknown.
Proof.
  split.
  - apply (proj1 (proj2 detectProjectType_priority)); vm_compute; reflexivity.
  - apply (proj2 (proj2 detectProjectType_priority)).
    intros name Hin. cbn in Hin.
    repeat (destruct Hin as [<- | Hin]; [vm_compute; reflexivity|]).
    destruct Hin.
Defined.

Module IndexFacts.

Lemma skipped_shape (before why after : jsstr) :
  Spec.skipped_because (Index.makeSkippedResult (before ++ why ++ after)) why.
Proof.
  unfold Spec.skipped_because; simpl. repeat split. apply contains_app.
Qed.

End IndexFacts.

(** C4: whatever the strategy, [runDirectoryDiagnostics] answers with
    the skipped shape -- strategy [skipped], [success] true, both counts
    0 -- and a summary that contains "does not exist" when the path does
    not exist, "not a directory" when it exists and is not a directory,
    "cannot resolve directory path" when [realpathSync] throws.  The
    calls made are the one, two or three file-system probes and nothing
    else: no process is started and the LSP manager is not reached. *)
Theorem invalid_directory_is_skipped :
  forall node fmt cache (directory : jsstr) strat W (h : handler W) (w : W),
    let w1 := after h (ExistsSync directory) w in
    let w2 := after h (StatSync directory) w1 in
    let w3 := after h (RealpathSync directory) w2 in
    let prog := Index.runDirectoryDiagnostics node fmt cache directory strat in
    (answer h (ExistsSync directory) w = false ->
     exists r,
       run h prog w
       = (Returned (r, cache), [Interact (ExistsSync directory) false], w1)
       /\ Spec.skipped_because r (str "does not exist"))
    /\ (forall st,
        answer h (ExistsSync directory) w = true ->
        answer h (StatSync directory) w1 = Some st ->
        isDirectory st = false ->
        exists r,
          run h prog w
          = (Returned (r, cache),
             [Interact (ExistsSync directory) true;
              Interact (StatSync directory) (Some st)], w2)
          /\ Spec.skipped_because r (str "not a directory"))
    /\ (forall st,
        answer h (ExistsSync directory) w = true ->
        answer h (StatSync directory) w1 = Some st ->
        isDirectory st = true ->
        answer h (RealpathSync directory) w2 = None ->
        exists r,
          run h prog w
          = (Returned (r, cache),
             [Interact (ExistsSync directory) true;
              Interact (StatSync directory) (Some st);
              Interact (RealpathSync directory) None], w3)
          /\ Spec.skipped_because r (str "cannot resolve directory path")).
Proof.
  intros node fmt cache directory strat W h w w1 w2 w3 prog.
  subst prog. unfold Index.runDirectoryDiagnostics. cbn [bind call].
  split; [|split].
  - intros E. rewrite run_do, E. cbn [negb run].
    eexists. split; [reflexivity|].
    apply (IndexFacts.skipped_shape (str "Diagnostics skipped: directory ")
             (str "does not exist") (str ": " ++ directory)).
  - intros st E S D. rewrite run_do, E. cbn [negb].
    rewrite run_do. fold w1. rewrite S, D. cbn [negb run].
    eexists. split; [reflexivity|].
    apply (IndexFacts.skipped_shape (str "Diagnostics skipped: path is ")
             (str "not a directory") (str ": " ++ directory)).
  - intros st E S D R. rewrite run_do, E. cbn [negb].
    rewrite run_do. fold w1. rewrite S, D. cbn [negb].
    rewrite run_do. fold w2. rewrite R. cbn [run].
    eexists. split; [reflexivity|].
    apply (IndexFacts.skipped_shape (str "Diagnostics skipped: ")
             (str "cannot resolve directory path") (str ": " ++ directory)).
Qed.

Lemma invalid_directory_is_skipped_witness :
  let missing := Scenario.steady (Scenario.project [] (fun _ _ => ExitedZero [])) in
  let fmt := fun (_ : list Diagnostic) (_ : jsstr) => [] : jsstr in
  (exists r,
      run missing
          (Index.runDirectoryDiagnostics Scenario.posix fmt None
             (str "/nonexistent") Index.auto) tt
      = (Returned (r, None), [Interact (ExistsSync (str "/nonexistent")) false], tt)
      /\ Spec.skipped_because r (str "does not exist"))
  /\ (exists r,
      run (Scenario.steady (Scenario.project [str "a.txt"] (fun _ _ => ExitedZero [])))
          (Index.runDirectoryDiagnostics Scenario.posix fmt None
             (str "/p/a.txt") Index.tsc) tt
      = (Returned (r, None),
         [Interact (ExistsSync (str "/p/a.txt")) true;
          Interact (StatSync (str "/p/a.txt")) (Some Scenario.plain_file)], tt)
      /\ Spec.skipped_because r (str "not a directory"))
  /\ (exists r,
      run (Scenario.steady Scenario.dangling)
          (Index.runDirectoryDiagnostics Scenario.posix fmt None
             (str "/link") Index.go) tt
      = (Returned (r, None),
         [Interact (ExistsSync (str "/link")) true;
          Interact (StatSync (str "/link")) (Some Scenario.directory);
          Interact (RealpathSync (str "/link")) None], tt)
      /\ Spec.skipped_because r (str "cannot resolve directory path")).
Proof.
  intros missing fmt. split; [|split].
  - apply (proj1 (invalid_directory_is_skipped Scenario.posix fmt None
                    (str "/nonexistent") Index.auto missing tt)).
    vm_compute. reflexivity.
  - apply (proj1 (proj2 (invalid_directory_is_skipped Scenario.posix fmt None
                    (str "/p/a.txt") Index.tsc
                    (Scenario.steady (Scenario.project [str "a.txt"]
                                        (fun _ _ => ExitedZero []))) tt))
             Scenario.plain_file);
      vm_compute; reflexivity.
  - apply (proj2 (proj2 (invalid_directory_is_skipped Scenario.posix fmt None
                           (str "/link") Index.go
                           (Scenario.steady Scenario.dangling) tt))
             Scenario.directory);
      reflexivity.
Defined.

(** C5: once the three checks have passed, a request for [tsc], [go],
    [rust], [python] or [lsp] goes on exactly as the runner of that name
    does on the resolved directory, followed by the formatting of its
    result: no marker is probed for detection and nothing else is
    called.  So a [tsc] request on a directory without [tsconfig.json]
    ends after the runner's own probe with the skipped result of the tsc
    runner, and the LSP path is not taken. *)
Theorem explicit_strategy_is_used_verbatim :
  forall node fmt cache (directory resolved : jsstr) W (h : handler W) (w : W),
    Spec.passes_preflight h w directory resolved ->
    let before := Spec.preflight_trace h w directory in
    let w3 := Spec.after_preflight h w directory in
    let entry strat :=
      run h (Index.runDirectoryDiagnostics node fmt cache directory strat) w in
    let tsconfig := ExistsSync (join node resolved (str "tsconfig.json")) in
    entry Index.tsc
    = Spec.continued h before w3
        (r <- TscRunner.runTscDiagnostics node resolved ;;
         f <- lift (Index.formatTscResult node r) ;;
         Ret (f, cache))
    /\ entry Index.go
       = Spec.continued h before w3
           (r <- GoRunner.runGoDiagnostics node resolved ;;
            f <- lift (Index.formatGoResult node r) ;;
            Ret (f, cache))
    /\ entry Index.rust
       = Spec.continued h before w3
           (r <- RustRunner.runRustDiagnostics node resolved ;;
            f <- lift (Index.formatRustResult node r) ;;
            Ret (f, cache))
    /\ entry Index.python
       = Spec.continued h before w3
           (r <- PythonRunner.runPythonDiagnostics node resolved ;;
            f <- lift (Index.formatPythonResult node r) ;;
            Ret (f, cache))
    /\ entry Index.lsp
       = Spec.continued h before w3
           (r <- LspAggregator.runLspAggregatedDiagnostics node cache resolved None ;;
            Ret (Index.formatLspResult fmt (fst r), snd r))
    /\ (answer h tsconfig w3 = false ->
        entry Index.tsc
        = (Returned
             (Index.makeSkippedResult
                (str "TypeScript diagnostics skipped: no tsconfig.json found in directory"),
              cache),
           before ++ [Interact tsconfig false],
           after h tsconfig w3)
        /\ forallb (fun i => negb (is_exec i || is_lsp i))
                   (trace_of (entry Index.tsc)) = true).
Proof.
  intros node fmt cache directory resolved W h w (E & (st & S & D) & R)
         before w3 entry tsconfig.
  assert (Hentry : forall strat,
             strat <> Index.auto ->
             entry strat
             = Spec.continued h before w3
                 (Index.dispatch node fmt cache
                    match strat with
                    | Index.tsc => Index.by_tsc
                    | Index.go => Index.by_go
                    | Index.rust => Index.by_rust
                    | Index.python => Index.by_python
                    | _ => Index.by_lsp
                    end resolved)).
  { intros strat Hs. subst entry before w3.
    unfold Index.runDirectoryDiagnostics, Spec.continued, Spec.preflight_trace,
      Spec.after_preflight.
    cbn [bind call]. rewrite run_do, E. cbn [negb].
    rewrite run_do, S, D. cbn [negb]. rewrite run_do, R.
    destruct strat; try congruence; cbn [bind];
      match goal with
      | |- context [run h ?p ?w0] => destruct (run h p w0) as [[o t] w']
      end; reflexivity. }
  split; [apply Hentry; discriminate|].
  split; [apply Hentry; discriminate|].
  split; [apply Hentry; discriminate|].
  split; [apply Hentry; discriminate|].
  split; [apply Hentry; discriminate|].
  intros T.
  assert (Htsc : entry Index.tsc
                 = (Returned
                      (Index.makeSkippedResult
                         (str "TypeScript diagnostics skipped: no tsconfig.json found in directory"),
                       cache),
                    before ++ [Interact tsconfig false], after h tsconfig w3)).
  { rewrite Hentry by discriminate.
    unfold Spec.continued, Index.dispatch, TscRunner.runTscDiagnostics.
    cbn [bind call]. rewrite run_do. fold tsconfig. rewrite T.
    reflexivity. }
  split; [exact Htsc|].
  rewrite Htsc. unfold trace_of. cbn [fst snd].
  subst before tsconfig. unfold Spec.preflight_trace. reflexivity.
Qed.

Lemma explicit_strategy_is_used_verbatim_witness :
  let h := Scenario.steady (Scenario.project [str "main.c"] (fun _ _ => ExitedZero [])) in
  let fmt := fun (_ : list Diagnostic) (_ : jsstr) => [] : jsstr in
  let tsconfig :=
    ExistsSync (join Scenario.posix (str "/p") (str "tsconfig.json")) in
  run h (Index.runDirectoryDiagnostics Scenario.posix fmt None (str "/p") Index.tsc) tt
  = (Returned
       (Index.makeSkippedResult
          (str "TypeScript diagnostics skipped: no tsconfig.json found in directory"),
        None),
     Spec.preflight_trace h tt (str "/p") ++ [Interact tsconfig false],
     tt).
Proof.
  intros h fmt tsconfig.
  assert (P : Spec.passes_preflight h tt (str "/p") (str "/p")).
  { split; [vm_compute; reflexivity|]. split.
    - exists Scenario.directory. split; vm_compute; reflexivity.
    - vm_compute; reflexivity. }
  destruct (explicit_strategy_is_used_verbatim
              Scenario.posix fmt None (h := h) (w := tt) P)
    as (_ & _ & _ & _ & _ & H).
  apply H. vm_compute. reflexivity.
Defined.

(** C8: [runPythonDiagnostics] probes [pyproject.toml],
    [requirements.txt] and [setup.py].  With none of them it returns a
    skipped result that says so, and starts no process.  With one of
    them it asks whether [mypy] is on the search path and, if so, goes on
    as [runMypy]: it starts [mypy . --ignore-missing-imports] in the
    directory, makes no other call, and returns a result of the tool
    [mypy].  If not it asks for [pylint] and, if that is there, goes on
    as [runPylint]: it starts [pylint --output-format=text --score=no .]
    in the directory, makes no other call, and returns a result of the
    tool [pylint].  With neither it returns a skipped result whose
    reason names both tools, with [success] true and no diagnostic. *)
Theorem python_runner_chooses_its_tool :
  forall node (directory : jsstr) W (h : handler W) (w : W),
    let p1 := ExistsSync (join node directory (str "pyproject.toml")) in
    let p2 := ExistsSync (join node directory (str "requirements.txt")) in
    let p3 := ExistsSync (join node directory (str "setup.py")) in
    let w1 := after h p1 w in
    let w2 := after h p2 w1 in
    let w3 := after h p3 w2 in
    let a1 := answer h p1 w in
    let a2 := answer h p2 w1 in
    let a3 := answer h p3 w2 in
    let probes := [Interact p1 a1; Interact p2 a2; Interact p3 a3] in
    let which_mypy := Servers.probe node (str "mypy") in
    let which_pylint := Servers.probe node (str "pylint") in
    let w4 := after h which_mypy w3 in
    let w5 := after h which_pylint w4 in
    let mypy_call :=
      ExecFileSync (str "mypy") [str "."; str "--ignore-missing-imports"]
        (pipe_options directory) in
    let pylint_call :=
      ExecFileSync (str "pylint")
        [str "--output-format=text"; str "--score=no"; str "."]
        (pipe_options directory) in
    let outcome := run h (PythonRunner.runPythonDiagnostics node directory) w in
    (a1 || a2 || a3 = false ->
     exists r why,
       outcome = (Returned r, probes, w3)
       /\ PythonRunner.skipped r = Some why
       /\ contains why (str "no Python project files found")
       /\ PythonRunner.success r = true
       /\ PythonRunner.diagnostics r = [])
    /\ (a1 || a2 || a3 = true ->
        (forall out,
            answer h which_mypy w3 = ExitedZero out ->
            outcome
            = Spec.continued h (probes ++ [Interact which_mypy (ExitedZero out)])
                w4 (PythonRunner.runMypy directory)
            /\ trace_of outcome
               = probes ++ [Interact which_mypy (ExitedZero out);
                            Interact mypy_call (answer h mypy_call w4)]
            /\ exists r,
                result_of outcome = Returned r
                /\ PythonRunner.tool r = PythonRunner.mypy)
        /\ (forall e out,
               answer h which_mypy w3 = ExecThrew e ->
               answer h which_pylint w4 = ExitedZero out ->
               outcome
               = Spec.continued h
                   (probes ++ [Interact which_mypy (ExecThrew e);
                               Interact which_pylint (ExitedZero out)])
                   w5 (PythonRunner.runPylint directory)
               /\ trace_of outcome
                  = probes ++ [Interact which_mypy (ExecThrew e);
                               Interact which_pylint (ExitedZero out);
                               Interact pylint_call (answer h pylint_call w5)]
               /\ exists r,
                   result_of outcome = Returned r
                   /\ PythonRunner.tool r = PythonRunner.pylint)
        /\ (forall e e',
               answer h which_mypy w3 = ExecThrew e ->
               answer h which_pylint w4 = ExecThrew e' ->
               exists r why,
                 outcome
                 = (Returned r,
                    probes ++ [Interact which_mypy (ExecThrew e);
                               Interact which_pylint (ExecThrew e')],
                    w5)
                 /\ PythonRunner.skipped r = Some why
                 /\ contains why (str "mypy")
                 /\ contains why (str "pylint")
                 /\ PythonRunner.success r = true
                 /\ PythonRunner.diagnostics r = [])).
Proof.
  intros node directory W h w p1 p2 p3 w1 w2 w3 a1 a2 a3 probes
         which_mypy which_pylint w4 w5 mypy_call pylint_call outcome.
  assert (Mypy : forall w0,
             exists r,
               run h (PythonRunner.runMypy directory) w0
               = (Returned r, [Interact mypy_call (answer h mypy_call w0)],
                  after h mypy_call w0)
               /\ PythonRunner.tool r = PythonRunner.mypy).
  { intros w0. unfold PythonRunner.runMypy. cbn [bind call].
    rewrite run_do. fold mypy_call.
    destruct (answer h mypy_call w0) as [out|error];
      [eexists; split; reflexivity|].
    destruct (code_is error (str "ENOENT")); [eexists; split; reflexivity|].
    destruct (is_empty _); eexists; split; reflexivity. }
  assert (Pylint : forall w0,
             exists r,
               run h (PythonRunner.runPylint directory) w0
               = (Returned r,
                  [Interact pylint_call (answer h pylint_call w0)],
                  after h pylint_call w0)
               /\ PythonRunner.tool r = PythonRunner.pylint).
  { intros w0. unfold PythonRunner.runPylint. cbn [bind call].
    rewrite run_do. fold pylint_call.
    destruct (answer h pylint_call w0) as [out|error];
      [eexists; split; reflexivity|].
    destruct (code_is error (str "ENOENT")); [eexists; split; reflexivity|].
    destruct (is_empty _); eexists; split; reflexivity. }
  subst outcome. unfold PythonRunner.runPythonDiagnostics.
  rewrite (@commandExists_safe node (str "mypy") eq_refl mypy_is_safe).
  rewrite (@commandExists_safe node (str "pylint") eq_refl pylint_is_safe).
  cbn [bind call]. rewrite run_do. fold p1 a1 w1.
  rewrite run_do. fold p2 a2 w2. rewrite run_do. fold p3 a3 w3.
  split.
  - intros Hnone.
    replace (negb a1 && negb a2 && negb a3) with true
      by (destruct a1, a2, a3; simpl in *; congruence).
    cbn [run]. do 2 eexists. split; [reflexivity|].
    cbn. repeat split.
    apply (contains_mid [] (str "no Python project files found")
             (str " (pyproject.toml, requirements.txt, or setup.py)")).
    reflexivity.
  - intros Hsome.
    replace (negb a1 && negb a2 && negb a3) with false
      by (destruct a1, a2, a3; simpl in *; congruence).
    rewrite run_do. fold which_mypy w4. split; [|split].
    + intros out Hm. rewrite Hm. cbn [bind]. unfold Spec.continued.
      destruct (Mypy w4) as (r & Er & Tr). rewrite Er.
      split; [reflexivity|]. split; [reflexivity|].
      exists r. split; [reflexivity|exact Tr].
    + intros e out Hm Hp. rewrite Hm. cbn [bind]. rewrite run_do.
      fold which_pylint w5. rewrite Hp. cbn [bind]. unfold Spec.continued.
      destruct (Pylint w5) as (r & Er & Tr). rewrite Er.
      split; [reflexivity|]. split; [reflexivity|].
      exists r. split; [reflexivity|exact Tr].
    + intros e e' Hm Hp. rewrite Hm. cbn [bind]. rewrite run_do.
      fold which_pylint w5. rewrite Hp. cbn [bind run].
      do 2 eexists. split; [reflexivity|].
      cbn. repeat split.
      * apply (contains_mid (str "neither ") (str "mypy")
                 (str " nor pylint found in PATH")). reflexivity.
      * apply (contains_mid (str "neither mypy nor ") (str "pylint")
                 (str " found in PATH")). reflexivity.
Qed.

Lemma python_runner_chooses_its_tool_witness :
  let found := ExitedZero (str "/usr/bin/tool") in
  let typed :=
    fun (f : jsstr) (args : list jsstr) =>
      if JsString.eqb f (str "which") then found
      else if JsString.eqb f (str "mypy") then
        ExecThrew {| code := None;
                     stdout := Some (str "main.py:3:1: error: Name 'x' is not defined [name-defined]");
                     stderr := Some [] |}
      else Scenario.not_installed in
  let linted :=
    fun (f : jsstr) (args : list jsstr) =>
      if JsString.eqb f (str "which") then
        if existsb (JsString.eqb (str "pylint")) args
        then found else Scenario.not_installed
      else if JsString.eqb f (str "pylint") then
        ExecThrew {| code := None;
                     stdout := Some (str "main.py:10:5: E0001: syntax error");
                     stderr := Some [] |}
      else Scenario.not_installed in
  let started (commands : jsstr -> list jsstr -> ExecResult) :=
    filter is_exec
      (trace_of
         (run (Scenario.steady (Scenario.project [str "requirements.txt"]
                                  commands))
              (PythonRunner.runPythonDiagnostics Scenario.posix (str "/p"))
              tt)) in
  let returned (commands : jsstr -> list jsstr -> ExecResult) :=
    result_of
      (run (Scenario.steady (Scenario.project [str "requirements.txt"]
                               commands))
           (PythonRunner.runPythonDiagnostics Scenario.posix (str "/p"))
           tt) in
  let mypy_call :=
    ExecFileSync (str "mypy") [str "."; str "--ignore-missing-imports"]
      (pipe_options (str "/p")) in
  let pylint_call :=
    ExecFileSync (str "pylint")
      [str "--output-format=text"; str "--score=no"; str "."]
      (pipe_options (str "/p")) in
  (started typed
   = [Interact (Servers.probe Scenario.posix (str "mypy")) found;
      Interact mypy_call (typed (str "mypy") [])]
   /\ match returned typed with
      | Returned res =>
          PythonRunner.tool res = PythonRunner.mypy
          /\ PythonRunner.errorCount res = 1
      | Thrown _ => False
      end)
  /\ (started linted
      = [Interact (Servers.probe Scenario.posix (str "mypy"))
           Scenario.not_installed;
         Interact (Servers.probe Scenario.posix (str "pylint")) found;
         Interact pylint_call (linted (str "pylint") [])]
      /\ match returned linted with
         | Returned res =>
             PythonRunner.tool res = PythonRunner.pylint
             /\ PythonRunner.errorCount res = 1
         | Thrown _ => False
         end).
Proof.
  intros found typed linted started returned mypy_call pylint_call.
  split.
  - destruct (python_runner_chooses_its_tool Scenario.posix (str "/p")
                (Scenario.steady (Scenario.project [str "requirements.txt"]
                                    typed)) tt)
      as [_ T].
    destruct (T eq_refl) as (T1 & _ & _).
    destruct (T1 (str "/usr/bin/tool") eq_refl) as (_ & Tr & r & Er & Tool).
    split.
    + unfold started. rewrite Tr. vm_compute. reflexivity.
    + unfold returned. rewrite Er. split; [exact Tool|].
      vm_compute in Er. injection Er as <-. reflexivity.
  - destruct (python_runner_chooses_its_tool Scenario.posix (str "/p")
                (Scenario.steady (Scenario.project [str "requirements.txt"]
                                    linted)) tt)
      as [_ T].
    destruct (T eq_refl) as (_ & T2 & _).
    destruct (T2 {| code := Some (str "ENOENT"); stdout := None;
                    stderr := None |}
                 (str "/usr/bin/tool") eq_refl eq_refl)
      as (_ & Tr & r & Er & Tool).
    split.
    + unfold started. rewrite Tr. vm_compute. reflexivity.
    + unfold returned. rewrite Er. split; [exact Tool|].
      vm_compute in Er. injection Er as <-. reflexivity.
Defined.

(* ------------------------------------------------------------------ *)
(** * Facts about the LSP aggregator *)

Module LspFacts.

Import Spec.

Lemma reads_nothing_ret {A} (a : A) : reads_nothing (Ret a).
Proof. intros W h w. exists a, [], w. split; [reflexivity | constructor]. Qed.

Lemma reads_nothing_bind {A B} (p : Prog A) (f : A -> Prog B) :
  reads_nothing p -> (forall a, reads_nothing (f a)) -> reads_nothing (bind p f).
Proof.
  intros Hp Hf W h w. rewrite run_bind.
  destruct (Hp W h w) as (a & tr & w1 & -> & Q1).
  destruct (Hf a W h w1) as (b & tr2 & w2 & -> & Q2).
  exists b, (tr ++ tr2), w2. split; [reflexivity|].
  apply Forall_app; split; assumption.
Qed.

Lemma reads_nothing_stat path : reads_nothing (call (StatSync path)).
Proof.
  intros W h w. unfold call. rewrite run_do. cbn [run].
  do 3 eexists. split; [reflexivity|].
  constructor; [split; reflexivity | constructor].
Qed.

Lemma reads_nothing_readdir path : reads_nothing (call (ReaddirSync path)).
Proof.
  intros W h w. unfold call. rewrite run_do. cbn [run].
  do 3 eexists. split; [reflexivity|].
  constructor; [split; reflexivity | constructor].
Qed.

Lemma each_entry_reads_nothing node descend extensions ignoreDirs dir :
  (forall p, reads_nothing (descend p)) ->
  forall entries,
    reads_nothing
      (LspAggregator.each_entry node descend extensions ignoreDirs dir entries).
Proof.
  intros Hd. induction entries as [|entry more IH];
    cbn [LspAggregator.each_entry].
  - apply reads_nothing_ret.
  - apply reads_nothing_bind; [apply reads_nothing_stat|].
    intros st. apply reads_nothing_bind.
    + destruct st as [stat|]; [|apply reads_nothing_ret].
      destruct (isDirectory stat).
      * destruct (LspAggregator.includes ignoreDirs entry);
          [apply reads_nothing_ret | apply Hd].
      * destruct (isFile stat); [|apply reads_nothing_ret].
        destruct (LspAggregator.includes extensions _);
          apply reads_nothing_ret.
    + intros found. apply reads_nothing_bind; [exact IH|].
      intros later. apply reads_nothing_ret.
Qed.

Lemma walk_reads_nothing node extensions ignoreDirs depth :
  forall dir,
    reads_nothing (LspAggregator.walk node depth extensions ignoreDirs dir).
Proof.
  induction depth as [|d IH]; intros dir; cbn [LspAggregator.walk].
  - apply reads_nothing_ret.
  - apply reads_nothing_bind; [apply reads_nothing_readdir|].
    intros [entries|]; [|apply reads_nothing_ret].
    apply each_entry_reads_nothing. exact IH.
Qed.

Lemma quiet_read_back tr : Forall quiet tr -> Spec.read_back tr = [].
Proof.
  unfold Spec.read_back.
  induction 1 as [|i tr [Hi _] _ IH]; simpl; [reflexivity|].
  rewrite Hi, IH. reflexivity.
Qed.

Lemma quiet_files_read tr : Forall quiet tr -> Spec.files_read tr = 0.
Proof.
  unfold Spec.files_read.
  induction 1 as [|i tr [_ Hi] _ IH]; simpl; [reflexivity|].
  rewrite Hi. exact IH.
Qed.

Lemma read_back_app a b :
  Spec.read_back (a ++ b) = Spec.read_back a ++ Spec.read_back b.
Proof. unfold Spec.read_back. apply flat_map_app. Qed.

Lemma files_read_app a b :
  Spec.files_read (a ++ b) = Spec.files_read a + Spec.files_read b.
Proof.
  unfold Spec.files_read. rewrite filter_app, length_app. reflexivity.
Qed.

(** The loop over the files adds what was read back, in order, and
    counts the files read. *)
Lemma each_file_collects W (h : handler W) files :
  forall allDiagnostics filesChecked w,
    exists tr w',
      run h (LspAggregator.each_file files allDiagnostics filesChecked) w
      = (Returned (allDiagnostics ++ Spec.read_back tr,
                   filesChecked + Spec.files_read tr), tr, w').
Proof.
  induction files as [|f more IH]; intros acc n w;
    cbn [LspAggregator.each_file bind call].
  - exists [], w. cbn. rewrite app_nil_r, Nat.add_0_r. reflexivity.
  - rewrite run_do.
    set (got := answer h (GetClientForFile f) w).
    set (w1 := after h (GetClientForFile f) w).
    assert (Hskip : forall X (op : Op X) (x : X) w0,
               Spec.read_of (Interact op x) = [] ->
               Spec.is_read (Interact op x) = false ->
               exists tr w',
                 (let '(o, t, w2) :=
                    run h (LspAggregator.each_file more acc n) w0 in
                  (o, Interact op x :: t, w2))
                 = (Returned (acc ++ Spec.read_back tr,
                              n + Spec.files_read tr), tr, w')).
    { intros X op x w0 R1 R2. destruct (IH acc n w0) as (tr & w' & ->).
      exists (Interact op x :: tr), w'.
      unfold Spec.read_back, Spec.files_read. cbn [flat_map filter].
      rewrite R1, R2. reflexivity. }
    destruct got as [[client|]|]; try (apply Hskip; reflexivity).
    rewrite run_do.
    set (opened := answer h (OpenDocument client f) w1).
    set (w2 := after h (OpenDocument client f) w1).
    destruct opened as [u|].
    + rewrite run_do.
      set (w3 := after h (SetTimeout LSP_DIAGNOSTICS_WAIT_MS) w2).
      rewrite run_do.
      set (read := answer h (GetDiagnostics client f) w3).
      set (w4 := after h (GetDiagnostics client f) w3).
      destruct read as [ds|].
      * destruct (IH (acc ++ map (LspAggregator.with_file f) ds) (S n) w4)
          as (tr & w' & ->).
        exists (Interact (GetClientForFile f) (Some (Some client))
                :: Interact (OpenDocument client f) (Some u)
                :: Interact (SetTimeout LSP_DIAGNOSTICS_WAIT_MS)
                            (answer h (SetTimeout LSP_DIAGNOSTICS_WAIT_MS) w2)
                :: Interact (GetDiagnostics client f) (Some ds) :: tr), w'.
        unfold Spec.read_back, Spec.files_read.
        cbn [flat_map filter Spec.read_of Spec.is_read app length].
        rewrite <- app_assoc. rewrite Nat.add_succ_comm. reflexivity.
      * destruct (IH acc n w4) as (tr & w' & ->).
        exists (Interact (GetClientForFile f) (Some (Some client))
                :: Interact (OpenDocument client f) (Some u)
                :: Interact (SetTimeout LSP_DIAGNOSTICS_WAIT_MS)
                            (answer h (SetTimeout LSP_DIAGNOSTICS_WAIT_MS) w2)
                :: Interact (GetDiagnostics client f) None :: tr), w'.
        unfold Spec.read_back, Spec.files_read.
        cbn [flat_map filter Spec.read_of Spec.is_read app length].
        reflexivity.
    + destruct (IH acc n w2) as (tr & w' & ->).
      exists (Interact (GetClientForFile f) (Some (Some client))
              :: Interact (OpenDocument client f) None :: tr), w'.
      unfold Spec.read_back, Spec.files_read.
      cbn [flat_map filter Spec.read_of Spec.is_read app length].
      reflexivity.
Qed.

(** Two counts of disjoint kinds never exceed the length, and fall
    short of it as soon as one element is of neither kind. *)
Lemma two_kinds {A} (p q : A -> bool) (l : list A) :
  (forall x, p x = true -> q x = false) ->
  length (filter p l) + length (filter q l) <= length l
  /\ ((exists x, In x l /\ p x = false /\ q x = false) ->
      length (filter p l) + length (filter q l) < length l).
Proof.
  intros Hpq. induction l as [|x l [IH1 IH2]]; simpl.
  - split; [lia|]. intros (x & [] & _).
  - destruct (p x) eqn:P; [rewrite (Hpq _ P)|]; destruct (q x) eqn:Q;
      simpl; split; try lia.
    + intros (y & [-> | Hy] & Py & Qy); [congruence|].
      assert (length (filter p l) + length (filter q l) < length l)
        by (apply IH2; eauto). lia.
    + intros (y & [-> | Hy] & Py & Qy); [congruence|].
      assert (length (filter p l) + length (filter q l) < length l)
        by (apply IH2; eauto). lia.
    + intros (y & [-> | Hy] & Py & Qy); [congruence|].
      assert (length (filter p l) + length (filter q l) < length l)
        by (apply IH2; eauto). lia.
Qed.

Lemma has_severity_iff n d :
  LspAggregator.has_severity n d = true <-> Spec.severity_is n d.
Proof.
  unfold LspAggregator.has_severity, Spec.severity_is.
  destruct (lsp_severity _) as [s|]; [|split; discriminate].
  rewrite Z.eqb_eq. split; [intros ->; reflexivity | intros H; inversion H; auto].
Qed.

End LspFacts.

(** C9: [runLspAggregatedDiagnostics] always returns; its [diagnostics]
    are exactly the diagnostics read back during the run, each with its
    file, in the order of the reads and whatever their severity;
    [filesChecked] is the number of files read; [errorCount] counts the
    diagnostics of severity 1 and [warningCount] those of severity 2.
    So the two counts add up to at most the number of diagnostics, and
    to strictly less once a diagnostic has another severity, or none. *)
Theorem lsp_counts_leave_out_other_severities :
  forall node cache (directory : jsstr) extensions W (h : handler W) (w : W),
    exists r cache' tr w',
      run h (LspAggregator.runLspAggregatedDiagnostics
               node cache directory extensions) w
      = (Returned (r, cache'), tr, w')
      /\ LspAggregator.diagnostics r = Spec.read_back tr
      /\ LspAggregator.filesChecked r = Spec.files_read tr
      /\ LspAggregator.errorCount r
         = length (filter (LspAggregator.has_severity 1)
                          (LspAggregator.diagnostics r))
      /\ LspAggregator.warningCount r
         = length (filter (LspAggregator.has_severity 2)
                          (LspAggregator.diagnostics r))
      /\ LspAggregator.errorCount r + LspAggregator.warningCount r
         <= length (LspAggregator.diagnostics r)
      /\ ((exists d, In d (LspAggregator.diagnostics r)
                     /\ ~ Spec.severity_is 1 d /\ ~ Spec.severity_is 2 d) ->
          LspAggregator.errorCount r + LspAggregator.warningCount r
          < length (LspAggregator.diagnostics r)).
Proof.
  intros node cache directory extensions W h w.
  unfold LspAggregator.runLspAggregatedDiagnostics.
  destruct (match extensions with
            | Some given => (given, cache)
            | None => LspAggregator.getAllSupportedExtensions cache
            end) as [effective cache'].
  rewrite run_bind. unfold LspAggregator.findFiles.
  destruct (LspFacts.walk_reads_nothing node effective
              [str "node_modules"; str "dist"; str "build"; str ".git"]
              (stack_limit node) directory h w)
    as (files & tr1 & w1 & -> & Q).
  rewrite run_bind.
  destruct (LspFacts.each_file_collects h files [] 0 w1) as (tr2 & w2 & ->).
  cbn [run fst snd app].
  set (ds := Spec.read_back tr2).
  assert (Two := @LspFacts.two_kinds _ (LspAggregator.has_severity 1)
                   (LspAggregator.has_severity 2) ds).
  destruct Two as [Le Lt].
  { intros d H1. apply LspFacts.has_severity_iff in H1.
    unfold LspAggregator.has_severity. rewrite H1. reflexivity. }
  do 4 eexists. split; [reflexivity|]. cbn.
  rewrite app_nil_r, LspFacts.read_back_app, LspFacts.files_read_app.
  rewrite (LspFacts.quiet_read_back Q), (LspFacts.quiet_files_read Q).
  repeat split; try assumption.
  intros (d & Hin & N1 & N2). apply Lt. exists d. split; [exact Hin|].
  split.
  - destruct (LspAggregator.has_severity 1 d) eqn:E; [|reflexivity].
    apply LspFacts.has_severity_iff in E. contradiction.
  - destruct (LspAggregator.has_severity 2 d) eqn:E; [|reflexivity].
    apply LspFacts.has_severity_iff in E. contradiction.
Qed.

Lemma lsp_counts_leave_out_other_severities_witness :
  let info :=
    {| lsp_line := 3; lsp_column := 1; lsp_message := str "unused import";
       lsp_severity := Some 3%Z; lsp_code := None |} in
  let wrong :=
    {| lsp_line := 7; lsp_column := 9; lsp_message := str "type mismatch";
       lsp_severity := Some 1%Z; lsp_code := None |} in
  let h :=
    Scenario.steady
      (Scenario.with_server
         (Scenario.project [str "a.ts"] (fun _ _ => ExitedZero []))
         (fun _ => [wrong; info])) in
  exists r cache' tr w',
    run h (LspAggregator.runLspAggregatedDiagnostics
             Scenario.posix None (str "/p") None) tt
    = (Returned (r, cache'), tr, w')
    /\ length (LspAggregator.diagnostics r) = 2
    /\ LspAggregator.errorCount r = 1
    /\ LspAggregator.errorCount r + LspAggregator.warningCount r
       < length (LspAggregator.diagnostics r).
Proof.
  intros info wrong h.
  destruct (lsp_counts_leave_out_other_severities
              Scenario.posix None (str "/p") None h tt)
    as (r & cache' & tr & w' & E & _ & _ & _ & _ & _ & Lt).
  exists r, cache', tr, w'. split; [exact E|].
  vm_compute in E. inversion E; subst. clear E.
  split; [reflexivity|]. split; [vm_compute; reflexivity|].
  apply Lt. eexists. split; [right; left; reflexivity|].
  split; discriminate.
Defined.

(* ------------------------------------------------------------------ *)
(** * Facts about command names *)

Module ServersFacts.

Lemma rsem_star_class g p s s' :
  rsem (RStar g (RClass p)) s s' ->
  exists w, rest s = w ++ rest s' /\ Forall (fun c => p c = true) w.
Proof.
  intros H. remember (RStar g (RClass p)) as r eqn:R.
  induction H; try discriminate; inversion R; subst.
  - exists []. split; [reflexivity | constructor].
  - destruct (IHrsem2 eq_refl) as (w & E & F).
    inversion H; subst. simpl in E.
    match goal with Hr : rest s1 = _ |- _ => rewrite Hr end.
    exists (c :: w). split; [rewrite E; reflexivity|].
    constructor; assumption.
Qed.

Lemma rsem_bol_inv ml s s' :
  rsem (RBol ml) s s' -> s' = s /\ at_bol ml s = true.
Proof. intros H; inversion H; subst; auto. Qed.

Lemma rsem_eol_inv ml s s' :
  rsem (REol ml) s s' -> s' = s /\ at_eol ml s = true.
Proof. intros H; inversion H; subst; auto. Qed.

Lemma rsem_class_inv p s s' :
  rsem (RClass p) s s' ->
  exists c t, rest s = c :: t /\ p c = true /\ s' = advance c t s.
Proof. intros H; inversion H; subst; eauto. Qed.

Lemma before_none pre : before None pre = None -> pre = [].
Proof.
  unfold before. destruct pre as [|c pre]; [reflexivity|].
  simpl. destruct (rev pre ++ [c]) eqn:E; [|discriminate].
  destruct (rev pre); discriminate.
Qed.

(** The names the pattern accepts: a letter, then name characters up to
    the end of the string. *)
Lemma safe_name_shape command :
  test Servers.safe_name command = true ->
  exists c t,
    command = c :: t
    /\ Servers.is_letter c = true
    /\ Forall (fun x => Servers.is_name_char x = true) t.
Proof.
  unfold test. destruct (exec_from _ _ _) as [m|] eqn:E; [|discriminate].
  intros _. apply exec_from_sound in E.
  destruct E as (pre & suf & -> & H).
  unfold Servers.safe_name in H. cbn [rcat] in H.
  apply rsem_seq_inv in H. destruct H as (s1 & Hb & H).
  apply rsem_seq_inv in H. destruct H as (s2 & Hc & H).
  apply rsem_seq_inv in H. destruct H as (s3 & Hs & H).
  apply rsem_seq_inv in H. destruct H as (s4 & He & _).
  apply rsem_bol_inv in Hb. destruct Hb as [-> B].
  unfold at_bol in B. cbn [prev] in B.
  destruct (before None pre) eqn:P; [discriminate|].
  apply before_none in P. subst pre.
  apply rsem_class_inv in Hc. destruct Hc as (c & t & R & L & ->).
  cbn [rest] in R. subst suf.
  apply rsem_star_class in Hs. destruct Hs as (w & Ew & Fw).
  apply rsem_eol_inv in He. destruct He as [_ Z].
  unfold at_eol in Z. destruct (rest s3) eqn:R3; [|discriminate].
  cbn [rest advance] in Ew. rewrite app_nil_r in Ew. subst w.
  exists c, t. cbn [app]. repeat split; assumption.
Qed.

Lemma in_range_iff lo hi c :
  in_range lo hi c = true <-> (lo <= c <= hi)%N.
Proof.
  unfold in_range. rewrite andb_true_iff, !N.leb_le. reflexivity.
Qed.

Lemma is_letter_iff c : Servers.is_letter c = true <-> Spec.ascii_letter c.
Proof.
  unfold Servers.is_letter, Spec.ascii_letter, is_lower, is_upper.
  rewrite orb_true_iff, !in_range_iff. tauto.
Qed.

Lemma is_name_char_iff c :
  Servers.is_name_char c = true <-> Spec.name_char c.
Proof.
  unfold Servers.is_name_char, Spec.name_char, Spec.ascii_letter,
    is_lower, is_upper, is_digit.
  rewrite !orb_true_iff, !in_range_iff, !N.eqb_eq. tauto.
Qed.

Lemma unsafe_name_fails_the_test command :
  Spec.unsafe_name command ->
  is_empty command || negb (test Servers.safe_name command) = true.
Proof.
  intros U. destruct command as [|c0 t0]; [reflexivity|]. cbn [is_empty orb].
  destruct (test Servers.safe_name (c0 :: t0)) eqn:T; [|reflexivity].
  exfalso. apply safe_name_shape in T.
  destruct T as (c & t & E & L & F). inversion E; subst c t.
  destruct U as [U | [(c & t & E' & N) | (c & Hin & N)]].
  - discriminate.
  - inversion E'; subst. apply N, is_letter_iff, L.
  - apply N, is_name_char_iff. destruct Hin as [<- | Hin].
    + unfold Servers.is_name_char. unfold Servers.is_letter in L.
      destruct (is_lower c0); [reflexivity|]. simpl in L. rewrite L.
      reflexivity.
    + rewrite Forall_forall in F. apply F, Hin.
Qed.

End ServersFacts.

(** C10: [commandExists] returns false for a name that is empty, does
    not begin with an ASCII letter, or has a character other than ASCII
    letters, digits, [.], [_] and [-]; it does so at once, with no call
    to the platform, so the [which]/[where] probe is not started.  And
    for no name and no platform does it throw. *)
Theorem commandExists_refuses_unsafe_names :
  forall node (command : jsstr),
    (Spec.unsafe_name command ->
     Servers.commandExists node command = Ret false
     /\ forall W (h : handler W) (w : W),
         run h (Servers.commandExists node command) w = (Returned false, [], w))
    /\ (forall W (h : handler W) (w : W),
        exists b,
          result_of (run h (Servers.commandExists node command) w)
          = Returned b).
Proof.
  intros node command. split.
  - intros U. apply ServersFacts.unsafe_name_fails_the_test in U.
    assert (E : Servers.commandExists node command = Ret false).
    { unfold Servers.commandExists. rewrite U. reflexivity. }
    split; [exact E|]. intros W h w. rewrite E. reflexivity.
  - intros W h w. unfold Servers.commandExists, result_of.
    destruct (is_empty command || negb (test Servers.safe_name command)).
    + exists false. reflexivity.
    + cbn [bind call run]. destruct (h _ _ w) as [res w1].
      destruct res; eexists; reflexivity.
Qed.

Lemma commandExists_refuses_unsafe_names_witness :
  Servers.commandExists Scenario.posix (str "rm -rf /; mypy") = Ret false
  /\ Servers.commandExists Scenario.posix (str "9lives") = Ret false
  /\ Servers.commandExists Scenario.posix [] = Ret false.
Proof.
  split; [|split].
  - apply (proj1 (commandExists_refuses_unsafe_names
                    Scenario.posix (str "rm -rf /; mypy"))).
    right. right. exists 32%N. split.
    + vm_compute. tauto.
    + unfold Spec.name_char, Spec.ascii_letter. lia.
  - apply (proj1 (commandExists_refuses_unsafe_names
                    Scenario.posix (str "9lives"))).
    right. left. exists 57%N. eexists. split; [vm_compute; reflexivity|].
    unfold Spec.ascii_letter. lia.
  - apply (proj1 (commandExists_refuses_unsafe_names Scenario.posix [])).
    left. reflexivity.
Defined.

(* ------------------------------------------------------------------ *)
(** * Facts about the cargo parser *)

Module RustFacts.

Lemma get_prop_field v (k : String.string) x :
  get_prop v (str k) = Returned x -> x = Spec.field k v.
Proof.
  destruct v; simpl; intros H; inversion H; reflexivity.
Qed.

(** [find] stops at the first span that is marked, and at no other. *)
Lemma find_primary_first spans : forall sp,
  RustRunner.find_primary spans = Returned sp ->
  truthy sp = true ->
  Spec.first_primary spans sp.
Proof.
  induction spans as [|s more IH]; intros sp; cbn [RustRunner.find_primary].
  - intros H; inversion H; subst. discriminate.
  - destruct (get_prop s (str "is_primary")) as [p|] eqn:E; cbn [obind];
      [|discriminate].
    apply get_prop_field in E. subst p.
    destruct (truthy (Spec.field "is_primary" s)) eqn:T.
    + intros H _; inversion H; subst.
      exists [], more. repeat split; [exact T | constructor].
    + intros H Hsp. destruct (IH sp H Hsp) as (before & after & -> & P & F).
      exists (s :: before), after. repeat split; [exact P|].
      constructor; [|exact F]. unfold Spec.is_primary. rewrite T. discriminate.
Qed.

Lemma primary_span_first spans sp :
  RustRunner.primary_span spans = Returned sp ->
  truthy sp = true ->
  exists elems, spans = VArr elems /\ Spec.first_primary elems sp.
Proof.
  destruct spans; cbn [RustRunner.primary_span]; try discriminate;
    try (intros H; inversion H; subst; discriminate).
  intros H T. eexists. split; [reflexivity|].
  apply find_primary_first; assumption.
Qed.

(** What stands behind a diagnostic that a line contributes. *)
Lemma retained_line line d :
  RustRunner.diagnostic_of_line line = Returned (Some d) ->
  exists msg spans span,
    JSON_parse (trim line) = Some msg
    /\ Spec.field "reason" msg = VStr (str "compiler-message")
    /\ (RustRunner.severity d = VStr (str "error")
        \/ RustRunner.severity d = VStr (str "warning"))
    /\ RustRunner.severity d = Spec.field "level" (Spec.field "message" msg)
    /\ Spec.field "spans" (Spec.field "message" msg) = VArr spans
    /\ Spec.first_primary spans span
    /\ RustRunner.file d = Spec.field "file_name" span
    /\ RustRunner.line d = Spec.field "line_start" span
    /\ RustRunner.column d = Spec.field "column_start" span.
Proof.
  intros H. pose proof (rust_line_severity _ H) as Sev.
  unfold RustRunner.diagnostic_of_line in H.
  destruct (is_empty (trim line)); [discriminate|].
  destruct (JSON_parse (trim line)) as [msg|]; [|discriminate].
  destruct (get_prop msg (str "reason")) as [reason|] eqn:ER;
    cbn [obind] in H; [|discriminate].
  destruct (is_string reason (str "compiler-message")) eqn:IR;
    cbn [negb] in H; [|discriminate].
  destruct (get_prop msg (str "message")) as [inner|] eqn:EM;
    cbn [obind] in H; [|discriminate].
  destruct (truthy inner); cbn [negb] in H; [|discriminate].
  destruct (get_prop inner (str "level")) as [level|] eqn:EL;
    cbn [obind] in H; [|discriminate].
  destruct (negb (is_string level (str "error"))
            && negb (is_string level (str "warning"))); [discriminate|].
  destruct (get_prop inner (str "spans")) as [spans|] eqn:ES;
    cbn [obind] in H; [|discriminate].
  destruct (RustRunner.primary_span spans) as [sp|] eqn:EP;
    cbn [obind] in H; [|discriminate].
  destruct (truthy sp) eqn:TS; cbn [negb] in H; [|discriminate].
  destruct (RustRunner.code_of inner) as [c|]; cbn [obind] in H;
    [|discriminate].
  destruct (get_prop inner (str "message")) as [mm|]; cbn [obind] in H;
    [|discriminate].
  destruct (get_prop sp (str "file_name")) as [f|] eqn:EF; cbn [obind] in H;
    [|discriminate].
  destruct (get_prop sp (str "line_start")) as [l|] eqn:ELS; cbn [obind] in H;
    [|discriminate].
  destruct (get_prop sp (str "column_start")) as [cl|] eqn:EC;
    cbn [obind] in H; [|discriminate].
  inversion H; subst d; clear H. cbn in Sev |- *.
  apply get_prop_field in ER, EM, EL, ES, EF, ELS, EC. subst.
  apply is_string_eq in IR.
  destruct (primary_span_first _ EP TS) as (elems & Earr & First).
  exists msg, elems, sp. repeat split; assumption.
Qed.

Lemma collect_contributed lines : forall ds,
  RustRunner.collect lines = Returned ds ->
  ds = flat_map Spec.contributed lines.
Proof.
  induction lines as [|l more IH]; intros ds; cbn [RustRunner.collect flat_map].
  - intros H; inversion H; reflexivity.
  - unfold Spec.contributed at 1.
    destruct (RustRunner.diagnostic_of_line l) as [d|]; cbn [obind];
      [|discriminate].
    destruct (RustRunner.collect more) as [ds'|]; cbn [obind]; [|discriminate].
    intros H; inversion H; subst. rewrite (IH ds' eq_refl).
    destruct d; reflexivity.
Qed.

(** Reading a field of a value that is neither [null] nor
    [undefined] does not throw. *)
Lemma field_read v (k : String.string) :
  truthy v = true -> get_prop v (str k) = Returned (Spec.field k v).
Proof. destruct v; simpl; intros T; try reflexivity; discriminate T. Qed.
Arguments field_read [v] k%_string _.

Lemma element_read v (k : String.string) :
  v <> VNull -> v <> VUndef -> get_prop v (str k) = Returned (Spec.field k v).
Proof. destruct v; simpl; intros A B; try reflexivity; congruence. Qed.
Arguments element_read [v] k%_string _ _.

Lemma holder_truthy (k : String.string) v x :
  Spec.field k v = x -> x <> VUndef -> truthy v = true.
Proof.
  unfold Spec.field. destruct v; intros E N; try reflexivity; congruence.
Qed.
Arguments holder_truthy k%_string [v x] _ _.

Lemma nothing_to_decode : JSON_parse [] = None.
Proof. vm_compute. reflexivity. Qed.

(** [find] reaches the first marked span when no element before it is
    [null]. *)
Lemma primary_found before span after :
  Forall (fun s => s <> VNull /\ s <> VUndef) before ->
  Forall (fun s => ~ Spec.is_primary s) before ->
  Spec.is_primary span ->
  RustRunner.find_primary (before ++ span :: after) = Returned span.
Proof.
  intros Ok No P.
  induction before as [|s before IH]; cbn [app RustRunner.find_primary].
  - assert (T : truthy span = true).
    { unfold Spec.is_primary, Spec.field in P.
      destruct span; try discriminate P. reflexivity. }
    rewrite (field_read "is_primary" T). cbn [obind].
    unfold Spec.is_primary in P. rewrite P. reflexivity.
  - inversion Ok as [|? ? [A B] Ok']; subst.
    inversion No as [|? ? N No']; subst.
    rewrite (element_read "is_primary" A B). cbn [obind].
    unfold Spec.is_primary in N.
    destruct (truthy (Spec.field "is_primary" s)); [congruence|].
    apply IH; assumption.
Qed.

(** The diagnostic a line with a marked span contributes. *)
Lemma kept_line line msg before span after :
  JSON_parse (trim line) = Some msg ->
  let inner := Spec.field "message" msg in
  let code := Spec.field "code" (Spec.field "code" inner) in
  Spec.field "reason" msg = VStr (str "compiler-message") ->
  Spec.field "level" inner = VStr (str "error")
  \/ Spec.field "level" inner = VStr (str "warning") ->
  Spec.field "spans" inner = VArr (before ++ span :: after) ->
  Forall (fun s => s <> VNull /\ s <> VUndef) before ->
  Forall (fun s => ~ Spec.is_primary s) before ->
  Spec.is_primary span ->
  RustRunner.diagnostic_of_line line
  = Returned
      (Some {| RustRunner.file := Spec.field "file_name" span;
               RustRunner.line := Spec.field "line_start" span;
               RustRunner.column := Spec.field "column_start" span;
               RustRunner.code := if truthy code then code else VStr [];
               RustRunner.message := Spec.field "message" inner;
               RustRunner.severity := Spec.field "level" inner |}).
Proof.
  intros E inner code R L S Ok No P.
  assert (Tm : truthy msg = true)
    by (apply (holder_truthy "reason" R); discriminate).
  assert (Ti : truthy inner = true).
  { destruct L as [L|L]; apply (holder_truthy "level" L); discriminate. }
  assert (Ts : truthy span = true).
  { unfold Spec.is_primary, Spec.field in P.
    destruct span; try discriminate P. reflexivity. }
  unfold RustRunner.diagnostic_of_line.
  destruct (is_empty (trim line)) eqn:Em.
  { destruct (trim line); [|discriminate Em].
    rewrite nothing_to_decode in E. discriminate E. }
  rewrite E.
  rewrite (field_read "reason" Tm). cbn [obind]. rewrite R.
  cbn [is_string]. rewrite eqb_refl. cbn [negb].
  rewrite (field_read "message" Tm). cbn [obind].
  fold inner. rewrite Ti. cbn [negb].
  rewrite (field_read "level" Ti). cbn [obind].
  assert (Lv : negb (is_string (Spec.field "level" inner) (str "error"))
               && negb (is_string (Spec.field "level" inner) (str "warning"))
               = false).
  { destruct L as [-> | ->]; reflexivity. }
  rewrite Lv.
  rewrite (field_read "spans" Ti). cbn [obind]. rewrite S.
  cbn [RustRunner.primary_span].
  rewrite (primary_found after Ok No P). cbn [obind].
  rewrite Ts. cbn [negb].
  unfold RustRunner.code_of.
  rewrite (field_read "code" Ti). cbn [obind].
  assert (C : match Spec.field "code" inner with
              | VUndef | VNull => Returned VUndef
              | _ => get_prop (Spec.field "code" inner) (str "code")
              end = Returned code).
  { subst code. destruct (Spec.field "code" inner); reflexivity. }
  rewrite C. cbn [obind].
  rewrite (field_read "message" Ti). cbn [obind].
  rewrite (field_read "file_name" Ts). cbn [obind].
  rewrite (field_read "line_start" Ts). cbn [obind].
  rewrite (field_read "column_start" Ts). cbn [obind].
  reflexivity.
Qed.

End RustFacts.

(** C7: a diagnostic that [parseRustOutput] keeps for a line comes from
    a line that decodes, has [reason] ['compiler-message'] and level
    ['error'] or ['warning'], and takes its file, line and column from
    the first span marked [is_primary], whatever the spans before it
    hold.  Such a line is kept: when no span before the first marked
    one is [null], the line contributes exactly one diagnostic, with the
    file, line and column of that span, the level as severity, the text
    of the message, and [message.code.code] or the empty string as code.
    A line contributes nothing when it does not decode, when its reason
    is another, when its level is another, or when none of its spans is
    marked; and the diagnostics of a result are those its lines
    contribute, in the order of the lines. *)
Theorem rust_diagnostics_sit_at_the_primary_span :
  (forall line d,
      In d (Spec.contributed line) ->
      exists msg spans span,
        JSON_parse (trim line) = Some msg
        /\ Spec.field "reason" msg = VStr (str "compiler-message")
        /\ (RustRunner.severity d = VStr (str "error")
            \/ RustRunner.severity d = VStr (str "warning"))
        /\ RustRunner.severity d = Spec.field "level" (Spec.field "message" msg)
        /\ Spec.field "spans" (Spec.field "message" msg) = VArr spans
        /\ Spec.first_primary spans span
        /\ RustRunner.file d = Spec.field "file_name" span
        /\ RustRunner.line d = Spec.field "line_start" span
        /\ RustRunner.column d = Spec.field "column_start" span)
  /\ (forall line msg before span after,
      JSON_parse (trim line) = Some msg ->
      let inner := Spec.field "message" msg in
      let code := Spec.field "code" (Spec.field "code" inner) in
      Spec.field "reason" msg = VStr (str "compiler-message") ->
      Spec.field "level" inner = VStr (str "error")
      \/ Spec.field "level" inner = VStr (str "warning") ->
      Spec.field "spans" inner = VArr (before ++ span :: after) ->
      Forall (fun s => s <> VNull /\ s <> VUndef) before ->
      Forall (fun s => ~ Spec.is_primary s) before ->
      Spec.is_primary span ->
      Spec.contributed line
      = [ {| RustRunner.file := Spec.field "file_name" span;
             RustRunner.line := Spec.field "line_start" span;
             RustRunner.column := Spec.field "column_start" span;
             RustRunner.code := if truthy code then code else VStr [];
             RustRunner.message := Spec.field "message" inner;
             RustRunner.severity := Spec.field "level" inner |} ])
  /\ (forall line,
      JSON_parse (trim line) = None -> Spec.contributed line = [])
  /\ (forall line msg,
      JSON_parse (trim line) = Some msg ->
      let inner := Spec.field "message" msg in
      Spec.field "reason" msg <> VStr (str "compiler-message")
      \/ (Spec.field "level" inner <> VStr (str "error")
          /\ Spec.field "level" inner <> VStr (str "warning"))
      \/ (exists spans, Spec.field "spans" inner = VArr spans
                        /\ Forall (fun s => ~ Spec.is_primary s) spans) ->
      Spec.contributed line = [])
  /\ (forall output r,
      RustRunner.parseRustOutput output = Returned r ->
      RustRunner.diagnostics r = flat_map Spec.contributed (split 10%N output)).
Proof.
  assert (Kept : forall line d,
             In d (Spec.contributed line) ->
             RustRunner.diagnostic_of_line line = Returned (Some d)).
  { intros line d. unfold Spec.contributed.
    destruct (RustRunner.diagnostic_of_line line) as [[d'|]|]; simpl;
      try tauto.
    intros [-> | []]. reflexivity. }
  assert (Nothing : forall line,
             (forall d, ~ In d (Spec.contributed line)) ->
             Spec.contributed line = []).
  { intros line H. destruct (Spec.contributed line) as [|d l]; [reflexivity|].
    exfalso. apply (H d). left; reflexivity. }
  split; [|split; [|split; [|split]]].
  - intros line d Hin. apply RustFacts.retained_line, Kept, Hin.
  - intros line msg before span after E inner code R L S Ok No P.
    unfold Spec.contributed.
    rewrite (@RustFacts.kept_line line msg before span after E R L S Ok No P).
    reflexivity.
  - intros line E. apply Nothing. intros d Hin.
    apply Kept, RustFacts.retained_line in Hin.
    destruct Hin as (msg & _ & _ & E' & _). congruence.
  - intros line msg E inner Hwhy. apply Nothing. intros d Hin.
    apply Kept, RustFacts.retained_line in Hin.
    destruct Hin as (msg' & spans & span & E' & R & Sev & Lv & Sp & First & _).
    assert (msg' = msg) by congruence. subst msg'. subst inner.
    destruct Hwhy as [N | [[N1 N2] | (spans' & Sp' & None)]].
    + contradiction.
    + rewrite <- Lv in N1, N2. destruct Sev; contradiction.
    + assert (spans' = spans) by congruence. subst spans'.
      destruct First as (before & after & -> & P & _).
      rewrite Forall_forall in None. apply (None span); [|exact P].
      apply in_or_app. right. left. reflexivity.
  - intros output r. unfold RustRunner.parseRustOutput.
    destruct (RustRunner.collect _) as [ds|] eqn:E; cbn [obind];
      [|discriminate].
    intros H; inversion H; subst; cbn.
    apply RustFacts.collect_contributed. exact E.
Qed.

Lemma rust_diagnostics_sit_at_the_primary_span_witness :
  let line :=
    qstr "{'reason':'compiler-message','message':{'message':'mismatched types','code':{'code':'E0308','explanation':null},'level':'error','spans':[{'file_name':'src/other.rs','line_start':1,'line_end':1,'column_start':1,'column_end':2,'is_primary':false,'text':[],'label':'expected'},{'file_name':'src/main.rs','line_start':10,'line_end':10,'column_start':5,'column_end':15,'is_primary':true,'text':[],'label':'found'}],'children':[],'rendered':null}}" in
  let d :=
    {| RustRunner.file := VStr (str "src/main.rs");
       RustRunner.line := VNum (of_Z 10);
       RustRunner.column := VNum (of_Z 5);
       RustRunner.code := VStr (str "E0308");
       RustRunner.message := VStr (str "mismatched types");
       RustRunner.severity := VStr (str "error") |} in
  Spec.contributed line = [d]
  /\ match RustRunner.parseRustOutput
             (str "   Compiling demo v0.1.0" ++ [10%N] ++ line ++ [10%N])
     with
     | Returned r => RustRunner.diagnostics r = [d]
     | Thrown _ => False
     end
  /\ (exists msg spans span,
      JSON_parse (trim line) = Some msg
      /\ Spec.field "reason" msg = VStr (str "compiler-message")
      /\ (RustRunner.severity d = VStr (str "error")
          \/ RustRunner.severity d = VStr (str "warning"))
      /\ RustRunner.severity d = Spec.field "level" (Spec.field "message" msg)
      /\ Spec.field "spans" (Spec.field "message" msg) = VArr spans
      /\ Spec.first_primary spans span
      /\ RustRunner.file d = Spec.field "file_name" span
      /\ RustRunner.line d = Spec.field "line_start" span
      /\ RustRunner.column d = Spec.field "column_start" span)
  /\ Spec.contributed (str "warning: unused variable") = []
  /\ Spec.contributed (qstr "{'reason':'build-finished','success':false}") = []
  /\ Spec.contributed
       (qstr "{'reason':'compiler-message','message':{'message':'see above','level':'note','spans':[]}}")
     = []
  /\ Spec.contributed
       (qstr "{'reason':'compiler-message','message':{'message':'aborting','level':'error','spans':[{'file_name':'src/lib.rs','is_primary':false}]}}")
     = [].
Proof.
  intros line d.
  destruct rust_diagnostics_sit_at_the_primary_span
    as (Kept & Keeps & Bad & Other & All).
  assert (C : Spec.contributed line = [d]).
  { destruct (JSON_parse (trim line)) as [msg|] eqn:E;
      [|vm_compute in E; discriminate E].
    assert (E' := E). vm_compute in E'. injection E' as E'.
    pose proof (Keeps line msg
                  [VObj [(str "file_name", VStr (str "src/other.rs"));
                         (str "line_start", VNum (of_Z 1));
                         (str "line_end", VNum (of_Z 1));
                         (str "column_start", VNum (of_Z 1));
                         (str "column_end", VNum (of_Z 2));
                         (str "is_primary", VBool false);
                         (str "text", VArr []);
                         (str "label", VStr (str "expected"))]]
                  (VObj [(str "file_name", VStr (str "src/main.rs"));
                         (str "line_start", VNum (of_Z 10));
                         (str "line_end", VNum (of_Z 10));
                         (str "column_start", VNum (of_Z 5));
                         (str "column_end", VNum (of_Z 15));
                         (str "is_primary", VBool true);
                         (str "text", VArr []);
                         (str "label", VStr (str "found"))])
                  [] E) as K.
    cbv zeta in K. rewrite <- E' in K.
    apply K.
    - vm_compute. reflexivity.
    - left. vm_compute. reflexivity.
    - vm_compute. reflexivity.
    - constructor; [split; discriminate|constructor].
    - constructor; [|constructor]. unfold Spec.is_primary. vm_compute.
      discriminate.
    - unfold Spec.is_primary. vm_compute. reflexivity. }
  split; [exact C|].
  split.
  { destruct (RustRunner.parseRustOutput _) as [r|e] eqn:P;
      [|vm_compute in P; discriminate P].
    rewrite (All _ r P). vm_compute. reflexivity. }
  split; [|split; [|split; [|split]]].
  - apply (Kept line d). rewrite C. left. reflexivity.
  - apply Bad. vm_compute. reflexivity.
  - eapply Other; [vm_compute; reflexivity|].
    left. vm_compute. discriminate.
  - eapply Other; [vm_compute; reflexivity|].
    right. left. split; vm_compute; discriminate.
  - eapply Other; [vm_compute; reflexivity|].
    right. right. eexists. split; [vm_compute; reflexivity|].
    repeat constructor. vm_compute. discriminate.
Defined.

(* ------------------------------------------------------------------ *)
(** * Facts about what the patterns capture *)

Module ShapeFacts.

Lemma rsem_group_inv n a s s' :
  rsem (RGroup n a) s s' ->
  exists s0, rsem a s s0 /\ s' = set_cap n (captured s s0) s0.
Proof. intros H; inversion H; subst; eauto. Qed.

(** The text of a group, read at the end of the match. *)
Lemma group_value n a R sa sb s' :
  rsem (RGroup n a) sa sb -> rsem R sb s' -> ~ In n (groups R) ->
  exists s0, rsem a sa s0 /\ group n s' = Some (captured sa s0).
Proof.
  intros HG HR Hn. apply rsem_group_inv in HG. destruct HG as (s0 & Ha & ->).
  exists s0. split; [exact Ha|]. unfold group.
  rewrite (rsem_frame HR _ Hn). simpl. rewrite Nat.eqb_refl. reflexivity.
Qed.

Lemma rsem_plus_class g p s s' :
  rsem (RPlus g (RClass p)) s s' ->
  exists c w, rest s = (c :: w) ++ rest s'
              /\ Forall (fun x => p x = true) (c :: w).
Proof.
  unfold RPlus. intros H. apply rsem_seq_inv in H.
  destruct H as (s1 & Hc & Hs).
  apply ServersFacts.rsem_class_inv in Hc. destruct Hc as (c & t & R & P & ->).
  apply ServersFacts.rsem_star_class in Hs. destruct Hs as (w & E & F).
  cbn [rest advance] in E. subst t.
  exists c, w. split; [exact R|]. constructor; assumption.
Qed.

Lemma rsem_empty_inv s s' : rsem REmpty s s' -> s' = s.
Proof. intros H; inversion H; reflexivity. Qed.

(** [x+] then a literal. *)
Lemma rsem_plus_then_lit g p u s s' :
  rsem (rcat [RPlus g (RClass p); lit u]) s s' ->
  exists c w, rest s = ((c :: w) ++ u) ++ rest s'
              /\ Forall (fun x => p x = true) (c :: w).
Proof.
  cbn [rcat]. intros H.
  apply rsem_seq_inv in H. destruct H as (s1 & Hp & H).
  apply rsem_seq_inv in H. destruct H as (s2 & Hl & He).
  apply rsem_empty_inv in He. subst s'.
  apply rsem_plus_class in Hp. destruct Hp as (c & w & E & F).
  apply rsem_lit in Hl. exists c, w. split; [|exact F].
  rewrite E, Hl, <- app_assoc. reflexivity.
Qed.

(** A literal then [x+]. *)
Lemma rsem_lit_then_plus g p u s s' :
  rsem (rcat [lit u; RPlus g (RClass p)]) s s' ->
  exists c w, rest s = (u ++ c :: w) ++ rest s'
              /\ Forall (fun x => p x = true) (c :: w).
Proof.
  cbn [rcat]. intros H.
  apply rsem_seq_inv in H. destruct H as (s1 & Hl & H).
  apply rsem_seq_inv in H. destruct H as (s2 & Hp & He).
  apply rsem_empty_inv in He. subst s'.
  apply rsem_plus_class in Hp. destruct Hp as (c & w & E & F).
  apply rsem_lit in Hl. exists c, w. split; [|exact F].
  rewrite Hl, E, <- app_assoc. reflexivity.
Qed.

(** One character of a class then [x+]. *)
Lemma rsem_class_then_plus g p q s s' :
  rsem (rcat [RClass q; RPlus g (RClass p)]) s s' ->
  exists l c w, rest s = (l :: c :: w) ++ rest s'
                /\ q l = true
                /\ Forall (fun x => p x = true) (c :: w).
Proof.
  cbn [rcat]. intros H.
  apply rsem_seq_inv in H. destruct H as (s1 & Hq & H).
  apply rsem_seq_inv in H. destruct H as (s2 & Hp & He).
  apply rsem_empty_inv in He. subst s'.
  apply ServersFacts.rsem_class_inv in Hq.
  destruct Hq as (l & t & R & Q & ->).
  apply rsem_plus_class in Hp. destruct Hp as (c & w & E & F).
  cbn [rest advance] in E. subst t.
  exists l, c, w. repeat split; assumption.
Qed.

(** ** Digits *)

Lemma digit_range c : is_digit c = true -> (48 <= c <= 57)%N.
Proof. apply ServersFacts.in_range_iff. Qed.

Lemma digit_not_space c : is_digit c = true -> is_space c = false.
Proof.
  intros D. apply digit_range in D. unfold is_space, in_range.
  repeat match goal with
         | |- context [N.eqb c ?k] =>
             replace (N.eqb c k) with false by (symmetry; apply N.eqb_neq; lia)
         end.
  replace (N.leb c 13) with false by (symmetry; apply N.leb_gt; lia).
  replace (N.leb c 8202) with true by (symmetry; apply N.leb_le; lia).
  replace (N.leb 8192 c) with false by (symmetry; apply N.leb_gt; lia).
  rewrite !andb_false_r. reflexivity.
Qed.

Lemma take_digits_all l : forall acc,
  Forall (fun x => is_digit x = true) l ->
  take_digits l acc = (rev acc ++ l, []).
Proof.
  induction l as [|c l IH]; intros acc F; simpl.
  - rewrite app_nil_r. reflexivity.
  - inversion F as [|x y Hc Hl]; subst. rewrite Hc, (IH _ Hl). simpl.
    rewrite <- app_assoc. reflexivity.
Qed.

Lemma digits_value_nonneg ds : (0 <= digits_value ds)%Z.
Proof.
  unfold digits_value.
  assert (G : forall a, (0 <= a)%Z ->
            (0 <= fold_left (fun a c => a * 10 + Z.of_N (c - 48)) ds a)%Z).
  { induction ds as [|c ds IH]; intros a Ha; simpl; [exact Ha|].
    apply IH. lia. }
  apply G. lia.
Qed.

(** [parseInt] of a string of digits is the number they write. *)
Lemma parseInt10_digits c w :
  Forall (fun x => is_digit x = true) (c :: w) ->
  parseInt10 (c :: w) = of_Z (digits_value (c :: w)).
Proof.
  intros F. unfold parseInt10.
  assert (D : is_digit c = true) by (inversion F; assumption).
  cbn [trimStart]. rewrite (digit_not_space _ D).
  pose proof (digit_range _ D) as R.
  match goal with
  | |- context [match ?M with (_, _) => _ end] =>
      assert (E : M = (false, c :: w))
  end.
  { clear F D. destruct c as [|q]; [lia|].
    do 6 (destruct q as [q|q|]; try reflexivity; try lia). }
  rewrite E. rewrite (take_digits_all [] F). reflexivity.
Qed.

Ltac to_group n H sb HG HR :=
  repeat lazymatch type of H with
         | rsem (RSeq (RGroup n _) _) _ _ => fail
         | rsem (RSeq _ _) _ _ =>
             apply rsem_seq_inv in H; destruct H as (? & _ & H)
         end;
  apply rsem_seq_inv in H; destruct H as (sb & HG & HR).

Ltac not_in_rest := vm_compute; intuition discriminate.

End ShapeFacts.

Module TscShape.
Import RegexFacts ShapeFacts Shapes.

Lemma dot_one_line c w :
  Forall (fun x => dot x = true) (c :: w) -> one_line (c :: w).
Proof.
  intros F. split; [discriminate|].
  eapply Forall_impl; [|exact F]. unfold dot. intros x Hx.
  destruct (is_line_terminator x); [discriminate | reflexivity].
Qed.

Lemma digits_position c w :
  Forall (fun x => is_digit x = true) (c :: w) ->
  position (parseInt10 (c :: w)).
Proof.
  intros F. rewrite (parseInt10_digits F).
  exists (digits_value (c :: w)). split; [|reflexivity].
  apply digits_value_nonneg.
Qed.

Lemma tsc_groups s m :
  rsem TscRunner.regex s m ->
  one_line (group_text 1 m)
  /\ position (parseInt10 (group_text 2 m))
  /\ position (parseInt10 (group_text 3 m))
  /\ (exists ds, group_text 5 m = str "TS" ++ ds /\ digits ds)
  /\ one_line (group_text 6 m).
Proof.
  unfold TscRunner.regex, group_text. cbn [rcat]. intros H.
  pose proof H as H1. pose proof H as H2. pose proof H as H3.
  pose proof H as H5. rename H into H6.
  to_group 1 H1 sb HG HR.
  destruct (group_value HG HR) as (s0 & Ha & ->); [not_in_rest|].
  apply rsem_plus_class in Ha. destruct Ha as (c & w & E & F).
  rewrite (@captured_app _ _ _ E). clear HG HR sb E.
  split; [apply dot_one_line; exact F|]. clear F c w s0.
  to_group 2 H2 sb HG HR.
  destruct (group_value HG HR) as (s0 & Ha & ->); [not_in_rest|].
  apply rsem_plus_class in Ha. destruct Ha as (c & w & E & F).
  rewrite (@captured_app _ _ _ E). clear HG HR sb E.
  split; [apply digits_position; exact F|]. clear F c w s0.
  to_group 3 H3 sb HG HR.
  destruct (group_value HG HR) as (s0 & Ha & ->); [not_in_rest|].
  apply rsem_plus_class in Ha. destruct Ha as (c & w & E & F).
  rewrite (@captured_app _ _ _ E). clear HG HR sb E.
  split; [apply digits_position; exact F|]. clear F c w s0.
  to_group 5 H5 sb HG HR.
  destruct (group_value HG HR) as (s0 & Ha & ->); [not_in_rest|].
  apply rsem_lit_then_plus in Ha. destruct Ha as (c & w & E & F).
  rewrite (@captured_app _ _ _ E). clear HG HR sb E.
  split; [exists (c :: w); split; [reflexivity | split; [discriminate | exact F]]|].
  clear F c w s0.
  to_group 6 H6 sb HG HR.
  destruct (group_value HG HR) as (s0 & Ha & ->); [not_in_rest|].
  apply rsem_plus_class in Ha. destruct Ha as (c & w & E & F).
  rewrite (@captured_app _ _ _ E).
  apply dot_one_line; exact F.
Qed.

End TscShape.

Module GoShape.
Import RegexFacts ShapeFacts Shapes TscShape.

Lemma stem_then_suffix c w u :
  Forall (fun x => dot x = true) (c :: w) -> ends_with u ((c :: w) ++ u).
Proof. intros F. exists (c :: w). split; [apply dot_one_line; exact F | reflexivity]. Qed.

Lemma go_groups s m :
  rsem GoRunner.regex s m ->
  ends_with (str ".go") (group_text 1 m)
  /\ position (parseInt10 (group_text 2 m))
  /\ position (parseInt10 (group_text 3 m))
  /\ one_line (group_text 4 m).
Proof.
  unfold GoRunner.regex, group_text. cbn [rcat]. intros H.
  pose proof H as H1. pose proof H as H2. pose proof H as H3.
  rename H into H4.
  to_group 1 H1 sb HG HR.
  destruct (group_value HG HR) as (s0 & Ha & ->); [not_in_rest|].
  apply rsem_plus_then_lit in Ha. destruct Ha as (c & w & E & F).
  rewrite (@captured_app _ _ _ E). clear HG HR sb E.
  split; [apply stem_then_suffix; exact F|]. clear F c w s0.
  to_group 2 H2 sb HG HR.
  destruct (group_value HG HR) as (s0 & Ha & ->); [not_in_rest|].
  apply rsem_plus_class in Ha. destruct Ha as (c & w & E & F).
  rewrite (@captured_app _ _ _ E). clear HG HR sb E.
  split; [apply digits_position; exact F|]. clear F c w s0.
  to_group 3 H3 sb HG HR.
  destruct (group_value HG HR) as (s0 & Ha & ->); [not_in_rest|].
  apply rsem_plus_class in Ha. destruct Ha as (c & w & E & F).
  rewrite (@captured_app _ _ _ E). clear HG HR sb E.
  split; [apply digits_position; exact F|]. clear F c w s0.
  to_group 4 H4 sb HG HR.
  destruct (group_value HG HR) as (s0 & Ha & ->); [not_in_rest|].
  apply rsem_plus_class in Ha. destruct Ha as (c & w & E & F).
  rewrite (@captured_app _ _ _ E).
  apply dot_one_line; exact F.
Qed.

End GoShape.

Module PythonShape.
Import RegexFacts ShapeFacts Shapes TscShape GoShape.

Lemma rcat_split l1 r l2 : forall s s',
  rsem (rcat (l1 ++ r :: l2)) s s' ->
  exists sa sb, rsem (rcat l1) s sa /\ rsem r sa sb /\ rsem (rcat l2) sb s'.
Proof.
  induction l1 as [|x l1 IH]; intros s s' H; cbn [rcat app] in H.
  - apply rsem_seq_inv in H. destruct H as (sb & Hr & H2).
    exists s, sb. repeat split; [constructor | exact Hr | exact H2].
  - apply rsem_seq_inv in H. destruct H as (s1 & Hx & H).
    apply IH in H. destruct H as (sa & sb & H1 & Hr & H2).
    exists sa, sb. repeat split; [|exact Hr | exact H2].
    cbn [rcat]. econstructor; eauto.
Qed.

Lemma pylint_groups s m :
  rsem PythonRunner.pylint_regex s m ->
  ends_with (str ".py") (group_text 1 m)
  /\ position (parseInt10 (group_text 2 m))
  /\ position (parseInt10 (group_text 3 m))
  /\ (exists l ds, group_text 4 m = l :: ds /\ is_upper l = true /\ digits ds)
  /\ one_line (group_text 5 m).
Proof.
  unfold PythonRunner.pylint_regex, PythonRunner.py_file, group_text.
  cbn [rcat]. intros H.
  pose proof H as H1. pose proof H as H2. pose proof H as H3.
  pose proof H as H4. rename H into H5.
  to_group 1 H1 sb HG HR.
  destruct (group_value HG HR) as (s0 & Ha & ->); [not_in_rest|].
  apply rsem_plus_then_lit in Ha. destruct Ha as (c & w & E & F).
  rewrite (@captured_app _ _ _ E). clear HG HR sb E.
  split; [apply stem_then_suffix; exact F|]. clear F c w s0.
  to_group 2 H2 sb HG HR.
  destruct (group_value HG HR) as (s0 & Ha & ->); [not_in_rest|].
  apply rsem_plus_class in Ha. destruct Ha as (c & w & E & F).
  rewrite (@captured_app _ _ _ E). clear HG HR sb E.
  split; [apply digits_position; exact F|]. clear F c w s0.
  to_group 3 H3 sb HG HR.
  destruct (group_value HG HR) as (s0 & Ha & ->); [not_in_rest|].
  apply rsem_plus_class in Ha. destruct Ha as (c & w & E & F).
  rewrite (@captured_app _ _ _ E). clear HG HR sb E.
  split; [apply digits_position; exact F|]. clear F c w s0.
  to_group 4 H4 sb HG HR.
  destruct (group_value HG HR) as (s0 & Ha & ->); [not_in_rest|].
  apply rsem_class_then_plus in Ha. destruct Ha as (l & c & w & E & U & F).
  rewrite (@captured_app _ _ _ E). clear HG HR sb E.
  split; [exists l, (c :: w); repeat split; [exact U | discriminate | exact F]|].
  clear F U l c w s0.
  to_group 5 H5 sb HG HR.
  destruct (group_value HG HR) as (s0 & Ha & ->); [not_in_rest|].
  apply rsem_plus_class in Ha. destruct Ha as (c & w & E & F).
  rewrite (@captured_app _ _ _ E).
  apply dot_one_line; exact F.
Qed.

Lemma mypy_groups s m :
  rsem PythonRunner.mypy_regex s m ->
  ends_with (str ".py") (group_text 1 m)
  /\ position (parseInt10 (group_text 2 m))
  /\ position (parseInt10 (group_text 3 m))
  /\ one_line (group_text 5 m).
Proof.
  unfold PythonRunner.mypy_regex, PythonRunner.py_file, group_text.
  cbn [rcat]. intros H.
  pose proof H as H1. pose proof H as H2. pose proof H as H3.
  rename H into H5.
  to_group 1 H1 sb HG HR.
  destruct (group_value HG HR) as (s0 & Ha & ->); [not_in_rest|].
  apply rsem_plus_then_lit in Ha. destruct Ha as (c & w & E & F).
  rewrite (@captured_app _ _ _ E). clear HG HR sb E.
  split; [apply stem_then_suffix; exact F|]. clear F c w s0.
  to_group 2 H2 sb HG HR.
  destruct (group_value HG HR) as (s0 & Ha & ->); [not_in_rest|].
  apply rsem_plus_class in Ha. destruct Ha as (c & w & E & F).
  rewrite (@captured_app _ _ _ E). clear HG HR sb E.
  split; [apply digits_position; exact F|]. clear F c w s0.
  to_group 3 H3 sb HG HR.
  destruct (group_value HG HR) as (s0 & Ha & ->); [not_in_rest|].
  apply rsem_plus_class in Ha. destruct Ha as (c & w & E & F).
  rewrite (@captured_app _ _ _ E). clear HG HR sb E.
  split; [apply digits_position; exact F|]. clear F c w s0.
  to_group 5 H5 sb HG HR.
  destruct (group_value HG HR) as (s0 & Ha & ->); [not_in_rest|].
  apply rsem_plus_class in Ha. destruct Ha as (c & w & E & F).
  rewrite (@captured_app _ _ _ E).
  apply dot_one_line; exact F.
Qed.

(** The bracketed code of a mypy line, when there is one, has no
    closing bracket in it. *)
Lemma mypy_code s m :
  caps s = [] ->
  rsem PythonRunner.mypy_regex s m ->
  Forall (fun c => c <> 93%N) (or_str (group 6 m) []).
Proof.
  intros C H.
  change PythonRunner.mypy_regex with
    (rcat ([RBol true; PythonRunner.py_file; RChar 58;
            RGroup 2 (RPlus true (RClass is_digit)); RChar 58;
            RGroup 3 (RPlus true (RClass is_digit)); RChar 58; RChar 32;
            RGroup 4 (RAlt (lit (str "error"))
                           (RAlt (lit (str "warning")) (lit (str "note"))));
            RChar 58; RChar 32;
            RGroup 5 (RPlus false (RClass dot))]%N
           ++ ROpt (rcat [RPlus true (RClass is_space); RChar 91%N;
                          RGroup 6 (RPlus true
                                      (RClass (fun c => negb (N.eqb c 93))));
                          RChar 93%N])
           :: [REol true])) in H.
  apply rcat_split in H. destruct H as (sa & sb & Hpre & Hopt & Hend).
  assert (Pre : lookup 6 (caps sa) = None).
  { rewrite (rsem_frame Hpre); [rewrite C; reflexivity | not_in_rest]. }
  assert (End : group 6 m = group 6 sb).
  { unfold group. apply (rsem_frame Hend). not_in_rest. }
  rewrite End. unfold ROpt in Hopt.
  inversion Hopt as [| | | |a b s1 s2 Hl|a b s1 s2 Hr| | | | |]; subst.
  - cbn [rcat] in Hl. to_group 6 Hl sc HG HR.
    destruct (group_value HG HR) as (s0 & Ha & ->); [not_in_rest|].
    apply rsem_plus_class in Ha. destruct Ha as (c & w & E & F).
    rewrite (@captured_app _ _ _ E). cbn [or_str app].
    eapply Forall_impl; [|exact F]. cbn. intros y Hy ->. discriminate.
  - apply rsem_empty_inv in Hr. subst sb. unfold group. rewrite Pre.
    constructor.
Qed.

End PythonShape.

(* ------------------------------------------------------------------ *)
(** * Facts about numbers *)

Module NumberFacts.

Lemma shr_1_keeps mrs : (0 <= shr_m mrs)%Z -> (0 <= shr_m (shr_1 mrs))%Z.
Proof.
  destruct mrs as [m r s]. cbn [shr_m].
  destruct m as [|p|p]; [| |lia]; intros _.
  - cbn. lia.
  - destruct p; cbn; lia.
Qed.

Lemma iter_shr_keeps p : forall mrs,
  (0 <= shr_m mrs)%Z -> (0 <= shr_m (iter_pos shr_1 p mrs))%Z.
Proof.
  induction p as [p IH|p IH|]; intros mrs H; cbn [iter_pos].
  - apply IH, IH, shr_1_keeps, H.
  - apply IH, IH, H.
  - apply shr_1_keeps, H.
Qed.

Lemma shr_fexp_keeps prec emax m e l :
  (0 <= m)%Z -> (0 <= shr_m (fst (shr_fexp prec emax m e l)))%Z.
Proof.
  intros H. unfold shr_fexp, shr.
  assert (R : (0 <= shr_m (shr_record_of_loc m l))%Z)
    by (destruct l as [|[]]; exact H).
  destruct (fexp prec emax (Zdigits2 m + e) - e)%Z; cbn [fst]; try exact R.
  apply iter_shr_keeps, R.
Qed.

Lemma round_keeps m l : (0 <= m)%Z -> (0 <= round_nearest_even m l)%Z.
Proof.
  intros H. destruct l as [|[]]; cbn; try lia.
  destruct (Z.even m); lia.
Qed.

(** Rounding keeps the sign, and gives no [NaN]. *)
Lemma rounded_sign prec emax sx mx ex l :
  (0 <= mx)%Z ->
  binary_round_aux prec emax sx mx ex l = S754_zero sx
  \/ binary_round_aux prec emax sx mx ex l = S754_infinity sx
  \/ exists m e, binary_round_aux prec emax sx mx ex l = S754_finite sx m e.
Proof.
  intros H. unfold binary_round_aux.
  pose proof (@shr_fexp_keeps prec emax mx ex l H) as K1.
  destruct (shr_fexp prec emax mx ex l) as [mrs' e']. cbn [fst] in K1.
  pose proof (@shr_fexp_keeps prec emax _ e' loc_Exact
                (@round_keeps _ (loc_of_shr_record mrs') K1)) as K2.
  destruct (shr_fexp prec emax _ e' loc_Exact) as [mrs'' e''].
  cbn [fst] in K2.
  destruct (shr_m mrs'') as [|m|m]; [left; reflexivity| |lia].
  right. destruct (e'' <=? emax - prec)%Z; [right; eauto|left; reflexivity].
Qed.

(** A line or a column is a zero, a positive number or the positive
    infinity: not [NaN], and not negative. *)
Lemma position_is_a_count n :
  Shapes.position n ->
  n = S754_zero false \/ n = S754_infinity false
  \/ exists m e, n = S754_finite false m e.
Proof.
  intros (z & Hz & ->). unfold of_Z.
  destruct z as [|p|p]; [left; reflexivity| |lia].
  unfold binary_normalize, binary_round.
  destruct (shl_align _ _ _) as [mz ez].
  apply rounded_sign. lia.
Qed.

(** An integer below [2^53] is itself, [42] being [5910974510923776 *
    2^-47]; above, it is rounded; a run of four hundred digits is the
    infinity. *)
Example parseInt10_rounds :
  parseInt10 (str "42") = S754_finite false 5910974510923776 (-47)
  /\ parseInt10 (str "0") = S754_zero false
  /\ parseInt10 (str "9007199254740993") = of_Z 9007199254740992
  /\ parseInt10 (repeat 57%N 400) = S754_infinity false
  /\ parseInt10 (str "x") = NaN.
Proof. vm_compute. repeat split. Qed.

(** [JSON.parse] rounds a literal to the format: a tenth is the nearest
    number to it, [1e-400] is the zero, which is falsy, and [1e400] is
    the infinity. *)
Example JSON_parse_rounds :
  JSON_parse (str "0.1") = Some (VNum (S754_finite false 7205759403792794 (-56)))
  /\ JSON_parse (str "1e-400") = Some (VNum (S754_zero false))
  /\ truthy (VNum (S754_zero false)) = false
  /\ JSON_parse (str "-0") = Some (VNum (S754_zero true))
  /\ JSON_parse (str "1e400") = Some (VNum (S754_infinity false))
  /\ JSON_parse (str "5e-324") = Some (VNum (S754_finite false 1 (-1074)))
  /\ JSON_parse (str "2e-324") = Some (VNum (S754_zero false)).
Proof. vm_compute. repeat split. Qed.

(** A span whose mark is too small to be a number other than zero is
    not marked. *)
Example a_vanishing_mark_is_no_mark :
  RustRunner.parseRustOutput
    (qstr "{'reason':'compiler-message','message':{'message':'m','level':'error','spans':[{'is_primary':1e-400,'file_name':'a.rs','line_start':1,'column_start':1},{'is_primary':true,'file_name':'b.rs','line_start':2,'column_start':3}]}}")
  = Returned
      {| RustRunner.success := false;
         RustRunner.diagnostics :=
           [ {| RustRunner.file := VStr (str "b.rs");
                RustRunner.line := VNum (of_Z 2);
                RustRunner.column := VNum (of_Z 3);
                RustRunner.code := VStr [];
                RustRunner.message := VStr (str "m");
                RustRunner.severity := VStr (str "error") |} ];
         RustRunner.errorCount := 1;
         RustRunner.warningCount := 0;
         RustRunner.skipped := None |}.
Proof. vm_compute. reflexivity. Qed.

End NumberFacts.

(* ------------------------------------------------------------------ *)
(** * Further properties of the parsers *)

Import Shapes.

(** X1: every diagnostic [parseTscOutput] returns is well formed: its
    severity is ['error'] or ['warning'], its line and column are
    the Numbers for non-negative integers (so never [NaN] and never
    negative; a run of digits too long for the format gives the
    rounded number or the infinity), its code is [TS] followed by
    digits, and its file and message are non-empty and hold no line
    terminator. *)
Theorem tsc_diagnostics_are_well_formed :
  forall output d,
    In d (TscRunner.diagnostics (TscRunner.parseTscOutput output)) ->
    (TscRunner.severity d = str "error" \/ TscRunner.severity d = str "warning")
    /\ position (TscRunner.line d)
    /\ position (TscRunner.column d)
    /\ (exists ds, TscRunner.code d = str "TS" ++ ds /\ digits ds)
    /\ one_line (TscRunner.file d)
    /\ one_line (TscRunner.message d).
Proof.
  intros output d Hin.
  pose proof (tsc_severities output) as Sev. rewrite Forall_forall in Sev.
  split; [apply Sev; exact Hin|].
  unfold TscRunner.parseTscOutput in Hin. cbn [TscRunner.diagnostics] in Hin.
  apply in_map_iff in Hin. destruct Hin as (m & <- & Hm).
  pose proof (exec_all_sound TscRunner.regex output) as S.
  rewrite Forall_forall in S. destruct (S m Hm) as (s0 & _ & R).
  destruct (TscShape.tsc_groups R) as (F & L & C & K & M).
  cbn [TscRunner.diagnostic_of_match TscRunner.line TscRunner.column
       TscRunner.code TscRunner.file TscRunner.message].
  split; [exact L|]. split; [exact C|]. split; [exact K|].
  split; [exact F|exact M].
Qed.

Lemma tsc_diagnostics_are_well_formed_witness :
  let d := {| TscRunner.file := str "C:\Users\dev\src\index.ts";
              TscRunner.line := of_Z 10;
              TscRunner.column := of_Z 5;
              TscRunner.code := str "TS2345";
              TscRunner.message := str "Type mismatch.";
              TscRunner.severity := str "error" |} in
  position (TscRunner.line d)
  /\ (exists ds, TscRunner.code d = str "TS" ++ ds /\ digits ds)
  /\ one_line (TscRunner.file d).
Proof.
  intros d.
  destruct (@tsc_diagnostics_are_well_formed
              (str "tsc: checking" ++ [10%N]
               ++ str "C:\Users\dev\src\index.ts(10,5): error TS2345: Type mismatch.")
              d)
    as (_ & L & _ & K & F & _).
  - vm_compute. left. reflexivity.
  - split; [exact L|]. split; [exact K|exact F].
Defined.

(** X2: every diagnostic [parseGoOutput] returns is a warning whose
    file ends in [.go] after a non-empty stem, whose line and column are
    the Numbers for non-negative integers (rounded, or infinite, for a
    run of digits too long for the format), and whose message is
    non-empty and holds no line terminator. *)
Theorem go_diagnostics_are_well_formed :
  forall output d,
    In d (GoRunner.diagnostics (GoRunner.parseGoOutput output)) ->
    GoRunner.severity d = str "warning"
    /\ ends_with (str ".go") (GoRunner.file d)
    /\ position (GoRunner.line d)
    /\ position (GoRunner.column d)
    /\ one_line (GoRunner.message d).
Proof.
  intros output d Hin.
  unfold GoRunner.parseGoOutput in Hin. cbn [GoRunner.diagnostics] in Hin.
  apply in_map_iff in Hin. destruct Hin as (m & <- & Hm).
  pose proof (exec_all_sound GoRunner.regex output) as S.
  rewrite Forall_forall in S. destruct (S m Hm) as (s0 & _ & R).
  destruct (GoShape.go_groups R) as (F & L & C & M).
  cbn [GoRunner.diagnostic_of_match GoRunner.line GoRunner.column
       GoRunner.severity GoRunner.file GoRunner.message].
  split; [reflexivity|]. split; [exact F|]. split; [exact L|].
  split; [exact C|exact M].
Qed.

Lemma go_diagnostics_are_well_formed_witness :
  let d := {| GoRunner.file := str "pkg/util.go";
              GoRunner.line := of_Z 25;
              GoRunner.column := of_Z 12;
              GoRunner.message := str "result of fmt.Sprintf call not used";
              GoRunner.severity := str "warning" |} in
  ends_with (str ".go") (GoRunner.file d) /\ position (GoRunner.column d).
Proof.
  intros d.
  destruct (@go_diagnostics_are_well_formed
              (str "# example.com/pkg" ++ [10%N]
               ++ str "pkg/util.go:25:12: result of fmt.Sprintf call not used")
              d)
    as (_ & F & _ & C & _).
  - vm_compute. left. reflexivity.
  - split; assumption.
Defined.

(** X3: every diagnostic [parseMypyOutput] returns has severity
    ['error'] or ['warning'], a file that ends in [.py] after a
    non-empty stem, a line and a column that are the Numbers for
    non-negative integers (rounded, or infinite, for a run of digits too
    long for the format), a non-empty one-line message, and a code without a closing
    bracket. *)
Theorem mypy_diagnostics_are_well_formed :
  forall output d,
    In d (PythonRunner.diagnostics (PythonRunner.parseMypyOutput output)) ->
    (PythonRunner.severity d = str "error"
     \/ PythonRunner.severity d = str "warning")
    /\ ends_with (str ".py") (PythonRunner.file d)
    /\ position (PythonRunner.line d)
    /\ position (PythonRunner.column d)
    /\ one_line (PythonRunner.message d)
    /\ Forall (fun c => c <> 93%N) (PythonRunner.code d).
Proof.
  intros output d Hin.
  pose proof (mypy_severities output) as Sev. rewrite Forall_forall in Sev.
  split; [apply Sev; exact Hin|].
  unfold PythonRunner.parseMypyOutput in Hin.
  cbn [PythonRunner.diagnostics] in Hin.
  apply in_map_iff in Hin. destruct Hin as (m & <- & Hm).
  apply filter_In in Hm. destruct Hm as [Hm _].
  pose proof (exec_all_sound PythonRunner.mypy_regex output) as S.
  rewrite Forall_forall in S. destruct (S m Hm) as (s0 & C0 & R).
  destruct (PythonShape.mypy_groups R) as (F & L & C & M).
  pose proof (PythonShape.mypy_code C0 R) as K.
  cbn [PythonRunner.mypy_diagnostic PythonRunner.line PythonRunner.column
       PythonRunner.code PythonRunner.file PythonRunner.message].
  split; [exact F|]. split; [exact L|]. split; [exact C|].
  split; [exact M|exact K].
Qed.

Lemma mypy_diagnostics_are_well_formed_witness :
  let d := {| PythonRunner.file := str "main.py";
              PythonRunner.line := of_Z 10;
              PythonRunner.column := of_Z 5;
              PythonRunner.code := str "arg-type";
              PythonRunner.message := str "Incompatible types";
              PythonRunner.severity := str "error" |} in
  ends_with (str ".py") (PythonRunner.file d)
  /\ Forall (fun c => c <> 93%N) (PythonRunner.code d).
Proof.
  intros d.
  destruct (@mypy_diagnostics_are_well_formed
              (str "main.py:10:5: error: Incompatible types [arg-type]"
               ++ [10%N] ++ str "Found 1 error in 1 file")
              d)
    as (_ & F & _ & _ & _ & K).
  - vm_compute. left. reflexivity.
  - split; assumption.
Defined.

(** X4: every diagnostic [parsePylintOutput] returns has a code made of
    one upper-case letter and digits, and is an ['error'] exactly when
    the letter is [E] or [F] and a ['warning'] otherwise; its file ends
    in [.py], its line and column are the Numbers for non-negative
    integers (rounded, or infinite, for a run of digits too long for the
    format), and its message is non-empty and on one line. *)
Theorem pylint_diagnostics_are_well_formed :
  forall output d,
    In d (PythonRunner.diagnostics (PythonRunner.parsePylintOutput output)) ->
    (exists l ds,
        PythonRunner.code d = l :: ds
        /\ is_upper l = true /\ digits ds
        /\ (PythonRunner.severity d = str "error" <-> l = 69%N \/ l = 70%N)
        /\ (PythonRunner.severity d = str "warning" <-> l <> 69%N /\ l <> 70%N))
    /\ ends_with (str ".py") (PythonRunner.file d)
    /\ position (PythonRunner.line d)
    /\ position (PythonRunner.column d)
    /\ one_line (PythonRunner.message d).
Proof.
  intros output d Hin.
  unfold PythonRunner.parsePylintOutput in Hin.
  cbn [PythonRunner.diagnostics] in Hin.
  apply in_map_iff in Hin. destruct Hin as (m & <- & Hm).
  pose proof (exec_all_sound PythonRunner.pylint_regex output) as S.
  rewrite Forall_forall in S. destruct (S m Hm) as (s0 & _ & R).
  destruct (PythonShape.pylint_groups R) as (F & L & C & (l & ds & K & U & D) & M).
  split;
    [|cbn [PythonRunner.pylint_diagnostic PythonRunner.line PythonRunner.column
           PythonRunner.file PythonRunner.message];
      split; [exact F|]; split; [exact L|]; split; [exact C|exact M]].
  exists l, ds. unfold PythonRunner.pylint_diagnostic.
  cbn [PythonRunner.code PythonRunner.severity]. rewrite K.
  cbn [startsWith].
  split; [reflexivity|]. split; [exact U|]. split; [exact D|].
  destruct (N.eqb_spec l 69) as [E1|E1]; destruct (N.eqb_spec l 70) as [E2|E2];
    cbn [orb];
    (split; split; intros H;
     try reflexivity; try tauto; try discriminate H;
     try (destruct H as [H1 H2]; congruence)).
Qed.

Lemma pylint_diagnostics_are_well_formed_witness :
  let d := {| PythonRunner.file := str "main.py";
              PythonRunner.line := of_Z 1;
              PythonRunner.column := of_Z 0;
              PythonRunner.code := str "F0001";
              PythonRunner.message := str "error in module (fatal)";
              PythonRunner.severity := str "error" |} in
  exists l ds,
    PythonRunner.code d = l :: ds
    /\ is_upper l = true /\ digits ds
    /\ (PythonRunner.severity d = str "error" <-> l = 69%N \/ l = 70%N)
    /\ (PythonRunner.severity d = str "warning" <-> l <> 69%N /\ l <> 70%N).
Proof.
  intros d.
  destruct (@pylint_diagnostics_are_well_formed
              (str "************* Module main" ++ [10%N]
               ++ str "main.py:1:0: F0001: error in module (fatal)")
              d)
    as (K & _).
  - vm_compute. left. reflexivity.
  - exact K.
Defined.

(* ------------------------------------------------------------------ *)
(** * The results a runner can hand back *)

Module RunnerFacts.

Import Forms.

Lemma tsc_runner_cases node W (h : handler W) w d :
  exists r,
    result_of (run h (TscRunner.runTscDiagnostics node d) w) = Returned r
    /\ ((exists why, r = tsc_plain why)
        \/ r = tsc_crashed
        \/ (exists output, r = TscRunner.parseTscOutput output)).
Proof.
  unfold TscRunner.runTscDiagnostics, result_of. simpl.
  destruct (h _ _ w) as [present w1]. destruct present; simpl.
  - destruct (h _ _ w1) as [res w2]. destruct res as [out|error]; simpl.
    + eexists. split; [reflexivity|]. left. exists None. reflexivity.
    + destruct (code_is error _); simpl.
      * eexists. split; [reflexivity|]. left. eexists. reflexivity.
      * destruct (is_empty _); simpl; eexists; (split; [reflexivity|]).
        -- right. left. reflexivity.
        -- right. right. eexists. reflexivity.
  - eexists. split; [reflexivity|]. left. eexists. reflexivity.
Qed.

Lemma go_runner_cases node W (h : handler W) w d :
  exists r,
    result_of (run h (GoRunner.runGoDiagnostics node d) w) = Returned r
    /\ ((exists why, r = go_plain why)
        \/ (exists output, r = GoRunner.parseGoOutput output)).
Proof.
  unfold GoRunner.runGoDiagnostics, result_of. simpl.
  destruct (h _ _ w) as [present w1]. destruct present; simpl.
  - destruct (h _ _ w1) as [res w2]. destruct res as [out|error]; simpl.
    + eexists. split; [reflexivity|]. left. exists None. reflexivity.
    + destruct (code_is error _); simpl; eexists; (split; [reflexivity|]).
      * left. eexists. reflexivity.
      * right. eexists. reflexivity.
  - eexists. split; [reflexivity|]. left. eexists. reflexivity.
Qed.

Lemma rust_runner_cases node W (h : handler W) w d :
  (exists r,
      result_of (run h (RustRunner.runRustDiagnostics node d) w) = Returned r
      /\ ((exists why, r = rust_plain why)
          \/ (exists output, RustRunner.parseRustOutput output = Returned r)))
  \/ (exists output e,
         result_of (run h (RustRunner.runRustDiagnostics node d) w) = Thrown e
         /\ RustRunner.parseRustOutput output = Thrown e).
Proof.
  unfold RustRunner.runRustDiagnostics, result_of. simpl.
  destruct (h _ _ w) as [present w1]. destruct present; simpl.
  - destruct (h _ _ w1) as [res w2]. destruct res as [out|error]; simpl.
    + left. eexists. split; [reflexivity|]. left. exists None. reflexivity.
    + destruct (code_is error _); simpl.
      * left. eexists. split; [reflexivity|]. left. eexists. reflexivity.
      * destruct (RustRunner.parseRustOutput _) as [r'|e] eqn:E; simpl.
        -- left. eexists. split; [reflexivity|]. right. eexists. exact E.
        -- right. do 2 eexists. split; [reflexivity|exact E].
  - left. eexists. split; [reflexivity|]. left. eexists. reflexivity.
Qed.

Lemma mypy_run_cases W (h : handler W) w d :
  exists r,
    result_of (run h (PythonRunner.runMypy d) w) = Returned r /\ python_form r.
Proof.
  unfold PythonRunner.runMypy, result_of, python_form. simpl.
  destruct (h _ _ w) as [res w2]. destruct res as [out|error]; simpl.
  - eexists. split; [reflexivity|]. left. do 2 eexists. split; [reflexivity|]. first [discriminate | intros _; do 2 eexists; vm_compute; reflexivity].
  - destruct (code_is error _); simpl.
    + eexists. split; [reflexivity|]. left. do 2 eexists. split; [reflexivity|]. first [discriminate | intros _; do 2 eexists; vm_compute; reflexivity].
    + destruct (is_empty _); simpl; eexists; (split; [reflexivity|]).
      * right. left. do 3 eexists. split; [reflexivity|discriminate].
      * right. right. left. eexists. reflexivity.
Qed.

Lemma pylint_run_cases W (h : handler W) w d :
  exists r,
    result_of (run h (PythonRunner.runPylint d) w) = Returned r /\ python_form r.
Proof.
  unfold PythonRunner.runPylint, result_of, python_form. simpl.
  destruct (h _ _ w) as [res w2]. destruct res as [out|error]; simpl.
  - eexists. split; [reflexivity|]. left. do 2 eexists. split; [reflexivity|]. first [discriminate | intros _; do 2 eexists; vm_compute; reflexivity].
  - destruct (code_is error _); simpl.
    + eexists. split; [reflexivity|]. left. do 2 eexists. split; [reflexivity|]. first [discriminate | intros _; do 2 eexists; vm_compute; reflexivity].
    + destruct (is_empty _); simpl; eexists; (split; [reflexivity|]).
      * right. left. do 3 eexists. split; [reflexivity|discriminate].
      * right. right. right. eexists. reflexivity.
Qed.

Lemma python_runner_cases node W (h : handler W) w d :
  exists r,
    result_of (run h (PythonRunner.runPythonDiagnostics node d) w) = Returned r
    /\ python_form r.
Proof.
  unfold PythonRunner.runPythonDiagnostics.
  rewrite (@ResultFacts.commandExists_safe node (str "mypy") eq_refl
             ResultFacts.mypy_is_safe).
  rewrite (@ResultFacts.commandExists_safe node (str "pylint") eq_refl
             ResultFacts.pylint_is_safe).
  unfold result_of. cbn [bind call run].
  destruct (h _ _ w) as [a1 w1]. destruct (h _ _ w1) as [a2 w2].
  destruct (h _ _ w2) as [a3 w3].
  destruct (negb a1 && negb a2 && negb a3).
  - simpl. eexists. split; [reflexivity|]. left. do 2 eexists. split; [reflexivity|]. first [discriminate | intros _; do 2 eexists; vm_compute; reflexivity].
  - cbn [bind run]. destruct (h _ _ w3) as [m w4].
    destruct m as [out|err].
    + cbn [bind].
      destruct (mypy_run_cases h w4 d) as (r & E & F). unfold result_of in E.
      destruct (run h (PythonRunner.runMypy d) w4) as [[o t] w5].
      exists r. split; assumption.
    + cbn [bind run]. destruct (h _ _ w4) as [pl w5].
      destruct pl as [out|err2].
      * cbn [bind].
        destruct (pylint_run_cases h w5 d) as (r & E & F). unfold result_of in E.
        destruct (run h (PythonRunner.runPylint d) w5) as [[o t] w6].
        exists r. split; assumption.
      * simpl. eexists. split; [reflexivity|]. left. do 2 eexists. split; [reflexivity|]. first [discriminate | intros _; do 2 eexists; vm_compute; reflexivity].
Qed.

(** Whatever the cargo parser throws is a [TypeError]. *)
Lemma get_prop_throws v k e : get_prop v k = Thrown e -> e = TypeError.
Proof. destruct v; simpl; intros H; inversion H; reflexivity. Qed.

Lemma find_primary_throws spans e :
  RustRunner.find_primary spans = Thrown e -> e = TypeError.
Proof.
  induction spans as [|s more IH]; simpl; [discriminate|].
  destruct (get_prop s _) as [p|e'] eqn:E; simpl.
  - destruct (truthy p); [discriminate|exact IH].
  - intros H; inversion H; subst. eapply get_prop_throws; eauto.
Qed.

Lemma primary_span_throws spans e :
  RustRunner.primary_span spans = Thrown e -> e = TypeError.
Proof.
  destruct spans; simpl; try discriminate;
    try (intros H; inversion H; reflexivity).
  apply find_primary_throws.
Qed.

Lemma code_of_throws v e : RustRunner.code_of v = Thrown e -> e = TypeError.
Proof.
  unfold RustRunner.code_of.
  destruct (get_prop v _) as [c|e'] eqn:E; simpl.
  - destruct c; simpl; try discriminate;
      match goal with
      | |- context [get_prop ?x ?k] =>
          destruct (get_prop x k) eqn:E2; simpl; try discriminate;
          intros H; inversion H; subst; eapply get_prop_throws; eauto
      end.
  - intros H; inversion H; subst. eapply get_prop_throws; eauto.
Qed.

(** One step of the chain of reads in [diagnostic_of_line]. *)
Ltac read_step :=
  match goal with
  | |- obind (get_prop ?v ?k) _ = Thrown _ -> _ =>
      let E := fresh "E" in
      destruct (get_prop v k) eqn:E; cbn [obind];
      [|intros H; inversion H; subst; eapply get_prop_throws; eauto]
  | |- obind (RustRunner.primary_span ?v) _ = Thrown _ -> _ =>
      let E := fresh "E" in
      destruct (RustRunner.primary_span v) eqn:E; cbn [obind];
      [|intros H; inversion H; subst; eapply primary_span_throws; eauto]
  | |- obind (RustRunner.code_of ?v) _ = Thrown _ -> _ =>
      let E := fresh "E" in
      destruct (RustRunner.code_of v) eqn:E; cbn [obind];
      [|intros H; inversion H; subst; eapply code_of_throws; eauto]
  | |- (if ?b then _ else _) = Thrown _ -> _ =>
      destruct b; [try discriminate|try discriminate]
  | |- Returned _ = Thrown _ -> _ => discriminate
  end.

Lemma diagnostic_of_line_throws line e :
  RustRunner.diagnostic_of_line line = Thrown e -> e = TypeError.
Proof.
  unfold RustRunner.diagnostic_of_line.
  destruct (is_empty (trim line)); [discriminate|].
  destruct (JSON_parse (trim line)) as [msg|]; [|discriminate].
  repeat read_step.
Qed.

Lemma collect_throws lines e :
  RustRunner.collect lines = Thrown e -> e = TypeError.
Proof.
  induction lines as [|l more IH]; simpl; [discriminate|].
  destruct (RustRunner.diagnostic_of_line l) as [d|e'] eqn:E; simpl.
  - destruct (RustRunner.collect more) as [ds|e'']; simpl; [discriminate|].
    intros H; inversion H; subst. apply IH. reflexivity.
  - intros H; inversion H; subst. eapply diagnostic_of_line_throws; eauto.
Qed.

Lemma parseRustOutput_throws output e :
  RustRunner.parseRustOutput output = Thrown e -> e = TypeError.
Proof.
  unfold RustRunner.parseRustOutput.
  destruct (RustRunner.collect _) as [ds|e'] eqn:E; simpl; [discriminate|].
  intros H; inversion H; subst. eapply collect_throws; eauto.
Qed.

End RunnerFacts.

Module CargoFacts.
Import Forms.

Lemma get_prop_ok v (k : String.string) :
  v <> VNull -> v <> VUndef -> get_prop v (str k) = Returned (Spec.field k v).
Proof. destruct v; simpl; intros A B; try reflexivity; congruence. Qed.

Lemma truthy_get v (k : String.string) :
  truthy v = true -> get_prop v (str k) = Returned (Spec.field k v).
Proof.
  intros T. apply get_prop_ok; intros ->; discriminate T.
Qed.

Arguments get_prop_ok [v] k%_string _ _.
Arguments truthy_get [v] k%_string _.

Lemma find_primary_returns elems :
  Forall (fun s => s <> VNull /\ s <> VUndef) elems ->
  exists sp, RustRunner.find_primary elems = Returned sp.
Proof.
  induction 1 as [|s more [A B] _ IH]; simpl.
  - eexists. reflexivity.
  - rewrite (get_prop_ok "is_primary" A B). cbn [obind].
    destruct (truthy _); [eexists; reflexivity|exact IH].
Qed.

Lemma primary_span_returns spans :
  spans_ok spans -> exists sp, RustRunner.primary_span spans = Returned sp.
Proof.
  intros [-> | [-> | (elems & -> & F)]]; simpl;
    try (eexists; reflexivity).
  apply find_primary_returns, F.
Qed.

Lemma code_of_returns inner :
  truthy inner = true -> exists c, RustRunner.code_of inner = Returned c.
Proof.
  intros T. unfold RustRunner.code_of.
  rewrite (truthy_get "code" T). cbn [obind].
  destruct (Spec.field "code" inner); simpl; eexists; reflexivity.
Qed.

Lemma readable_line_returns line :
  readable_line line ->
  exists d, RustRunner.diagnostic_of_line line = Returned d.
Proof.
  unfold readable_line, RustRunner.diagnostic_of_line.
  destruct (is_empty (trim line)); [intros _; eexists; reflexivity|].
  destruct (JSON_parse (trim line)) as [msg|];
    [|intros _; eexists; reflexivity].
  intros (A & B & S).
  rewrite (get_prop_ok "reason" A B). cbn [obind].
  destruct (negb _); [eexists; reflexivity|].
  rewrite (get_prop_ok "message" A B). cbn [obind].
  destruct (truthy (Spec.field "message" msg)) eqn:T; cbn [negb];
    [|eexists; reflexivity].
  rewrite (truthy_get "level" T). cbn [obind].
  destruct (_ && _); [eexists; reflexivity|].
  rewrite (truthy_get "spans" T). cbn [obind].
  destruct (primary_span_returns S) as (sp & ->). cbn [obind].
  destruct (truthy sp) eqn:TS; cbn [negb]; [|eexists; reflexivity].
  destruct (@code_of_returns _ T) as (c & ->). cbn [obind].
  rewrite (truthy_get "message" T). cbn [obind].
  rewrite (truthy_get "file_name" TS). cbn [obind].
  rewrite (truthy_get "line_start" TS). cbn [obind].
  rewrite (truthy_get "column_start" TS). cbn [obind].
  eexists. reflexivity.
Qed.

Lemma collect_returns lines :
  Forall readable_line lines ->
  exists ds, RustRunner.collect lines = Returned ds.
Proof.
  induction 1 as [|l more R _ (ds & IH)]; simpl.
  - eexists. reflexivity.
  - destruct (@readable_line_returns _ R) as (d & ->). cbn [obind].
    rewrite IH. cbn [obind]. eexists. reflexivity.
Qed.

Lemma collect_thrown lines e :
  RustRunner.collect lines = Thrown e ->
  exists line,
    In line lines /\ RustRunner.diagnostic_of_line line = Thrown e.
Proof.
  induction lines as [|l more IH]; simpl; [discriminate|].
  destruct (RustRunner.diagnostic_of_line l) as [d|e'] eqn:E; cbn [obind].
  - destruct (RustRunner.collect more) as [ds|e'']; cbn [obind];
      [discriminate|].
    intros H; inversion H; subst.
    destruct (IH eq_refl) as (line & Hin & T).
    exists line. split; [right; exact Hin|exact T].
  - intros H; inversion H; subst. exists l. split; [left; reflexivity|exact E].
Qed.

End CargoFacts.

(** X5: [parseRustOutput] returns a result for every output whose
    lines can all be read: a line that does not decode, or that decodes
    to something other than [null] with [message.spans] missing, [null]
    or an array with no [null] element.  When it throws, what it throws
    is a [TypeError], and a line of the output is not of that kind. *)
Theorem parseRustOutput_returns_on_readable_output :
  forall output,
    (Forall Forms.readable_line (split 10%N output) ->
     exists r, RustRunner.parseRustOutput output = Returned r)
    /\ (forall e,
        RustRunner.parseRustOutput output = Thrown e ->
        e = TypeError
        /\ exists line,
            In line (split 10%N output) /\ ~ Forms.readable_line line).
Proof.
  intros output. split.
  - intros F. unfold RustRunner.parseRustOutput.
    destruct (@CargoFacts.collect_returns _ F) as (ds & ->). cbn [obind].
    eexists. reflexivity.
  - intros e H. split; [eapply RunnerFacts.parseRustOutput_throws; eauto|].
    unfold RustRunner.parseRustOutput in H.
    destruct (RustRunner.collect _) as [ds|e'] eqn:E; cbn [obind] in H;
      [discriminate|].
    destruct (@CargoFacts.collect_thrown _ _ E) as (line & Hin & T).
    exists line. split; [exact Hin|].
    intros R. destruct (@CargoFacts.readable_line_returns _ R) as (d & D).
    congruence.
Qed.

Lemma parseRustOutput_returns_on_readable_output_witness :
  exists r,
    RustRunner.parseRustOutput
      (str "   Compiling demo v0.1.0" ++ [10%N]
       ++ qstr "{'reason':'compiler-message','message':{'message':'unused variable','code':null,'level':'warning','spans':[{'file_name':'src/lib.rs','line_start':3,'column_start':9,'is_primary':true}]}}"
       ++ [10%N]
       ++ qstr "{'reason':'build-finished','success':false}" ++ [10%N])
    = Returned r.
Proof.
  apply (proj1 (parseRustOutput_returns_on_readable_output _)).
  repeat (apply Forall_cons || apply Forall_nil);
    vm_compute;
    try exact I;
    (split; [discriminate|]; split; [discriminate|]).
  - right. right. eexists. split; [reflexivity|].
    repeat constructor; discriminate.
  - left. reflexivity.
Defined.

Module ConsistencyFacts.
Import Forms.

Lemma parsed_consistent success found e w :
  e + w = found -> success = Nat.eqb e 0 -> consistent success found e w None.
Proof.
  intros A B. split; [exact A|]. split.
  - intros Z. rewrite B. apply Nat.eqb_eq. lia.
  - intros N. exfalso. apply N. reflexivity.
Qed.

Lemma tsc_consistent r :
  (exists why, r = tsc_plain why) \/ r = tsc_crashed
  \/ (exists output, r = TscRunner.parseTscOutput output) ->
  consistent (TscRunner.success r) (length (TscRunner.diagnostics r))
             (TscRunner.errorCount r) (TscRunner.warningCount r)
             (TscRunner.skipped r).
Proof.
  intros [(why & ->) | [-> | (output & ->)]].
  - split; [reflexivity|]. split; reflexivity.
  - split; [reflexivity|]. split; [discriminate|].
    intros N. exfalso. apply N. reflexivity.
  - apply parsed_consistent; [|reflexivity].
    apply (proj1 (ResultFacts.counts_partition output)).
Qed.

Lemma go_consistent r :
  (exists why, r = go_plain why)
  \/ (exists output, r = GoRunner.parseGoOutput output) ->
  consistent (GoRunner.success r) (length (GoRunner.diagnostics r))
             (GoRunner.errorCount r) (GoRunner.warningCount r)
             (GoRunner.skipped r).
Proof.
  intros [(why & ->) | (output & ->)].
  - split; [reflexivity|]. split; reflexivity.
  - split; [reflexivity|]. split.
    + cbn. intros ->. reflexivity.
    + intros N. exfalso. apply N. reflexivity.
Qed.

Lemma rust_consistent r :
  (exists why, r = rust_plain why)
  \/ (exists output, RustRunner.parseRustOutput output = Returned r) ->
  consistent (RustRunner.success r) (length (RustRunner.diagnostics r))
             (RustRunner.errorCount r) (RustRunner.warningCount r)
             (RustRunner.skipped r).
Proof.
  intros [(why & ->) | (output & E)].
  - split; [reflexivity|]. split; reflexivity.
  - pose proof (proj2 (proj2 (proj2 (proj2
                 (ResultFacts.counts_partition output)))) r E) as C.
    unfold RustRunner.parseRustOutput in E.
    destruct (RustRunner.collect _) as [ds|]; cbn [obind] in E;
      [|discriminate].
    inversion E; subst r; clear E. cbn in C |- *.
    apply parsed_consistent; [exact C|reflexivity].
Qed.

Lemma python_consistent r :
  python_form r ->
  consistent (PythonRunner.success r) (length (PythonRunner.diagnostics r))
             (PythonRunner.errorCount r) (PythonRunner.warningCount r)
             (PythonRunner.skipped r).
Proof.
  intros [(t & why & -> & _) | [(t & c & msg & -> & _)
                                | [(output & ->) | (output & ->)]]].
  - split; [reflexivity|]. split; reflexivity.
  - split; [reflexivity|]. split; [discriminate|].
    intros N. exfalso. apply N. reflexivity.
  - apply parsed_consistent; [|reflexivity].
    apply (proj1 (proj2 (proj2 (ResultFacts.counts_partition output)))).
  - apply parsed_consistent; [|reflexivity].
    apply (proj1 (proj2 (proj2 (proj2 (ResultFacts.counts_partition output))))).
Qed.

End ConsistencyFacts.

(** X6: on every platform and for every directory, [runTscDiagnostics],
    [runGoDiagnostics] and [runPythonDiagnostics] return a result and
    never throw, and [runRustDiagnostics] returns a result or throws a
    [TypeError].  In every result returned, [errorCount] and
    [warningCount] add up to the number of diagnostics, a result without
    diagnostics has [success] true, and a result with a [skipped] reason
    has no diagnostics. *)
Theorem runners_return_consistent_results :
  forall node W (h : handler W) (w : W) (directory : jsstr),
    (exists r,
        result_of (run h (TscRunner.runTscDiagnostics node directory) w)
        = Returned r
        /\ Forms.consistent (TscRunner.success r)
             (length (TscRunner.diagnostics r))
             (TscRunner.errorCount r) (TscRunner.warningCount r)
             (TscRunner.skipped r))
    /\ (exists r,
        result_of (run h (GoRunner.runGoDiagnostics node directory) w)
        = Returned r
        /\ Forms.consistent (GoRunner.success r)
             (length (GoRunner.diagnostics r))
             (GoRunner.errorCount r) (GoRunner.warningCount r)
             (GoRunner.skipped r))
    /\ (exists r,
        result_of (run h (PythonRunner.runPythonDiagnostics node directory) w)
        = Returned r
        /\ Forms.consistent (PythonRunner.success r)
             (length (PythonRunner.diagnostics r))
             (PythonRunner.errorCount r) (PythonRunner.warningCount r)
             (PythonRunner.skipped r))
    /\ ((exists r,
        result_of (run h (RustRunner.runRustDiagnostics node directory) w)
        = Returned r
        /\ Forms.consistent (RustRunner.success r)
             (length (RustRunner.diagnostics r))
             (RustRunner.errorCount r) (RustRunner.warningCount r)
             (RustRunner.skipped r))
        \/ result_of (run h (RustRunner.runRustDiagnostics node directory) w)
           = Thrown TypeError).
Proof.
  intros node W h w directory. split; [|split; [|split]].
  - destruct (RunnerFacts.tsc_runner_cases node h w directory) as (r & E & F).
    exists r. split; [exact E|]. apply ConsistencyFacts.tsc_consistent, F.
  - destruct (RunnerFacts.go_runner_cases node h w directory) as (r & E & F).
    exists r. split; [exact E|]. apply ConsistencyFacts.go_consistent, F.
  - destruct (RunnerFacts.python_runner_cases node h w directory)
      as (r & E & F).
    exists r. split; [exact E|]. apply ConsistencyFacts.python_consistent, F.
  - destruct (RunnerFacts.rust_runner_cases node h w directory)
      as [(r & E & F) | (output & e & E & T)].
    + left. exists r. split; [exact E|].
      apply ConsistencyFacts.rust_consistent, F.
    + right. rewrite E. f_equal.
      eapply RunnerFacts.parseRustOutput_throws; eauto.
Qed.

(* ------------------------------------------------------------------ *)
(** * Facts about the dispatcher *)

Module DispatchFacts.
Import Forms.

Lemma app_nonempty {A} (a b : list A) : a <> [] -> a ++ b <> [].
Proof. destruct a; simpl; [congruence|discriminate]. Qed.

Lemma app_nonempty_r {A} (a b : list A) : b <> [] -> a ++ b <> [].
Proof. destruct a; simpl; [tauto|discriminate]. Qed.

(** A loop that only appends keeps what it started from in front. *)
Lemma fold_keeps_front {A} (step : jsstr -> A -> jsstr) :
  (forall acc x, exists rest, step acc x = acc ++ rest) ->
  forall l init, exists rest, fold_left step l init = init ++ rest.
Proof.
  intros Hs. induction l as [|x l IH]; intros init; simpl.
  - exists []. rewrite app_nil_r. reflexivity.
  - destruct (Hs init x) as (r1 & ->). destruct (IH (init ++ r1)) as (r2 & ->).
    exists (r1 ++ r2). rewrite app_assoc. reflexivity.
Qed.

Lemma join_with_nonempty sep p more :
  p <> [] -> Index.join_with sep (p :: more) <> [].
Proof.
  intros N. unfold Index.join_with.
  match goal with
  | |- fold_left ?step ?l ?init <> [] =>
      destruct (@fold_keeps_front _ step
                  (fun acc q => ex_intro _ (sep ++ q) eq_refl) l init)
        as (rest & E)
  end.
  intros Z. apply (app_nonempty rest N). exact (eq_trans (eq_sym E) Z).
Qed.

Lemma add_to_nonempty {K V} (same : K -> K -> bool) key (v : V) m :
  Index.add_to same key v m <> [].
Proof.
  destruct m as [|[k vs] more]; simpl; [discriminate|].
  destruct (same k key); discriminate.
Qed.

Lemma grouped_nonempty {K V} (same : K -> K -> bool) (key : V -> K) ds :
  forall m,
    m <> [] \/ ds <> [] ->
    fold_left (fun m d => Index.add_to same (key d) d m) ds m <> [].
Proof.
  induction ds as [|d ds IH]; intros m H; simpl.
  - destruct H as [H|H]; [exact H|congruence].
  - apply IH. left. apply add_to_nonempty.
Qed.

Lemma passed_text toolName :
  toolName ++ str " passed: 0 errors, 0 warnings"
  = Index.counts_text toolName true 0 0.
Proof. unfold Index.counts_text. f_equal. Qed.

(** ** Conversions to text *)

Lemma value_induction (P : value -> Prop) :
  P VUndef -> P VNull -> (forall b, P (VBool b)) -> (forall n, P (VNum n)) ->
  (forall t, P (VStr t)) ->
  (forall elems, Forall P elems -> P (VArr elems)) ->
  (forall fields, P (VObj fields)) ->
  forall v, P v.
Proof.
  intros H1 H2 H3 H4 H5 H6 H7. fix IH 1.
  intros [ | |b|n|t|elems|fields];
    [exact H1|exact H2|apply H3|apply H4|apply H5| |apply H7].
  apply H6. induction elems as [|x l IHl]; constructor; [apply IH|exact IHl].
Qed.

Lemma join_elements_cons convert x more :
  join_elements convert (x :: more)
  = obind (match x with
           | VUndef | VNull => Returned []
           | _ => convert x
           end) (fun first =>
    match more with
    | [] => Returned first
    | _ =>
        obind (join_elements convert more) (fun others =>
        Returned (first ++ str "," ++ others))
    end).
Proof. reflexivity. Qed.

Lemma join_elements_throws convert l :
  Forall (fun v => forall e, convert v = Thrown e -> e = TypeError) l ->
  forall e, join_elements convert l = Thrown e -> e = TypeError.
Proof.
  induction 1 as [|x l Hx F IH]; intros e; [discriminate|].
  rewrite join_elements_cons.
  assert (Hf : forall e',
             match x with
             | VUndef | VNull => Returned []
             | _ => convert x
             end = Thrown e' -> e' = TypeError).
  { destruct x; try discriminate; exact Hx. }
  destruct (match x with
            | VUndef | VNull => Returned []
            | _ => convert x
            end) as [text|e']; cbn [obind].
  - destruct l as [|y l']; [discriminate|].
    destruct (join_elements convert (y :: l')) as [others|e''];
      cbn [obind]; [discriminate|].
    intros E. inversion E; subst. apply IH. reflexivity.
  - intros E. inversion E; subst. apply Hf. reflexivity.
Qed.

(** A conversion throws nothing but a [TypeError]. *)
Lemma ToString_throws node v :
  forall e, ToString node v = Thrown e -> e = TypeError.
Proof.
  induction v as [ | |b|n|t|elems F|fields] using value_induction;
    cbn [ToString]; try discriminate.
  - apply join_elements_throws. exact F.
  - intros e. destruct (has_own _ fields); [|discriminate].
    intros E. inversion E. reflexivity.
Qed.

Lemma converts_str node t : converts node (VStr t).
Proof. exists t. reflexivity. Qed.

Lemma converts_num node n : converts node (VNum n).
Proof. eexists. reflexivity. Qed.

(** ** Loops that can throw *)

Lemma ofold_keeps_front {A} (step : jsstr -> A -> outcome jsstr) :
  (forall acc x out, step acc x = Returned out -> exists rest, out = acc ++ rest) ->
  forall l init out,
    ofold step l init = Returned out -> exists rest, out = init ++ rest.
Proof.
  intros Hs. induction l as [|x l IH]; intros init out; cbn [ofold].
  - intros E. inversion E. exists []. rewrite app_nil_r. reflexivity.
  - destruct (step init x) as [mid|e] eqn:Es; cbn [obind]; [|discriminate].
    intros E. destruct (Hs _ _ _ Es) as (r1 & ->).
    destruct (IH _ _ E) as (r2 & ->).
    exists (r1 ++ r2). rewrite app_assoc. reflexivity.
Qed.

Lemma ofold_returns {A B} (step : B -> A -> outcome B) l :
  Forall (fun x => forall acc, exists out, step acc x = Returned out) l ->
  forall init, exists out, ofold step l init = Returned out.
Proof.
  induction 1 as [|x l Hx F IH]; intros init; cbn [ofold].
  - eexists. reflexivity.
  - destruct (Hx init) as (mid & ->). cbn [obind]. apply IH.
Qed.

Lemma ofold_throws {A B} (step : B -> A -> outcome B) l :
  (forall acc x e, step acc x = Thrown e -> e = TypeError) ->
  forall init e, ofold step l init = Thrown e -> e = TypeError.
Proof.
  intros Hs. induction l as [|x l IH]; intros init e; cbn [ofold];
    [discriminate|].
  destruct (step init x) as [mid|e'] eqn:Es; cbn [obind].
  - apply IH.
  - intros E. inversion E; subst. eapply Hs. exact Es.
Qed.

Lemma oeach_length {A B} (f : A -> outcome B) l :
  forall out, oeach f l = Returned out -> length out = length l.
Proof.
  induction l as [|x l IH]; intros out; cbn [oeach].
  - intros E. inversion E. reflexivity.
  - destruct (f x) as [y|e]; cbn [obind]; [|discriminate].
    destruct (oeach f l) as [ys|e]; cbn [obind]; [|discriminate].
    intros E. inversion E. cbn [length]. f_equal. apply IH. reflexivity.
Qed.

Lemma oeach_returns {A B} (f : A -> outcome B) l :
  Forall (fun x => exists y, f x = Returned y) l ->
  exists ys, oeach f l = Returned ys.
Proof.
  induction 1 as [|x l (y & Hy) F (ys & IH)]; cbn [oeach].
  - eexists. reflexivity.
  - rewrite Hy, IH. eexists. reflexivity.
Qed.

Lemma oeach_throws {A B} (f : A -> outcome B) l :
  (forall x e, f x = Thrown e -> e = TypeError) ->
  forall e, oeach f l = Thrown e -> e = TypeError.
Proof.
  intros Hf. induction l as [|x l IH]; intros e; cbn [oeach]; [discriminate|].
  destruct (f x) as [y|e'] eqn:Ef; cbn [obind].
  - destruct (oeach f l) as [ys|e'']; cbn [obind]; [discriminate|].
    intros E. inversion E; subst. apply IH. reflexivity.
  - intros E. inversion E; subst. eapply Hf. exact Ef.
Qed.

Lemma oeach_first {A B} (f : A -> outcome B) x l out :
  oeach f (x :: l) = Returned out ->
  exists y ys, out = y :: ys /\ f x = Returned y.
Proof.
  cbn [oeach]. destruct (f x) as [y|e]; cbn [obind]; [|discriminate].
  destruct (oeach f l) as [ys|e]; cbn [obind]; [|discriminate].
  intros E. inversion E. exists y, ys. split; reflexivity.
Qed.

Lemma oeach_map {A B C} (g : A -> B) (f : B -> outcome C) l :
  oeach f (map g l) = oeach (fun x => f (g x)) l.
Proof.
  induction l as [|x l IH]; cbn [map oeach]; [reflexivity|].
  rewrite IH. reflexivity.
Qed.

(** ** The text of one file *)

Lemma diagnostic_line_front node {D} `{Index.BaseDiagnostic D} acc (d : D) out :
  diagnostic_line node acc d = Returned out -> exists rest, out = acc ++ rest.
Proof.
  unfold diagnostic_line.
  destruct (if truthy (Index.base_code d) then _ else _) as [code|e];
    cbn [obind]; [|discriminate].
  destruct (ToString node (Index.base_line d)) as [l|e];
    cbn [obind]; [|discriminate].
  destruct (ToString node (Index.base_column d)) as [c|e];
    cbn [obind]; [|discriminate].
  destruct (ToString node (Index.base_severity d)) as [sv|e];
    cbn [obind]; [|discriminate].
  destruct (ToString node (Index.base_message d)) as [m|e];
    cbn [obind]; [|discriminate].
  intros E. inversion E. eexists. reflexivity.
Qed.

Lemma diagnostic_line_returns node {D} `{Index.BaseDiagnostic D} (d : D) :
  writable node d ->
  forall acc, exists out, diagnostic_line node acc d = Returned out.
Proof.
  intros ((f & Ef) & (l & El) & (c & Ec) & (sv & Es) & (m & Em) & Hc) acc.
  unfold diagnostic_line. rewrite El, Ec, Es, Em.
  destruct (truthy (Index.base_code d)).
  - destruct (Hc eq_refl) as (k & Ek). rewrite Ek.
    cbn [omap obind]. eexists. reflexivity.
  - cbn [obind]. eexists. reflexivity.
Qed.

Lemma diagnostic_line_throws node {D} `{Index.BaseDiagnostic D} acc (d : D) e :
  diagnostic_line node acc d = Thrown e -> e = TypeError.
Proof.
  unfold diagnostic_line.
  assert (T : forall v (k : jsstr -> outcome jsstr),
             (forall t, k t = Thrown e -> e = TypeError) ->
             obind (ToString node v) k = Thrown e -> e = TypeError).
  { intros v k Hk. destruct (ToString node v) as [t|e'] eqn:Ev; cbn [obind].
    - apply Hk.
    - intros E. inversion E; subst. eapply ToString_throws. exact Ev. }
  destruct (truthy (Index.base_code d)).
  - unfold omap. destruct (ToString node (Index.base_code d)) as [k|e'] eqn:Ek;
      cbn [obind].
    + repeat (apply T; intros ?). discriminate.
    + intros E. inversion E; subst. eapply ToString_throws. exact Ek.
  - cbn [obind]. repeat (apply T; intros ?). discriminate.
Qed.

Lemma file_block_nonempty node {D} `{Index.BaseDiagnostic D}
      file (diags : list D) out :
  file_block node file diags = Returned out -> out <> [].
Proof.
  unfold file_block.
  destruct (ToString node file) as [name|e]; cbn [obind]; [|discriminate].
  intros E.
  destruct (ofold_keeps_front (diagnostic_line node)
              (fun acc x o => @diagnostic_line_front node _ _ acc x o)
              _ _ E) as (rest & ->).
  apply app_nonempty, app_nonempty_r. vm_compute. discriminate.
Qed.

Lemma file_block_returns node {D} `{Index.BaseDiagnostic D}
      file (diags : list D) :
  converts node file -> Forall (writable node) diags ->
  exists out, file_block node file diags = Returned out.
Proof.
  intros (name & En) F. unfold file_block. rewrite En. cbn [obind].
  apply ofold_returns. eapply Forall_impl; [|exact F].
  intros d Hd. apply diagnostic_line_returns. exact Hd.
Qed.

Lemma file_block_throws node {D} `{Index.BaseDiagnostic D}
      file (diags : list D) e :
  file_block node file diags = Thrown e -> e = TypeError.
Proof.
  unfold file_block.
  destruct (ToString node file) as [name|e'] eqn:En; cbn [obind].
  - apply ofold_throws. intros acc x e0. apply diagnostic_line_throws.
  - intros E. inversion E; subst. eapply ToString_throws. exact En.
Qed.

(** ** The entries of the [Map] *)

Lemma add_to_keeps {K V} (same : K -> K -> bool) (Q : K -> Prop)
      (P : V -> Prop) key v m :
  Q key -> P v ->
  Forall (fun entry => Q (fst entry) /\ Forall P (snd entry)) m ->
  Forall (fun entry => Q (fst entry) /\ Forall P (snd entry))
         (Index.add_to same key v m).
Proof.
  intros Hk Hv. induction 1 as [|[k vs] more [Hq Hp] F IH]; cbn [Index.add_to].
  - constructor; [|constructor]. split; [exact Hk|]. repeat constructor.
    exact Hv.
  - destruct (same k key).
    + constructor; [|exact F]. split; [exact Hq|].
      apply Forall_app. split; [exact Hp|]. repeat constructor. exact Hv.
    + constructor; [split; assumption|exact IH].
Qed.

Lemma grouped_keeps {K V} (same : K -> K -> bool) (key : V -> K)
      (Q : K -> Prop) (P : V -> Prop) ds :
  Forall (fun d => Q (key d) /\ P d) ds ->
  forall m,
    Forall (fun entry => Q (fst entry) /\ Forall P (snd entry)) m ->
    Forall (fun entry => Q (fst entry) /\ Forall P (snd entry))
           (fold_left (fun m d => Index.add_to same (key d) d m) ds m).
Proof.
  induction 1 as [|d ds [Hq Hp] F IH]; intros m Hm; cbn [fold_left];
    [exact Hm|].
  apply IH. apply add_to_keeps; assumption.
Qed.

(** ** The result of [formatDiagnosticResult] *)

(** The function, with the text of a file named. *)
Lemma formatted_unfold node {D} `{Index.BaseDiagnostic D}
      (result : Index.BaseResult D) strat toolName :
  Index.formatDiagnosticResult node result strat toolName
  = omap (fun texts =>
            {| Index.strategy := strat;
               Index.success := Index.base_success result;
               Index.errorCount := Index.base_errorCount result;
               Index.warningCount := Index.base_warningCount result;
               Index.diagnostics := fst texts;
               Index.summary := snd texts |})
      match Index.base_diagnostics result with
      | [] =>
          Returned
            (str "No diagnostics found. " ++ toolName ++ str " passed!",
             toolName ++ str " passed: 0 errors, 0 warnings")
      | _ =>
          omap (fun fileOutputs =>
                  (Index.join_with [10%N] fileOutputs,
                   Index.counts_text toolName (Index.base_success result)
                     (Index.base_errorCount result)
                     (Index.base_warningCount result)))
            (oeach (fun entry => file_block node (fst entry) (snd entry))
               (fold_left
                  (fun m diag =>
                     Index.add_to Index.same_key (Index.base_file diag) diag m)
                  (Index.base_diagnostics result) []))
      end.
Proof. reflexivity. Qed.

Lemma formatted_fields node {D} `{Index.BaseDiagnostic D}
      (result : Index.BaseResult D) strat toolName r :
  Index.formatDiagnosticResult node result strat toolName = Returned r ->
  Index.strategy r = strat
  /\ Index.success r = Index.base_success result
  /\ Index.errorCount r = Index.base_errorCount result
  /\ Index.warningCount r = Index.base_warningCount result
  /\ Index.diagnostics r <> []
  /\ Index.summary r
     = match Index.base_diagnostics result with
       | [] => toolName ++ str " passed: 0 errors, 0 warnings"
       | _ => Index.counts_text toolName (Index.base_success result)
                (Index.base_errorCount result)
                (Index.base_warningCount result)
       end.
Proof.
  rewrite formatted_unfold. unfold omap.
  destruct (Index.base_diagnostics result) as [|d ds] eqn:Ed; cbn [obind].
  - intros E. injection E as <-.
    cbn [Index.strategy Index.success Index.errorCount Index.warningCount
         Index.diagnostics Index.summary fst snd].
    do 4 (split; [reflexivity|]). split; [|reflexivity].
    discriminate.
  - destruct (oeach _ _) as [outs|e] eqn:Eo; cbn [obind]; [|discriminate].
    intros E. injection E as <-.
    cbn [Index.strategy Index.success Index.errorCount Index.warningCount
         Index.diagnostics Index.summary fst snd].
    do 4 (split; [reflexivity|]). split; [|reflexivity].
    assert (Hne : d :: ds <> []) by discriminate.
    pose proof (@grouped_nonempty _ _ Index.same_key Index.base_file
                  (d :: ds) [] (or_intror Hne)) as G.
    destruct (fold_left _ (d :: ds) []) as [|entry entries]; [congruence|].
    apply oeach_first in Eo. destruct Eo as (y & ys & -> & Ey).
    apply join_with_nonempty. eapply file_block_nonempty. exact Ey.
Qed.

Lemma formatted_throws node {D} `{Index.BaseDiagnostic D}
      (result : Index.BaseResult D) strat toolName e :
  Index.formatDiagnosticResult node result strat toolName = Thrown e ->
  e = TypeError.
Proof.
  rewrite formatted_unfold. unfold omap.
  destruct (Index.base_diagnostics result) as [|d ds]; cbn [obind];
    [discriminate|].
  destruct (oeach _ _) as [outs|e'] eqn:Eo; cbn [obind]; [discriminate|].
  intros E. inversion E; subst.
  eapply oeach_throws; [|exact Eo].
  intros entry e0. apply file_block_throws.
Qed.

Lemma formatted_returns node {D} `{Index.BaseDiagnostic D}
      (result : Index.BaseResult D) strat toolName :
  Forall (writable node) (Index.base_diagnostics result) ->
  exists r, Index.formatDiagnosticResult node result strat toolName = Returned r.
Proof.
  intros F. rewrite formatted_unfold. unfold omap.
  destruct (Index.base_diagnostics result) as [|d ds] eqn:Ed; cbn [obind].
  - eexists. reflexivity.
  - destruct (@oeach_returns _ _
                (fun entry => file_block node (fst entry) (snd entry))
                (fold_left
                   (fun m diag =>
                      Index.add_to Index.same_key (Index.base_file diag) diag m)
                   (d :: ds) [])) as (outs & ->).
    + assert (G : Forall (fun entry => converts node (fst entry)
                                       /\ Forall (writable node) (snd entry))
                    (fold_left
                       (fun m diag =>
                          Index.add_to Index.same_key (Index.base_file diag)
                            diag m)
                       (d :: ds) [])).
      { apply grouped_keeps; [|constructor].
        eapply Forall_impl; [|exact F]. intros x Hx.
        split; [apply Hx|exact Hx]. }
      eapply Forall_impl; [|exact G]. intros entry [Hq Hp].
      apply file_block_returns; assumption.
    + cbn [obind]. eexists. reflexivity.
Qed.

(** The text and the summary that [formatDiagnosticResult] writes. *)
Lemma formatted_coherent node {D} `{Index.BaseDiagnostic D}
      (result : Index.BaseResult D) strat toolName r :
  strat <> Index.skipped -> strat <> Index.by_lsp ->
  In toolName (tool_names strat) ->
  (Index.base_diagnostics result = [] ->
   Index.base_success result = true
   /\ Index.base_errorCount result = 0
   /\ Index.base_warningCount result = 0) ->
  Index.formatDiagnosticResult node result strat toolName = Returned r ->
  coherent r.
Proof.
  intros N1 N2 T E Hr.
  destruct (formatted_fields _ _ _ _ Hr) as (S & Su & Ec & Wc & Dn & Sm).
  unfold coherent. rewrite S, Su, Ec, Wc, Sm.
  assert (C : match Index.base_diagnostics result with
              | [] => toolName ++ str " passed: 0 errors, 0 warnings"
              | _ => Index.counts_text toolName (Index.base_success result)
                       (Index.base_errorCount result)
                       (Index.base_warningCount result)
              end
              = Index.counts_text toolName (Index.base_success result)
                  (Index.base_errorCount result)
                  (Index.base_warningCount result) ++ []).
  { rewrite app_nil_r.
    destruct (Index.base_diagnostics result); [|reflexivity].
    destruct (E eq_refl) as (-> & -> & ->). apply passed_text. }
  destruct strat; try congruence;
    (split; [exact Dn|]; exists toolName, []; split; [exact T|];
     split; [reflexivity|exact C]).
Qed.

Lemma formatted_strategy node {D} `{Index.BaseDiagnostic D}
      (result : Index.BaseResult D) strat toolName r :
  Index.formatDiagnosticResult node result strat toolName = Returned r ->
  Index.strategy r = strat.
Proof. intros Hr. apply (formatted_fields _ _ _ _ Hr). Qed.

Lemma skipped_coherent why : coherent (Index.makeSkippedResult why).
Proof. repeat split. Qed.

Lemma from_consistent {D} success (ds : list D) e w sk :
  consistent success (length ds) e w sk ->
  ds = [] -> success = true /\ e = 0 /\ w = 0.
Proof.
  intros (A & B & _) ->. cbn in A, B. split; [apply B; reflexivity|lia].
Qed.

(** The diagnostics of the tsc, go and Python runners hold strings and
    Numbers only, so all of them can be written. *)
Lemma tsc_writable node (d : TscRunner.TscDiagnostic) :
  @writable node _ Index.tsc_base d.
Proof.
  repeat split; try apply converts_str; try apply converts_num.
  intros _. apply converts_str.
Qed.

Lemma go_writable node (d : GoRunner.GoDiagnostic) :
  @writable node _ Index.go_base d.
Proof.
  repeat split; try apply converts_str; try apply converts_num.
  cbn. discriminate.
Qed.

Lemma python_writable node (d : PythonRunner.PythonDiagnostic) :
  @writable node _ Index.python_base d.
Proof.
  repeat split; try apply converts_str; try apply converts_num.
  intros _. apply converts_str.
Qed.

Lemma all_writable node {D} `{Index.BaseDiagnostic D} (ds : list D) :
  (forall d, writable node d) -> Forall (writable node) ds.
Proof. intros A. apply Forall_forall. intros d _. apply A. Qed.

Lemma formatTsc_coherent node r :
  consistent (TscRunner.success r) (length (TscRunner.diagnostics r))
             (TscRunner.errorCount r) (TscRunner.warningCount r)
             (TscRunner.skipped r) ->
  exists f,
    Index.formatTscResult node r = Returned f
    /\ coherent f
    /\ (Index.strategy f = Index.skipped \/ Index.strategy f = Index.by_tsc).
Proof.
  intros C. unfold Index.formatTscResult.
  destruct (Index.truthy_str (TscRunner.skipped r)).
  - eexists. split; [reflexivity|].
    split; [apply skipped_coherent|left; reflexivity].
  - match goal with
    | |- exists f, ?fm = Returned f /\ _ =>
        destruct (@formatted_returns node _ Index.tsc_base
                    {| Index.base_success := TscRunner.success r;
                       Index.base_diagnostics := TscRunner.diagnostics r;
                       Index.base_errorCount := TscRunner.errorCount r;
                       Index.base_warningCount := TscRunner.warningCount r |}
                    Index.by_tsc (str "TypeScript check")
                    (@all_writable node _ Index.tsc_base _ (tsc_writable node)))
          as (f & Ef)
    end.
    exists f. split; [exact Ef|].
    split; [|right; apply (formatted_strategy _ _ _ _ Ef)].
    eapply formatted_coherent; [| | | |exact Ef]; try discriminate;
      [left; reflexivity|].
    cbn. apply (from_consistent C).
Qed.

Lemma formatGo_coherent node r :
  consistent (GoRunner.success r) (length (GoRunner.diagnostics r))
             (GoRunner.errorCount r) (GoRunner.warningCount r)
             (GoRunner.skipped r) ->
  exists f,
    Index.formatGoResult node r = Returned f
    /\ coherent f
    /\ (Index.strategy f = Index.skipped \/ Index.strategy f = Index.by_go).
Proof.
  intros C. unfold Index.formatGoResult.
  destruct (Index.truthy_str (GoRunner.skipped r)).
  - eexists. split; [reflexivity|].
    split; [apply skipped_coherent|left; reflexivity].
  - destruct (@formatted_returns node _ Index.go_base
                {| Index.base_success := GoRunner.success r;
                   Index.base_diagnostics := GoRunner.diagnostics r;
                   Index.base_errorCount := GoRunner.errorCount r;
                   Index.base_warningCount := GoRunner.warningCount r |}
                Index.by_go (str "Go vet")
                (@all_writable node _ Index.go_base _ (go_writable node)))
      as (f & Ef).
    exists f. split; [exact Ef|].
    split; [|right; apply (formatted_strategy _ _ _ _ Ef)].
    eapply formatted_coherent; [| | | |exact Ef]; try discriminate;
      [left; reflexivity|].
    cbn. apply (from_consistent C).
Qed.

Lemma formatRust_coherent node r f :
  consistent (RustRunner.success r) (length (RustRunner.diagnostics r))
             (RustRunner.errorCount r) (RustRunner.warningCount r)
             (RustRunner.skipped r) ->
  Index.formatRustResult node r = Returned f ->
  coherent f
  /\ (Index.strategy f = Index.skipped \/ Index.strategy f = Index.by_rust).
Proof.
  intros C. unfold Index.formatRustResult.
  destruct (Index.truthy_str (RustRunner.skipped r)).
  - intros E. inversion E.
    split; [apply skipped_coherent|left; reflexivity].
  - intros Ef.
    split; [|right; apply (formatted_strategy _ _ _ _ Ef)].
    eapply formatted_coherent; [| | | |exact Ef]; try discriminate;
      [left; reflexivity|].
    cbn. apply (from_consistent C).
Qed.

Lemma formatRust_throws node r e :
  Index.formatRustResult node r = Thrown e -> e = TypeError.
Proof.
  unfold Index.formatRustResult.
  destruct (Index.truthy_str (RustRunner.skipped r)); [discriminate|].
  apply formatted_throws.
Qed.

(** A Python result that is not skipped names the tool that ran. *)
Lemma python_tool r :
  python_form r ->
  Index.truthy_str (PythonRunner.skipped r) = None ->
  PythonRunner.tool r <> PythonRunner.none.
Proof.
  intros [(t & why & -> & Hn) | [(t & c & msg & -> & Hn)
                                | [(output & ->) | (output & ->)]]];
    cbn; try discriminate; try (intros _; exact Hn).
  intros E ->. destruct (Hn eq_refl) as (c & s & ->). discriminate E.
Qed.

Lemma formatPython_coherent node r :
  python_form r ->
  exists f,
    Index.formatPythonResult node r = Returned f
    /\ coherent f
    /\ (Index.strategy f = Index.skipped
        \/ Index.strategy f = Index.by_python).
Proof.
  intros F. pose proof (@ConsistencyFacts.python_consistent r F) as C.
  pose proof (@python_tool r F) as T.
  unfold Index.formatPythonResult.
  destruct (Index.truthy_str (PythonRunner.skipped r)).
  - eexists. split; [reflexivity|].
    split; [apply skipped_coherent|left; reflexivity].
  - match goal with
    | |- exists f, Index.formatDiagnosticResult _ ?res ?st ?tn = _ /\ _ =>
        destruct (@formatted_returns node _ Index.python_base res st tn
                    (@all_writable node _ Index.python_base _ (python_writable node)))
          as (f & Ef)
    end.
    exists f. split; [exact Ef|].
    split; [|right; apply (formatted_strategy _ _ _ _ Ef)].
    eapply formatted_coherent; [| | | |exact Ef]; try discriminate.
    + specialize (T eq_refl).
      destruct (PythonRunner.tool r);
        [left; reflexivity|right; left; reflexivity|congruence].
    + cbn. apply (from_consistent C).
Qed.

Lemma formatLsp_coherent fmt r :
  lsp_counted r ->
  coherent (Index.formatLspResult fmt r)
  /\ Index.strategy (Index.formatLspResult fmt r) = Index.by_lsp.
Proof.
  intros (S & E & Wn). unfold Index.formatLspResult, coherent.
  destruct (LspAggregator.diagnostics r) as [|d ds] eqn:Ed.
  - cbn in E, Wn. rewrite E in S. cbn in S.
    cbn [Index.strategy Index.diagnostics Index.summary Index.success
         Index.errorCount Index.warningCount].
    rewrite S, E, Wn.
    split; [|reflexivity]. split.
    + apply app_nonempty. vm_compute. discriminate.
    + exists (str "LSP check"). eexists.
      split; [left; reflexivity|]. split; [eexists; reflexivity|].
      reflexivity.
  - cbn [Index.strategy Index.diagnostics Index.summary Index.success
         Index.errorCount Index.warningCount].
    split; [|reflexivity]. split.
    + assert (Hne : d :: ds <> []) by discriminate.
      pose proof (@grouped_nonempty _ _ JsString.eqb LspAggregator.file
                    (d :: ds) [] (or_intror Hne)) as G.
      destruct (fold_left _ (d :: ds) []) as [|entry entries];
        [congruence|].
      cbn [map]. apply join_with_nonempty.
      apply app_nonempty_r, app_nonempty. vm_compute. discriminate.
    + exists (str "LSP check"). eexists.
      split; [left; reflexivity|]. split; [eexists; reflexivity|].
      reflexivity.
Qed.

Lemma lsp_runner_returns node cache directory extensions
      W (h : handler W) w :
  exists r cache',
    result_of (run h (LspAggregator.runLspAggregatedDiagnostics
                        node cache directory extensions) w)
    = Returned (r, cache')
    /\ lsp_counted r.
Proof.
  unfold LspAggregator.runLspAggregatedDiagnostics.
  destruct (match extensions with
            | Some given => (given, cache)
            | None => LspAggregator.getAllSupportedExtensions cache
            end) as [effective cache'].
  rewrite run_bind. unfold LspAggregator.findFiles.
  destruct (LspFacts.walk_reads_nothing node effective
              [str "node_modules"; str "dist"; str "build"; str ".git"]
              (stack_limit node) directory h w)
    as (files & tr1 & w1 & -> & Q).
  rewrite run_bind.
  destruct (LspFacts.each_file_collects h files [] 0 w1) as (tr2 & w2 & ->).
  cbn [run fst snd app result_of].
  do 2 eexists. split; [reflexivity|].
  split; [reflexivity|]. split; reflexivity.
Qed.

(** The outcome of a program followed by a pure step. *)
Lemma result_then {W A B} (h : handler W) (p : Prog A) (g : A -> B) w :
  result_of (run h (bind p (fun a => Ret (g a))) w)
  = match result_of (run h p w) with
    | Returned a => Returned (g a)
    | Thrown e => Thrown e
    end.
Proof.
  rewrite run_bind. unfold result_of.
  destruct (run h p w) as [[o t] w1]. destruct o; reflexivity.
Qed.

(** The outcome of a program followed by a step that can throw. *)
Lemma result_lifted {W A B C} (h : handler W) (p : Prog A)
      (g : A -> outcome B) (k : B -> C) w :
  result_of (run h (bind p (fun a => bind (lift (g a)) (fun f => Ret (k f)))) w)
  = match result_of (run h p w) with
    | Returned a => omap k (g a)
    | Thrown e => Thrown e
    end.
Proof.
  rewrite run_bind. unfold result_of.
  destruct (run h p w) as [[o t] w1]. destruct o as [a|e]; [|reflexivity].
  cbn [fst snd]. destruct (g a); reflexivity.
Qed.

Lemma result_do {W A X} (h : handler W) (op : Op X) (k : X -> Prog A) w :
  result_of (run h (Do op k) w)
  = result_of (run h (k (answer h op w)) (after h op w)).
Proof.
  rewrite run_do. unfold result_of.
  destruct (run h (k (answer h op w)) (after h op w)) as [[o t] w1].
  reflexivity.
Qed.

(** The second [switch], whatever the strategy it is entered with. *)
Lemma dispatch_cases node fmt cache s resolved W (h : handler W) w0 :
  s <> Index.skipped ->
  (exists r cache',
      result_of (run h (Index.dispatch node fmt cache s resolved) w0)
      = Returned (r, cache')
      /\ coherent r
      /\ (Index.strategy r = Index.skipped \/ Index.strategy r = s)
      /\ (Index.strategy r <> Index.by_lsp -> cache' = cache))
  \/ (s = Index.by_rust
      /\ result_of (run h (Index.dispatch node fmt cache s resolved) w0)
         = Thrown TypeError).
Proof.
  intros Ns. destruct s; try congruence; unfold Index.dispatch.
  - left.
    rewrite (result_lifted h _ (Index.formatTscResult node)
               (fun f => (f, cache))).
    destruct (RunnerFacts.tsc_runner_cases node h w0 resolved) as (r & -> & F).
    destruct (@formatTsc_coherent node r (@ConsistencyFacts.tsc_consistent r F))
      as (f & -> & C & S).
    do 2 eexists. split; [reflexivity|]. split; [exact C|].
    split; [exact S|intros _; reflexivity].
  - left.
    rewrite (result_lifted h _ (Index.formatGoResult node)
               (fun f => (f, cache))).
    destruct (RunnerFacts.go_runner_cases node h w0 resolved) as (r & -> & F).
    destruct (@formatGo_coherent node r (@ConsistencyFacts.go_consistent r F))
      as (f & -> & C & S).
    do 2 eexists. split; [reflexivity|]. split; [exact C|].
    split; [exact S|intros _; reflexivity].
  - rewrite (result_lifted h _ (Index.formatRustResult node)
               (fun f => (f, cache))).
    destruct (RunnerFacts.rust_runner_cases node h w0 resolved)
      as [(r & -> & F) | (output & e & -> & T)].
    + destruct (Index.formatRustResult node r) as [f|e] eqn:Ef.
      * left.
        destruct (@formatRust_coherent node r f
                    (@ConsistencyFacts.rust_consistent r F) Ef) as [C S].
        do 2 eexists. split; [reflexivity|]. split; [exact C|].
        split; [exact S|intros _; reflexivity].
      * right. split; [reflexivity|]. cbn. f_equal.
        eapply formatRust_throws. exact Ef.
    + right. split; [reflexivity|]. f_equal.
      eapply RunnerFacts.parseRustOutput_throws; eauto.
  - left.
    rewrite (result_lifted h _ (Index.formatPythonResult node)
               (fun f => (f, cache))).
    destruct (RunnerFacts.python_runner_cases node h w0 resolved)
      as (r & -> & F).
    destruct (@formatPython_coherent node r F) as (f & -> & C & S).
    do 2 eexists. split; [reflexivity|]. split; [exact C|].
    split; [exact S|intros _; reflexivity].
  - left.
    rewrite (result_then h _
               (fun r => (Index.formatLspResult fmt (fst r), snd r))).
    destruct (lsp_runner_returns node cache resolved None h w0)
      as (r & cache' & -> & F).
    destruct (@formatLsp_coherent fmt r F) as [C S].
    do 2 eexists. split; [reflexivity|]. split; [exact C|].
    split; [right; exact S|]. intros N. exfalso. apply N. exact S.
Qed.

(** [detectProjectType] probes the markers in order. *)
Lemma detect_run node W (h : handler W) w directory :
  run h (Index.detectProjectType node directory) w =
  let '(t, tr, w') := Spec.first_marker node h w directory Spec.markers in
  (Returned t, tr, w').
Proof.
  unfold Index.detectProjectType, Spec.markers.
  cbn [bind call Spec.first_marker].
  repeat (rewrite run_do;
          match goal with
          | |- context [answer h ?op ?w0] =>
              destruct (answer h op w0); [reflexivity|]
          end).
  reflexivity.
Qed.

Lemma entry_cases node fmt cache directory strat W (h : handler W) w :
  let res :=
    result_of (run h (Index.runDirectoryDiagnostics
                        node fmt cache directory strat) w) in
  (exists why, res = Returned (Index.makeSkippedResult why, cache))
  \/ (res = Thrown SystemError
      /\ answer h (ExistsSync directory) w = true
      /\ answer h (StatSync directory) (after h (ExistsSync directory) w)
         = None)
  \/ (exists s resolved w0,
         chosen strat s
         /\ res = result_of (run h (Index.dispatch node fmt cache s resolved)
                               w0)).
Proof.
  intros res. subst res. unfold Index.runDirectoryDiagnostics.
  cbn [bind call]. rewrite result_do.
  destruct (answer h (ExistsSync directory) w) eqn:Ex; cbn [negb];
    [|left; eexists; reflexivity].
  rewrite result_do.
  destruct (answer h (StatSync directory) _) as [st|] eqn:St;
    [|right; left; split; [reflexivity|split; reflexivity]].
  destruct (isDirectory st); cbn [negb]; [|left; eexists; reflexivity].
  rewrite result_do.
  destruct (answer h (RealpathSync directory) _) as [resolved|];
    [|left; eexists; reflexivity].
  right. right.
  destruct strat; cbn [bind];
    try (do 3 eexists; split; [|reflexivity];
         split; [discriminate|reflexivity]).
  rewrite run_bind, run_bind, detect_run.
  destruct (Spec.first_marker node h _ resolved Spec.markers) as [[t tr] w'].
  cbn [run].
  exists (strategy_for t), resolved, w'. split.
  - split; [destruct t; discriminate|exact I].
  - unfold result_of.
    destruct t; cbn [strategy_for];
      match goal with
      | |- context [run h ?p w'] => destruct (run h p w') as [[o t2] w2]
      end; reflexivity.
Qed.

Lemma rust_or_not (strat : Index.DiagnosticsStrategy) :
  strat = Index.rust \/ strat <> Index.rust.
Proof. destruct strat; [right|right|left|right|right|right]; congruence. Qed.

(** What a throw of the cargo runner comes from. *)
Lemma rust_runner_throws node W (h : handler W) w d e :
  result_of (run h (RustRunner.runRustDiagnostics node d) w) = Thrown e ->
  exists error,
    In (Interact (ExecFileSync (str "cargo")
                    [str "check"; str "--message-format=json"]
                    (pipe_options d))
                 (ExecThrew error))
       (trace_of (run h (RustRunner.runRustDiagnostics node d) w))
    /\ RustRunner.parseRustOutput
         (or_str (stdout error) (or_str (stderr error) []))
       = Thrown e.
Proof.
  unfold RustRunner.runRustDiagnostics. cbn [bind call].
  rewrite run_do.
  destruct (answer h (ExistsSync _) w); cbn [negb];
    [|unfold result_of; cbn; discriminate].
  rewrite run_do.
  set (w1 := after h (ExistsSync _) w).
  destruct (answer h (ExecFileSync _ _ _) w1) as [out|error] eqn:A;
    [unfold result_of; cbn; discriminate|].
  destruct (code_is error (str "ENOENT"));
    [unfold result_of; cbn; discriminate|].
  destruct (RustRunner.parseRustOutput _) as [r|e'] eqn:P;
    unfold result_of, trace_of; cbn [lift run fst snd]; [discriminate|].
  intros E. injection E as ->.
  exists error. split; [right; left; reflexivity|exact P].
Qed.

Lemma rust_runner_returns node W (h : handler W) w d r :
  result_of (run h (RustRunner.runRustDiagnostics node d) w) = Returned r ->
  RustRunner.diagnostics r = []
  \/ exists error,
      In (Interact (ExecFileSync (str "cargo")
                      [str "check"; str "--message-format=json"]
                      (pipe_options d))
                   (ExecThrew error))
         (trace_of (run h (RustRunner.runRustDiagnostics node d) w))
      /\ RustRunner.parseRustOutput
           (or_str (stdout error) (or_str (stderr error) []))
         = Returned r.
Proof.
  unfold RustRunner.runRustDiagnostics. cbn [bind call].
  rewrite run_do.
  destruct (answer h (ExistsSync _) w); cbn [negb];
    [|unfold result_of; cbn; intros E; injection E as <-; left; reflexivity].
  rewrite run_do.
  set (w1 := after h (ExistsSync _) w).
  destruct (answer h (ExecFileSync _ _ _) w1) as [out|error] eqn:A;
    [unfold result_of; cbn; intros E; injection E as <-; left; reflexivity|].
  destruct (code_is error (str "ENOENT"));
    [unfold result_of; cbn; intros E; injection E as <-; left; reflexivity|].
  destruct (RustRunner.parseRustOutput _) as [r'|e'] eqn:P;
    unfold result_of, trace_of; cbn [lift run fst snd]; [|discriminate].
  intros E. injection E as ->.
  right. exists error. split; [right; left; reflexivity|exact P].
Qed.

(** A result without diagnostics is written without a conversion. *)
Lemma formatRust_empty node r :
  RustRunner.diagnostics r = [] ->
  exists f, Index.formatRustResult node r = Returned f.
Proof.
  intros E. unfold Index.formatRustResult.
  destruct (Index.truthy_str (RustRunner.skipped r));
    [eexists; reflexivity|].
  apply formatted_returns. cbn [Index.base_diagnostics]. rewrite E.
  constructor.
Qed.

(** What a throw of a request for ['rust'] comes from. *)
Lemma rust_entry_throws node fmt cache directory W (h : handler W) w e :
  result_of (run h (Index.runDirectoryDiagnostics
                      node fmt cache directory Index.rust) w)
  = Thrown e ->
  (e = SystemError
   /\ answer h (ExistsSync directory) w = true
   /\ answer h (StatSync directory) (after h (ExistsSync directory) w) = None)
  \/ (e = TypeError
      /\ exists resolved error,
          In (Interact
                (ExecFileSync (str "cargo")
                   [str "check"; str "--message-format=json"]
                   (pipe_options resolved))
                (ExecThrew error))
             (trace_of (run h (Index.runDirectoryDiagnostics
                                 node fmt cache directory Index.rust) w))
          /\ let output := or_str (stdout error) (or_str (stderr error) []) in
             RustRunner.parseRustOutput output = Thrown TypeError
             \/ exists r,
                 RustRunner.parseRustOutput output = Returned r
                 /\ Index.formatRustResult node r = Thrown TypeError).
Proof.
  unfold Index.runDirectoryDiagnostics. cbn [bind call].
  rewrite run_do.
  destruct (answer h (ExistsSync directory) w) eqn:Ex; cbn [negb];
    [|unfold result_of; cbn; discriminate].
  rewrite run_do.
  destruct (answer h (StatSync directory) _) as [st|] eqn:St.
  2:{ unfold result_of. cbn. intros E. injection E as <-.
      left. split; [reflexivity|]. split; reflexivity. }
  destruct (isDirectory st); cbn [negb];
    [|unfold result_of; cbn; discriminate].
  rewrite run_do.
  destruct (answer h (RealpathSync directory) _) as [resolved|];
    [|unfold result_of; cbn; discriminate].
  unfold Index.dispatch.
  match goal with
  | |- context [run h (bind ?p ?k) ?w0] =>
      rewrite (run_bind h p k w0)
  end.
  match goal with
  | |- context [run h (RustRunner.runRustDiagnostics node resolved) ?w0] =>
      pose proof (@rust_runner_throws node W h w0 resolved) as T;
      pose proof (@rust_runner_returns node W h w0 resolved) as R;
      destruct (run h (RustRunner.runRustDiagnostics node resolved) w0)
        as [[o t] w4]
  end.
  unfold result_of, trace_of in *. cbn [fst snd] in *.
  destruct o as [r|e0].
  - destruct (Index.formatRustResult node r) as [f|e1] eqn:F;
      cbn [lift bind run fst snd]; [discriminate|].
    intros E. injection E as ->.
    pose proof (formatRust_throws _ _ F) as ->.
    right. split; [reflexivity|].
    destruct (R r eq_refl) as [Empty | (error & I & P)].
    + destruct (formatRust_empty node r Empty) as (f & Ef). congruence.
    + exists resolved, error. split.
      * right. right. right. apply in_or_app. left. exact I.
      * right. exists r. split; [exact P|exact F].
  - cbn [fst snd]. intros E. injection E as ->.
    destruct (T e eq_refl) as (error & I & P).
    pose proof (RunnerFacts.parseRustOutput_throws _ P) as ->.
    right. split; [reflexivity|].
    exists resolved, error. split.
    + right. right. right. exact I.
    + left. exact P.
Qed.

End DispatchFacts.

(** X7: whatever [runDirectoryDiagnostics] returns is coherent.  A
    result whose strategy is ['skipped'] has [success] true, both counts
    0 and an empty [diagnostics] text; any other result has a non-empty
    text, and its summary is the name of the tool that ran, [passed] or
    [failed] as [success] says, and the two counts of the result itself
    (followed, for the LSP strategy, by the number of files).  When a
    strategy other than ['auto'] was asked for, the result names that
    strategy or ['skipped'].  The extension cache is left as it was
    unless the LSP strategy ran. *)
Theorem directory_results_are_coherent :
  forall node fmt cache (directory : jsstr) strat W (h : handler W) (w : W)
         r cache',
    result_of (run h (Index.runDirectoryDiagnostics
                        node fmt cache directory strat) w)
    = Returned (r, cache') ->
    Forms.coherent r
    /\ Forms.requested strat (Index.strategy r)
    /\ (Index.strategy r <> Index.by_lsp -> cache' = cache).
Proof.
  intros node fmt cache directory strat W h w r cache' E.
  destruct (DispatchFacts.entry_cases node fmt cache directory strat h w)
    as [(why & H) | [(H & _) | (s & resolved & w0 & (Ns & Ch) & H)]];
    rewrite H in E.
  - inversion E; subst. split; [apply DispatchFacts.skipped_coherent|].
    split; [left; reflexivity|]. intros _. reflexivity.
  - discriminate E.
  - destruct (@DispatchFacts.dispatch_cases node fmt cache s resolved W h w0 Ns)
      as [(r0 & c0 & H0 & C & S & K) | (_ & H0)];
      rewrite H0 in E; [|discriminate E].
    inversion E; subst r0 c0. split; [exact C|]. split; [|exact K].
    destruct S as [S|S]; [left; exact S|]. right. rewrite S.
    destruct strat; try exact Ch; exact I.
Qed.

Lemma directory_results_are_coherent_witness :
  let vet := str "# example.com/demo" ++ [10%N]
             ++ str "./main.go:12:2: unreachable code" ++ [10%N] in
  let h := Scenario.steady
             (Scenario.project [str "go.mod"; str "main.go"]
                (fun _ _ => ExecThrew {| code := None; stdout := Some [];
                                         stderr := Some vet |})) in
  let fmt := fun (_ : list Diagnostic) (_ : jsstr) => [] : jsstr in
  match Index.formatGoResult Scenario.posix (GoRunner.parseGoOutput vet) with
  | Returned r =>
      result_of (run h (Index.runDirectoryDiagnostics
                          Scenario.posix fmt None (str "/p") Index.go) tt)
      = Returned (r, None)
      /\ Forms.coherent r
      /\ Forms.requested Index.go (Index.strategy r)
  | Thrown _ => False
  end.
Proof.
  intros vet h fmt.
  destruct (Index.formatGoResult Scenario.posix (GoRunner.parseGoOutput vet))
    as [r|e] eqn:F; [|vm_compute in F; discriminate F].
  assert (E : result_of (run h (Index.runDirectoryDiagnostics
                                  Scenario.posix fmt None (str "/p") Index.go)
                             tt)
              = Returned (r, None)).
  { vm_compute in F. injection F as <-. vm_compute. reflexivity. }
  split; [exact E|].
  destruct (@directory_results_are_coherent
              Scenario.posix fmt None (str "/p") Index.go unit h tt r None E)
    as (C & Q & _).
  split; [exact C|exact Q].
Defined.

(** X8: a request for ['tsc'], ['go'] or ['python'] makes
    [runDirectoryDiagnostics] throw in one case only: [statSync] threw on
    a path that [existsSync] had just reported, and the error is the one
    of the file system.  A request for ['rust'] throws in that case, and
    otherwise only with a [TypeError] after [cargo check] failed: either
    [parseRustOutput] threw it on the output of cargo, or the parser
    returned and [formatRustResult] threw it when it wrote a field that
    cannot be converted to text. *)
Theorem directory_diagnostics_throws_only_from_stat_or_cargo :
  forall node fmt cache (directory : jsstr) strat W (h : handler W) (w : W) e,
    strat <> Index.lsp -> strat <> Index.auto ->
    let outcome :=
      run h (Index.runDirectoryDiagnostics node fmt cache directory strat) w in
    result_of outcome = Thrown e ->
    (e = SystemError
     /\ answer h (ExistsSync directory) w = true
     /\ answer h (StatSync directory) (after h (ExistsSync directory) w)
        = None)
    \/ (e = TypeError /\ strat = Index.rust
        /\ exists resolved error,
            In (Interact
                  (ExecFileSync (str "cargo")
                     [str "check"; str "--message-format=json"]
                     (pipe_options resolved))
                  (ExecThrew error))
               (trace_of outcome)
            /\ let output := or_str (stdout error) (or_str (stderr error) []) in
               RustRunner.parseRustOutput output = Thrown TypeError
               \/ exists r,
                   RustRunner.parseRustOutput output = Returned r
                   /\ Index.formatRustResult node r = Thrown TypeError).
Proof.
  intros node fmt cache directory strat W h w e Nl Na outcome E.
  destruct (DispatchFacts.rust_or_not strat) as [-> | Nr].
  - subst outcome. apply DispatchFacts.rust_entry_throws in E.
    destruct E as [(-> & Ex & St) | (-> & resolved & error & I & Why)].
    + left. split; [reflexivity|]. split; assumption.
    + right. split; [reflexivity|]. split; [reflexivity|].
      exists resolved, error. split; [exact I|exact Why].
  - left. subst outcome.
    destruct (DispatchFacts.entry_cases node fmt cache directory strat h w)
      as [(why & H) | [(H & Ex & St) | (s & resolved & w0 & (Ns & Ch) & H)]];
      rewrite H in E.
    + discriminate E.
    + inversion E; subst. split; [reflexivity|]. split; assumption.
    + destruct (@DispatchFacts.dispatch_cases
                  node fmt cache s resolved W h w0 Ns)
        as [(r0 & c0 & H0 & _) | (Hs & H0)];
        rewrite H0 in E; [discriminate E|].
      exfalso. subst s. destruct strat; try discriminate Ch; congruence.
Qed.

Lemma directory_diagnostics_throws_only_from_stat_or_cargo_witness :
  let vanished :=
    {| Scenario.present := fun _ => true;
       Scenario.stat_of := fun _ => None;
       Scenario.real_of := fun p => Some p;
       Scenario.listing := fun _ => None;
       Scenario.exec_of := fun _ _ => Scenario.not_installed;
       Scenario.client_of := fun _ => None;
       Scenario.open_of := fun _ _ => None;
       Scenario.published := fun _ _ => None |} in
  let fmt := fun (_ : list Diagnostic) (_ : jsstr) => [] : jsstr in
  let message :=
    qstr "{'reason':'compiler-message','message':{'message':'mismatched types','level':'error','spans':[{'file_name':{'toString':1},'line_start':10,'column_start':5,'is_primary':true}]}}" in
  let cargo :=
    Scenario.steady
      (Scenario.project [str "Cargo.toml"]
         (fun _ _ => ExecThrew {| code := None; stdout := Some message;
                                  stderr := Some [] |})) in
  (result_of (run (Scenario.steady vanished)
                  (Index.runDirectoryDiagnostics
                     Scenario.posix fmt None (str "/gone") Index.tsc) tt)
   = Thrown SystemError
   /\ answer (Scenario.steady vanished) (StatSync (str "/gone"))
        (after (Scenario.steady vanished) (ExistsSync (str "/gone")) tt)
      = None)
  /\ (result_of (run cargo
                     (Index.runDirectoryDiagnostics
                        Scenario.posix fmt None (str "/p") Index.rust) tt)
      = Thrown TypeError
      /\ exists r,
          RustRunner.parseRustOutput message = Returned r
          /\ length (RustRunner.diagnostics r) = 1
          /\ Index.formatRustResult Scenario.posix r = Thrown TypeError).
Proof.
  intros vanished fmt message cargo. split.
  - assert (E : result_of (run (Scenario.steady vanished)
                             (Index.runDirectoryDiagnostics
                                Scenario.posix fmt None (str "/gone")
                                Index.tsc) tt)
                = Thrown SystemError) by (vm_compute; reflexivity).
    split; [exact E|].
    destruct (@directory_diagnostics_throws_only_from_stat_or_cargo
                Scenario.posix fmt None (str "/gone") Index.tsc unit
                (Scenario.steady vanished) tt SystemError
                ltac:(discriminate) ltac:(discriminate) E)
      as [(_ & _ & St) | (D & _)]; [exact St|discriminate D].
  - assert (E : result_of (run cargo
                             (Index.runDirectoryDiagnostics
                                Scenario.posix fmt None (str "/p")
                                Index.rust) tt)
                = Thrown TypeError) by (vm_compute; reflexivity).
    split; [exact E|].
    destruct (@directory_diagnostics_throws_only_from_stat_or_cargo
                Scenario.posix fmt None (str "/p") Index.rust unit
                cargo tt TypeError
                ltac:(discriminate) ltac:(discriminate) E)
      as [(D & _) | (_ & _ & resolved & error & _ & _)];
      [discriminate D|].
    destruct (RustRunner.parseRustOutput message) as [r|e0] eqn:P;
      [|vm_compute in P; discriminate P].
    exists r. split; [reflexivity|].
    vm_compute in P. injection P as <-.
    split; vm_compute; reflexivity.
Defined.

(** X9: once the three checks have passed, a request for ['auto']
    probes the markers of the resolved directory in priority order, up
    to the first that exists, and then goes on exactly as the second
    [switch] does for the strategy of the type found: ['tsc'] for
    [typescript], ['go'] for [go], ['rust'] for [rust], ['python'] for
    [python], and the LSP path when no marker exists.  Nothing else is
    called in between. *)
Theorem auto_runs_the_detected_strategy :
  forall node fmt cache (directory resolved : jsstr) W (h : handler W) (w : W),
    Spec.passes_preflight h w directory resolved ->
    let w3 := Spec.after_preflight h w directory in
    let detected := Spec.first_marker node h w3 resolved Spec.markers in
    run h (Index.runDirectoryDiagnostics node fmt cache directory Index.auto) w
    = Spec.continued h
        (Spec.preflight_trace h w directory ++ snd (fst detected))
        (snd detected)
        (Index.dispatch node fmt cache
           (Forms.strategy_for (fst (fst detected))) resolved).
Proof.
  intros node fmt cache directory resolved W h w (E & (st & S & D) & R)
         w3 detected.
  subst detected w3.
  unfold Index.runDirectoryDiagnostics, Spec.continued, Spec.preflight_trace,
    Spec.after_preflight.
  cbn [bind call]. rewrite run_do, E. cbn [negb].
  rewrite run_do, S, D. cbn [negb]. rewrite run_do, R.
  rewrite run_bind, run_bind, DispatchFacts.detect_run.
  destruct (Spec.first_marker node h _ resolved Spec.markers) as [[t tr] w'].
  cbn [run fst snd app].
  destruct t; cbn [Forms.strategy_for];
    match goal with
    | |- context [run h ?p w'] => destruct (run h p w') as [[o t2] w2]
    end; rewrite ?app_nil_r; reflexivity.
Qed.

Lemma auto_runs_the_detected_strategy_witness :
  let vet := str "./main.go:12:2: unreachable code" ++ [10%N] in
  let h := Scenario.steady
             (Scenario.project [str "Cargo.toml"; str "go.mod"]
                (fun _ _ => ExecThrew {| code := None; stdout := Some [];
                                         stderr := Some vet |})) in
  let fmt := fun (_ : list Diagnostic) (_ : jsstr) => [] : jsstr in
  result_of (run h (Index.runDirectoryDiagnostics
                      Scenario.posix fmt None (str "/p") Index.auto) tt)
  = result_of (run h (Index.dispatch Scenario.posix fmt None Index.by_go
                        (str "/p")) tt).
Proof.
  intros vet h fmt.
  assert (P : Spec.passes_preflight h tt (str "/p") (str "/p")).
  { split; [vm_compute; reflexivity|]. split.
    - exists Scenario.directory. split; vm_compute; reflexivity.
    - vm_compute; reflexivity. }
  rewrite (@auto_runs_the_detected_strategy
             Scenario.posix fmt None (str "/p") (str "/p") unit h tt P).
  vm_compute. reflexivity.
Defined.

(* ------------------------------------------------------------------ *)
(** * Facts about the search for files *)

Module WalkFacts.
Import Forms.

Section Walk.
Variable node : Node.
Variables extensions ignoreDirs : list jsstr.

Lemma found_later tr before after f :
  found node extensions tr f ->
  found node extensions (before ++ tr ++ after) f.
Proof.
  intros (I & st & Hin & D & F). split; [exact I|].
  exists st. split; [|split; assumption].
  apply in_or_app. right. apply in_or_app. left. exact Hin.
Qed.

Lemma visit_below top d e i :
  LspAggregator.includes ignoreDirs e = false ->
  visit node ignoreDirs (join node d e) i ->
  visit node ignoreDirs top i.
Proof.
  intros Hn. destruct i as [X op a]. destruct op; simpl; try tauto.
  intros [-> | H]; right; [exists d, e; split; [reflexivity|exact Hn]|exact H].
Qed.

Lemma walks_nothing top : walks node extensions ignoreDirs top (Ret []).
Proof.
  intros W h w. exists [], [], w. split; [reflexivity|].
  split; constructor.
Qed.

Lemma each_entry_walks descend dir top :
  (forall p, walks node extensions ignoreDirs p (descend p)) ->
  forall entries,
    walks node extensions ignoreDirs top
      (LspAggregator.each_entry node descend extensions ignoreDirs dir entries).
Proof.
  intros Hd. induction entries as [|entry more IH];
    cbn [LspAggregator.each_entry]; [apply walks_nothing|].
  intros W h w. cbn [bind call]. rewrite run_do.
  set (fullPath := join node dir entry).
  set (st := answer h (StatSync fullPath) w).
  set (w1 := after h (StatSync fullPath) w).
  assert (Hstep : forall (p : Prog (list jsstr)),
             (forall w0, exists files tr w',
                 run h p w0 = (Returned files, tr, w')
                 /\ Forall (found node extensions
                              (Interact (StatSync fullPath) st :: tr)) files
                 /\ Forall (visit node ignoreDirs top) tr) ->
             exists files tr w',
               (let '(o, t, w2) :=
                  run h (bind p (fun found =>
                         bind (LspAggregator.each_entry node descend extensions
                                 ignoreDirs dir more)
                              (fun later => Ret (found ++ later)))) w1 in
                (o, Interact (StatSync fullPath) st :: t, w2))
               = (Returned files, tr, w')
               /\ Forall (found node extensions tr) files
               /\ Forall (visit node ignoreDirs top) tr).
  { intros p Hp. rewrite run_bind.
    destruct (Hp w1) as (f1 & t1 & w2 & -> & F1 & V1).
    rewrite run_bind.
    destruct (IH W h w2) as (f2 & t2 & w3 & -> & F2 & V2).
    cbn [run]. do 3 eexists. split; [reflexivity|]. split.
    - apply Forall_app. split.
      + eapply Forall_impl; [|exact F1]. intros f Hf.
        apply (@found_later _ [] (t2 ++ []) f) in Hf.
        cbn [app] in Hf. exact Hf.
      + eapply Forall_impl; [|exact F2]. intros f Hf.
        apply (@found_later _ (Interact (StatSync fullPath) st :: t1) [] f)
          in Hf.
        exact Hf.
    - constructor; [exact I|]. rewrite app_nil_r.
      apply Forall_app. split; assumption. }
  assert (Hnil : forall w0, exists files tr w',
               run h (Ret (@nil jsstr)) w0 = (Returned files, tr, w')
               /\ Forall (found node extensions
                            (Interact (StatSync fullPath) st :: tr)) files
               /\ Forall (visit node ignoreDirs top) tr).
  { intros w0. exists [], [], w0. split; [reflexivity|]. split; constructor. }
  destruct st as [stat|] eqn:Est; [|apply Hstep, Hnil].
  destruct (isDirectory stat) eqn:D.
  - destruct (LspAggregator.includes ignoreDirs entry) eqn:Ig;
      [apply Hstep, Hnil|].
    apply Hstep. intros w0.
    destruct (Hd fullPath W h w0) as (f1 & t1 & w2 & E1 & F1 & V1).
    exists f1, t1, w2. split; [exact E1|]. split.
    + eapply Forall_impl; [|exact F1]. intros f Hf.
      apply (@found_later _ [Interact (StatSync fullPath) (Some stat)] [] f)
        in Hf.
      rewrite app_nil_r in Hf. exact Hf.
    + eapply Forall_impl; [|exact V1]. intros i.
      apply (@visit_below top dir entry i Ig).
  - destruct (isFile stat) eqn:Fi; [|apply Hstep, Hnil].
    destruct (LspAggregator.includes extensions (extname node fullPath))
      eqn:Inc; [|apply Hstep, Hnil].
    apply Hstep. intros w0. exists [fullPath], [], w0.
    split; [reflexivity|]. split; [|constructor].
    constructor; [|constructor]. split; [exact Inc|].
    exists stat. split; [left; reflexivity|]. split; assumption.
Qed.

Lemma walk_walks depth :
  forall dir,
    walks node extensions ignoreDirs dir
      (LspAggregator.walk node depth extensions ignoreDirs dir).
Proof.
  induction depth as [|d IH]; intros dir; cbn [LspAggregator.walk];
    [apply walks_nothing|].
  intros W h w. cbn [bind call]. rewrite run_do.
  destruct (answer h (ReaddirSync dir) w) as [entries|].
  - destruct (@each_entry_walks
                (LspAggregator.walk node d extensions ignoreDirs) dir dir
                IH entries W h (after h (ReaddirSync dir) w))
      as (files & tr & w' & -> & F & V).
    do 3 eexists. split; [reflexivity|]. split.
    + eapply Forall_impl; [|exact F]. intros f Hf.
      apply (@found_later _ [Interact (ReaddirSync dir) (Some entries)] [] f)
        in Hf.
      rewrite app_nil_r in Hf. exact Hf.
    + constructor; [left; reflexivity|exact V].
  - cbn [run]. do 3 eexists. split; [reflexivity|]. split; [constructor|].
    constructor; [left; reflexivity|constructor].
Qed.

End Walk.

End WalkFacts.

(** X10: [findFiles] returns on every platform and never throws.  Each
    path it returns has one of the given extensions (compared as
    written, without folding the case) and was reported by [statSync]
    as a regular file, not a directory.  The only calls it makes are
    [statSync] and [readdirSync], and the only directories it lists are
    the one it was given and entries whose name is not in
    [ignoreDirs]. *)
Theorem findFiles_returns_matching_regular_files :
  forall node (directory : jsstr) (extensions ignoreDirs : list jsstr)
         W (h : handler W) (w : W),
    exists files tr w',
      run h (LspAggregator.findFiles node directory extensions ignoreDirs) w
      = (Returned files, tr, w')
      /\ Forall (Forms.found node extensions tr) files
      /\ Forall (Forms.visit node ignoreDirs directory) tr.
Proof.
  intros node directory extensions ignoreDirs W h w.
  unfold LspAggregator.findFiles.
  apply (WalkFacts.walk_walks node extensions ignoreDirs (stack_limit node)
           directory h w).
Qed.

(* ------------------------------------------------------------------ *)
(** * Facts about the loop over the files *)

Module EachFileFacts.

Lemma each_file_files W (h : handler W) files :
  forall acc n w,
    exists ds m tr w',
      run h (LspAggregator.each_file files acc n) w
      = (Returned (ds, m), tr, w')
      /\ n <= m <= n + length files
      /\ (forall d, In d ds ->
                    In d acc \/ In (LspAggregator.file d) files).
Proof.
  induction files as [|f more IH]; intros acc n w;
    cbn [LspAggregator.each_file].
  - exists acc, n, [], w. split; [reflexivity|]. split; [cbn; lia|].
    intros d Hd. left. exact Hd.
  - assert (Hskip : forall w0, exists ds m tr w',
               run h (LspAggregator.each_file more acc n) w0
               = (Returned (ds, m), tr, w')
               /\ n <= m <= n + length (f :: more)
               /\ (forall d, In d ds ->
                             In d acc \/ In (LspAggregator.file d) (f :: more))).
    { intros w0. destruct (IH acc n w0) as (ds & m & tr & w' & E & B & F).
      exists ds, m, tr, w'. split; [exact E|]. split; [cbn; lia|].
      intros d Hd. destruct (F d Hd) as [H|H]; [left|right; right]; exact H. }
    cbn [bind call]. rewrite run_do.
    destruct (answer h (GetClientForFile f) w) as [[client|]|].
    + rewrite run_do.
      destruct (answer h (OpenDocument client f) _) as [u|].
      * rewrite run_do, run_do.
        destruct (answer h (GetDiagnostics client f) _) as [found|].
        -- match goal with
           | |- context [run h _ ?w0] =>
               destruct (IH (acc ++ map (LspAggregator.with_file f) found)
                            (S n) w0)
                 as (ds & m & tr & w' & -> & B & F)
           end.
           do 4 eexists. split; [reflexivity|]. split; [cbn; lia|].
           intros d Hd. destruct (F d Hd) as [H|H]; [|right; right; exact H].
           apply in_app_or in H. destruct H as [H|H]; [left; exact H|].
           apply in_map_iff in H. destruct H as (x & <- & _).
           right. left. reflexivity.
        -- match goal with
           | |- context [run h _ ?w0] =>
               destruct (Hskip w0) as (ds & m & tr & w' & -> & B & F)
           end.
           do 4 eexists. split; [reflexivity|]. split; assumption.
      * match goal with
        | |- context [run h _ ?w0] =>
            destruct (Hskip w0) as (ds & m & tr & w' & -> & B & F)
        end.
        do 4 eexists. split; [reflexivity|]. split; assumption.
    + match goal with
      | |- context [run h _ ?w0] =>
          destruct (Hskip w0) as (ds & m & tr & w' & -> & B & F)
      end.
      do 4 eexists. split; [reflexivity|]. split; assumption.
    + match goal with
      | |- context [run h _ ?w0] =>
          destruct (Hskip w0) as (ds & m & tr & w' & -> & B & F)
      end.
      do 4 eexists. split; [reflexivity|]. split; assumption.
Qed.

End EachFileFacts.

(** X11: [runLspAggregatedDiagnostics] first searches the directory
    with [findFiles], for the extensions it was given, or else for those
    of [getAllSupportedExtensions], and with [node_modules], [dist],
    [build] and [.git] ignored; whatever it does afterwards follows the
    calls of that search.  Every diagnostic of the result belongs to a
    file the search returned, and [filesChecked] is at most the number of
    those files.  The extension cache is left as it was when extensions
    were given. *)
Theorem lsp_diagnostics_belong_to_found_files :
  forall node cache (directory : jsstr) extensions W (h : handler W) (w : W),
    let effective :=
      match extensions with
      | Some given => given
      | None => fst (LspAggregator.getAllSupportedExtensions cache)
      end in
    exists files tr1 w1 r cache' tr2 w',
      run h (LspAggregator.findFiles node directory effective
               [str "node_modules"; str "dist"; str "build"; str ".git"]) w
      = (Returned files, tr1, w1)
      /\ run h (LspAggregator.runLspAggregatedDiagnostics
                  node cache directory extensions) w
         = (Returned (r, cache'), tr1 ++ tr2, w')
      /\ (forall d, In d (LspAggregator.diagnostics r) ->
                    In (LspAggregator.file d) files)
      /\ LspAggregator.filesChecked r <= length files
      /\ (extensions <> None -> cache' = cache).
Proof.
  intros node cache directory extensions W h w effective.
  unfold LspAggregator.runLspAggregatedDiagnostics.
  assert (E : (match extensions with
               | Some given => (given, cache)
               | None => LspAggregator.getAllSupportedExtensions cache
               end)
              = (effective,
                 match extensions with
                 | Some _ => cache
                 | None => snd (LspAggregator.getAllSupportedExtensions cache)
                 end)).
  { subst effective. destruct extensions; [reflexivity|].
    destruct (LspAggregator.getAllSupportedExtensions cache); reflexivity. }
  rewrite E. clear E. rewrite run_bind.
  destruct (LspFacts.walk_reads_nothing node effective
              [str "node_modules"; str "dist"; str "build"; str ".git"]
              (stack_limit node) directory h w)
    as (files & tr1 & w1 & Ew & _).
  unfold LspAggregator.findFiles. rewrite Ew. rewrite run_bind.
  destruct (EachFileFacts.each_file_files h files [] 0 w1)
    as (ds & m & tr2 & w' & -> & B & F).
  cbn [run fst snd].
  exists files, tr1, w1. do 4 eexists.
  split; [reflexivity|]. split; [rewrite app_nil_r; reflexivity|].
  cbn [LspAggregator.diagnostics LspAggregator.filesChecked].
  split; [|split].
  - intros d Hd. destruct (F d Hd) as [[]|H]. exact H.
  - cbn in B. lia.
  - intros N. destruct extensions; [reflexivity|congruence].
Qed.

(* ------------------------------------------------------------------ *)
(** * Facts about the grouping by file *)

Module GroupFacts.
Import Forms.

Lemma includes_In l x : LspAggregator.includes l x = true <-> In x l.
Proof.
  unfold LspAggregator.includes. rewrite existsb_exists. split.
  - intros (y & Hy & E). apply eqb_eq in E. subst. exact Hy.
  - intros H. exists x. split; [exact H|apply eqb_refl].
Qed.

Lemma includes_not_In l x : LspAggregator.includes l x = false <-> ~ In x l.
Proof.
  rewrite <- includes_In. destruct (LspAggregator.includes l x);
    split; congruence.
Qed.

Lemma add_all_snoc names k seen :
  LspAggregator.add_all (names ++ [k]) seen
  = let acc := LspAggregator.add_all names seen in
    if LspAggregator.includes acc k then acc else acc ++ [k].
Proof. unfold LspAggregator.add_all. rewrite fold_left_app. reflexivity. Qed.

(** [add_all] keeps what was seen, adds every new name once, and adds
    nothing else. *)
Lemma add_all_spec names : forall seen,
  NoDup seen ->
  NoDup (LspAggregator.add_all names seen)
  /\ (forall x, In x (LspAggregator.add_all names seen)
                <-> In x seen \/ In x names).
Proof.
  induction names as [|k names IH]; intros seen N; cbn.
  - split; [exact N|]. intros x. tauto.
  - fold (LspAggregator.add_all names
            (if LspAggregator.includes seen k then seen else seen ++ [k])).
    destruct (LspAggregator.includes seen k) eqn:E.
    + destruct (IH seen N) as [N' M]. split; [exact N'|].
      intros x. rewrite M. apply includes_In in E.
      split; [tauto|]. intros [H|[<-|H]]; tauto.
    + apply includes_not_In in E.
      assert (N2 : NoDup (seen ++ [k])).
      { apply NoDup_app; [exact N|repeat constructor; tauto|].
        intros x Hx [<-|[]]. contradiction. }
      destruct (IH (seen ++ [k]) N2) as [N' M]. split; [exact N'|].
      intros x. rewrite M, in_app_iff. cbn. tauto.
Qed.

Section Grouping.
Variables (K V : Type).
Variable same : K -> K -> bool.
Variable inj : jsstr -> K.
Variable name : V -> jsstr.
Hypothesis same_inj : forall a b, same (inj a) (inj b) = JsString.eqb a b.

Local Abbreviation group_of := (Forms.group_of inj name).

Lemma group_of_other ds d k :
  name d <> k -> group_of (ds ++ [d]) k = group_of ds k.
Proof.
  intros N. unfold group_of. rewrite filter_app. cbn.
  apply eqb_neq in N. rewrite N, app_nil_r. reflexivity.
Qed.

Lemma add_to_groups ds d : forall ks,
  NoDup ks ->
  Index.add_to same (inj (name d)) d (map (group_of ds) ks)
  = if LspAggregator.includes ks (name d)
    then map (group_of (ds ++ [d])) ks
    else map (group_of (ds ++ [d])) ks
         ++ [(inj (name d), [d])].
Proof.
  induction ks as [|k ks IH]; intros N; [reflexivity|].
  inversion N as [|? ? Nk Nks]; subst.
  cbn [map Index.add_to group_of]. fold (group_of ds).
  rewrite same_inj.
  unfold LspAggregator.includes. cbn [existsb].
  fold (LspAggregator.includes ks (name d)).
  destruct (JsString.eqb k (name d)) eqn:E.
  - apply eqb_eq in E. subst k. rewrite eqb_refl. cbn [orb].
    cbn [map]. f_equal.
    + unfold group_of. rewrite filter_app. cbn. rewrite eqb_refl.
      reflexivity.
    + apply map_ext_in. intros k Hk. symmetry. apply group_of_other.
      intros <-. contradiction.
  - assert (E' : JsString.eqb (name d) k = false).
    { apply eqb_neq. apply eqb_neq in E. congruence. }
    rewrite E'. cbn [orb]. rewrite (IH Nks).
    assert (G : group_of (ds ++ [d]) k = (inj k, filter (fun d0 => JsString.eqb (name d0) k) ds)).
    { rewrite group_of_other; [reflexivity|]. apply eqb_neq. exact E'. }
    destruct (LspAggregator.includes ks (name d)); cbn [map app];
      rewrite G; reflexivity.
Qed.

Lemma filter_none (f : V -> bool) ds :
  (forall d, In d ds -> f d = false) -> filter f ds = [].
Proof.
  induction ds as [|d ds IH]; intros H; cbn; [reflexivity|].
  rewrite (H d (or_introl eq_refl)). apply IH.
  intros x Hx. apply H. right. exact Hx.
Qed.

(** The [Map] filled in the loop: one entry per name, in the order of
    first appearance, holding the items of that name in their order. *)
Lemma grouped ds :
  fold_left (fun m d => Index.add_to same (inj (name d)) d m) ds []
  = map (group_of ds) (first_seen (map name ds)).
Proof.
  unfold first_seen.
  induction ds as [|d ds IH] using rev_ind; [reflexivity|].
  rewrite fold_left_app. cbn [fold_left]. rewrite IH.
  destruct (add_all_spec (map name ds) (NoDup_nil _)) as [N M].
  rewrite (add_to_groups ds d N).
  rewrite map_app. cbn [map]. rewrite add_all_snoc.
  cbv zeta.
  destruct (LspAggregator.includes _ (name d)) eqn:E; [reflexivity|].
  rewrite map_app. cbn [map]. f_equal. unfold group_of. f_equal. f_equal.
  rewrite filter_app. cbn. rewrite eqb_refl.
  apply includes_not_In in E.
  rewrite filter_none; [reflexivity|].
  intros x Hx. apply eqb_neq. intros Heq. apply E. apply M. right.
  rewrite <- Heq. apply in_map. exact Hx.
Qed.

End Grouping.

Lemma fold_left_same {A B} (f g : A -> B -> A) l :
  (forall a b, f a b = g a b) ->
  forall init, fold_left f l init = fold_left g l init.
Proof.
  intros H. induction l as [|b l IH]; intros init; cbn; [reflexivity|].
  rewrite H. apply IH.
Qed.

Lemma first_seen_spec names :
  NoDup (first_seen names) /\ (forall x, In x (first_seen names) <-> In x names).
Proof.
  destruct (add_all_spec names (NoDup_nil _)) as [N M].
  split; [exact N|]. intros x. unfold first_seen. rewrite M. cbn. tauto.
Qed.

End GroupFacts.

(** X12: when there are diagnostics, the text [formatLspResult] writes
    has one block per file, in the order in which the files first appear
    among the diagnostics; each file appears once, and its block is the
    file name, a colon, a line feed and [formatDiagnostics] applied to
    all the diagnostics of that file, in their order; the blocks are
    separated by an empty line.  No diagnostic is left out. *)
Theorem lsp_text_has_one_block_per_file :
  forall fmt (r : LspAggregator.LspAggregationResult),
    LspAggregator.diagnostics r <> [] ->
    let ds := LspAggregator.diagnostics r in
    let files := Forms.first_seen (map LspAggregator.file ds) in
    Index.diagnostics (Index.formatLspResult fmt r)
    = Index.join_with [10%N; 10%N]
        (map (fun f =>
                f ++ str ":" ++ [10%N]
                ++ fmt (map LspAggregator.diagnostic
                          (filter (fun d =>
                                     JsString.eqb (LspAggregator.file d) f)
                                  ds))
                       f)
             files)
    /\ NoDup files
    /\ (forall d, In d ds -> In (LspAggregator.file d) files).
Proof.
  intros fmt r Hne ds files. subst files ds.
  destruct (GroupFacts.first_seen_spec
              (map LspAggregator.file (LspAggregator.diagnostics r)))
    as [N M].
  split; [|split; [exact N|]].
  - unfold Index.formatLspResult.
    destruct (LspAggregator.diagnostics r) as [|d0 ds0] eqn:Eds;
      [congruence|].
    cbn [Index.diagnostics]. f_equal.
    rewrite (@GroupFacts.grouped jsstr _ JsString.eqb (fun k => k)
               LspAggregator.file (fun a b => eq_refl) (d0 :: ds0)).
    rewrite map_map. reflexivity.
  - intros d Hd. apply M. apply in_map. exact Hd.
Qed.

Lemma lsp_text_has_one_block_per_file_witness :
  let diag msg :=
    {| lsp_line := 1; lsp_column := 1; lsp_message := str msg;
       lsp_severity := Some 1%Z; lsp_code := None |} in
  let a1 := LspAggregator.with_file (str "a.ts") (diag "first"%string) in
  let b1 := LspAggregator.with_file (str "b.ts") (diag "second"%string) in
  let a2 := LspAggregator.with_file (str "a.ts") (diag "third"%string) in
  let r := {| LspAggregator.success := false;
              LspAggregator.diagnostics := [a1; b1; a2];
              LspAggregator.errorCount := 3;
              LspAggregator.warningCount := 0;
              LspAggregator.filesChecked := 2 |} in
  let fmt := fun (ds : list Diagnostic) (_ : jsstr) =>
               concat (map (fun d => lsp_message d ++ [10%N]) ds) in
  Index.diagnostics (Index.formatLspResult fmt r)
  = str "a.ts:" ++ [10%N] ++ str "first" ++ [10%N] ++ str "third" ++ [10%N]
    ++ [10%N; 10%N]
    ++ str "b.ts:" ++ [10%N] ++ str "second" ++ [10%N].
Proof.
  intros diag a1 b1 a2 r fmt.
  assert (Hne : LspAggregator.diagnostics r <> []) by discriminate.
  rewrite (proj1 (@lsp_text_has_one_block_per_file fmt r Hne)).
  vm_compute. reflexivity.
Defined.

(** X13: when there are diagnostics whose file is a string, as those
    of the tsc, go and Python runners are, [formatDiagnosticResult]
    writes one block per file, in the order in which the files first
    appear; each file appears once, and its block lists all the
    diagnostics of that file, in their order; the blocks are separated
    by a line feed.  The function throws exactly when the writing of one
    of these blocks does. *)
Theorem runner_text_has_one_block_per_file :
  forall node (D : Type) (B : Index.BaseDiagnostic D) (name : D -> jsstr)
         (result : Index.BaseResult D) strat toolName,
    (forall d, Index.base_file d = VStr (name d)) ->
    Index.base_diagnostics result <> [] ->
    let ds := Index.base_diagnostics result in
    let files := Forms.first_seen (map name ds) in
    omap Index.diagnostics
         (Index.formatDiagnosticResult node result strat toolName)
    = omap (Index.join_with [10%N])
        (oeach (fun f =>
                  Forms.file_block node (VStr f)
                    (filter (fun d => JsString.eqb (name d) f) ds))
               files)
    /\ NoDup files
    /\ (forall d, In d ds -> In (name d) files).
Proof.
  intros node D B name result strat toolName Hname Hne ds files.
  subst files ds.
  destruct (GroupFacts.first_seen_spec
              (map name (Index.base_diagnostics result))) as [N M].
  split; [|split; [exact N|]].
  - rewrite DispatchFacts.formatted_unfold.
    destruct (Index.base_diagnostics result) as [|d0 ds0] eqn:Eds;
      [congruence|].
    rewrite (@GroupFacts.fold_left_same _ _ _
               (fun m d => Index.add_to Index.same_key (VStr (name d)) d m)
               (d0 :: ds0)
               (fun m d => f_equal (fun k => Index.add_to Index.same_key k d m)
                                   (Hname d))).
    rewrite (@GroupFacts.grouped value _ Index.same_key VStr name
               (fun a b => eq_refl) (d0 :: ds0)).
    rewrite DispatchFacts.oeach_map.
    unfold Forms.group_of. cbn [fst snd].
    destruct (oeach _ _) as [outs|e]; reflexivity.
  - intros d Hd. apply M. apply in_map. exact Hd.
Qed.

Lemma runner_text_has_one_block_per_file_witness :
  let r := TscRunner.parseTscOutput
             (str "a.ts(1,1): error TS1: one" ++ [10%N]
              ++ str "b.ts(2,2): error TS2: two" ++ [10%N]
              ++ str "a.ts(3,3): warning TS3: three") in
  let result :=
    {| Index.base_success := TscRunner.success r;
       Index.base_diagnostics := TscRunner.diagnostics r;
       Index.base_errorCount := TscRunner.errorCount r;
       Index.base_warningCount := TscRunner.warningCount r |} in
  omap Index.diagnostics
    (@Index.formatDiagnosticResult Scenario.posix _ Index.tsc_base result
       Index.by_tsc (str "TypeScript check"))
  = Returned
      (str "a.ts:" ++ [10%N]
       ++ str "  1:1 - error [TS1]: one" ++ [10%N]
       ++ str "  3:3 - warning [TS3]: three" ++ [10%N]
       ++ [10%N]
       ++ str "b.ts:" ++ [10%N]
       ++ str "  2:2 - error [TS2]: two" ++ [10%N]).
Proof.
  intros r result.
  assert (Hne : Index.base_diagnostics result <> [])
    by (vm_compute; discriminate).
  rewrite (proj1 (@runner_text_has_one_block_per_file
                    Scenario.posix _ Index.tsc_base TscRunner.file result
                    Index.by_tsc (str "TypeScript check")
                    (fun d => eq_refl) Hne)).
  vm_compute. reflexivity.
Defined.

(* ------------------------------------------------------------------ *)
(** * Facts about the registry of servers *)

Module LookupFacts.
Import Forms.

(** The loop of [getAllSupportedExtensions] over any registry. *)
Lemma all_extensions_spec (table : list (jsstr * Servers.LspServerConfig)) :
  forall seen,
    NoDup seen ->
    let exts :=
      fold_left (fun acc kc =>
                   LspAggregator.add_all (Servers.extensions (snd kc)) acc)
                table seen in
    NoDup exts
    /\ (forall e, In e exts <->
                  In e seen
                  \/ exists config,
                      In config (map snd table)
                      /\ In e (Servers.extensions config)).
Proof.
  induction table as [|kc table IH]; intros seen N; cbn.
  - split; [exact N|]. intros e. split; [tauto|].
    intros [H|(c & [] & _)]. exact H.
  - destruct (GroupFacts.add_all_spec (Servers.extensions (snd kc)) N)
      as [N1 M1].
    destruct (IH _ N1) as [N2 M2]. split; [exact N2|].
    intros e. rewrite M2, M1. split.
    + intros [[H|H]|(c & Hc & He)].
      * left. exact H.
      * right. exists (snd kc). split; [left; reflexivity|exact H].
      * right. exists c. split; [right; exact Hc|exact He].
    + intros [H|(c & [<-|Hc] & He)].
      * left. left. exact H.
      * left. right. exact He.
      * right. exists c. split; assumption.
Qed.

(** The quantifier of the pattern for command names takes all the name
    characters there are. *)
Lemma star_takes_all k t : forall fuel p cs,
  length t <= fuel ->
  Forall (fun x => Servers.is_name_char x = true) t ->
  (forall s, rest s = [] -> k s = Some s) ->
  exists m,
    star_loop (rmatch (RClass Servers.is_name_char)) true k fuel
      (MState p t cs) = Some m.
Proof.
  induction t as [|x t IH]; intros fuel p cs L F K.
  - destruct fuel; cbn; [eexists; apply K; reflexivity|].
    eexists. apply K. reflexivity.
  - destruct fuel as [|fuel]; [cbn in L; lia|].
    inversion F as [|? ? Hx Ft]; subst.
    set (ma := rmatch (RClass Servers.is_name_char)) in *.
    cbn [star_loop]. unfold ma at 1. cbn [rmatch rest]. rewrite Hx.
    cbn [advance rest length caps].
    assert (Lt : Nat.ltb (length t) (S (length t)) = true)
      by (apply Nat.ltb_lt; lia).
    rewrite Lt. unfold advance. cbn [caps].
    destruct (IH fuel (Some x) cs) as (m & ->);
      [cbn in L; lia|exact Ft|exact K|].
    eexists. reflexivity.
Qed.

Lemma safe_command_passes command :
  safe_command command ->
  is_empty command = false /\ test Servers.safe_name command = true.
Proof.
  intros (c & t & -> & Lc & Ft). split; [reflexivity|].
  apply ServersFacts.is_letter_iff in Lc.
  assert (Ft' : Forall (fun x => Servers.is_name_char x = true) t).
  { eapply Forall_impl; [|exact Ft]. intros x.
    apply ServersFacts.is_name_char_iff. }
  destruct (@star_takes_all
              (rmatch (RSeq (REol false) REmpty) Some) t (length t) (Some c) []
              (le_n _) Ft') as (m & E).
  { intros s Hs. cbn [rmatch]. unfold at_eol. rewrite Hs. reflexivity. }
  assert (R : rmatch Servers.safe_name Some (MState None (c :: t) []) = Some m).
  { rewrite <- E. unfold Servers.safe_name.
    cbn [rcat rmatch at_bol prev rest]. rewrite Lc. reflexivity. }
  unfold test. cbn [exec_from]. rewrite R. reflexivity.
Qed.

Lemma commandExists_run node command W (h : handler W) w :
  safe_command command ->
  let op := Servers.probe node command in
  run h (Servers.commandExists node command) w
  = (Returned (exited_zero (answer h op w)),
     [Interact op (answer h op w)], after h op w).
Proof.
  intros S op. destruct (safe_command_passes S) as [E T].
  rewrite (@ResultFacts.commandExists_safe node command E T).
  rewrite run_do. fold op.
  destruct (answer h op w); reflexivity.
Qed.

Lemma installed_each_run node W (h : handler W) configs : forall w,
  Forall (fun c => safe_command (Servers.command c)) configs ->
  run h (ServersLookup.installed_each node configs) w
  = let '(answers, w') := probes node h w configs in
    (Returned (combine configs (map exited_zero answers)),
     map (fun ca => Interact (Servers.probe node (Servers.command (fst ca)))
                             (snd ca))
         (combine configs answers),
     w').
Proof.
  induction configs as [|c more IH]; intros w F; [reflexivity|].
  inversion F as [|? ? Sc Fm]; subst.
  cbn [ServersLookup.installed_each probes].
  rewrite run_bind, (commandExists_run node h w Sc). cbv zeta.
  rewrite run_bind, (IH _ Fm).
  destruct (probes node h _ more) as [answers w'].
  cbn [run map combine app fst snd]. rewrite app_nil_r. reflexivity.
Qed.

Lemma shape_is_safe command :
  test Servers.safe_name command = true -> safe_command command.
Proof.
  intros T. destruct (ServersFacts.safe_name_shape _ T) as (c & t & -> & L & F).
  exists c, t. split; [reflexivity|]. split.
  - apply ServersFacts.is_letter_iff, L.
  - eapply Forall_impl; [|exact F]. intros x.
    apply ServersFacts.is_name_char_iff.
Qed.

Lemma registry_is_safe :
  Forall (fun c => safe_command (Servers.command c)) ServersLookup.servers.
Proof.
  apply Forall_forall. intros c Hc. apply shape_is_safe.
  revert c Hc. apply forallb_forall. vm_compute. reflexivity.
Qed.

Lemma safe_or_unsafe command :
  safe_command command \/ Spec.unsafe_name command.
Proof.
  destruct command as [|c t]; [right; left; reflexivity|].
  destruct (Servers.is_letter c) eqn:L.
  - destruct (forallb Servers.is_name_char t) eqn:F.
    + left. exists c, t. split; [reflexivity|]. split.
      * apply ServersFacts.is_letter_iff, L.
      * apply Forall_forall. intros x Hx.
        apply ServersFacts.is_name_char_iff.
        apply (proj1 (forallb_forall _ _) F x Hx).
    + right. right. right.
      assert (E : existsb (fun x => negb (Servers.is_name_char x)) t = true).
      { clear L. induction t as [|x t IH]; [discriminate F|]. cbn in F |- *.
        destruct (Servers.is_name_char x); cbn; [apply IH, F|reflexivity]. }
      apply existsb_exists in E. destruct E as (x & Hx & Nx).
      exists x. split; [right; exact Hx|].
      intros C. apply ServersFacts.is_name_char_iff in C.
      rewrite C in Nx. discriminate Nx.
  - right. right. left. exists c, t. split; [reflexivity|].
    intros C. apply ServersFacts.is_letter_iff in C. congruence.
Qed.

Lemma find_none_iff {A} (f : A -> bool) l :
  find f l = None <-> forall x, In x l -> f x = false.
Proof.
  split; [apply find_none|].
  induction l as [|a l IH]; intros H; cbn; [reflexivity|].
  rewrite (H a (or_introl eq_refl)). apply IH.
  intros x Hx. apply H. right. exact Hx.
Qed.

End LookupFacts.

(** X14: for a name made of an ASCII letter followed by letters,
    digits, dots, underscores and hyphens, [commandExists] makes exactly
    one call, the [which] probe of that name ([where] on Windows), and
    returns whether the probe exited with status zero.  Every name is
    either of that kind or one of the names that are refused. *)
Theorem commandExists_probes_safe_names :
  forall node (command : jsstr),
    (Forms.safe_command command ->
     forall W (h : handler W) (w : W),
       let op := Servers.probe node command in
       run h (Servers.commandExists node command) w
       = (Returned (Forms.exited_zero (answer h op w)),
          [Interact op (answer h op w)], after h op w))
    /\ (Forms.safe_command command \/ Spec.unsafe_name command).
Proof.
  intros node command. split.
  - intros S W h w. exact (@LookupFacts.commandExists_run node command W h w S).
  - apply LookupFacts.safe_or_unsafe.
Qed.

Lemma commandExists_probes_safe_names_witness :
  let h := Scenario.steady
             (Scenario.project []
                (fun file args =>
                   if JsString.eqb file (str "which")
                   then ExitedZero [] else Scenario.not_installed)) in
  result_of (run h (Servers.commandExists Scenario.posix
                      (str "typescript-language-server")) tt)
  = Returned true.
Proof.
  intros h.
  assert (S : Forms.safe_command (str "typescript-language-server")).
  { eexists. eexists. split; [vm_compute; reflexivity|]. split.
    - apply ServersFacts.is_letter_iff. vm_compute. reflexivity.
    - apply Forall_forall. intros x Hx.
      apply ServersFacts.is_name_char_iff. revert x Hx.
      apply forallb_forall. vm_compute. reflexivity. }
  rewrite (proj1 (commandExists_probes_safe_names Scenario.posix
                    (str "typescript-language-server")) S unit h tt).
  reflexivity.
Defined.

(** X15: [getAllServers] never throws, and for each server of the
    registry, in the order of the registry, it makes exactly one call:
    the probe of that server's command.  Its result pairs each server
    with whether its probe exited with status zero.  No command of the
    registry is refused by the check of the name. *)
Theorem getAllServers_probes_every_server_once :
  forall node W (h : handler W) (w : W),
    run h (ServersLookup.getAllServers node) w
    = (Returned
         (combine ServersLookup.servers
            (map Forms.exited_zero
                 (fst (Forms.probes node h w ServersLookup.servers)))),
       map (fun ca =>
              Interact (Servers.probe node (Servers.command (fst ca)))
                       (snd ca))
           (combine ServersLookup.servers
              (fst (Forms.probes node h w ServersLookup.servers))),
       snd (Forms.probes node h w ServersLookup.servers)).
Proof.
  intros node W h w. unfold ServersLookup.getAllServers.
  rewrite (@LookupFacts.installed_each_run node W h ServersLookup.servers w
             LookupFacts.registry_is_safe).
  destruct (Forms.probes node h w ServersLookup.servers) as [answers w'].
  reflexivity.
Qed.

(** X16: from an empty cache, [getAllSupportedExtensions] returns every
    extension of every server of the registry exactly once, and stores
    that list.  A file has a server, by [getServerForFile], exactly when
    its extension in lower case is in that list; the server returned is
    the first of the registry that lists the extension. *)
Theorem a_file_has_a_server_iff_its_extension_is_supported :
  forall node (toLowerCase : jsstr -> jsstr) (filePath : jsstr),
    let exts := fst (LspAggregator.getAllSupportedExtensions None) in
    let ext := toLowerCase (extname node filePath) in
    LspAggregator.getAllSupportedExtensions None = (exts, Some exts)
    /\ NoDup exts
    /\ (forall e, In e exts <->
                  exists config,
                    In config ServersLookup.servers
                    /\ In e (Servers.extensions config))
    /\ (ServersLookup.getServerForFile node toLowerCase filePath <> None
        <-> In ext exts)
    /\ (forall config,
        ServersLookup.getServerForFile node toLowerCase filePath = Some config ->
        exists before after,
          ServersLookup.servers = before ++ config :: after
          /\ In ext (Servers.extensions config)
          /\ Forall (fun c => ~ In ext (Servers.extensions c)) before).
Proof.
  intros node toLowerCase filePath exts ext.
  destruct (@LookupFacts.all_extensions_spec Servers.LSP_SERVERS []
              (NoDup_nil _)) as [N M].
  assert (M' : forall e, In e exts <->
                         exists config,
                           In config ServersLookup.servers
                           /\ In e (Servers.extensions config)).
  { intros e. subst exts. cbn [LspAggregator.getAllSupportedExtensions fst].
    rewrite M. cbn [In]. unfold ServersLookup.servers. tauto. }
  split; [reflexivity|]. split; [exact N|]. split; [exact M'|]. split.
  - unfold ServersLookup.getServerForFile. fold ext. rewrite M'. split.
    + intros H.
      destruct (find _ ServersLookup.servers) as [c|] eqn:E; [|congruence].
      apply find_some in E. destruct E as [Hc Hi].
      exists c. split; [exact Hc|]. apply GroupFacts.includes_In, Hi.
    + intros (c & Hc & Hi) E.
      apply (proj1 (LookupFacts.find_none_iff _ _) E c) in Hc.
      apply GroupFacts.includes_In in Hi. congruence.
  - intros config. unfold ServersLookup.getServerForFile. fold ext.
    generalize ServersLookup.servers.
    induction l as [|c l IH]; cbn [find]; [discriminate|].
    destruct (LspAggregator.includes (Servers.extensions c) ext) eqn:E.
    + intros H; inversion H; subst. exists [], l.
      split; [reflexivity|]. split; [|constructor].
      apply GroupFacts.includes_In, E.
    + intros H. destruct (IH H) as (before & after & -> & Hi & F).
      exists (c :: before), after. split; [reflexivity|].
      split; [exact Hi|]. constructor; [|exact F].
      apply GroupFacts.includes_not_In, E.
Qed.

(** X17: [getServerForLanguage] answers [null] exactly for a name
    that, in lower case, is not one of the names of its table; for any
    other name it returns a server of the registry.  Every key of the
    registry is itself such a name and gives its own server, so each
    server can be reached by its key written in any case. *)
Theorem getServerForLanguage_covers_the_registry :
  forall (toLowerCase : jsstr -> jsstr) (language : jsstr),
    (ServersLookup.getServerForLanguage toLowerCase language = None
     <-> ~ In (toLowerCase language) (map fst ServersLookup.langMap))
    /\ (forall config,
        ServersLookup.getServerForLanguage toLowerCase language = Some config ->
        In config ServersLookup.servers)
    /\ (forall key config,
        In (key, config) Servers.LSP_SERVERS ->
        toLowerCase language = key ->
        ServersLookup.getServerForLanguage toLowerCase language = Some config).
Proof.
  intros toLowerCase language.
  unfold ServersLookup.getServerForLanguage.
  set (name := toLowerCase language). clearbody name.
  split; [|split].
  - split.
    + intros H Hin.
      apply in_map_iff in Hin. destruct Hin as (kv & <- & Hkv).
      assert (A : Forall
                    (fun kv =>
                       match ServersLookup.mapped (fst kv) ServersLookup.langMap
                       with
                       | Some serverKey =>
                           if is_empty serverKey then None
                           else ServersLookup.server_of serverKey
                                  Servers.LSP_SERVERS
                       | None => None
                       end <> None)
                    ServersLookup.langMap).
      { repeat (apply Forall_cons; [vm_compute; discriminate|]).
        apply Forall_nil. }
      rewrite Forall_forall in A. exact (A kv Hkv H).
    + intros H.
      destruct (ServersLookup.mapped name ServersLookup.langMap) as [v|] eqn:E;
        [|reflexivity].
      exfalso. apply H. clear H. revert E.
      generalize ServersLookup.langMap.
      induction l as [|[k v'] l IH]; cbn; [discriminate|].
      destruct (JsString.eqb k name) eqn:Ek.
      * intros _. left. apply eqb_eq, Ek.
      * intros E. right. apply IH, E.
  - intros config.
    destruct (ServersLookup.mapped name ServersLookup.langMap) as [v|];
      [|discriminate].
    destruct (is_empty v); [discriminate|].
    unfold ServersLookup.servers. generalize Servers.LSP_SERVERS.
    induction l as [|[k c] l IH]; cbn; [discriminate|].
    destruct (JsString.eqb k v).
    + intros H; inversion H; subst. left. reflexivity.
    + intros H. right. apply IH, H.
  - intros key config Hin <-.
    assert (A : Forall
                  (fun kc =>
                     match ServersLookup.mapped (fst kc) ServersLookup.langMap
                     with
                     | Some serverKey =>
                         if is_empty serverKey then None
                         else ServersLookup.server_of serverKey
                                Servers.LSP_SERVERS
                     | None => None
                     end = Some (snd kc))
                  Servers.LSP_SERVERS).
    { repeat (apply Forall_cons; [vm_compute; reflexivity|]).
      apply Forall_nil. }
    rewrite Forall_forall in A. exact (A (name, config) Hin).
Qed.

(* ------------------------------------------------------------------ *)
(** * The matcher finds the matches there are *)

Module CompleteFacts.
Import Forms.

(** When a pattern has a match that the continuation accepts, the
    matcher returns a result. *)
Lemma rmatch_complete r s s' :
  rsem r s s' ->
  forall k x, k s' = Some x -> exists y, rmatch r k s = Some y.
Proof.
  induction 1 as [s|c t s E|p c t s E P|a b s1 s2 s3 _ IHa _ IHb
                 |a b s s' _ IH|a b s s' _ IH|g a s
                 |g a s1 s2 s3 Ha IHa L Hs IHs|n a s s' _ IH
                 |ml s B|ml s B];
    intros k x K; cbn [rmatch].
  - exists x. exact K.
  - rewrite E, N.eqb_refl. exists x. exact K.
  - rewrite E, P. exists x. exact K.
  - destruct (IHb k x K) as (y & Hy). apply (IHa _ y Hy).
  - destruct (IH k x K) as (y & ->). exists y. reflexivity.
  - destruct (IH k x K) as (y & Hy). unfold orelse.
    destruct (rmatch a k s) as [z|]; [exists z; reflexivity|exists y; exact Hy].
  - destruct (length (rest s)) as [|f]; cbn [star_loop]; [exists x; exact K|].
    rewrite K. unfold orelse.
    destruct g; [|exists x; reflexivity].
    match goal with
    | |- exists y, match ?again with _ => _ end = _ =>
        destruct again as [z|]; [exists z|exists x]; reflexivity
    end.
  - destruct (IHs k x K) as (y & Hy). cbn [rmatch] in Hy.
    destruct (length (rest s1)) as [|f] eqn:L1; [lia|].
    cbn [star_loop].
    assert (Again : exists z,
               rmatch a
                 (fun s' =>
                    if Nat.ltb (length (rest s')) (length (rest s1))
                    then star_loop (rmatch a) g k f s' else None) s1
               = Some z).
    { apply (IHa _ y).
      assert (L2 : Nat.ltb (length (rest s2)) (length (rest s1)) = true)
        by (apply Nat.ltb_lt; lia).
      rewrite L2. rewrite <- Hy.
      apply (@FuelFacts.star_loop_fuel a (rmatch a) g k
               (rmatch_sound a) (FuelFacts.rmatch_ext a)); lia. }
    destruct Again as (z & Ez). rewrite Ez.
    unfold orelse. destruct g; [exists z; reflexivity|].
    destruct (k s1) as [u|]; [exists u|exists z]; reflexivity.
  - apply (IH _ x). exact K.
  - rewrite B. exists x. exact K.
  - rewrite B. exists x. exact K.
Qed.

(** A search that starts where a match begins returns a match that
    begins there. *)
Lemma exec_from_here r p input m :
  rsem r (MState p input []) m ->
  exists y,
    exec_from r p input = Some y /\ rsem r (MState p input []) y.
Proof.
  intros H.
  destruct (@rmatch_complete r _ _ H Some m eq_refl) as (y & E).
  exists y. split.
  - destruct input; cbn [exec_from]; rewrite E; reflexivity.
  - apply rmatch_sound in E. destruct E as (s' & Hs & K).
    inversion K; subst. exact Hs.
Qed.

(** A pattern that consumes input finds nothing in the empty input. *)
Lemma exec_from_nothing r p :
  consuming r = true -> exec_from r p [] = None.
Proof.
  intros C. destruct (exec_from r p []) as [m|] eqn:E; [|reflexivity].
  apply (@FuelFacts.exec_from_consumes r [] p m C) in E. cbn in E. lia.
Qed.

(** The loop over a line that is one match to its end. *)
Lemma exec_all_one r input :
  consuming r = true ->
  input <> [] ->
  (exists m, rsem r (MState None input []) m) ->
  (forall y, rsem r (MState None input []) y -> rest y = []) ->
  exists y,
    exec_all r input = [y] /\ rsem r (MState None input []) y.
Proof.
  intros C N (m & H) U.
  destruct (@exec_from_here r None input m H) as (y & E & Hy).
  exists y. split; [|exact Hy].
  unfold exec_all. destruct input as [|c t]; [congruence|].
  cbn [length exec_loop]. rewrite E. rewrite (U y Hy).
  destruct (length t); cbn [exec_loop];
    rewrite ?(@exec_from_nothing r _ C); reflexivity.
Qed.

(** ** Going over a word *)

Lemma eats_char c : eats (RChar c) [c].
Proof.
  intros q cs t. exists (Some c), cs.
  apply (@sem_char c t (MState q (c :: t) cs)). reflexivity.
Qed.

Lemma eats_star g p w :
  Forall (fun x => p x = true) w -> eats (RStar g (RClass p)) w.
Proof.
  induction 1 as [|x w Hx _ IH]; intros q cs t.
  - exists q, cs. apply sem_star_done.
  - destruct (IH (Some x) cs t) as (q' & cs' & H).
    exists q', cs'.
    apply (@sem_star_step g (RClass p) _ (MState (Some x) (w ++ t) cs)).
    + apply (@sem_class p x (w ++ t) (MState q ((x :: w) ++ t) cs));
        [reflexivity|exact Hx].
    + cbn. lia.
    + exact H.
Qed.

Lemma eats_seq a b u v : eats a u -> eats b v -> eats (RSeq a b) (u ++ v).
Proof.
  intros Ha Hb q cs t. rewrite <- app_assoc.
  destruct (Ha q cs (v ++ t)) as (q1 & cs1 & H1).
  destruct (Hb q1 cs1 t) as (q2 & cs2 & H2).
  exists q2, cs2. eapply sem_seq; eauto.
Qed.

Lemma eats_class p c : p c = true -> eats (RClass p) [c].
Proof.
  intros P q cs t. exists (Some c), cs.
  apply (@sem_class p c t (MState q (c :: t) cs)); [reflexivity|exact P].
Qed.

Lemma eats_plus g p w : some_of p w -> eats (RPlus g (RClass p)) w.
Proof.
  intros [N F]. destruct w as [|x w]; [congruence|].
  inversion F as [|? ? Hx Fw]; subst.
  apply (@eats_seq _ _ [x] w); [apply eats_class, Hx|apply eats_star, Fw].
Qed.

Lemma eats_empty : eats REmpty [].
Proof. intros q cs t. exists q, cs. apply sem_empty. Qed.

Lemma eats_lit u : eats (lit u) u.
Proof.
  induction u as [|c u IH]; [apply eats_empty|].
  apply (@eats_seq _ _ [c] u); [apply eats_char|exact IH].
Qed.

Lemma eats_group n a w : eats a w -> eats (RGroup n a) w.
Proof.
  intros Ha q cs t. destruct (Ha q cs t) as (q' & cs' & H).
  exists q'. eexists. apply (sem_group n) in H. exact H.
Qed.

Lemma eats_alt_l a b w : eats a w -> eats (RAlt a b) w.
Proof.
  intros Ha q cs t. destruct (Ha q cs t) as (q' & cs' & H).
  exists q', cs'. apply sem_alt_l, H.
Qed.

Lemma eats_alt_r a b w : eats b w -> eats (RAlt a b) w.
Proof.
  intros Hb q cs t. destruct (Hb q cs t) as (q' & cs' & H).
  exists q', cs'. apply sem_alt_r, H.
Qed.

Lemma eats_end ml : eats_to_end (RSeq (REol ml) REmpty) [].
Proof.
  intros q cs. exists q, cs.
  eapply sem_seq; [apply sem_eol; reflexivity|apply sem_empty].
Qed.

Lemma eats_then a b u v :
  eats a u -> eats_to_end b v -> eats_to_end (RSeq a b) (u ++ v).
Proof.
  intros Ha Hb q cs.
  destruct (Ha q cs v) as (q1 & cs1 & H1).
  destruct (Hb q1 cs1) as (q2 & cs2 & H2).
  exists q2, cs2. eapply sem_seq; eauto.
Qed.

(** A line that starts the input and is gone over to its end is a
    match of the anchored pattern. *)
Lemma anchored ml r w :
  eats_to_end r w -> exists m, rsem (RSeq (RBol ml) r) (MState None w []) m.
Proof.
  intros H. destruct (H None []) as (q' & cs' & Hr).
  eexists. eapply sem_seq; [apply sem_bol; reflexivity|exact Hr].
Qed.

(** ** The text a match went over *)

Lemma texts_char c : texts (RChar c) (fun w => w = [c]).
Proof.
  intros s s' H. inversion H; subst. exists [c].
  split; [assumption|reflexivity].
Qed.

Lemma texts_plus g p : texts (RPlus g (RClass p)) (some_of p).
Proof.
  intros s s' H. apply ShapeFacts.rsem_plus_class in H.
  destruct H as (c & w & E & F). exists (c :: w).
  split; [exact E|]. split; [discriminate|exact F].
Qed.

Lemma texts_lit u : texts (lit u) (fun w => w = u).
Proof.
  intros s s' H. apply rsem_lit in H. exists u. split; [exact H|reflexivity].
Qed.

Lemma texts_alt a b P Q :
  texts a P -> texts b Q -> texts (RAlt a b) (fun w => P w \/ Q w).
Proof.
  intros Ha Hb s s' H.
  inversion H as [| | | |a0 b0 s0 s0' Hl|a0 b0 s0 s0' Hr| | | | |]; subst.
  - destruct (Ha _ _ Hl) as (w & E & Pw). exists w.
    split; [exact E|left; exact Pw].
  - destruct (Hb _ _ Hr) as (w & E & Qw). exists w.
    split; [exact E|right; exact Qw].
Qed.

Lemma texts_seq a b P Q :
  texts a P -> texts b Q ->
  texts (RSeq a b) (fun w => exists u v, w = u ++ v /\ P u /\ Q v).
Proof.
  intros Ha Hb s s' H. apply rsem_seq_inv in H. destruct H as (s1 & H1 & H2).
  destruct (Ha _ _ H1) as (u & Eu & Pu). destruct (Hb _ _ H2) as (v & Ev & Qv).
  exists (u ++ v). split.
  - rewrite Eu, Ev, app_assoc. reflexivity.
  - exists u, v. split; [reflexivity|]. split; assumption.
Qed.

Lemma texts_empty : texts REmpty (fun w => w = []).
Proof.
  intros s s' H. inversion H; subst. exists []. split; reflexivity.
Qed.

(** One step along a sequence: the text of the first pattern, and the
    match of what follows. *)
Lemma seq_piece a R P s m :
  texts a P ->
  rsem (RSeq a R) s m ->
  exists w s1, P w /\ rest s = w ++ rest s1 /\ rsem R s1 m.
Proof.
  intros Ha H. apply rsem_seq_inv in H. destruct H as (s1 & H1 & H2).
  destruct (Ha _ _ H1) as (w & E & Pw).
  exists w, s1. split; [exact Pw|]. split; [exact E|exact H2].
Qed.

(** The same for a group, with what the group holds at the end. *)
Lemma seq_group n a R P s m :
  texts a P ->
  ~ In n (groups R) ->
  rsem (RSeq (RGroup n a) R) s m ->
  exists w s1,
    P w /\ rest s = w ++ rest s1 /\ group_text n m = w /\ rsem R s1 m.
Proof.
  intros Ha Hn H. apply rsem_seq_inv in H. destruct H as (s1 & H1 & H2).
  apply ShapeFacts.rsem_group_inv in H1. destruct H1 as (s0 & H0 & E1).
  destruct (Ha _ _ H0) as (w & E & Pw).
  exists w, s1. split; [exact Pw|].
  split; [rewrite E1; exact E|]. split; [|exact H2].
  unfold group_text, group. rewrite (rsem_frame H2 _ Hn). rewrite E1.
  cbn [caps set_cap lookup]. rewrite Nat.eqb_refl.
  apply captured_app. exact E.
Qed.

(** The end of the pattern, on a text without line terminators. *)
Lemma at_the_end ml s m w :
  rsem (RSeq (REol ml) REmpty) s m ->
  Forall (fun x => is_line_terminator x = false) (w ++ rest s) ->
  rest s = [] /\ m = s.
Proof.
  intros H F. apply rsem_seq_inv in H. destruct H as (s1 & He & H0).
  apply ShapeFacts.rsem_empty_inv in H0. subst m.
  apply ServersFacts.rsem_eol_inv in He. destruct He as [-> E].
  split; [|reflexivity].
  unfold at_eol in E. destruct (rest s) as [|x t]; [reflexivity|].
  apply Forall_app in F. destruct F as [_ F].
  inversion F as [|? ? Hx _]; subst. rewrite Hx, andb_false_r in E.
  discriminate E.
Qed.

(** ** Cutting a line in one way only *)

Lemma cut_at x (a b a' b' : jsstr) :
  a ++ x :: b = a' ++ x :: b' ->
  without x a' -> without x b' ->
  a = a' /\ b = b'.
Proof.
  revert a'. induction a as [|z a IH]; intros a' E Na Nb.
  - destruct a' as [|y a']; cbn in E.
    + inversion E. split; reflexivity.
    + inversion E; subst. inversion Na as [|? ? Hy _]; subst. congruence.
  - destruct a' as [|y a']; cbn in E.
    + inversion E; subst. exfalso.
      assert (Hin : In x (a ++ x :: b)) by (apply in_elt).
      unfold without in Nb. rewrite Forall_forall in Nb.
      exact (Nb x Hin eq_refl).
    + inversion E; subst. inversion Na; subst.
      destruct (IH a' H1) as [-> ->]; [assumption|assumption|].
      split; reflexivity.
Qed.

Lemma span_unique (p : cu -> bool) (a b a' b' : jsstr) :
  a ++ b = a' ++ b' ->
  Forall (fun x => p x = true) a -> Forall (fun x => p x = true) a' ->
  stops p b -> stops p b' ->
  a = a' /\ b = b'.
Proof.
  revert a'. induction a as [|z a IH]; intros a' E Fa Fa' Sb Sb'.
  - destruct a' as [|y a']; cbn in E; [split; [reflexivity|exact E]|].
    subst b. cbn in Sb. inversion Fa'; subst. congruence.
  - destruct a' as [|y a']; cbn in E.
    + subst b'. cbn in Sb'. inversion Fa; subst. congruence.
    + inversion E; subst. inversion Fa; subst. inversion Fa'; subst.
      destruct (IH a' H1) as [-> ->]; try assumption.
      split; reflexivity.
Qed.

Lemma one_of (p : cu -> bool) (a b : jsstr) x b' :
  a ++ b = x :: b' ->
  some_of p a -> stops p b' ->
  a = [x] /\ b = b'.
Proof.
  intros E [N F] S. destruct a as [|y a]; [congruence|].
  cbn in E. inversion E; subst.
  destruct a as [|z a]; [split; reflexivity|].
  cbn in S. inversion F as [|? ? _ F']; subst.
  inversion F' as [|? ? Hz _]; subst. congruence.
Qed.

Lemma without_app x (a b : jsstr) :
  without x a -> without x b -> without x (a ++ b).
Proof. intros A B. apply Forall_app. split; assumption. Qed.

Lemma without_class (p : cu -> bool) x w :
  p x = false -> Forall (fun y => p y = true) w -> without x w.
Proof.
  intros Px F. eapply Forall_impl; [|exact F].
  intros y Hy ->. congruence.
Qed.

Lemma dots_one_line w :
  Forall (fun x => dot x = true) w <->
  Forall (fun x => is_line_terminator x = false) w.
Proof.
  split; intros F; (eapply Forall_impl; [|exact F]); unfold dot; intros x Hx.
  - destruct (is_line_terminator x); [discriminate Hx|reflexivity].
  - rewrite Hx. reflexivity.
Qed.

End CompleteFacts.

Module TscComplete.
Import Forms Shapes CompleteFacts.

Lemma space_not_lower x : is_space x = true -> is_lower x = false.
Proof.
  intros S. destruct (is_lower x) eqn:L; [|reflexivity].
  apply ServersFacts.in_range_iff in L.
  assert (is_space x = false); [|congruence].
  unfold is_space, in_range.
  repeat match goal with
         | |- context [N.eqb x ?k] =>
             replace (N.eqb x k) with false by (symmetry; apply N.eqb_neq; lia)
         end.
  replace (N.leb x 13) with false by (symmetry; apply N.leb_gt; lia).
  replace (N.leb 8192 x) with false by (symmetry; apply N.leb_gt; lia).
  rewrite !andb_false_r. reflexivity.
Qed.

Section Line.
Variables file l c sev n msg : jsstr.
Hypothesis Hfile : one_line file.
Hypothesis Hfile' : without 40%N file.
Hypothesis Hl : digits l.
Hypothesis Hc : digits c.
Hypothesis Hsev : sev = str "error" \/ sev = str "warning".
Hypothesis Hn : digits n.
Hypothesis Hmsg : one_line msg.
Hypothesis Hmsg' : without 40%N msg.
Hypothesis Hmsg'' : stops is_space msg.

Local Abbreviation line := (tsc_line file l c sev n msg).

Lemma one_line_dots w : one_line w -> some_of dot w.
Proof. intros [N F]. split; [exact N|]. apply dots_one_line, F. Qed.

Lemma tsc_line_parts :
  line = file ++ [40%N] ++ l ++ [44%N] ++ c ++ [41%N] ++ [58%N] ++ [32%N]
         ++ sev ++ [32%N] ++ (str "TS" ++ n) ++ [58%N] ++ [32%N] ++ msg ++ [].
Proof.
  unfold tsc_line. rewrite app_nil_r. rewrite <- !app_assoc. reflexivity.
Qed.

Lemma sev_lower : Forall (fun x => is_lower x = true) sev.
Proof. destruct Hsev as [-> | ->]; repeat constructor. Qed.

Lemma tsc_line_matches :
  exists m, rsem TscRunner.regex (MState None line []) m.
Proof.
  rewrite tsc_line_parts. unfold TscRunner.regex. cbn [rcat].
  apply anchored.
  apply eats_then; [apply eats_group, eats_plus, one_line_dots, Hfile|].
  apply eats_then; [apply eats_char|].
  apply eats_then; [apply eats_group, eats_plus, Hl|].
  apply eats_then; [apply eats_char|].
  apply eats_then; [apply eats_group, eats_plus, Hc|].
  apply eats_then; [apply eats_char|].
  apply eats_then; [apply eats_char|].
  apply eats_then;
    [apply eats_plus; split; [discriminate|repeat constructor]|].
  apply eats_then.
  { apply eats_group. destruct Hsev as [-> | ->];
      [apply eats_alt_l|apply eats_alt_r]; apply eats_lit. }
  apply eats_then;
    [apply eats_plus; split; [discriminate|repeat constructor]|].
  apply eats_then.
  { apply eats_group. cbn [rcat].
    apply eats_seq; [apply eats_lit|].
    rewrite <- (app_nil_r n). apply eats_seq; [apply eats_plus, Hn|].
    apply eats_empty. }
  apply eats_then; [apply eats_char|].
  apply eats_then;
    [apply eats_plus; split; [discriminate|repeat constructor]|].
  apply eats_then; [apply eats_group, eats_plus, one_line_dots, Hmsg|].
  apply eats_end.
Qed.

Lemma tsc_line_cons :
  line = file ++ 40%N :: l ++ 44%N :: c ++ 41%N :: 58%N :: 32%N :: sev
         ++ 32%N :: 84%N :: 83%N :: n ++ 58%N :: 32%N :: msg.
Proof. reflexivity. Qed.

Lemma tsc_line_match_unique m :
  rsem TscRunner.regex (MState None line []) m ->
  rest m = []
  /\ group_text 1 m = file /\ group_text 2 m = l /\ group_text 3 m = c
  /\ group_text 4 m = sev /\ group_text 5 m = str "TS" ++ n
  /\ group_text 6 m = msg.
Proof.
  unfold TscRunner.regex. cbn [rcat]. intros H.
  apply rsem_seq_inv in H. destruct H as (s1 & Hb & H).
  apply ServersFacts.rsem_bol_inv in Hb. destruct Hb as [-> _].
  apply (seq_group (@texts_plus true dot)) in H;
    [|ShapeFacts.not_in_rest].
  destruct H as (w1 & s2 & P1 & E1 & G1 & H). cbn [rest] in E1.
  apply (seq_piece (@texts_char 40%N)) in H.
  destruct H as (x2 & s3 & -> & E2 & H).
  apply (seq_group (@texts_plus true is_digit)) in H;
    [|ShapeFacts.not_in_rest].
  destruct H as (w2 & s4 & P2 & E3 & G2 & H).
  apply (seq_piece (@texts_char 44%N)) in H.
  destruct H as (x4 & s5 & -> & E4 & H).
  apply (seq_group (@texts_plus true is_digit)) in H;
    [|ShapeFacts.not_in_rest].
  destruct H as (w3 & s6 & P3 & E5 & G3 & H).
  apply (seq_piece (@texts_char 41%N)) in H.
  destruct H as (x6 & s7 & -> & E6 & H).
  apply (seq_piece (@texts_char 58%N)) in H.
  destruct H as (x7 & s8 & -> & E7 & H).
  apply (seq_piece (@texts_plus true is_space)) in H.
  destruct H as (ws1 & s9 & Q1 & E8 & H).
  apply (seq_group (@texts_alt _ _ _ _ (@texts_lit (str "error"))
                              (@texts_lit (str "warning")))) in H;
    [|ShapeFacts.not_in_rest].
  destruct H as (w4 & s10 & P4 & E9 & G4 & H).
  apply (seq_piece (@texts_plus true is_space)) in H.
  destruct H as (ws2 & s11 & Q2 & E10 & H).
  apply (seq_group (@texts_seq _ _ _ _ (@texts_lit (str "TS"))
                      (@texts_seq _ _ _ _ (@texts_plus true is_digit)
                                  texts_empty)))
    in H; [|ShapeFacts.not_in_rest].
  destruct H as (w5 & s12 & (u5 & v5 & -> & -> & d5 & e5 & -> & P5 & ->)
                 & E11 & G5 & H).
  apply (seq_piece (@texts_char 58%N)) in H.
  destruct H as (x12 & s13 & -> & E12 & H).
  apply (seq_piece (@texts_plus true is_space)) in H.
  destruct H as (ws3 & s14 & Q3 & E13 & H).
  apply (seq_group (@texts_plus true dot)) in H;
    [|ShapeFacts.not_in_rest].
  destruct H as (w6 & s15 & P6 & E14 & G6 & H).
  pose proof tsc_line_cons as L0.
  (* the file *)
  rewrite E1, E2 in L0. cbn [app] in L0.
  apply cut_at in L0; [|exact Hfile'|].
  2:{ apply without_app; [apply (without_class is_digit); [reflexivity|apply Hl]|].
      constructor; [discriminate|].
      apply without_app; [apply (without_class is_digit); [reflexivity|apply Hc]|].
      do 3 (constructor; [discriminate|]).
      apply without_app; [apply (without_class is_lower); [reflexivity|apply sev_lower]|].
      do 3 (constructor; [discriminate|]).
      apply without_app; [apply (without_class is_digit); [reflexivity|apply Hn]|].
      do 2 (constructor; [discriminate|]). exact Hmsg'. }
  destruct L0 as [-> L0].
  (* the line *)
  rewrite E3, E4 in L0. cbn [app] in L0.
  apply (@span_unique is_digit) in L0;
    [|apply P2|apply Hl|reflexivity|reflexivity].
  destruct L0 as [-> L0]. injection L0 as L0.
  (* the column *)
  rewrite E5, E6, E7 in L0. cbn [app] in L0.
  apply (@span_unique is_digit) in L0;
    [|apply P3|apply Hc|reflexivity|reflexivity].
  destruct L0 as [-> L0]. injection L0 as L0.
  (* the severity *)
  rewrite E8 in L0.
  apply (@one_of is_space) in L0; [|exact Q1|].
  2:{ destruct Hsev as [-> | ->]; reflexivity. }
  destruct L0 as [-> L0].
  rewrite E9, E10 in L0.
  apply (@span_unique is_lower) in L0; [| |apply sev_lower| |reflexivity].
  2:{ destruct P4 as [-> | ->]; repeat constructor. }
  2:{ destruct Q2 as [N2 F2]. destruct ws2 as [|x ws2]; [congruence|].
      inversion F2; subst. cbn. apply space_not_lower. assumption. }
  destruct L0 as [-> L0].
  apply (@one_of is_space) in L0; [|exact Q2|reflexivity].
  destruct L0 as [-> L0].
  (* the code *)
  rewrite E11, E12 in L0. rewrite app_nil_r in L0, G5.
  cbn [app] in L0. change (str "TS" ++ d5) with (84%N :: 83%N :: d5) in L0.
  cbn [app] in L0. injection L0 as L0.
  apply (@span_unique is_digit) in L0;
    [|apply P5|apply Hn|reflexivity|reflexivity].
  destruct L0 as [-> L0]. injection L0 as L0.
  (* the message *)
  rewrite E13 in L0.
  apply (@one_of is_space) in L0; [|exact Q3|exact Hmsg''].
  destruct L0 as [-> L0].
  rewrite E14 in L0.
  destruct (@at_the_end true s15 m w6 H) as [R15 ->].
  { rewrite L0. apply Hmsg. }
  rewrite R15, app_nil_r in L0. subst w6.
  repeat (split; [assumption|]). assumption.
Qed.


Lemma digits_number w : digits w -> parseInt10 w = of_Z (digits_value w).
Proof.
  intros [N F]. destruct w as [|x w]; [congruence|].
  apply ShapeFacts.parseInt10_digits, F.
Qed.

Lemma tsc_line_parsed :
  exec_all TscRunner.regex line <> []
  /\ map TscRunner.diagnostic_of_match (exec_all TscRunner.regex line)
     = [ {| TscRunner.file := file;
            TscRunner.line := of_Z (digits_value l);
            TscRunner.column := of_Z (digits_value c);
            TscRunner.code := str "TS" ++ n;
            TscRunner.message := msg;
            TscRunner.severity := sev |} ].
Proof.
  destruct (@exec_all_one TscRunner.regex line
              (proj1 FuelFacts.patterns_consume)) as (y & E & Hy).
  - unfold tsc_line. destruct Hfile as [N _].
    destruct file; [congruence|discriminate].
  - exact tsc_line_matches.
  - intros y Hy. apply (tsc_line_match_unique Hy).
  - rewrite E. split; [discriminate|].
    destruct (tsc_line_match_unique Hy) as (_ & G1 & G2 & G3 & G4 & G5 & G6).
    cbn [map]. unfold TscRunner.diagnostic_of_match.
    rewrite G1, G2, G3, G4, G5, G6.
    rewrite (digits_number Hl), (digits_number Hc). reflexivity.
Qed.

End Line.

End TscComplete.

(** X18: a line of [tsc] output that is a file name without an opening
    parenthesis, a line and a column in parentheses, [error] or
    [warning], a code [TS] with digits and a message that begins with
    no space and has no opening parenthesis, is parsed by
    [parseTscOutput] into exactly one diagnostic, which holds these
    fields: the line and the column as the Numbers for the integers the
    digits write, rounded to the format when they are long.  The result
    is a success exactly when the line is a warning. *)
Theorem a_tsc_line_is_parsed_to_its_fields :
  forall file l c sev n msg : jsstr,
    Shapes.one_line file -> Forms.without 40%N file ->
    Shapes.digits l -> Shapes.digits c ->
    sev = str "error" \/ sev = str "warning" ->
    Shapes.digits n ->
    Shapes.one_line msg -> Forms.without 40%N msg ->
    Forms.stops is_space msg ->
    let r := TscRunner.parseTscOutput (Forms.tsc_line file l c sev n msg) in
    TscRunner.diagnostics r
    = [ {| TscRunner.file := file;
           TscRunner.line := of_Z (digits_value l);
           TscRunner.column := of_Z (digits_value c);
           TscRunner.code := str "TS" ++ n;
           TscRunner.message := msg;
           TscRunner.severity := sev |} ]
    /\ (TscRunner.success r = true <-> sev = str "warning").
Proof.
  intros file l c sev n msg H1 H2 H3 H4 H5 H6 H7 H8 H9 r.
  destruct (@TscComplete.tsc_line_parsed file l c sev n msg H1 H2 H3 H4 H5 H6 H7 H8 H9)
    as [_ E].
  subst r. unfold TscRunner.parseTscOutput.
  cbn [TscRunner.diagnostics TscRunner.success]. rewrite E.
  split; [reflexivity|].
  cbn [filter TscRunner.severity].
  destruct H5 as [-> | ->]; cbn; split; intros H; try reflexivity;
    discriminate H.
Qed.

Lemma a_tsc_line_is_parsed_to_its_fields_witness :
  TscRunner.diagnostics
    (TscRunner.parseTscOutput
       (str "src/index.ts(10,5): error TS2345: Type mismatch."))
  = [ {| TscRunner.file := str "src/index.ts";
         TscRunner.line := of_Z 10;
         TscRunner.column := of_Z 5;
         TscRunner.code := str "TS2345";
         TscRunner.message := str "Type mismatch.";
         TscRunner.severity := str "error" |} ].
Proof.
  assert (A1 : Shapes.one_line (str "src/index.ts"))
    by (split; [discriminate|repeat constructor]).
  assert (A2 : Forms.without 40%N (str "src/index.ts"))
    by (repeat constructor; discriminate).
  assert (A3 : Shapes.digits (str "10"))
    by (split; [discriminate|repeat constructor]).
  assert (A4 : Shapes.digits (str "5"))
    by (split; [discriminate|repeat constructor]).
  assert (A5 : str "error" = str "error" \/ str "error" = str "warning")
    by (left; reflexivity).
  assert (A6 : Shapes.digits (str "2345"))
    by (split; [discriminate|repeat constructor]).
  assert (A7 : Shapes.one_line (str "Type mismatch."))
    by (split; [discriminate|repeat constructor]).
  assert (A8 : Forms.without 40%N (str "Type mismatch."))
    by (repeat constructor; discriminate).
  assert (A9 : Forms.stops is_space (str "Type mismatch."))
    by reflexivity.
  exact (proj1 (@a_tsc_line_is_parsed_to_its_fields
                  _ _ _ _ _ _ A1 A2 A3 A4 A5 A6 A7 A8 A9)).
Defined.

Module GoComplete.
Import Forms Shapes CompleteFacts.

Lemma occurrences_app x (a b : jsstr) :
  occurrences x (a ++ b) = occurrences x a + occurrences x b.
Proof. unfold occurrences. rewrite filter_app, length_app. reflexivity. Qed.

Lemma occurrences_same x (w : jsstr) :
  occurrences x (x :: w) = S (occurrences x w).
Proof. unfold occurrences. cbn. rewrite N.eqb_refl. reflexivity. Qed.

Lemma occurrences_none x (w : jsstr) :
  occurrences x w = 0 <-> without x w.
Proof.
  unfold occurrences, without. induction w as [|y w IH]; cbn.
  - split; [constructor|reflexivity].
  - destruct (N.eqb_spec x y) as [->|N]; cbn.
    + split; [discriminate|]. intros F. inversion F; subst. congruence.
    + rewrite IH. split.
      * intros F. constructor; [congruence|exact F].
      * intros F. inversion F; subst. assumption.
Qed.

Lemma digits_no_colon w : digits w -> without 58%N w.
Proof.
  intros [_ F]. apply (without_class is_digit); [reflexivity|exact F].
Qed.

Section Line.
Variables stem l c msg : jsstr.
Hypothesis Hstem : one_line stem.
Hypothesis Hstem' : without 58%N stem.
Hypothesis Hl : digits l.
Hypothesis Hc : digits c.
Hypothesis Hmsg : one_line msg.
Hypothesis Hmsg' : without 58%N msg.
Hypothesis Hmsg'' : stops is_space msg.

Local Abbreviation line := (go_line stem l c msg).

Lemma go_line_parts :
  line = (stem ++ str ".go" ++ []) ++ [58%N] ++ l ++ [58%N] ++ c ++ [58%N]
         ++ [32%N] ++ msg ++ [].
Proof.
  unfold go_line. rewrite !app_nil_r. rewrite <- !app_assoc. reflexivity.
Qed.

Lemma go_line_cons :
  line = (stem ++ str ".go") ++ 58%N :: l ++ 58%N :: c ++ 58%N :: 32%N :: msg.
Proof. unfold go_line. rewrite <- !app_assoc. reflexivity. Qed.

Lemma go_line_matches :
  exists m, rsem GoRunner.regex (MState None line []) m.
Proof.
  rewrite go_line_parts. unfold GoRunner.regex. cbn [rcat].
  apply anchored.
  apply eats_then.
  { apply eats_group. apply eats_seq.
    - apply eats_plus, TscComplete.one_line_dots, Hstem.
    - apply eats_seq; [apply eats_lit|apply eats_empty]. }
  apply eats_then; [apply eats_char|].
  apply eats_then; [apply eats_group, eats_plus, Hl|].
  apply eats_then; [apply eats_char|].
  apply eats_then; [apply eats_group, eats_plus, Hc|].
  apply eats_then; [apply eats_char|].
  apply eats_then;
    [apply eats_plus; split; [discriminate|repeat constructor]|].
  apply eats_then;
    [apply eats_group, eats_plus, TscComplete.one_line_dots, Hmsg|].
  apply eats_end.
Qed.

Lemma go_colons : occurrences 58%N line = 3.
Proof.
  rewrite go_line_cons.
  repeat (rewrite ?occurrences_app, ?occurrences_same).
  rewrite (proj2 (occurrences_none 58%N stem) Hstem').
  rewrite (proj2 (occurrences_none 58%N l) (digits_no_colon Hl)).
  rewrite (proj2 (occurrences_none 58%N c) (digits_no_colon Hc)).
  assert (M : occurrences 58%N (32%N :: msg) = 0).
  { apply occurrences_none. constructor; [discriminate|exact Hmsg']. }
  rewrite M. reflexivity.
Qed.

Lemma go_line_match_unique m :
  rsem GoRunner.regex (MState None line []) m ->
  rest m = []
  /\ group_text 1 m = stem ++ str ".go"
  /\ group_text 2 m = l /\ group_text 3 m = c /\ group_text 4 m = msg.
Proof.
  unfold GoRunner.regex. cbn [rcat]. intros H.
  apply rsem_seq_inv in H. destruct H as (s1 & Hb & H).
  apply ServersFacts.rsem_bol_inv in Hb. destruct Hb as [-> _].
  apply (seq_group (@texts_seq _ _ _ _ (@texts_plus false dot)
                      (@texts_seq _ _ _ _ (@texts_lit (str ".go"))
                                  texts_empty))) in H;
    [|ShapeFacts.not_in_rest].
  destruct H as (w1 & s2 & (u1 & v1 & -> & P1 & x1 & e1 & -> & -> & ->)
                 & E1 & G1 & H).
  cbn [rest] in E1. rewrite app_nil_r in E1, G1.
  apply (seq_piece (@texts_char 58%N)) in H.
  destruct H as (x2 & s3 & -> & E2 & H).
  apply (seq_group (@texts_plus true is_digit)) in H;
    [|ShapeFacts.not_in_rest].
  destruct H as (w2 & s4 & P2 & E3 & G2 & H).
  apply (seq_piece (@texts_char 58%N)) in H.
  destruct H as (x4 & s5 & -> & E4 & H).
  apply (seq_group (@texts_plus true is_digit)) in H;
    [|ShapeFacts.not_in_rest].
  destruct H as (w3 & s6 & P3 & E5 & G3 & H).
  apply (seq_piece (@texts_char 58%N)) in H.
  destruct H as (x6 & s7 & -> & E6 & H).
  apply (seq_piece (@texts_plus true is_space)) in H.
  destruct H as (ws & s8 & Q & E7 & H).
  apply (seq_group (@texts_plus true dot)) in H;
    [|ShapeFacts.not_in_rest].
  destruct H as (w4 & s9 & P4 & E8 & G4 & H).
  (* the three go_colons of the line are the three of the pattern *)
  pose proof go_colons as K.
  rewrite E1, E2, E3, E4, E5, E6 in K. cbn [app] in K.
  rewrite (occurrences_app 58%N (u1 ++ str ".go")) in K.
  rewrite occurrences_same in K.
  rewrite (occurrences_app 58%N w2), occurrences_same in K.
  rewrite (occurrences_app 58%N w3), occurrences_same in K.
  assert (K1 : occurrences 58%N (u1 ++ str ".go") = 0) by lia.
  apply occurrences_none in K1.
  pose proof go_line_cons as L0.
  rewrite E1, E2 in L0. cbn [app] in L0.
  apply (@span_unique (fun x => negb (N.eqb x 58))) in L0.
  2:{ eapply Forall_impl; [|exact K1]. intros x Hx.
      apply negb_true_iff, N.eqb_neq, Hx. }
  2:{ apply Forall_app. split.
      - eapply Forall_impl; [|exact Hstem']. intros x Hx.
        apply negb_true_iff, N.eqb_neq, Hx.
      - repeat constructor. }
  2:{ reflexivity. }
  2:{ reflexivity. }
  destruct L0 as [L1 L0]. apply app_inv_tail in L1. subst u1.
  injection L0 as L0.
  rewrite E3, E4 in L0. cbn [app] in L0.
  apply (@span_unique is_digit) in L0;
    [|apply P2|apply Hl|reflexivity|reflexivity].
  destruct L0 as [-> L0]. injection L0 as L0.
  rewrite E5, E6 in L0. cbn [app] in L0.
  apply (@span_unique is_digit) in L0;
    [|apply P3|apply Hc|reflexivity|reflexivity].
  destruct L0 as [-> L0]. injection L0 as L0.
  rewrite E7 in L0.
  apply (@one_of is_space) in L0; [|exact Q|exact Hmsg''].
  destruct L0 as [-> L0].
  rewrite E8 in L0.
  destruct (@at_the_end true s9 m w4 H) as [R9 ->].
  { rewrite L0. apply Hmsg. }
  rewrite R9, app_nil_r in L0. subst w4.
  repeat (split; [assumption|]). assumption.
Qed.

Lemma go_line_parsed :
  map GoRunner.diagnostic_of_match (exec_all GoRunner.regex line)
  = [ {| GoRunner.file := stem ++ str ".go";
         GoRunner.line := of_Z (digits_value l);
         GoRunner.column := of_Z (digits_value c);
         GoRunner.message := msg;
         GoRunner.severity := str "warning" |} ].
Proof.
  destruct (@exec_all_one GoRunner.regex line
              (proj1 (proj2 FuelFacts.patterns_consume))) as (y & E & Hy).
  - unfold go_line. destruct Hstem as [N _].
    destruct stem; [congruence|discriminate].
  - exact go_line_matches.
  - intros y Hy. apply (go_line_match_unique Hy).
  - rewrite E.
    destruct (go_line_match_unique Hy) as (_ & G1 & G2 & G3 & G4).
    cbn [map]. unfold GoRunner.diagnostic_of_match.
    rewrite G1, G2, G3, G4.
    rewrite (TscComplete.digits_number Hl), (TscComplete.digits_number Hc).
    reflexivity.
Qed.

End Line.

End GoComplete.

(** X19: a line of [go vet] output that is a file name ending in
    [.go], a line, a column and a message, separated by colons, where
    neither the file name nor the message holds a colon and the message
    begins with no space, is parsed by [parseGoOutput] into exactly one
    diagnostic, a warning that holds these fields, the line and the
    column as the Numbers for the integers the digits write, rounded to
    the format when they are long; the result counts one warning and is
    not a success. *)
Theorem a_go_vet_line_is_parsed_to_its_fields :
  forall stem l c msg : jsstr,
    Shapes.one_line stem -> Forms.without 58%N stem ->
    Shapes.digits l -> Shapes.digits c ->
    Shapes.one_line msg -> Forms.without 58%N msg ->
    Forms.stops is_space msg ->
    GoRunner.parseGoOutput (Forms.go_line stem l c msg)
    = {| GoRunner.success := false;
         GoRunner.diagnostics :=
           [ {| GoRunner.file := stem ++ str ".go";
                GoRunner.line := of_Z (digits_value l);
                GoRunner.column := of_Z (digits_value c);
                GoRunner.message := msg;
                GoRunner.severity := str "warning" |} ];
         GoRunner.errorCount := 0;
         GoRunner.warningCount := 1;
         GoRunner.skipped := None |}.
Proof.
  intros stem l c msg H1 H2 H3 H4 H5 H6 H7.
  unfold GoRunner.parseGoOutput.
  rewrite (@GoComplete.go_line_parsed stem l c msg H1 H2 H3 H4 H5 H6 H7).
  reflexivity.
Qed.

Lemma a_go_vet_line_is_parsed_to_its_fields_witness :
  GoRunner.diagnostics
    (GoRunner.parseGoOutput
       (str "pkg/util.go:25:12: result of fmt.Sprintf call not used"))
  = [ {| GoRunner.file := str "pkg/util.go";
         GoRunner.line := of_Z 25;
         GoRunner.column := of_Z 12;
         GoRunner.message := str "result of fmt.Sprintf call not used";
         GoRunner.severity := str "warning" |} ].
Proof.
  assert (A1 : Shapes.one_line (str "pkg/util"))
    by (split; [discriminate|repeat constructor]).
  assert (A2 : Forms.without 58%N (str "pkg/util"))
    by (repeat constructor; discriminate).
  assert (A3 : Shapes.digits (str "25"))
    by (split; [discriminate|repeat constructor]).
  assert (A4 : Shapes.digits (str "12"))
    by (split; [discriminate|repeat constructor]).
  assert (A5 : Shapes.one_line (str "result of fmt.Sprintf call not used"))
    by (split; [discriminate|repeat constructor]).
  assert (A6 : Forms.without 58%N (str "result of fmt.Sprintf call not used"))
    by (repeat constructor; discriminate).
  assert (A7 : Forms.stops is_space (str "result of fmt.Sprintf call not used"))
    by reflexivity.
  pose proof (@a_go_vet_line_is_parsed_to_its_fields
                _ _ _ _ A1 A2 A3 A4 A5 A6 A7) as P.
  apply (f_equal GoRunner.diagnostics) in P. exact P.
Defined.

Module PylintComplete.
Import Forms Shapes CompleteFacts.

Lemma texts_class p :
  texts (RClass p) (fun w => exists x, w = [x] /\ p x = true).
Proof.
  intros s s' H. apply ServersFacts.rsem_class_inv in H.
  destruct H as (x & t & R & P & ->). exists [x].
  split; [exact R|]. exists x. split; [reflexivity|exact P].
Qed.

Section Line.
Variables stem l c : jsstr.
Variable letter : cu.
Variables n msg : jsstr.
Hypothesis Hstem : one_line stem.
Hypothesis Hstem' : without 58%N stem.
Hypothesis Hl : digits l.
Hypothesis Hc : digits c.
Hypothesis Hletter : is_upper letter = true.
Hypothesis Hn : digits n.
Hypothesis Hmsg : one_line msg.
Hypothesis Hmsg' : without 58%N msg.

Local Abbreviation line := (pylint_line stem l c letter n msg).

Lemma pylint_line_parts :
  line = (stem ++ str ".py" ++ []) ++ [58%N] ++ l ++ [58%N] ++ c ++ [58%N]
         ++ [32%N] ++ ([letter] ++ n ++ []) ++ [58%N] ++ [32%N] ++ msg ++ [].
Proof.
  unfold pylint_line. rewrite !app_nil_r. rewrite <- !app_assoc. reflexivity.
Qed.

Lemma pylint_line_cons :
  line = (stem ++ str ".py") ++ 58%N :: l ++ 58%N :: c ++ 58%N :: 32%N
         :: letter :: n ++ 58%N :: 32%N :: msg.
Proof. unfold pylint_line. rewrite <- !app_assoc. reflexivity. Qed.

Lemma pylint_line_matches :
  exists m, rsem PythonRunner.pylint_regex (MState None line []) m.
Proof.
  rewrite pylint_line_parts.
  unfold PythonRunner.pylint_regex, PythonRunner.py_file. cbn [rcat].
  apply anchored.
  apply eats_then.
  { apply eats_group. apply eats_seq.
    - apply eats_plus, TscComplete.one_line_dots, Hstem.
    - apply eats_seq; [apply eats_lit|apply eats_empty]. }
  apply eats_then; [apply eats_char|].
  apply eats_then; [apply eats_group, eats_plus, Hl|].
  apply eats_then; [apply eats_char|].
  apply eats_then; [apply eats_group, eats_plus, Hc|].
  apply eats_then; [apply eats_char|].
  apply eats_then; [apply eats_char|].
  apply eats_then.
  { apply eats_group. apply eats_seq; [apply eats_class, Hletter|].
    apply eats_seq; [apply eats_plus, Hn|apply eats_empty]. }
  apply eats_then; [apply eats_char|].
  apply eats_then; [apply eats_char|].
  apply eats_then;
    [apply eats_group, eats_plus, TscComplete.one_line_dots, Hmsg|].
  apply eats_end.
Qed.

Lemma upper_no_colon : letter <> 58%N.
Proof. intros ->. discriminate Hletter. Qed.

Lemma pylint_colons : occurrences 58%N line = 4.
Proof.
  rewrite pylint_line_cons.
  repeat (rewrite ?GoComplete.occurrences_app, ?GoComplete.occurrences_same).
  rewrite (proj2 (GoComplete.occurrences_none 58%N stem) Hstem').
  rewrite (proj2 (GoComplete.occurrences_none 58%N l)
             (GoComplete.digits_no_colon Hl)).
  rewrite (proj2 (GoComplete.occurrences_none 58%N c)
             (GoComplete.digits_no_colon Hc)).
  assert (M1 : occurrences 58%N (32%N :: letter :: n) = 0).
  { apply GoComplete.occurrences_none.
    constructor; [discriminate|]. constructor; [apply upper_no_colon|].
    apply (GoComplete.digits_no_colon Hn). }
  assert (M2 : occurrences 58%N (32%N :: msg) = 0).
  { apply GoComplete.occurrences_none.
    constructor; [discriminate|exact Hmsg']. }
  change (32%N :: letter :: n ++ 58%N :: 32%N :: msg)
    with ((32%N :: letter :: n) ++ 58%N :: 32%N :: msg).
  repeat (rewrite ?GoComplete.occurrences_app, ?GoComplete.occurrences_same).
  rewrite M1, M2. reflexivity.
Qed.

Lemma pylint_line_match_unique m :
  rsem PythonRunner.pylint_regex (MState None line []) m ->
  rest m = []
  /\ group_text 1 m = stem ++ str ".py"
  /\ group_text 2 m = l /\ group_text 3 m = c
  /\ group_text 4 m = letter :: n /\ group_text 5 m = msg.
Proof.
  unfold PythonRunner.pylint_regex, PythonRunner.py_file. cbn [rcat].
  intros H.
  apply rsem_seq_inv in H. destruct H as (s1 & Hb & H).
  apply ServersFacts.rsem_bol_inv in Hb. destruct Hb as [-> _].
  apply (seq_group (@texts_seq _ _ _ _ (@texts_plus false dot)
                      (@texts_seq _ _ _ _ (@texts_lit (str ".py"))
                                  texts_empty))) in H;
    [|ShapeFacts.not_in_rest].
  destruct H as (w1 & s2 & (u1 & v1 & -> & P1 & x1 & e1 & -> & -> & ->)
                 & E1 & G1 & H).
  cbn [rest] in E1. rewrite app_nil_r in E1, G1.
  apply (seq_piece (@texts_char 58%N)) in H.
  destruct H as (x2 & s3 & -> & E2 & H).
  apply (seq_group (@texts_plus true is_digit)) in H;
    [|ShapeFacts.not_in_rest].
  destruct H as (w2 & s4 & P2 & E3 & G2 & H).
  apply (seq_piece (@texts_char 58%N)) in H.
  destruct H as (x4 & s5 & -> & E4 & H).
  apply (seq_group (@texts_plus true is_digit)) in H;
    [|ShapeFacts.not_in_rest].
  destruct H as (w3 & s6 & P3 & E5 & G3 & H).
  apply (seq_piece (@texts_char 58%N)) in H.
  destruct H as (x6 & s7 & -> & E6 & H).
  apply (seq_piece (@texts_char 32%N)) in H.
  destruct H as (x7 & s8 & -> & E7 & H).
  apply (seq_group (@texts_seq _ _ _ _ (@texts_class is_upper)
                      (@texts_seq _ _ _ _ (@texts_plus true is_digit)
                                  texts_empty))) in H;
    [|ShapeFacts.not_in_rest].
  destruct H as (w4 & s9 & (u4 & v4 & -> & (k & -> & Pk) & d4 & e4 & -> & P4 & ->)
                 & E8 & G4 & H).
  rewrite app_nil_r in E8, G4. cbn [app] in E8, G4.
  apply (seq_piece (@texts_char 58%N)) in H.
  destruct H as (x9 & s10 & -> & E9 & H).
  apply (seq_piece (@texts_char 32%N)) in H.
  destruct H as (x10 & s11 & -> & E10 & H).
  apply (seq_group (@texts_plus true dot)) in H;
    [|ShapeFacts.not_in_rest].
  destruct H as (w5 & s12 & P5 & E11 & G5 & H).
  (* the first colon of the line is the first of the pattern *)
  pose proof pylint_colons as K.
  rewrite E1, E2, E3, E4, E5, E6, E7, E8, E9 in K. cbn [app] in K.
  rewrite (GoComplete.occurrences_app 58%N (u1 ++ str ".py")) in K.
  rewrite GoComplete.occurrences_same in K.
  rewrite (GoComplete.occurrences_app 58%N w2),
    GoComplete.occurrences_same in K.
  rewrite (GoComplete.occurrences_app 58%N w3),
    GoComplete.occurrences_same in K.
  change (32%N :: k :: d4 ++ 58%N :: rest s10)
    with ((32%N :: k :: d4) ++ 58%N :: rest s10) in K.
  rewrite (GoComplete.occurrences_app 58%N (32%N :: k :: d4)),
    GoComplete.occurrences_same in K.
  assert (K1 : occurrences 58%N (u1 ++ str ".py") = 0) by lia.
  apply GoComplete.occurrences_none in K1.
  pose proof pylint_line_cons as L0.
  rewrite E1, E2 in L0. cbn [app] in L0.
  apply (@span_unique (fun x => negb (N.eqb x 58))) in L0.
  2:{ eapply Forall_impl; [|exact K1]. intros x Hx.
      apply negb_true_iff, N.eqb_neq, Hx. }
  2:{ apply Forall_app. split.
      - eapply Forall_impl; [|exact Hstem']. intros x Hx.
        apply negb_true_iff, N.eqb_neq, Hx.
      - repeat constructor. }
  2:{ reflexivity. }
  2:{ reflexivity. }
  destruct L0 as [L1 L0]. apply app_inv_tail in L1. subst u1.
  injection L0 as L0.
  rewrite E3, E4 in L0. cbn [app] in L0.
  apply (@span_unique is_digit) in L0;
    [|apply P2|apply Hl|reflexivity|reflexivity].
  destruct L0 as [-> L0]. injection L0 as L0.
  rewrite E5, E6, E7 in L0. cbn [app] in L0.
  apply (@span_unique is_digit) in L0;
    [|apply P3|apply Hc|reflexivity|reflexivity].
  destruct L0 as [-> L0]. injection L0 as L0.
  rewrite E8, E9, E10 in L0. cbn [app] in L0.
  injection L0 as -> L0.
  apply (@span_unique is_digit) in L0;
    [|apply P4|apply Hn|reflexivity|reflexivity].
  destruct L0 as [-> L0]. injection L0 as L0.
  rewrite E11 in L0.
  destruct (@at_the_end true s12 m w5 H) as [R12 ->].
  { rewrite L0. apply Hmsg. }
  rewrite R12, app_nil_r in L0. subst w5.
  repeat (split; [assumption|]). assumption.
Qed.

Lemma pylint_line_parsed :
  map PythonRunner.pylint_diagnostic (exec_all PythonRunner.pylint_regex line)
  = [ {| PythonRunner.file := stem ++ str ".py";
         PythonRunner.line := of_Z (digits_value l);
         PythonRunner.column := of_Z (digits_value c);
         PythonRunner.code := letter :: n;
         PythonRunner.message := msg;
         PythonRunner.severity :=
           if N.eqb letter 69 || N.eqb letter 70
           then str "error" else str "warning" |} ].
Proof.
  destruct (@exec_all_one PythonRunner.pylint_regex line
              (proj2 (proj2 (proj2 FuelFacts.patterns_consume))))
    as (y & E & Hy).
  - unfold pylint_line. destruct Hstem as [N _].
    destruct stem; [congruence|discriminate].
  - exact pylint_line_matches.
  - intros y Hy. apply (pylint_line_match_unique Hy).
  - rewrite E.
    destruct (pylint_line_match_unique Hy) as (_ & G1 & G2 & G3 & G4 & G5).
    cbn [map]. unfold PythonRunner.pylint_diagnostic.
    rewrite G1, G2, G3, G4, G5.
    rewrite (TscComplete.digits_number Hl), (TscComplete.digits_number Hc).
    reflexivity.
Qed.

End Line.

End PylintComplete.

(** X20: a line of [pylint] output that is a file name ending in
    [.py], a line, a column, a code of one upper-case letter and digits,
    and a message, where neither the file name nor the message holds a
    colon, is parsed by [parsePylintOutput] into exactly one diagnostic
    that holds these fields, the line and the column as the Numbers for
    the integers the digits write, rounded to the format when they are
    long; it is an error when the letter of the code is [E] or [F] and a
    warning for every other letter. *)
Theorem a_pylint_line_is_parsed_to_its_fields :
  forall (stem l c : jsstr) (letter : cu) (n msg : jsstr),
    Shapes.one_line stem -> Forms.without 58%N stem ->
    Shapes.digits l -> Shapes.digits c ->
    is_upper letter = true -> Shapes.digits n ->
    Shapes.one_line msg -> Forms.without 58%N msg ->
    PythonRunner.diagnostics
      (PythonRunner.parsePylintOutput
         (Forms.pylint_line stem l c letter n msg))
    = [ {| PythonRunner.file := stem ++ str ".py";
           PythonRunner.line := of_Z (digits_value l);
           PythonRunner.column := of_Z (digits_value c);
           PythonRunner.code := letter :: n;
           PythonRunner.message := msg;
           PythonRunner.severity :=
             if N.eqb letter 69 || N.eqb letter 70
             then str "error" else str "warning" |} ].
Proof.
  intros stem l c letter n msg H1 H2 H3 H4 H5 H6 H7 H8.
  unfold PythonRunner.parsePylintOutput.
  cbn [PythonRunner.diagnostics].
  apply (@PylintComplete.pylint_line_parsed stem l c letter n msg
           H1 H2 H3 H4 H5 H6 H7 H8).
Qed.

Lemma a_pylint_line_is_parsed_to_its_fields_witness :
  PythonRunner.diagnostics
    (PythonRunner.parsePylintOutput
       (str "app/main.py:10:0: C0114: Missing module docstring"))
  = [ {| PythonRunner.file := str "app/main.py";
         PythonRunner.line := of_Z 10;
         PythonRunner.column := of_Z 0;
         PythonRunner.code := str "C0114";
         PythonRunner.message := str "Missing module docstring";
         PythonRunner.severity := str "warning" |} ].
Proof.
  assert (A1 : Shapes.one_line (str "app/main"))
    by (split; [discriminate|repeat constructor]).
  assert (A2 : Forms.without 58%N (str "app/main"))
    by (repeat constructor; discriminate).
  assert (A3 : Shapes.digits (str "10"))
    by (split; [discriminate|repeat constructor]).
  assert (A4 : Shapes.digits (str "0"))
    by (split; [discriminate|repeat constructor]).
  assert (A5 : is_upper 67%N = true) by reflexivity.
  assert (A6 : Shapes.digits (str "0114"))
    by (split; [discriminate|repeat constructor]).
  assert (A7 : Shapes.one_line (str "Missing module docstring"))
    by (split; [discriminate|repeat constructor]).
  assert (A8 : Forms.without 58%N (str "Missing module docstring"))
    by (repeat constructor; discriminate).
  exact (@a_pylint_line_is_parsed_to_its_fields
           _ _ _ _ _ _ A1 A2 A3 A4 A5 A6 A7 A8).
Defined.

(* ------------------------------------------------------------------ *)
(** * The order in which the matcher tries *)

Module LazyFacts.
Import Forms CompleteFacts.

(** One step of the matcher along a sequence. *)
Lemma op_piece a R P k s y :
  texts a P ->
  rmatch (RSeq a R) k s = Some y ->
  exists w s1,
    P w /\ rest s = w ++ rest s1
    /\ (forall n, ~ In n (groups a) -> lookup n (caps s1) = lookup n (caps s))
    /\ rmatch R k s1 = Some y.
Proof.
  intros Ha H. cbn [rmatch] in H. apply rmatch_sound in H.
  destruct H as (s1 & H1 & H2). destruct (Ha _ _ H1) as (w & E & Pw).
  exists w, s1. split; [exact Pw|]. split; [exact E|].
  split; [apply (rsem_frame H1)|exact H2].
Qed.

Arguments op_piece [a R P k s y] _ _.

(** A lazy quantifier stops at the first place where what follows
    matches. *)
Lemma lazy_star p k cs t :
  (forall q', exists y, k (MState q' t cs) = Some y) ->
  forall w q,
    Forall (fun x => p x = true) w ->
    (forall w1 x w2 q',
        w = w1 ++ x :: w2 -> k (MState q' (x :: w2 ++ t) cs) = None) ->
    exists q',
      star_loop (rmatch (RClass p)) false k (length (w ++ t))
        (MState q (w ++ t) cs)
      = k (MState q' t cs).
Proof.
  intros End. set (ma := rmatch (RClass p)).
  induction w as [|x w IH]; intros q F Fail.
  - exists q. cbn [app]. destruct (End q) as (y & Ey).
    destruct (length t); cbn [star_loop]; [reflexivity|].
    rewrite Ey. reflexivity.
  - inversion F as [|? ? Hx Fw]; subst.
    cbn [app length star_loop].
    rewrite (Fail [] x w q eq_refl). cbn [orelse].
    unfold ma at 1. cbn [rmatch rest]. rewrite Hx.
    unfold advance. cbn [rest caps length].
    assert (Lt : Nat.ltb (length (w ++ t)) (S (length (w ++ t))) = true)
      by (apply Nat.ltb_lt; lia).
    rewrite Lt.
    apply (IH (Some x) Fw). intros w1 x' w2 q' E.
    apply (Fail (x :: w1) x' w2 q'). rewrite E. reflexivity.
Qed.

Lemma lazy_plus p k cs t x w q :
  (forall q', exists y, k (MState q' t cs) = Some y) ->
  Forall (fun c => p c = true) (x :: w) ->
  (forall w1 x' w2 q',
      w = w1 ++ x' :: w2 -> k (MState q' (x' :: w2 ++ t) cs) = None) ->
  exists q',
    rmatch (RPlus false (RClass p)) k (MState q ((x :: w) ++ t) cs)
    = k (MState q' t cs).
Proof.
  intros End F Fail. inversion F as [|? ? Hx Fw]; subst.
  unfold RPlus. cbn [rmatch rest app]. rewrite Hx.
  unfold advance. cbn [rest caps].
  apply (@lazy_star p k cs t End w (Some x) Fw Fail).
Qed.

(** The loop over a line that is one match to its end returns the
    match the matcher finds first. *)
Lemma exec_all_first r input :
  consuming r = true ->
  input <> [] ->
  (exists m, rsem r (MState None input []) m) ->
  (forall y, rsem r (MState None input []) y -> rest y = []) ->
  exists y,
    exec_all r input = [y] /\ rmatch r Some (MState None input []) = Some y.
Proof.
  intros C N (m & H) U.
  destruct (@rmatch_complete r _ _ H Some m eq_refl) as (y & E).
  exists y. split; [|exact E].
  assert (Hy : rsem r (MState None input []) y).
  { pose proof E as E'. apply rmatch_sound in E'.
    destruct E' as (s' & Hs & K). inversion K; subst. exact Hs. }
  unfold exec_all. destruct input as [|c t]; [congruence|].
  cbn [length exec_loop exec_from]. rewrite E. rewrite (U y Hy).
  destruct (length t); cbn [exec_loop];
    rewrite ?(@exec_from_nothing r _ C); reflexivity.
Qed.

Lemma texts_group n a P : texts a P -> texts (RGroup n a) P.
Proof.
  intros Ha s s' H. apply ShapeFacts.rsem_group_inv in H.
  destruct H as (s0 & H0 & ->). destruct (Ha _ _ H0) as (w & E & Pw).
  exists w. split; [exact E|exact Pw].
Qed.

Lemma texts_bol ml : texts (RBol ml) (fun w => w = []).
Proof.
  intros s s' H. apply ServersFacts.rsem_bol_inv in H.
  destruct H as [-> _]. exists []. split; reflexivity.
Qed.

Lemma rsem_alt_inv a b s s' :
  rsem (RAlt a b) s s' -> rsem a s s' \/ rsem b s s'.
Proof. intros H. inversion H; subst; auto. Qed.

Lemma last_app_r (a b : jsstr) d : b <> [] -> last (a ++ b) d = last b d.
Proof.
  intros N. induction a as [|x a IH]; [reflexivity|].
  cbn [app last]. destruct (a ++ b) eqn:E; [|exact IH].
  apply app_eq_nil in E. destruct E as [_ E]. congruence.
Qed.

Lemma last_forall (P : cu -> Prop) (w : jsstr) d :
  w <> [] -> Forall P w -> P (last w d).
Proof.
  intros N F. induction F as [|x w Hx F IH]; [congruence|].
  cbn [last]. destruct w as [|y w]; [exact Hx|].
  apply IH. discriminate.
Qed.

End LazyFacts.

(* ------------------------------------------------------------------ *)
(** * Lines the mypy parser reads in full *)

Module MypyComplete.
Import Forms Shapes CompleteFacts LazyFacts.

(** What the end of the pattern can match. *)
Lemma tail_cases s y :
  rsem mypy_tail s y ->
  Forall (fun x => is_line_terminator x = false) (rest s) ->
  rest y = []
  /\ ((rest s = [] /\ y = s)
      \/ exists ws c6,
           some_of is_space ws
           /\ some_of (fun c => negb (N.eqb c 93)) c6
           /\ rest s = ws ++ 91%N :: c6 ++ [93%N]
           /\ group_text 6 y = c6
           /\ forall n, n <> 6 -> lookup n (caps y) = lookup n (caps s)).
Proof.
  unfold mypy_tail, ROpt. cbn [rcat]. intros H F.
  apply rsem_seq_inv in H. destruct H as (s1 & Ho & He).
  destruct (rsem_prefix Ho) as (w & Ew).
  destruct (@at_the_end true s1 y w He) as [R1 ->].
  { rewrite <- Ew. exact F. }
  split; [exact R1|].
  apply rsem_alt_inv in Ho. destruct Ho as [Ha | Hb].
  - right. pose proof (rsem_frame Ha) as Fr.
    apply (seq_piece (@texts_plus true is_space)) in Ha.
    destruct Ha as (ws & s2 & Pws & E1 & Ha).
    apply (seq_piece (@texts_char 91%N)) in Ha.
    destruct Ha as (x2 & s3 & -> & E2 & Ha).
    apply (seq_group (@texts_plus true (fun c => negb (N.eqb c 93)))) in Ha;
      [|ShapeFacts.not_in_rest].
    destruct Ha as (c6 & s4 & P6 & E3 & G6 & Ha).
    apply (seq_piece (@texts_char 93%N)) in Ha.
    destruct Ha as (x4 & s5 & -> & E4 & Ha).
    apply ShapeFacts.rsem_empty_inv in Ha. subst s5.
    exists ws, c6.
    split; [exact Pws|]. split; [exact P6|].
    split.
    { rewrite E1, E2, E3, E4, R1. reflexivity. }
    split; [exact G6|].
    intros n Hn. apply Fr. cbn [groups app].
    intros [I | []]. apply Hn. symmetry. exact I.
  - left. apply ShapeFacts.rsem_empty_inv in Hb. subst s1.
    split; [exact R1|reflexivity].
Qed.

Section Line.
Variables stem l c sev msg ending shown : jsstr.
Hypothesis Hstem : one_line stem.
Hypothesis Hstem' : without 58%N stem.
Hypothesis Hl : digits l.
Hypothesis Hc : digits c.
Hypothesis Hsev :
  sev = str "error" \/ sev = str "warning" \/ sev = str "note".
Hypothesis Hmsg : one_line msg.
Hypothesis Hmsg' : without 58%N msg.
Hypothesis Hend : Forall (fun x => is_line_terminator x = false) ending.
Hypothesis Hend' : without 58%N ending.
Hypothesis Heats : eats_to_end mypy_tail ending.
Hypothesis Hearly :
  forall a x w s z,
    msg = a ++ x :: w -> a <> [] -> rest s = x :: w ++ ending ->
    ~ rsem mypy_tail s z.
Hypothesis Hthere :
  forall q cs z,
    lookup 6 cs = None ->
    rsem mypy_tail (MState q ending ((5, msg) :: cs)) z ->
    group_text 5 z = msg /\ or_str (group 6 z) [] = shown.

Local Abbreviation line := (mypy_text stem l c sev msg ending).

Lemma mypy_line_cons :
  line = (stem ++ str ".py") ++ 58%N :: l ++ 58%N :: c ++ 58%N :: 32%N
         :: sev ++ 58%N :: 32%N :: msg ++ ending.
Proof. unfold mypy_text. rewrite <- !app_assoc. reflexivity. Qed.

Lemma mypy_line_parts :
  line = (stem ++ str ".py" ++ []) ++ [58%N] ++ l ++ [58%N] ++ c ++ [58%N]
         ++ [32%N] ++ sev ++ [58%N] ++ [32%N] ++ msg ++ ending.
Proof.
  unfold mypy_text. rewrite !app_nil_r. rewrite <- !app_assoc. reflexivity.
Qed.

Lemma sev_eats :
  eats (RAlt (lit (str "error"))
             (RAlt (lit (str "warning")) (lit (str "note")))) sev.
Proof.
  destruct Hsev as [-> | [-> | ->]].
  - apply eats_alt_l, eats_lit.
  - apply eats_alt_r, eats_alt_l, eats_lit.
  - apply eats_alt_r, eats_alt_r, eats_lit.
Qed.

Lemma mypy_line_matches :
  exists m, rsem PythonRunner.mypy_regex (MState None line []) m.
Proof.
  rewrite mypy_line_parts.
  unfold PythonRunner.mypy_regex, PythonRunner.py_file. cbn [rcat].
  apply anchored.
  apply eats_then.
  { apply eats_group. apply eats_seq.
    - apply eats_plus, TscComplete.one_line_dots, Hstem.
    - apply eats_seq; [apply eats_lit|apply eats_empty]. }
  apply eats_then; [apply eats_char|].
  apply eats_then; [apply eats_group, eats_plus, Hl|].
  apply eats_then; [apply eats_char|].
  apply eats_then; [apply eats_group, eats_plus, Hc|].
  apply eats_then; [apply eats_char|].
  apply eats_then; [apply eats_char|].
  apply eats_then; [apply eats_group, sev_eats|].
  apply eats_then; [apply eats_char|].
  apply eats_then; [apply eats_char|].
  apply eats_then;
    [apply eats_group, eats_plus, TscComplete.one_line_dots, Hmsg|].
  apply Heats.
Qed.

Lemma sev_no_colon : without 58%N sev.
Proof.
  destruct Hsev as [-> | [-> | ->]]; repeat constructor; discriminate.
Qed.

Lemma ending_no_colon : without 58%N (32%N :: msg ++ ending).
Proof.
  constructor; [discriminate|]. apply without_app; [exact Hmsg'|exact Hend'].
Qed.

Lemma ending_one_line :
  Forall (fun x => is_line_terminator x = false) (msg ++ ending).
Proof. apply Forall_app. split; [apply Hmsg|exact Hend]. Qed.

Lemma mypy_colons : occurrences 58%N line = 4.
Proof.
  rewrite mypy_line_cons.
  repeat (rewrite ?GoComplete.occurrences_app, ?GoComplete.occurrences_same).
  rewrite (proj2 (GoComplete.occurrences_none 58%N stem) Hstem').
  rewrite (proj2 (GoComplete.occurrences_none 58%N l)
             (GoComplete.digits_no_colon Hl)).
  rewrite (proj2 (GoComplete.occurrences_none 58%N c)
             (GoComplete.digits_no_colon Hc)).
  assert (M1 : occurrences 58%N (32%N :: sev) = 0).
  { apply GoComplete.occurrences_none.
    constructor; [discriminate|apply sev_no_colon]. }
  pose proof (proj2 (GoComplete.occurrences_none 58%N _) ending_no_colon)
    as M2.
  change (32%N :: sev ++ 58%N :: 32%N :: msg ++ ending)
    with ((32%N :: sev) ++ 58%N :: 32%N :: msg ++ ending).
  repeat (rewrite ?GoComplete.occurrences_app, ?GoComplete.occurrences_same).
  rewrite M1, M2. reflexivity.
Qed.

(** The first four fields are cut at the colons. *)
Lemma mypy_prefix_unique u1 w2 w3 w4 R :
  line = (u1 ++ str ".py") ++ 58%N :: w2 ++ 58%N :: w3 ++ 58%N :: 32%N
         :: w4 ++ 58%N :: 32%N :: R ->
  some_of is_digit w2 -> some_of is_digit w3 ->
  w4 = str "error" \/ w4 = str "warning" \/ w4 = str "note" ->
  u1 = stem /\ w2 = l /\ w3 = c /\ w4 = sev /\ R = msg ++ ending.
Proof.
  intros E P2 P3 P4.
  pose proof mypy_colons as K. rewrite E in K.
  rewrite (GoComplete.occurrences_app 58%N (u1 ++ str ".py")) in K.
  rewrite GoComplete.occurrences_same in K.
  rewrite (GoComplete.occurrences_app 58%N w2),
    GoComplete.occurrences_same in K.
  rewrite (GoComplete.occurrences_app 58%N w3),
    GoComplete.occurrences_same in K.
  change (32%N :: w4 ++ 58%N :: 32%N :: R)
    with ((32%N :: w4) ++ 58%N :: 32%N :: R) in K.
  rewrite (GoComplete.occurrences_app 58%N (32%N :: w4)),
    GoComplete.occurrences_same in K.
  assert (K1 : occurrences 58%N (u1 ++ str ".py") = 0) by lia.
  apply GoComplete.occurrences_none in K1.
  pose proof mypy_line_cons as L0. rewrite E in L0.
  apply (@span_unique (fun x => negb (N.eqb x 58))) in L0.
  2:{ eapply Forall_impl; [|exact K1]. intros x Hx.
      apply negb_true_iff, N.eqb_neq, Hx. }
  2:{ apply Forall_app. split.
      - eapply Forall_impl; [|exact Hstem']. intros x Hx.
        apply negb_true_iff, N.eqb_neq, Hx.
      - repeat constructor. }
  2:{ reflexivity. }
  2:{ reflexivity. }
  destruct L0 as [L1 L0]. apply app_inv_tail in L1.
  injection L0 as L0.
  apply (@span_unique is_digit) in L0;
    [|apply P2|apply Hl|reflexivity|reflexivity].
  destruct L0 as [L2 L0]. injection L0 as L0.
  apply (@span_unique is_digit) in L0;
    [|apply P3|apply Hc|reflexivity|reflexivity].
  destruct L0 as [L3 L0]. injection L0 as L0.
  apply cut_at in L0; [|apply sev_no_colon|apply ending_no_colon].
  destruct L0 as [L4 L0]. injection L0 as L0.
  repeat (split; [assumption|]). assumption.
Qed.

(** Every match of the line reaches its end and has the first four
    fields in its groups. *)
Lemma mypy_match_shape y :
  rsem PythonRunner.mypy_regex (MState None line []) y ->
  rest y = []
  /\ group_text 1 y = stem ++ str ".py"
  /\ group_text 2 y = l /\ group_text 3 y = c /\ group_text 4 y = sev.
Proof.
  unfold PythonRunner.mypy_regex, PythonRunner.py_file. cbn [rcat].
  intros H.
  apply rsem_seq_inv in H. destruct H as (s1 & Hb & H).
  apply ServersFacts.rsem_bol_inv in Hb. destruct Hb as [-> _].
  apply (seq_group (@texts_seq _ _ _ _ (@texts_plus false dot)
                      (@texts_seq _ _ _ _ (@texts_lit (str ".py"))
                                  texts_empty))) in H;
    [|ShapeFacts.not_in_rest].
  destruct H as (w1 & s2 & (u1 & v1 & -> & P1 & x1 & e1 & -> & -> & ->)
                 & E1 & G1 & H).
  cbn [rest] in E1. rewrite app_nil_r in E1, G1.
  apply (seq_piece (@texts_char 58%N)) in H.
  destruct H as (x2 & s3 & -> & E2 & H).
  apply (seq_group (@texts_plus true is_digit)) in H;
    [|ShapeFacts.not_in_rest].
  destruct H as (w2 & s4 & P2 & E3 & G2 & H).
  apply (seq_piece (@texts_char 58%N)) in H.
  destruct H as (x4 & s5 & -> & E4 & H).
  apply (seq_group (@texts_plus true is_digit)) in H;
    [|ShapeFacts.not_in_rest].
  destruct H as (w3 & s6 & P3 & E5 & G3 & H).
  apply (seq_piece (@texts_char 58%N)) in H.
  destruct H as (x6 & s7 & -> & E6 & H).
  apply (seq_piece (@texts_char 32%N)) in H.
  destruct H as (x7 & s8 & -> & E7 & H).
  apply (seq_group (@texts_alt _ _ _ _ (@texts_lit (str "error"))
                      (@texts_alt _ _ _ _ (@texts_lit (str "warning"))
                                  (@texts_lit (str "note"))))) in H;
    [|ShapeFacts.not_in_rest].
  destruct H as (w4 & s9 & P4 & E8 & G4 & H).
  apply (seq_piece (@texts_char 58%N)) in H.
  destruct H as (x9 & s10 & -> & E9 & H).
  apply (seq_piece (@texts_char 32%N)) in H.
  destruct H as (x10 & s11 & -> & E10 & H).
  apply (seq_piece (@texts_group 5 _ _ (@texts_plus false dot))) in H.
  destruct H as (w5 & s12 & P5 & E11 & H).
  change (rsem mypy_tail s12 y) in H.
  assert (E : line = (u1 ++ str ".py") ++ 58%N :: w2 ++ 58%N :: w3
                     ++ 58%N :: 32%N :: w4 ++ 58%N :: 32%N :: rest s11).
  { rewrite E1, E2, E3, E4, E5, E6, E7, E8, E9, E10. reflexivity. }
  destruct (@mypy_prefix_unique _ _ _ _ _ E P2 P3 P4)
    as (-> & -> & -> & -> & R11).
  apply tail_cases in H.
  - destruct H as [R _].
    repeat (split; [assumption|]). assumption.
  - pose proof ending_one_line as F. rewrite <- R11, E11 in F.
    apply Forall_app in F. apply F.
Qed.

(** The match the matcher finds first ends the message where the
    ending begins. *)
Lemma mypy_first y :
  rmatch PythonRunner.mypy_regex Some (MState None line []) = Some y ->
  group_text 5 y = msg /\ or_str (group 6 y) [] = shown.
Proof.
  unfold PythonRunner.mypy_regex, PythonRunner.py_file. cbn [rcat].
  intros H.
  apply (op_piece (@texts_bol true)) in H.
  destruct H as (w0 & s1 & -> & E0 & F0 & H). cbn [rest app] in E0.
  apply (op_piece (@texts_group 1 _ _
                     (@texts_seq _ _ _ _ (@texts_plus false dot)
                        (@texts_seq _ _ _ _ (@texts_lit (str ".py"))
                                    texts_empty)))) in H.
  destruct H as (w1 & s2 & (u1 & v1 & -> & P1 & x1 & e1 & -> & -> & ->)
                 & E1 & F1 & H).
  rewrite app_nil_r in E1.
  apply (op_piece (@texts_char 58%N)) in H.
  destruct H as (x2 & s3 & -> & E2 & F2 & H).
  apply (op_piece (@texts_group 2 _ _ (@texts_plus true is_digit))) in H.
  destruct H as (w2 & s4 & P2 & E3 & F3 & H).
  apply (op_piece (@texts_char 58%N)) in H.
  destruct H as (x4 & s5 & -> & E4 & F4 & H).
  apply (op_piece (@texts_group 3 _ _ (@texts_plus true is_digit))) in H.
  destruct H as (w3 & s6 & P3 & E5 & F5 & H).
  apply (op_piece (@texts_char 58%N)) in H.
  destruct H as (x6 & s7 & -> & E6 & F6 & H).
  apply (op_piece (@texts_char 32%N)) in H.
  destruct H as (x7 & s8 & -> & E7 & F7 & H).
  apply (op_piece (@texts_group 4 _ _
                     (@texts_alt _ _ _ _ (@texts_lit (str "error"))
                        (@texts_alt _ _ _ _ (@texts_lit (str "warning"))
                                    (@texts_lit (str "note")))))) in H.
  destruct H as (w4 & s9 & P4 & E8 & F8 & H).
  apply (op_piece (@texts_char 58%N)) in H.
  destruct H as (x9 & s10 & -> & E9 & F9 & H).
  apply (op_piece (@texts_char 32%N)) in H.
  destruct H as (x10 & s11 & -> & E10 & F10 & H).
  assert (E : line = (u1 ++ str ".py") ++ 58%N :: w2 ++ 58%N :: w3
                     ++ 58%N :: 32%N :: w4 ++ 58%N :: 32%N :: rest s11).
  { rewrite E0, E1, E2, E3, E4, E5, E6, E7, E8, E9, E10. reflexivity. }
  destruct (@mypy_prefix_unique _ _ _ _ _ E P2 P3 P4) as (_ & _ & _ & _ & R11).
  assert (C6 : lookup 6 (caps s11) = None).
  { rewrite F10, F9, F8, F7, F6, F5, F4, F3, F2, F1, F0;
      [reflexivity|ShapeFacts.not_in_rest..]. }
  clear - H R11 C6 Hmsg Hearly Hthere Heats.
  destruct s11 as [q11 r11 cs11]. cbn [rest] in R11. cbn [caps] in C6.
  subst r11.
  assert (Em : exists x w, msg = x :: w).
  { destruct Hmsg as [N _]. revert N. generalize msg.
    intros [|x w] N; [congruence|eauto]. }
  destruct Em as (x & w & Em).
  pose proof (proj2 (dots_one_line msg) (proj2 Hmsg)) as Hd.
  rewrite Em in H, Hd.
  set (s11 := MState q11 ((x :: w) ++ ending) cs11) in H.
  change (rmatch (RPlus false (RClass dot))
            (fun s' => rmatch mypy_tail Some
                         (set_cap 5 (captured s11 s') s'))
            s11 = Some y) in H.
  set (K := fun s' => rmatch mypy_tail Some (set_cap 5 (captured s11 s') s'))
    in H.
  destruct (@lazy_plus dot K cs11 ending x w q11) as (q' & EL).
  - intros q'. unfold K.
    destruct (Heats q' ((5, captured s11 (MState q' ending cs11)) :: cs11))
      as (q'' & cs'' & Hr).
    apply (@rmatch_complete _ _ _ Hr Some _ eq_refl).
  - exact Hd.
  - intros w1 x' w2 q' Ew.
    destruct (K (MState q' (x' :: w2 ++ ending) cs11)) as [z|] eqn:EK;
      [exfalso|reflexivity].
    unfold K in EK. apply rmatch_sound in EK.
    destruct EK as (s' & Hs & _).
    apply (@Hearly (x :: w1) x' w2 _ _) in Hs;
      [exact Hs| |discriminate|reflexivity].
    rewrite Em, Ew. reflexivity.
  - change (rmatch (RPlus false (RClass dot)) K
              (MState q11 ((x :: w) ++ ending) cs11) = Some y) in H.
    rewrite EL in H. unfold K in H. apply rmatch_sound in H.
    destruct H as (s' & Hs & Ky). injection Ky as ->.
    assert (Ec : captured s11 (MState q' ending cs11) = msg).
    { rewrite Em. apply captured_app. reflexivity. }
    unfold set_cap in Hs. cbn [prev rest caps] in Hs. rewrite Ec in Hs.
    apply (Hthere C6 Hs).
Qed.

Lemma mypy_text_parsed :
  map PythonRunner.mypy_diagnostic
    (filter (fun m => negb (JsString.eqb (group_text 4 m) (str "note")))
       (exec_all PythonRunner.mypy_regex line))
  = if JsString.eqb sev (str "note") then []
    else [ {| PythonRunner.file := stem ++ str ".py";
              PythonRunner.line := of_Z (digits_value l);
              PythonRunner.column := of_Z (digits_value c);
              PythonRunner.severity := sev;
              PythonRunner.message := msg;
              PythonRunner.code := shown |} ].
Proof.
  destruct (@exec_all_first PythonRunner.mypy_regex line
              (proj1 (proj2 (proj2 FuelFacts.patterns_consume))))
    as (y & E & Hy).
  - unfold mypy_text. destruct Hstem as [N _].
    destruct stem; [congruence|discriminate].
  - exact mypy_line_matches.
  - intros y Hy. apply (@mypy_match_shape _ Hy).
  - rewrite E.
    assert (Hs : rsem PythonRunner.mypy_regex (MState None line []) y).
    { pose proof Hy as Hy'. apply rmatch_sound in Hy'.
      destruct Hy' as (s' & Hs & K). injection K as ->. exact Hs. }
    destruct (@mypy_match_shape _ Hs) as (_ & G1 & G2 & G3 & G4).
    destruct (@mypy_first _ Hy) as (G5 & G6).
    cbn [filter]. rewrite G4.
    assert (V : (JsString.eqb sev (str "note") = true /\ sev = str "note")
                \/ (JsString.eqb sev (str "note") = false
                    /\ (if JsString.eqb sev (str "error")
                        then str "error" else str "warning") = sev)).
    { destruct Hsev as [S | [S | S]]; rewrite S.
      - right. split; reflexivity.
      - right. split; reflexivity.
      - left. split; reflexivity. }
    destruct V as [[V _] | [V V']]; rewrite V; cbn [negb map];
      [reflexivity|].
    unfold PythonRunner.mypy_diagnostic.
    rewrite G1, G2, G3, G4, G5, G6, V'.
    rewrite (TscComplete.digits_number Hl), (TscComplete.digits_number Hc).
    reflexivity.
Qed.

End Line.

(** ** A line with a code *)

Section Coded.
Variables stem l c sev msg code : jsstr.
Hypothesis Hstem : one_line stem.
Hypothesis Hstem' : without 58%N stem.
Hypothesis Hl : digits l.
Hypothesis Hc : digits c.
Hypothesis Hsev :
  sev = str "error" \/ sev = str "warning" \/ sev = str "note".
Hypothesis Hmsg : one_line msg.
Hypothesis Hmsg' : without 58%N msg.
Hypothesis Hmsg'' : without 91%N msg.
Hypothesis Hlast : is_space (last msg 32%N) = false.
Hypothesis Hcode : one_line code.
Hypothesis Hcode' : without 58%N code.
Hypothesis Hcode'' : without 93%N code.

Local Abbreviation ending := (32%N :: 91%N :: code ++ [93%N]).

Lemma code_in_brackets : some_of (fun c => negb (N.eqb c 93)) code.
Proof.
  destruct Hcode as [N _]. split; [exact N|].
  eapply Forall_impl; [|exact Hcode'']. intros x Hx.
  apply negb_true_iff, N.eqb_neq, Hx.
Qed.

Lemma coded_eats : eats_to_end mypy_tail ending.
Proof.
  assert (E : ending = ([32%N] ++ [91%N] ++ code ++ [93%N] ++ []) ++ []).
  { rewrite !app_nil_r. reflexivity. }
  rewrite E. unfold mypy_tail, ROpt. cbn [rcat].
  apply eats_then; [|apply eats_end].
  apply eats_alt_l.
  apply eats_seq.
  { apply eats_plus. split; [discriminate|]. repeat constructor. }
  apply eats_seq; [apply eats_char|].
  apply eats_seq; [apply eats_group, eats_plus, code_in_brackets|].
  apply eats_seq; [apply eats_char|apply eats_empty].
Qed.

Lemma coded_one_line :
  Forall (fun x => is_line_terminator x = false) ending.
Proof.
  constructor; [reflexivity|]. constructor; [reflexivity|].
  apply Forall_app. split; [apply Hcode|]. repeat constructor.
Qed.

Lemma coded_no_colon : without 58%N ending.
Proof.
  constructor; [discriminate|]. constructor; [discriminate|].
  apply without_app; [exact Hcode'|]. repeat constructor. discriminate.
Qed.

Lemma space_not_bracket (ws : jsstr) :
  Forall (fun x => is_space x = true) ws ->
  Forall (fun x => negb (N.eqb x 91) = true) ws.
Proof.
  intros F. eapply Forall_impl; [|exact F]. intros x Hx.
  destruct (N.eqb_spec x 91) as [-> | N]; [discriminate Hx|reflexivity].
Qed.

(** Before the end of the message the code cannot begin: the message
    has no bracket and does not end in white space. *)
Lemma coded_early a x w s z :
  msg = a ++ x :: w -> a <> [] -> rest s = x :: w ++ ending ->
  ~ rsem mypy_tail s z.
Proof.
  intros Em Na Rs Hs.
  assert (F1 : Forall (fun x => is_line_terminator x = false) (x :: w)).
  { destruct Hmsg as [_ F]. rewrite Em in F. apply Forall_app in F.
    apply F. }
  apply tail_cases in Hs.
  2:{ rewrite Rs. change (x :: w ++ ending) with ((x :: w) ++ ending).
      apply Forall_app. split; [exact F1|apply coded_one_line]. }
  destruct Hs as (_ & [[R0 _] | (ws & c6 & Pws & P6 & ER & _)]).
  - rewrite Rs in R0. discriminate R0.
  - rewrite Rs in ER.
    assert (ER' : (x :: w ++ [32%N]) ++ 91%N :: code ++ [93%N]
                  = ws ++ 91%N :: c6 ++ [93%N]).
    { rewrite <- ER. cbn [app]. rewrite <- app_assoc. reflexivity. }
    assert (Hw : without 91%N (x :: w)).
    { pose proof Hmsg'' as Hb. rewrite Em in Hb.
      apply Forall_app in Hb. apply Hb. }
    apply (@span_unique (fun x => negb (N.eqb x 91))) in ER'.
    + destruct ER' as [<- _]. destruct Pws as [_ Pws].
      change (x :: w ++ [32%N]) with ((x :: w) ++ [32%N]) in Pws.
      apply Forall_app in Pws. destruct Pws as [Pws _].
      assert (L : is_space (last msg 32%N) = true).
      { rewrite Em. rewrite last_app_r by discriminate.
        apply (@last_forall (fun c => is_space c = true));
          [discriminate|exact Pws]. }
      rewrite L in Hlast. discriminate Hlast.
    + change (x :: w ++ [32%N]) with ((x :: w) ++ [32%N]).
      apply Forall_app. split; [|repeat constructor].
      eapply Forall_impl; [|exact Hw]. intros b Hb.
      apply negb_true_iff, N.eqb_neq, Hb.
    + apply space_not_bracket, Pws.
    + reflexivity.
    + reflexivity.
Qed.

(** At the end of the message the code is read. *)
Lemma coded_there q cs z :
  lookup 6 cs = None ->
  rsem mypy_tail (MState q ending ((5, msg) :: cs)) z ->
  group_text 5 z = msg /\ or_str (group 6 z) [] = code.
Proof.
  intros _ Hs. apply tail_cases in Hs; [|apply coded_one_line].
  destruct Hs as (_ & [[R0 _] | (ws & c6 & Pws & P6 & ER & G6 & Fr)]).
  - cbn [rest] in R0. discriminate R0.
  - cbn [rest] in ER. symmetry in ER.
    apply (@one_of is_space) in ER; [|exact Pws|reflexivity].
    destruct ER as [_ ER]. injection ER as ER.
    apply app_inv_tail in ER. subst c6.
    split.
    + unfold group_text, group. rewrite (Fr 5) by discriminate.
      reflexivity.
    + unfold group_text in G6. destruct Hcode as [N _].
      destruct (group 6 z) as [[|a t]|]; cbn [or_str];
        [congruence|exact G6|congruence].
Qed.

Lemma mypy_line_parsed :
  map PythonRunner.mypy_diagnostic
    (filter (fun m => negb (JsString.eqb (group_text 4 m) (str "note")))
       (exec_all PythonRunner.mypy_regex
          (mypy_line stem l c sev msg code)))
  = if JsString.eqb sev (str "note") then []
    else [ {| PythonRunner.file := stem ++ str ".py";
              PythonRunner.line := of_Z (digits_value l);
              PythonRunner.column := of_Z (digits_value c);
              PythonRunner.severity := sev;
              PythonRunner.message := msg;
              PythonRunner.code := code |} ].
Proof.
  unfold mypy_line.
  apply (@mypy_text_parsed stem l c sev msg ending code
           Hstem Hstem' Hl Hc Hsev Hmsg Hmsg'
           coded_one_line coded_no_colon coded_eats
           coded_early coded_there).
Qed.

End Coded.

(** ** A line without a code *)

Section Plain.
Variables stem l c sev msg : jsstr.
Hypothesis Hstem : one_line stem.
Hypothesis Hstem' : without 58%N stem.
Hypothesis Hl : digits l.
Hypothesis Hc : digits c.
Hypothesis Hsev :
  sev = str "error" \/ sev = str "warning" \/ sev = str "note".
Hypothesis Hmsg : one_line msg.
Hypothesis Hmsg' : without 58%N msg.
Hypothesis Hmsg'' : without 91%N msg.

Lemma plain_eats : eats_to_end mypy_tail [].
Proof.
  change (@nil cu) with (@nil cu ++ []).
  unfold mypy_tail, ROpt. cbn [rcat].
  apply eats_then; [|apply eats_end].
  apply eats_alt_r, eats_empty.
Qed.

(** Before the end of the message the line cannot end, and no code
    begins: the message has no bracket. *)
Lemma plain_early a x w s z :
  msg = a ++ x :: w -> a <> [] -> rest s = x :: w ++ [] ->
  ~ rsem mypy_tail s z.
Proof.
  intros Em Na Rs Hs. rewrite app_nil_r in Rs.
  assert (F1 : Forall (fun x => is_line_terminator x = false) (x :: w)).
  { destruct Hmsg as [_ F]. rewrite Em in F. apply Forall_app in F.
    apply F. }
  assert (Hw : without 91%N (x :: w)).
  { pose proof Hmsg'' as Hb. rewrite Em in Hb.
    apply Forall_app in Hb. apply Hb. }
  apply tail_cases in Hs; [|rewrite Rs; exact F1].
  destruct Hs as (_ & [[R0 _] | (ws & c6 & Pws & P6 & ER & _)]).
  - rewrite Rs in R0. discriminate R0.
  - rewrite Rs in ER. rewrite ER in Hw.
    apply Forall_app in Hw. destruct Hw as [_ Hw].
    inversion Hw as [|? ? Hx _]. apply Hx. reflexivity.
Qed.

(** At the end of the message the line ends, and no code is read. *)
Lemma plain_there q cs z :
  lookup 6 cs = None ->
  rsem mypy_tail (MState q [] ((5, msg) :: cs)) z ->
  group_text 5 z = msg /\ or_str (group 6 z) [] = [].
Proof.
  intros C6 Hs. apply tail_cases in Hs; [|constructor].
  destruct Hs as (_ & [[_ ->] | (ws & c6 & Pws & P6 & ER & _)]).
  - unfold group_text, group. cbn [caps lookup Nat.eqb].
    rewrite C6. split; reflexivity.
  - cbn [rest] in ER. symmetry in ER. apply app_eq_nil in ER.
    destruct ER as [_ ER]. discriminate ER.
Qed.

Lemma mypy_plain_line_parsed :
  map PythonRunner.mypy_diagnostic
    (filter (fun m => negb (JsString.eqb (group_text 4 m) (str "note")))
       (exec_all PythonRunner.mypy_regex
          (mypy_plain_line stem l c sev msg)))
  = if JsString.eqb sev (str "note") then []
    else [ {| PythonRunner.file := stem ++ str ".py";
              PythonRunner.line := of_Z (digits_value l);
              PythonRunner.column := of_Z (digits_value c);
              PythonRunner.severity := sev;
              PythonRunner.message := msg;
              PythonRunner.code := [] |} ].
Proof.
  unfold mypy_plain_line.
  apply (@mypy_text_parsed stem l c sev msg [] []
           Hstem Hstem' Hl Hc Hsev Hmsg Hmsg'
           (Forall_nil _) (Forall_nil _) plain_eats
           plain_early plain_there).
Qed.

End Plain.

End MypyComplete.

(** X21: a line of [mypy] output that is a file name ending in [.py], a
    line, a column, a severity, a message and an error code in square
    brackets after one space, where the file name, the message and the
    code hold no colon, the message holds no opening bracket and does
    not end in white space, and the code holds no closing bracket, is
    parsed by [parseMypyOutput] as follows: a [note] gives no
    diagnostic, an [error] or a [warning] gives exactly one diagnostic
    that holds these fields, the line and the column as the Numbers for
    the integers the digits write (rounded to the format when they are
    long), the message without the code and the code without its
    brackets. *)
Theorem a_mypy_line_with_a_code_is_parsed_to_its_fields :
  forall (stem l c sev msg code : jsstr),
    Shapes.one_line stem -> Forms.without 58%N stem ->
    Shapes.digits l -> Shapes.digits c ->
    sev = str "error" \/ sev = str "warning" \/ sev = str "note" ->
    Shapes.one_line msg -> Forms.without 58%N msg ->
    Forms.without 91%N msg -> is_space (last msg 32%N) = false ->
    Shapes.one_line code -> Forms.without 58%N code ->
    Forms.without 93%N code ->
    PythonRunner.diagnostics
      (PythonRunner.parseMypyOutput (Forms.mypy_line stem l c sev msg code))
    = if JsString.eqb sev (str "note") then []
      else [ {| PythonRunner.file := stem ++ str ".py";
                PythonRunner.line := of_Z (digits_value l);
                PythonRunner.column := of_Z (digits_value c);
                PythonRunner.severity := sev;
                PythonRunner.message := msg;
                PythonRunner.code := code |} ].
Proof.
  intros stem l c sev msg code H1 H2 H3 H4 H5 H6 H7 H8 H9 H10 H11 H12.
  unfold PythonRunner.parseMypyOutput.
  cbn [PythonRunner.diagnostics].
  apply (@MypyComplete.mypy_line_parsed stem l c sev msg code
           H1 H2 H3 H4 H5 H6 H7 H8 H9 H10 H11 H12).
Qed.

Lemma a_mypy_line_with_a_code_is_parsed_to_its_fields_witness :
  PythonRunner.diagnostics
    (PythonRunner.parseMypyOutput
       (str "app/main.py:12:5: error: Incompatible return value type [return-value]"))
  = [ {| PythonRunner.file := str "app/main.py";
         PythonRunner.line := of_Z 12;
         PythonRunner.column := of_Z 5;
         PythonRunner.severity := str "error";
         PythonRunner.message := str "Incompatible return value type";
         PythonRunner.code := str "return-value" |} ].
Proof.
  assert (A1 : Shapes.one_line (str "app/main"))
    by (split; [discriminate|repeat constructor]).
  assert (A2 : Forms.without 58%N (str "app/main"))
    by (repeat constructor; discriminate).
  assert (A3 : Shapes.digits (str "12"))
    by (split; [discriminate|repeat constructor]).
  assert (A4 : Shapes.digits (str "5"))
    by (split; [discriminate|repeat constructor]).
  assert (A5 : str "error" = str "error" \/ str "error" = str "warning"
               \/ str "error" = str "note")
    by (left; reflexivity).
  assert (A6 : Shapes.one_line (str "Incompatible return value type"))
    by (split; [discriminate|repeat constructor]).
  assert (A7 : Forms.without 58%N (str "Incompatible return value type"))
    by (repeat constructor; discriminate).
  assert (A8 : Forms.without 91%N (str "Incompatible return value type"))
    by (repeat constructor; discriminate).
  assert (A9 : is_space (last (str "Incompatible return value type") 32%N)
               = false)
    by reflexivity.
  assert (A10 : Shapes.one_line (str "return-value"))
    by (split; [discriminate|repeat constructor]).
  assert (A11 : Forms.without 58%N (str "return-value"))
    by (repeat constructor; discriminate).
  assert (A12 : Forms.without 93%N (str "return-value"))
    by (repeat constructor; discriminate).
  exact (@a_mypy_line_with_a_code_is_parsed_to_its_fields
           _ _ _ _ _ _ A1 A2 A3 A4 A5 A6 A7 A8 A9 A10 A11 A12).
Defined.

(** X22: a line of [mypy] output that is a file name ending in [.py], a
    line, a column, a severity and a message, with no error code, where
    neither the file name nor the message holds a colon and the message
    holds no opening bracket, is parsed by [parseMypyOutput] as follows:
    a [note] gives no diagnostic, an [error] or a [warning] gives
    exactly one diagnostic that holds these fields, the line and the
    column as the Numbers for the integers the digits write (rounded to
    the format when they are long), and the empty string as its code. *)
Theorem a_mypy_line_without_a_code_is_parsed_to_its_fields :
  forall (stem l c sev msg : jsstr),
    Shapes.one_line stem -> Forms.without 58%N stem ->
    Shapes.digits l -> Shapes.digits c ->
    sev = str "error" \/ sev = str "warning" \/ sev = str "note" ->
    Shapes.one_line msg -> Forms.without 58%N msg ->
    Forms.without 91%N msg ->
    PythonRunner.diagnostics
      (PythonRunner.parseMypyOutput (Forms.mypy_plain_line stem l c sev msg))
    = if JsString.eqb sev (str "note") then []
      else [ {| PythonRunner.file := stem ++ str ".py";
                PythonRunner.line := of_Z (digits_value l);
                PythonRunner.column := of_Z (digits_value c);
                PythonRunner.severity := sev;
                PythonRunner.message := msg;
                PythonRunner.code := [] |} ].
Proof.
  intros stem l c sev msg H1 H2 H3 H4 H5 H6 H7 H8.
  unfold PythonRunner.parseMypyOutput.
  cbn [PythonRunner.diagnostics].
  apply (@MypyComplete.mypy_plain_line_parsed stem l c sev msg
           H1 H2 H3 H4 H5 H6 H7 H8).
Qed.

Lemma a_mypy_line_without_a_code_is_parsed_to_its_fields_witness :
  PythonRunner.diagnostics
    (PythonRunner.parseMypyOutput
       (str "lib/util.py:3:1: warning: Unused import os"))
  = [ {| PythonRunner.file := str "lib/util.py";
         PythonRunner.line := of_Z 3;
         PythonRunner.column := of_Z 1;
         PythonRunner.severity := str "warning";
         PythonRunner.message := str "Unused import os";
         PythonRunner.code := [] |} ]
  /\ PythonRunner.diagnostics
       (PythonRunner.parseMypyOutput
          (str "lib/util.py:3:1: note: See the documentation"))
     = [].
Proof.
  assert (A1 : Shapes.one_line (str "lib/util"))
    by (split; [discriminate|repeat constructor]).
  assert (A2 : Forms.without 58%N (str "lib/util"))
    by (repeat constructor; discriminate).
  assert (A3 : Shapes.digits (str "3"))
    by (split; [discriminate|repeat constructor]).
  assert (A4 : Shapes.digits (str "1"))
    by (split; [discriminate|repeat constructor]).
  assert (A5 : str "warning" = str "error" \/ str "warning" = str "warning"
               \/ str "warning" = str "note")
    by (right; left; reflexivity).
  assert (A6 : Shapes.one_line (str "Unused import os"))
    by (split; [discriminate|repeat constructor]).
  assert (A7 : Forms.without 58%N (str "Unused import os"))
    by (repeat constructor; discriminate).
  assert (A8 : Forms.without 91%N (str "Unused import os"))
    by (repeat constructor; discriminate).
  assert (B5 : str "note" = str "error" \/ str "note" = str "warning"
               \/ str "note" = str "note")
    by (right; right; reflexivity).
  assert (B6 : Shapes.one_line (str "See the documentation"))
    by (split; [discriminate|repeat constructor]).
  assert (B7 : Forms.without 58%N (str "See the documentation"))
    by (repeat constructor; discriminate).
  assert (B8 : Forms.without 91%N (str "See the documentation"))
    by (repeat constructor; discriminate).
  split.
  - exact (@a_mypy_line_without_a_code_is_parsed_to_its_fields
             _ _ _ _ _ A1 A2 A3 A4 A5 A6 A7 A8).
  - exact (@a_mypy_line_without_a_code_is_parsed_to_its_fields
             _ _ _ _ _ A1 A2 A3 A4 B5 B6 B7 B8).
Defined.
